(** * Chart-of-accounts engine: a shallow embedding of
    [src/modules/account/utils.py] and the properties of its tree service.

    The SQLAlchemy session is modelled by explicit state passing over a
    [Store] (the committed rows of the tables the module reads and
    writes).  Python exceptions are values of [exn]; a [while] loop or a
    recursion over rows that does not end is the outcome [Diverge].

    Strings are byte strings: [str.lower], [str.strip] and [int] are the
    ASCII fragments of the Python functions, and SQL string comparison
    and ordering are byte-wise (a binary collation).  Beyond ASCII,
    [str.lower] follows the Unicode case mappings, [str.strip] removes
    the Unicode white space, and the [lower()] of the database depends
    on the database and its locale: the functions that trim or
    lower-case a string are therefore given a second time, in
    [Platform], over any three such functions, and the properties of
    renaming, of the check of names and of the cost-centre default are
    stated there.  What is stated with [lower] and [strip] themselves
    is about names and requests in ASCII.  The recursion limit of the
    interpreter is not modelled. *)

From Stdlib Require Import ZArith List Bool Lia Ascii String Permutation.
From Stdlib Require Import Numbers.DecimalString.
From Stdlib Require Structures.OrderedTypeEx.
Import ListNotations.

Set Warnings "-register-all".

#[local] Open Scope string_scope.
#[local] Open Scope Z_scope.

(** ** Python string primitives *)

Module PyStr.

(** [c.isspace()] on the ASCII range: tab, newline, vertical tab, form
    feed, carriage return, the four separators 28..31 and the space. *)
Definition is_space (c : ascii) : bool :=
  let n := N_of_ascii c in
  ((9 <=? n)%N && (n <=? 13)%N) || ((28 <=? n)%N && (n <=? 32)%N).

Definition is_digit (c : ascii) : bool :=
  let n := N_of_ascii c in (48 <=? n)%N && (n <=? 57)%N.

Definition lower_char (c : ascii) : ascii :=
  match c with
  | "A" => "a"
  | "B" => "b"
  | "C" => "c"
  | "D" => "d"
  | "E" => "e"
  | "F" => "f"
  | "G" => "g"
  | "H" => "h"
  | "I" => "i"
  | "J" => "j"
  | "K" => "k"
  | "L" => "l"
  | "M" => "m"
  | "N" => "n"
  | "O" => "o"
  | "P" => "p"
  | "Q" => "q"
  | "R" => "r"
  | "S" => "s"
  | "T" => "t"
  | "U" => "u"
  | "V" => "v"
  | "W" => "w"
  | "X" => "x"
  | "Y" => "y"
  | "Z" => "z"
  | _ => c
  end%char.

(** [s.lower()] on ASCII: the letters A to Z are mapped, every other
    byte is kept.  Python maps by the Unicode tables: the Kelvin sign
    U+212A becomes k, a capital letter with an accent its small letter. *)
Fixpoint lower (s : string) : string :=
  match s with
  | EmptyString => EmptyString
  | String c r => String (lower_char c) (lower r)
  end.

(** [s.lstrip()] *)
Fixpoint lstrip (s : string) : string :=
  match s with
  | EmptyString => EmptyString
  | String c r => if is_space c then lstrip r else s
  end.

(** [s.rstrip()] *)
Fixpoint rstrip (s : string) : string :=
  match s with
  | EmptyString => EmptyString
  | String c r =>
      match rstrip r with
      | EmptyString => if is_space c then EmptyString else String c EmptyString
      | r' => String c r'
      end
  end.

(** [s.strip()] on ASCII: the white space of [is_space] is removed.
    Python also removes the white space beyond ASCII, such as the
    no-break space U+00A0. *)
Definition strip (s : string) : string := lstrip (rstrip s).

(** [sub in s] *)
Fixpoint contains (sub s : string) : bool :=
  prefix sub s ||
  match s with
  | EmptyString => false
  | String _ r => contains sub r
  end.

(** [s[n:]] for [0 <= n] *)
Fixpoint drop (n : nat) (s : string) : string :=
  match n, s with
  | O, _ => s
  | S _, EmptyString => EmptyString
  | S m, String _ r => drop m r
  end.

(** [s[-n:]]: the last [n] characters, the whole string when it is shorter *)
Definition last_n (n : nat) (s : string) : string :=
  drop (String.length s - n) s.

(** [s.endswith(suf)] *)
Definition endswith (s suf : string) : bool :=
  (String.length suf <=? String.length s)%nat &&
  (last_n (String.length suf) s =? suf)%string.

(** [s[0]] of a non-empty string, as a one-character string *)
Definition first_char (s : string) : string :=
  match s with
  | EmptyString => EmptyString
  | String c _ => String c EmptyString
  end.

Definition digit_val (c : ascii) : Z := Z.of_N (N_of_ascii c) - 48.

(** The digits of an integer literal: decimal digits, with single
    underscores allowed between two digits. *)
Fixpoint parse_digits (acc : Z) (after_digit : bool) (s : string) : option Z :=
  match s with
  | EmptyString => if after_digit then Some acc else None
  | String c r =>
      if is_digit c then parse_digits (10 * acc + digit_val c) true r
      else if (c =? "_")%char then
        (if after_digit then parse_digits acc false r else None)
      else None
  end.

(** [int(s)]; [None] stands for [ValueError]. *)
Definition py_int (s : string) : option Z :=
  match strip s with
  | String "+" r => parse_digits 0 false r
  | String "-" r => option_map Z.opp (parse_digits 0 false r)
  | t => parse_digits 0 false t
  end.

(** [str(n)] *)
Definition py_str (n : Z) : string := NilZero.string_of_int (Z.to_int n).

Fixpoint zeros (n : nat) : string :=
  match n with
  | O => EmptyString
  | S m => String "0" (zeros m)
  end.

(** [s.zfill(width)]: pads on the left, after a leading sign. *)
Definition zfill (width : nat) (s : string) : string :=
  let pad := zeros (width - String.length s) in
  match s with
  | String "+" r => String "+" (pad ++ r)
  | String "-" r => String "-" (pad ++ r)
  | _ => pad ++ s
  end.

(** Python truthiness of [None] or a string *)
Definition truthy (o : option string) : bool :=
  match o with
  | Some (String _ _) => true
  | _ => false
  end.

End PyStr.
Import PyStr.

(** ** Data model *)

(** Modelled from the spec: the [Account] table of
    [modules/models/models.py], which is not part of the sources at hand
    (spec, section 3).  [id] is the surrogate key, [parent_id] is [None]
    for a root; [nature] and [account_type] are nullable columns. *)
Module Account.
Record t : Type := mk {
  id : Z;
  name : string;
  code : string;
  parent_id : option Z;
  nature : option string;
  account_type : option string;
  cc_required : bool
}.

Definition set_name (a : t) (v : string) : t :=
  mk (id a) v (code a) (parent_id a) (nature a) (account_type a) (cc_required a).
Definition set_account_type (a : t) (v : option string) : t :=
  mk (id a) (name a) (code a) (parent_id a) (nature a) v (cc_required a).
Definition set_cc_required (a : t) (v : bool) : t :=
  mk (id a) (name a) (code a) (parent_id a) (nature a) (account_type a) v.
End Account.

(** Modelled from the spec: the [DailyEntries] table (the journal), which
    is not part of the sources at hand.  An entry names its accounts by
    name; either side may be absent; amounts are exact numbers. *)
Module DailyEntries.
Record t : Type := mk {
  debit : option string;
  credit : option string;
  debit_amount : Z;
  credit_amount : Z
}.
End DailyEntries.

(** The committed database.  The three transaction tables are kept as
    their [account_id] columns, the only column the module reads.
    [next_id] is the next value of the [Account] key sequence. *)
Record Store : Type := mkStore {
  accounts : list Account.t;
  next_id : Z;
  daily_entries : list DailyEntries.t;
  SalesTransaction : list Z;
  PurchaseTransaction : list Z;
  ExpenseTransaction : list Z
}.

Definition with_accounts (s : Store) (l : list Account.t) (n : Z) : Store :=
  mkStore l n (daily_entries s) (SalesTransaction s) (PurchaseTransaction s)
          (ExpenseTransaction s).

Definition empty_store : Store := mkStore [] 1 [] [] [] [].

(** ** Exceptions and outcomes *)

(** What Python itself raises inside the service. *)
Inductive py_error : Type :=
| AttributeError   (* [None.parent_id] *)
| ValueError (literal : string).   (* [int] on a string that is no integer literal *)

(** The reasons of a [BadRequest], one per [raise] of the module. *)
Inductive bad_request : Type :=
| CannotCreateRoot
| NatureInvalid
| AccountTypeInvalid
| AssetsNature | AssetsAccountType
| LiabilityNature | LiabilityAccountType
| ExpensesAccountType
| RevenueAccountType
| DatabaseError (e : py_error)
| UpdateFieldsNotDict
| NameNotString
| NameEmpty
| RenameHasTransactions (account_name : string)
| CCNotBool
| CannotDisableCC (account_name : string)
| AccountTypeNotString
| BalanceSheetUnder (root_name : string)
| PLUnder (root_name : string)
| IsParent (account_id : Z)
| UsedInTransactions (account_name : string)
| ReferencedBySales (account_id : Z) (count : nat)
| ReferencedByPurchase (account_id : Z) (count : nat)
| ReferencedByExpense (account_id : Z) (count : nat).

Inductive exn : Type :=
| BadRequest (r : bad_request)
| AccountExistsException (name : string)
| ParentNotFoundException (parent_id : Z)
| AccountNotFoundException (account_id : Z)
| ParentNameNotFoundException (parent_name : string)
| PyError (e : py_error).

Inductive result (A : Type) : Type :=
| Ok (a : A)
| Raise (e : exn)
| Diverge.
Arguments Ok {A} a.
Arguments Raise {A} e.
Arguments Diverge {A}.

Definition bind {A B : Type} (m : result A) (k : A -> result B) : result B :=
  match m with
  | Ok a => k a
  | Raise e => Raise e
  | Diverge => Diverge
  end.

Notation "x <- m ;; k" := (bind m (fun x => k))
  (at level 61, m at next level, right associativity).
Notation "' p <- m ;; k" := (bind m (fun x => let p := x in k))
  (at level 61, p pattern, m at next level, right associativity).

(** [if cond: raise e] *)
Definition raise_if (cond : bool) (e : exn) : result unit :=
  if cond then Raise e else Ok tt.

(** The text of the messages. *)
Definition nat_str (n : nat) : string := py_str (Z.of_nat n).

Definition bad_request_message (r : bad_request) : string :=
  match r with
  | CannotCreateRoot =>
      "Cannot create new root accounts. Only use the 4 standard root accounts."
  | NatureInvalid => "Nature should be debit, credit or both"
  | AccountTypeInvalid => "Account type must be 'balance_sheet' or 'p&l'"
  | AssetsNature => "Accounts under Assets must have 'debit' nature"
  | AssetsAccountType => "Accounts under Assets must have 'balance_sheet' account type"
  | LiabilityNature => "Accounts under Liability & Equity must have 'credit' nature"
  | LiabilityAccountType =>
      "Accounts under Liability & Equity must have 'balance_sheet' account type"
  | ExpensesAccountType => "Accounts under Expenses must have 'p&l' account type"
  | RevenueAccountType => "Accounts under Revenue must have 'p&l' account type"
  | DatabaseError AttributeError =>
      "Database error: 'NoneType' object has no attribute 'parent_id'"
  | DatabaseError (ValueError l) =>
      "Database error: invalid literal for int() with base 10: '" ++ l ++ "'"
  | UpdateFieldsNotDict => "Update fields must be provided as a dictionary"
  | NameNotString => "Account name must be a string"
  | NameEmpty => "Account name cannot be empty"
  | RenameHasTransactions n =>
      "Account with name [" ++ n ++ "] has existing transactions and cannot modify its name"
  | CCNotBool => "Cost center requirement must be a boolean value (True or False)"
  | CannotDisableCC n =>
      "Cannot disable cost center requirement for account '" ++ n ++
      "' because it is used for purchase, expense, COGS or rebates"
  | AccountTypeNotString => "Account type must be a string"
  | BalanceSheetUnder r =>
      "Cannot set account type to 'balance_sheet' for accounts under '" ++ r ++
      "'. Only accounts under 'Assets' or 'Liability & Equity' can be balance sheet accounts."
  | PLUnder r =>
      "Cannot set account type to 'p&l' for accounts under '" ++ r ++
      "'. Only accounts under 'Revenue' or 'Expenses' can be P&L accounts."
  | IsParent i =>
      "Account with id [" ++ py_str i ++ "] is a parent account and cannot be deleted"
  | UsedInTransactions n =>
      "Account with name [" ++ n ++ "] has been used in transactions so cannot be deleted"
  | ReferencedBySales i c =>
      "Account with id [" ++ py_str i ++ "] is referenced by " ++ nat_str c ++
      " sales transactions and cannot be deleted"
  | ReferencedByPurchase i c =>
      "Account with id [" ++ py_str i ++ "] is referenced by " ++ nat_str c ++
      " purchase transactions and cannot be deleted"
  | ReferencedByExpense i c =>
      "Account with id [" ++ py_str i ++ "] is referenced by " ++ nat_str c ++
      " expense transactions and cannot be deleted"
  end.

(** ** Queries *)

Definition opt_Z_eqb (a b : option Z) : bool :=
  match a, b with
  | None, None => true
  | Some x, Some y => x =? y
  | _, _ => false
  end.

Definition opt_string_eqb (a b : option string) : bool :=
  match a, b with
  | None, None => true
  | Some x, Some y => (x =? y)%string
  | _, _ => false
  end.

(** SQL [column = value] on a nullable text column *)
Definition column_is (col : option string) (v : string) : bool :=
  match col with
  | Some x => (x =? v)%string
  | None => false
  end.

(** [session.query(Account).filter_by(id=i).first()] and
    [session.query(Account).get(i)] *)
Definition get_by_id (s : Store) (i : Z) : option Account.t :=
  find (fun a => Account.id a =? i) (accounts s).

(** [session.query(Account).filter_by(parent_id=p)] *)
Definition with_parent (s : Store) (p : option Z) : list Account.t :=
  filter (fun a => opt_Z_eqb (Account.parent_id a) p) (accounts s).

(** [.order_by(Account.code.desc()).first()]: the first row of largest code *)
Fixpoint first_by_code_desc (l : list Account.t) : option Account.t :=
  match l with
  | [] => None
  | a :: r =>
      match first_by_code_desc r with
      | Some b => if String.ltb (Account.code a) (Account.code b) then Some b else Some a
      | None => Some a
      end
  end.

(** [.order_by(Account.code).all()]: a stable sort by code *)
Fixpoint insert_by_code (a : Account.t) (l : list Account.t) : list Account.t :=
  match l with
  | [] => [a]
  | b :: r =>
      if String.ltb (Account.code b) (Account.code a) || (Account.code b =? Account.code a)%string
      then b :: insert_by_code a r
      else a :: l
  end.

Definition order_by_code (l : list Account.t) : list Account.t :=
  fold_left (fun acc a => insert_by_code a acc) l [].

(** The journal rows naming [n] on either side *)
Definition entries_of (s : Store) (n : string) : list DailyEntries.t :=
  filter (fun e => column_is (DailyEntries.debit e) n || column_is (DailyEntries.credit e) n)
         (daily_entries s).

(** [session.query(T).filter_by(account_id=i).count()] *)
Definition count_refs (table : list Z) (i : Z) : nat :=
  List.length (filter (fun x => x =? i) table).

Definition sum_Z (l : list Z) : Z := fold_left Z.add l 0.

(** [session.add(a)] with the key taken from the sequence *)
Definition add (s : Store) (mk_row : Z -> Account.t) : Store :=
  with_accounts s (accounts s ++ [mk_row (next_id s)]) (next_id s + 1).

(** A changed row written back by its key *)
Definition write (s : Store) (a : Account.t) : Store :=
  with_accounts s
    (map (fun b => if Account.id b =? Account.id a then a else b) (accounts s))
    (next_id s).

(** [session.delete(a)] *)
Definition remove (s : Store) (a : Account.t) : Store :=
  with_accounts s
    (filter (fun b => negb (Account.id b =? Account.id a)) (accounts s))
    (next_id s).

(** ** The service, function by function *)

(** [int(s)] inside the service *)
Definition int (s : string) : result Z :=
  match py_int s with
  | Some n => Ok n
  | None => Raise (PyError (ValueError s))
  end.

Definition generate_code (s : Store) (parent : option Account.t) : result string :=
  match parent with
  | None =>
      (* Root accounts get codes like 1000, 2000, etc. *)
      match first_by_code_desc (with_parent s None) with
      | Some last_sibling =>
          n <- int (Account.code last_sibling) ;;
          let root_num := n / 1000 + 1 in
          Ok (py_str (root_num * 1000))
      | None => Ok "1000"
      end
  | Some parent =>
      let parent_code := Account.code parent in
      match first_by_code_desc (with_parent s (Some (Account.id parent))) with
      | Some last_sibling =>
          if (String.length parent_code =? 4)%nat && endswith parent_code "000" then
            let base := first_char parent_code in
            last_suffix <- int (last_n 3 (Account.code last_sibling)) ;;
            let new_suffix := zfill 3 (py_str (last_suffix + 1)) in
            Ok (base ++ new_suffix)
          else if (String.length parent_code =? 4)%nat then
            last_suffix <- int (last_n 3 (Account.code last_sibling)) ;;
            let new_suffix := zfill 3 (py_str (last_suffix + 1)) in
            Ok (parent_code ++ new_suffix)
          else
            last_suffix <- int (last_n 3 (Account.code last_sibling)) ;;
            let new_suffix := zfill 3 (py_str (last_suffix + 1)) in
            Ok (parent_code ++ new_suffix)
      | None =>
          if (String.length parent_code =? 4)%nat && endswith parent_code "000" then
            let base := first_char parent_code in
            Ok (base ++ "001")
          else
            Ok (parent_code ++ "001")
      end
  end.

(** The table of [validate_root_accounts]: name, nature, account type,
    cost-centre flag, in the order of the dictionary. *)
Record root_props : Type := mkProps {
  props_nature : string;
  props_account_type : string;
  props_cc_required : bool
}.

Definition root_accounts : list (string * root_props) :=
  [ ("Assets", mkProps "debit" "balance_sheet" false);
    ("Liability & Equity", mkProps "credit" "balance_sheet" false);
    ("Expenses", mkProps "debit" "p&l" false);
    ("Revenue", mkProps "credit" "p&l" false) ].

(** The row [validate_root_accounts] looks for: a parentless account of
    that exact name. *)
Definition find_root (s : Store) (name : string) : option Account.t :=
  find (fun a => (Account.name a =? name)%string &&
                 opt_Z_eqb (Account.parent_id a) None) (accounts s).

(** One turn of the loop of [validate_root_accounts]. *)
Definition validate_root (s : Store) (entry : string * root_props) : result Store :=
  let (name, props) := entry in
  match find_root s name with
  | None =>
      code <- generate_code s None ;;
      Ok (add s (fun i =>
            Account.mk i name code None (Some (props_nature props))
                       (Some (props_account_type props)) (props_cc_required props)))
  | Some account =>
      let account :=
        if negb (opt_string_eqb (Account.account_type account)
                                (Some (props_account_type props)))
        then Account.set_account_type account (Some (props_account_type props))
        else account in
      let account :=
        if negb (Bool.eqb (Account.cc_required account) (props_cc_required props))
        then Account.set_cc_required account (props_cc_required props)
        else account in
      Ok (write s account)
  end.

(** [validate_root_accounts]: the store it commits, or the exception
    that leaves the transaction uncommitted. *)
Definition validate_root_accounts (s : Store) : result Store :=
  fold_left (fun acc entry => s' <- acc ;; validate_root s' entry)
            root_accounts (Ok s).

(** [get_root_account], the loop bounded by [fuel] turns. *)
Fixpoint get_root_account_loop (fuel : nat) (s : Store) (current : option Account.t)
  : result Account.t :=
  match current with
  | None => Raise (PyError AttributeError)
  | Some c =>
      match Account.parent_id c with
      | None => Ok c
      | Some p =>
          match fuel with
          | O => Diverge
          | S fuel' => get_root_account_loop fuel' s (get_by_id s p)
          end
      end
  end.

(** A walk that visits more rows than the table holds never ends. *)
Definition get_root_account (s : Store) (account : option Account.t) : result Account.t :=
  get_root_account_loop (S (List.length (accounts s))) s account.

(** The request body of a creation, at the types the handler lets
    through: [nature] is [None] when the key is absent. *)
Record Body : Type := mkBody {
  body_name : string;
  body_parent_id : option Z;
  body_nature : option string;
  body_cc_required : bool;
  body_account_type : option string
}.

Definition in_list (x : string) (l : list string) : bool :=
  existsb (fun y => (x =? y)%string) l.

Definition extract_body (body : Body)
  : result (string * option Z * option string * bool * option string) :=
  let parent_id := body_parent_id body in
  let cc_required := body_cc_required body in
  let account_type := body_account_type body in
  let nature := option_map (fun n => lower (strip n)) (body_nature body) in
  _ <- raise_if (truthy nature &&
                 negb (match nature with
                       | Some n => in_list n ["debit"; "credit"; "both"]
                       | None => false
                       end))
                (BadRequest NatureInvalid) ;;
  _ <- raise_if (truthy account_type &&
                 negb (match account_type with
                       | Some t => in_list t ["balance_sheet"; "p&l"]
                       | None => false
                       end))
                (BadRequest AccountTypeInvalid) ;;
  Ok (strip (body_name body), parent_id, nature, cc_required, account_type).

(** [check_if_account_exist].  The code compares
    [func.lower(Account.name)], computed by the database, with
    [name.lower()], computed by Python; on ASCII names both are [lower].
    [Platform.check_if_account_exist] keeps the two apart. *)
Definition check_if_account_exist (s : Store) (name : string) : result unit :=
  let lowered := lower name in
  match find (fun a => (lower (Account.name a) =? lowered)%string) (accounts s) with
  | Some _ => Raise (AccountExistsException name)
  | None => Ok tt
  end.

Definition get_parent_account_with_id (s : Store) (parent_id : option Z)
  : result (option Account.t) :=
  match parent_id with
  | Some i =>
      if i =? 0 then Ok None
      else match get_by_id s i with
           | Some parent => Ok (Some parent)
           | None => Raise (ParentNotFoundException i)
           end
  | None => Ok None
  end.

Definition fill_new_account_info (s : Store) (name : string) (nature : option string)
    (parent : option Account.t) (cc_required : bool) (account_type : option string)
  : result (Z -> Account.t) :=
  (* Infer account_type if not provided but determined by the root *)
  account_type <-
    match account_type, parent with
    | None, Some _ =>
        root_account <- get_root_account s parent ;;
        if in_list (Account.name root_account) ["Assets"; "Liability & Equity"]
        then Ok (Some "balance_sheet")
        else if in_list (Account.name root_account) ["Revenue"; "Expenses"]
        then Ok (Some "p&l")
        else Ok None
    | _, _ => Ok account_type
    end ;;
  (* cc_required from the account name *)
  cc_required <-
    match parent, cc_required with
    | Some _, false =>
        root_account <- get_root_account s parent ;;
        let cc_required :=
          if (Account.name root_account =? "Expenses")%string then
            if negb (contains "depreciation" (lower name)) &&
               negb (contains "bank charges" (lower name))
            then true else false
          else false in
        let cc_required :=
          if contains "cost of goods sold" (lower name) || contains "rebate" (lower name)
          then true else cc_required in
        Ok cc_required
    | _, _ => Ok cc_required
    end ;;
  code <- generate_code s parent ;;
  Ok (fun i => Account.mk i name code (option_map Account.id parent) nature
                          account_type cc_required).

(** The nature and account-type rules of [create_account_in_account_tree]
    (its chain of [if root_account.name.lower() == ...]): a value the
    root forces, with any other explicit value rejected, or a default. *)
Definition nature_rule (nature : option string) (required : string) (e : bad_request)
  : result (option string) :=
  _ <- raise_if (truthy nature && negb (opt_string_eqb nature (Some required)))
                (BadRequest e) ;;
  Ok (Some required).

Definition nature_default (nature : option string) (default : string) : option string :=
  if negb (truthy nature) then Some default else nature.

Definition account_type_rule (account_type : option string) (required : string)
    (e : bad_request) : result (option string) :=
  _ <- raise_if (truthy account_type && negb (opt_string_eqb account_type (Some required)))
                (BadRequest e) ;;
  Ok (Some required).

Definition apply_root_rules (root_account : Account.t) (nature account_type : option string)
  : result (option string * option string) :=
  let root_name := lower (Account.name root_account) in
  if (root_name =? "assets")%string then
    nature <- nature_rule nature "debit" AssetsNature ;;
    account_type <- account_type_rule account_type "balance_sheet" AssetsAccountType ;;
    Ok (nature, account_type)
  else if (root_name =? "liability & equity")%string then
    nature <- nature_rule nature "credit" LiabilityNature ;;
    account_type <- account_type_rule account_type "balance_sheet" LiabilityAccountType ;;
    Ok (nature, account_type)
  else if (root_name =? "expenses")%string then
    let nature := nature_default nature "debit" in
    account_type <- account_type_rule account_type "p&l" ExpensesAccountType ;;
    Ok (nature, account_type)
  else if (root_name =? "revenue")%string then
    let nature := nature_default nature "credit" in
    account_type <- account_type_rule account_type "p&l" RevenueAccountType ;;
    Ok (nature, account_type)
  else Ok (nature, account_type).

(** The body of the [try] of [create_account_in_account_tree], after the
    roots are ensured. *)
Definition create_in_tree (s : Store) (body : Body) : result (Store * Account.t) :=
  '(name, parent_id, nature, cc_required, account_type) <- extract_body body ;;
  _ <- check_if_account_exist s (strip name) ;;
  (* Prevent creating additional root accounts *)
  _ <- raise_if (match parent_id with None => true | Some _ => false end)
                (BadRequest CannotCreateRoot) ;;
  parent <- get_parent_account_with_id s parent_id ;;
  root_account <- get_root_account s parent ;;
  '(nature, account_type) <- apply_root_rules root_account nature account_type ;;
  new_account <- fill_new_account_info s name nature parent cc_required account_type ;;
  Ok (add s new_account, new_account (next_id s)).

(** The two [except] clauses: the service's own exceptions pass, anything
    else becomes a [BadRequest] after a rollback. *)
Definition create_handler (e : exn) : exn :=
  match e with
  | BadRequest _ | AccountExistsException _ | ParentNotFoundException _ => e
  | PyError p => BadRequest (DatabaseError p)
  | AccountNotFoundException _ | ParentNameNotFoundException _ => e
  end.

(** [create_account_in_account_tree]: the committed store and the outcome.
    The roots are committed by [validate_root_accounts] before anything
    else is checked. *)
Definition create_account_in_account_tree (s : Store) (body : Body)
  : Store * result Account.t :=
  match validate_root_accounts s with
  | Ok s1 =>
      match create_in_tree s1 body with
      | Ok (s2, new_account) => (s2, Ok new_account)
      | Raise e => (s1, Raise (create_handler e))
      | Diverge => (s1, Diverge)
      end
  | Raise e => (s, Raise (create_handler e))
  | Diverge => (s, Diverge)
  end.

(** *** Update *)

(** A JSON value of the update dictionary. *)
Inductive json : Type :=
| JNull
| JBool (b : bool)
| JStr (s : string)
| JOther.   (* a number, a list or an object *)

(** [update_fields]: each key absent ([None]) or present with a value. *)
Record UpdateFields : Type := mkFields {
  f_name : option json;
  f_cc_required : option json;
  f_account_type : option json
}.

Inductive update_result : Type :=
| NoChanges                          (* "No changes detected" *)
| Updated (changes : list string).   (* "Account updated successfully. ..." *)

Definition update_message (r : update_result) : string :=
  match r with
  | NoChanges => "No changes detected"
  | Updated changes =>
      "Account updated successfully. Changed fields: " ++ String.concat ", " changes
  end.

Definition get_single_account (s : Store) (account_id : Z) : result Account.t :=
  match get_by_id s account_id with
  | Some account => Ok account
  | None => Raise (AccountNotFoundException account_id)
  end.

(** The state of an update under way: the session's view of the tables,
    the account object and the list [changes]. *)
Definition update_state : Type := (Store * Account.t * list string)%type.

(** Handle name update if provided *)
Definition update_name (st : update_state) (field : option json) : result update_state :=
  let '(s, account, changes) := st in
  match field with
  | None => Ok st
  | Some (JStr v) =>
      let new_name := strip v in
      _ <- raise_if (new_name =? "")%string (BadRequest NameEmpty) ;;
      if negb (lower (Account.name account) =? lower new_name)%string then
        let related_entries := List.length (entries_of s (Account.name account)) in
        _ <- raise_if (0 <? related_entries)%nat
                      (BadRequest (RenameHasTransactions (Account.name account))) ;;
        _ <- check_if_account_exist s new_name ;;
        let account := Account.set_name account new_name in
        Ok (write s account, account, (changes ++ ["name"])%list)
      else Ok st
  | Some _ => Raise (BadRequest NameNotString)
  end.

(** Handle cost_center_required update *)
Definition update_cc_required (st : update_state) (field : option json)
  : result update_state :=
  let '(s, account, changes) := st in
  match field with
  | None => Ok st
  | Some (JBool cc_required) =>
      if negb (Bool.eqb (Account.cc_required account) cc_required) then
        _ <- (if negb cc_required && Account.cc_required account then
                let is_purchase_or_expense :=
                  (0 <? count_refs (PurchaseTransaction s) (Account.id account))%nat ||
                  (0 <? count_refs (ExpenseTransaction s) (Account.id account))%nat in
                let is_cogs_or_rebate :=
                  contains "cost of goods sold" (lower (Account.name account)) ||
                  contains "rebate" (lower (Account.name account)) in
                raise_if (is_purchase_or_expense || is_cogs_or_rebate)
                         (BadRequest (CannotDisableCC (Account.name account)))
              else Ok tt) ;;
        let account := Account.set_cc_required account cc_required in
        Ok (write s account, account, (changes ++ ["cost center requirement"])%list)
      else Ok st
  | Some _ => Raise (BadRequest CCNotBool)
  end.

(** Handle account_type update *)
Definition update_account_type (st : update_state) (field : option json)
  : result update_state :=
  let '(s, account, changes) := st in
  let clear :=
    match Account.account_type account with
    | Some _ =>
        let account := Account.set_account_type account None in
        Ok (write s account, account, (changes ++ ["account type"])%list)
    | None => Ok st
    end in
  match field with
  | None => Ok st
  | Some JNull => clear
  | Some (JStr EmptyString) => clear
  | Some (JStr v) =>
      let new_account_type := strip v in
      _ <- raise_if (negb (in_list new_account_type ["balance_sheet"; "p&l"]))
                    (BadRequest AccountTypeInvalid) ;;
      if negb (opt_string_eqb (Account.account_type account) (Some new_account_type)) then
        root_account <- get_root_account s (Some account) ;;
        _ <- raise_if ((new_account_type =? "balance_sheet")%string &&
                       negb (in_list (Account.name root_account)
                                     ["Assets"; "Liability & Equity"]))
                      (BadRequest (BalanceSheetUnder (Account.name root_account))) ;;
        _ <- raise_if ((new_account_type =? "p&l")%string &&
                       negb (in_list (Account.name root_account) ["Revenue"; "Expenses"]))
                      (BadRequest (PLUnder (Account.name root_account))) ;;
        let account := Account.set_account_type account (Some new_account_type) in
        Ok (write s account, account, (changes ++ ["account type"])%list)
      else Ok st
  | Some _ => Raise (BadRequest AccountTypeNotString)
  end.

(** [update_account] on a dictionary: the committed store and the
    outcome.  Nothing is committed unless the function reaches
    [session.commit()]; the handler's [with session:] discards the rest. *)
Definition update_account (s : Store) (account_id : Z) (update_fields : UpdateFields)
  : Store * result update_result :=
  let run :=
    account <- get_single_account s account_id ;;
    st <- update_name (s, account, []) (f_name update_fields) ;;
    st <- update_cc_required st (f_cc_required update_fields) ;;
    st <- update_account_type st (f_account_type update_fields) ;;
    Ok st in
  match run with
  | Ok (s', _, []) => (s, Ok NoChanges)
  | Ok (s', _, changes) => (s', Ok (Updated changes))
  | Raise e => (s, Raise e)
  | Diverge => (s, Diverge)
  end.

(** *** Delete *)

Definition delete_account (s : Store) (account_id : Z) : Store * result Account.t :=
  let run :=
    account <- get_single_account s account_id ;;
    _ <- raise_if (0 <? List.length (with_parent s (Some (Account.id account))))%nat
                  (BadRequest (IsParent account_id)) ;;
    let related_entries := List.length (entries_of s (Account.name account)) in
    _ <- raise_if (0 <? related_entries)%nat
                  (BadRequest (UsedInTransactions (Account.name account))) ;;
    let sales_count := count_refs (SalesTransaction s) (Account.id account) in
    _ <- raise_if (0 <? sales_count)%nat
                  (BadRequest (ReferencedBySales account_id sales_count)) ;;
    let purchase_count := count_refs (PurchaseTransaction s) (Account.id account) in
    _ <- raise_if (0 <? purchase_count)%nat
                  (BadRequest (ReferencedByPurchase account_id purchase_count)) ;;
    let expense_count := count_refs (ExpenseTransaction s) (Account.id account) in
    _ <- raise_if (0 <? expense_count)%nat
                  (BadRequest (ReferencedByExpense account_id expense_count)) ;;
    Ok (remove s account, account) in
  match run with
  | Ok (s', account) => (s', Ok account)
  | Raise e => (s, Raise e)
  | Diverge => (s, Diverge)
  end.

(** *** Reads *)

(** A node of the returned tree: [account.to_dict()] with the totals
    of the subtree and the children, in this order. *)
Inductive AccountView : Type :=
| View (account : Account.t) (debit_amount credit_amount : Z)
       (children : list AccountView).

Definition own_debit (s : Store) (account : Account.t) : Z :=
  sum_Z (map DailyEntries.debit_amount
             (filter (fun entry => column_is (DailyEntries.debit entry) (Account.name account))
                     (entries_of s (Account.name account)))).

Definition own_credit (s : Store) (account : Account.t) : Z :=
  sum_Z (map DailyEntries.credit_amount
             (filter (fun entry => column_is (DailyEntries.credit entry) (Account.name account))
                     (entries_of s (Account.name account)))).

(** The loop [for x in xs] that appends the dictionary of [x] to a list
    and adds its two totals to the running totals. *)
Definition accumulate {X : Type} (visit : X -> result (AccountView * Z * Z)) (xs : list X)
  : result (list AccountView * Z * Z) :=
  fold_left
    (fun acc x =>
       '(views, total_debit, total_credit) <- acc ;;
       '(view, x_debit, x_credit) <- visit x ;;
       Ok ((views ++ [view])%list, total_debit + x_debit, total_credit + x_credit))
    xs (Ok ([], 0, 0)).

(** [compute_account_totals], the recursion bounded by [fuel] levels.
    [Diverge] stands for a descent that does not end of itself (parents
    in a cycle).  The recursion limit of the interpreter is not
    modelled: with the fuel [get_all_accounts_from_stmt] gives, this
    function returns on every chart without such a cycle, where the code
    raises [RecursionError] once the chart is deeper than the limit
    (about a thousand levels by default). *)
Fixpoint compute_account_totals (fuel : nat) (s : Store) (account : Account.t)
  : result (AccountView * Z * Z) :=
  match fuel with
  | O => Diverge
  | S fuel' =>
      let children := order_by_code (with_parent s (Some (Account.id account))) in
      '(children_list, children_total_debit, children_total_credit) <-
        accumulate (compute_account_totals fuel' s) children ;;
      let total_debit := own_debit s account + children_total_debit in
      let total_credit := own_credit s account + children_total_credit in
      Ok (View account total_debit total_credit children_list, total_debit, total_credit)
  end.

Record TreeResult : Type := mkTree {
  tree_accounts : list AccountView;
  grand_total_debit : Z;
  grand_total_credit : Z
}.

(** A descent deeper than the number of rows never ends. *)
Definition get_all_accounts_from_stmt (s : Store) (stmt : list Account.t)
  : result TreeResult :=
  '(accounts_list, total_debit, total_credit) <-
    accumulate (compute_account_totals (S (List.length (accounts s))) s) stmt ;;
  Ok (mkTree accounts_list total_debit total_credit).

Definition get_account_tree (s : Store) : result TreeResult :=
  get_all_accounts_from_stmt s (with_parent s None).

(** A node of [get_accounts_by_parent_name]: no totals. *)
Inductive AccountNode : Type :=
| Node (account : Account.t) (children : list AccountNode).

Definition collect {X Y : Type} (visit : X -> result Y) (xs : list X) : result (list Y) :=
  fold_left (fun acc x => ys <- acc ;; y <- visit x ;; Ok (ys ++ [y])%list) xs (Ok []).

Fixpoint build_account_tree (fuel : nat) (s : Store) (account : Account.t)
  : result AccountNode :=
  match fuel with
  | O => Diverge
  | S fuel' =>
      let children := with_parent s (Some (Account.id account)) in
      children <- collect (build_account_tree fuel' s) children ;;
      Ok (Node account children)
  end.

Definition get_accounts_by_parent_name (s : Store) (parent_name : string)
  : result AccountNode :=
  match find (fun a => (Account.name a =? parent_name)%string) (accounts s) with
  | Some parent => build_account_tree (S (List.length (accounts s))) s parent
  | None => Raise (ParentNameNotFoundException parent_name)
  end.

(** ** The tree service as a state machine *)

Inductive operation : Type :=
| Create (body : Body)
| Update (account_id : Z) (update_fields : UpdateFields)
| Delete (account_id : Z)
| ReadTree
| ReadByParentName (parent_name : string).

(** The store an operation leaves behind.  The two reads issue queries
    only. *)
Definition step (s : Store) (op : operation) : Store :=
  match op with
  | Create body => fst (create_account_in_account_tree s body)
  | Update account_id update_fields => fst (update_account s account_id update_fields)
  | Delete account_id => fst (delete_account s account_id)
  | ReadTree => s
  | ReadByParentName _ => s
  end.

Definition run (s : Store) (ops : list operation) : Store := fold_left step ops s.

(** The stores the service can reach from the empty database *)
Definition reachable (s : Store) : Prop := exists ops, run empty_store ops = s.

(** ** Worked examples *)

Definition bootstrapped : Store :=
  match validate_root_accounts empty_store with
  | Ok s => s
  | _ => empty_store
  end.

Definition cash_body : Body := mkBody "Cash" (Some 1) None false None.

(** A journal entry names the account on its debit or credit side. *)
Definition in_journal (s : Store) (n : string) : Prop :=
  exists e, In e (daily_entries s) /\
            (DailyEntries.debit e = Some n \/ DailyEntries.credit e = Some n).

Definition has_child (s : Store) (i : Z) : Prop :=
  exists c, In c (accounts s) /\ Account.parent_id c = Some i.

(** ** The rules as the specification words them *)

(** Case-insensitive substring test on an account name *)
Definition name_contains (name sub : string) : bool := contains sub (lower name).

(** The default of [cc_required] for a new account that did not ask for
    it: true under the root [Expenses] unless the name mentions
    depreciation or bank charges; true under any root when the name
    mentions cost of goods sold or rebate; false otherwise. *)
Definition cc_default (root_name name : string) : bool :=
  ((root_name =? "Expenses")%string &&
   negb (name_contains name "depreciation" || name_contains name "bank charges"))
  || name_contains name "cost of goods sold"
  || name_contains name "rebate".

Definition rent_body : Body := mkBody "Rent Expense" (Some 3) None false None.


(** ** Stores used as examples *)

(** The journal of the specification's scenario: 100 debited to Cash
    and 40 credited to it. *)
Definition journal_cash : list DailyEntries.t :=
  [ DailyEntries.mk (Some "Cash") None 100 0;
    DailyEntries.mk None (Some "Cash") 0 40 ].

(** The empty chart with that journal *)
Definition journal_store : Store := mkStore [] 1 journal_cash [] [] [].

(** The four roots and Cash under Assets, without and with the journal *)
Definition cash_store : Store :=
  fst (create_account_in_account_tree empty_store cash_body).

Definition posted_store : Store :=
  fst (create_account_in_account_tree journal_store cash_body).

Definition only_name (v : string) : UpdateFields := mkFields (Some (JStr v)) None None.

Definition only_account_type (v : json) : UpdateFields := mkFields None None (Some v).

(** The two errors of the checks a rename runs: the journal-usage check
    and the name-collision check. *)
Definition is_name_check_error (e : exn) : bool :=
  match e with
  | BadRequest (RenameHasTransactions _) => true
  | AccountExistsException _ => true
  | _ => false
  end.

(** A [cc_required] field that is absent or repeats the stored value *)
Definition same_cc_required (a : Account.t) (field : option json) : bool :=
  match field with
  | None => true
  | Some (JBool b) => Bool.eqb (Account.cc_required a) b
  | Some _ => false
  end.

(** An [account_type] field that is absent or repeats the stored value *)
Definition same_account_type (a : Account.t) (field : option json) : bool :=
  match field with
  | None => true
  | Some JNull | Some (JStr EmptyString) =>
      match Account.account_type a with None => true | Some _ => false end
  | Some (JStr v) =>
      in_list (strip v) ["balance_sheet"; "p&l"] &&
      opt_string_eqb (Account.account_type a) (Some (strip v))
  | Some _ => false
  end.

(** An update under way that has left the name alone *)
Definition keeps_name (a0 : Account.t) (st : update_state) : Prop :=
  let '(s, a, changes) := st in
  Account.id a = Account.id a0 /\ Account.name a = Account.name a0 /\
  get_by_id s (Account.id a0) = Some a /\ ~ In "name" changes.

Definition without_name (fields : UpdateFields) : UpdateFields :=
  mkFields None (f_cc_required fields) (f_account_type fields).

(** Cash created under Assets, the root Revenue deleted, and the root
    Assets renamed to Revenue: Cash, a balance-sheet account, is now
    rooted at an account named Revenue. *)
Definition relabelled_store : Store :=
  run empty_store [Create cash_body; Delete 4; Update 1 (only_name "Revenue")].

(** ** The root policy table of the specification (section 4.2) *)





(** The account types an update lets through under a root of that name *)
Definition type_allowed (root_name t : string) : Prop :=
  (t = "balance_sheet" /\ (root_name = "Assets" \/ root_name = "Liability & Equity"))
  \/ (t = "p&l" /\ (root_name = "Revenue" \/ root_name = "Expenses")).

(** An update under way: the key, the parent and the nature are those
    of the stored account [a0], the row is the first of its key, and the
    account type is the stored one, none, or one the root allows. *)
Definition keeps_policy (a0 : Account.t) (st : update_state) : Prop :=
  let '(s, a, changes) := st in
  Account.id a = Account.id a0 /\ Account.parent_id a = Account.parent_id a0 /\
  Account.nature a = Account.nature a0 /\
  get_by_id s (Account.id a0) = Some a /\
  (Account.account_type a = Account.account_type a0
   \/ Account.account_type a = None
   \/ exists root t, get_root_account s (Some a) = Ok root
                     /\ Account.account_type a = Some t
                     /\ type_allowed (Account.name root) t).

(** The row that replaces [b] when [a'] is written *)
Definition moved (a' b : Account.t) : Account.t :=
  if Account.id b =? Account.id a' then a' else b.

(** A row that, if it has the key of [a'], is [a], the first row of
    that key *)
Definition first_of_key (a a' b : Account.t) : Prop :=
  Account.id b = Account.id a' -> b = a.

(** An update under way that has left key, parent, nature and account
    type alone *)
Definition keeps_type (a0 : Account.t) (st : update_state) : Prop :=
  let '(s, a, changes) := st in
  Account.id a = Account.id a0 /\ Account.parent_id a = Account.parent_id a0 /\
  Account.nature a = Account.nature a0 /\
  Account.account_type a = Account.account_type a0 /\
  get_by_id s (Account.id a0) = Some a.


(** ** Well-formed stores *)

(** [id] is a primary key drawn from the sequence: no two rows share a
    key, and the sequence is above every key in use. *)
Definition wf_keys (s : Store) : Prop :=
  NoDup (map Account.id (accounts s))
  /\ forall a, In a (accounts s) -> Account.id a < next_id s.

(** The columns that no bootstrap changes *)
Definition frame (a : Account.t)
  : Z * string * string * option Z * option string :=
  (Account.id a, Account.name a, Account.code a, Account.parent_id a, Account.nature a).

(** The parentless rows, by key and name *)
Definition root_keys (s : Store) : list (Z * string) :=
  map (fun a => (Account.id a, Account.name a)) (with_parent s None).

Definition root_names : list string := map fst root_accounts.

(** Exactly the four roots of the specification, each without parent *)
Definition four_roots (s : Store) : Prop :=
  Permutation (map snd (root_keys s)) root_names.

(** The bootstrap has nothing left to do for this entry of its table. *)
Definition settled (s : Store) (entry : string * root_props) : Prop :=
  exists r, find_root s (fst entry) = Some r
            /\ Account.account_type r = Some (props_account_type (snd entry))
            /\ Account.cc_required r = props_cc_required (snd entry).

(** [n] invocations of the bootstrap in a row *)
Fixpoint bootstrap_times (n : nat) (s : Store) : result Store :=
  match n with
  | O => Ok s
  | S m => s' <- validate_root_accounts s ;; bootstrap_times m s'
  end.

(** The canonical values of a root, as the specification lists them *)
Definition canonical_roots
  : list (string * option string * option string * bool) :=
  [ ("Assets", Some "debit", Some "balance_sheet", false);
    ("Liability & Equity", Some "credit", Some "balance_sheet", false);
    ("Expenses", Some "debit", Some "p&l", false);
    ("Revenue", Some "credit", Some "p&l", false) ].

Definition root_values (a : Account.t) : string * option string * option string * bool :=
  (Account.name a, Account.nature a, Account.account_type a, Account.cc_required a).

(** The loop of [validate_root_accounts] over any part of its table *)
Definition validate_roots (entries : list (string * root_props)) (s : Store)
  : result Store :=
  fold_left (fun acc entry => s' <- acc ;; validate_root s' entry) entries (Ok s).

(** The root [validate_root] writes back when it finds one *)
Definition synced (props : root_props) (account : Account.t) : Account.t :=
  let account :=
    if negb (opt_string_eqb (Account.account_type account)
                            (Some (props_account_type props)))
    then Account.set_account_type account (Some (props_account_type props))
    else account in
  if negb (Bool.eqb (Account.cc_required account) (props_cc_required props))
  then Account.set_cc_required account (props_cc_required props)
  else account.

(** A store with rows appended and the sequence moved on *)
Definition grown (s : Store) (m : list Account.t) (n : Z) : Store :=
  with_accounts s (accounts s ++ m) n.

(** The four roots the bootstrap creates when it finds no parentless
    row, the sequence being at [n] *)
Definition seed (n : Z) : list Account.t :=
  [ Account.mk n "Assets" "1000" None (Some "debit") (Some "balance_sheet") false;
    Account.mk (n + 1) "Liability & Equity" "2000" None (Some "credit")
               (Some "balance_sheet") false;
    Account.mk (n + 1 + 1) "Expenses" "3000" None (Some "debit") (Some "p&l") false;
    Account.mk (n + 1 + 1 + 1) "Revenue" "4000" None (Some "credit") (Some "p&l") false ].

(** Cash created under Assets and the root Assets renamed to Holdings *)
Definition renamed_root_store : Store :=
  run empty_store [Create cash_body; Update 1 (only_name "Holdings")].

(** The parentless rows after a bootstrap, when it succeeds *)
Definition roots_after_bootstrap (s : Store) : list Account.t :=
  match validate_root_accounts s with
  | Ok s1 => with_parent s1 None
  | _ => []
  end.

(** An operation that is not aimed at a root: it neither deletes a
    parentless account nor sends a name for one. *)
Definition spares_roots (s : Store) (op : operation) : Prop :=
  match op with
  | Update account_id fields =>
      match get_by_id s account_id with
      | Some a => Account.parent_id a <> None \/ f_name fields = None
      | None => True
      end
  | Delete account_id =>
      match get_by_id s account_id with
      | Some a => Account.parent_id a <> None
      | None => True
      end
  | _ => True
  end.

(** A run in which every operation spares the roots of the store it
    meets *)
Fixpoint spared_run (s : Store) (ops : list operation) : Prop :=
  match ops with
  | [] => True
  | op :: rest => spares_roots s op /\ spared_run (step s op) rest
  end.

Definition is_root (a : Account.t) : bool := opt_Z_eqb (Account.parent_id a) None.

Definition key_name (a : Account.t) : Z * string := (Account.id a, Account.name a).

(** An update under way that has left the parentless rows alone *)
Definition keeps_roots (s0 : Store) (a0 : Account.t) (st : update_state) : Prop :=
  let '(s, a, changes) := st in
  Account.id a = Account.id a0 /\ Account.parent_id a = Account.parent_id a0 /\
  In a (accounts s) /\ wf_keys s /\ root_keys s = root_keys s0.

(** ** The returned forest *)

(** Every account of a returned tree, and its accounts without child *)
Fixpoint view_accounts (v : AccountView) : list Account.t :=
  match v with
  | View account _ _ children => account :: flat_map view_accounts children
  end.

Fixpoint view_leaves (v : AccountView) : list Account.t :=
  match v with
  | View account _ _ [] => [account]
  | View account _ _ children => flat_map view_leaves children
  end.

Definition view_debit (v : AccountView) : Z :=
  match v with View _ debit_amount _ _ => debit_amount end.

Definition view_credit (v : AccountView) : Z :=
  match v with View _ _ credit_amount _ => credit_amount end.

Definition forest_accounts (r : TreeResult) : list Account.t :=
  flat_map view_accounts (tree_accounts r).

Definition forest_leaves (r : TreeResult) : list Account.t :=
  flat_map view_leaves (tree_accounts r).

(** The own amounts as the specification words them: the sum of the
    debit (credit) amounts over exactly the journal entries whose debit
    (credit) name is the account's name. *)
Definition spec_own_debit (s : Store) (a : Account.t) : Z :=
  sum_Z (map DailyEntries.debit_amount
             (filter (fun e => column_is (DailyEntries.debit e) (Account.name a))
                     (daily_entries s))).

Definition spec_own_credit (s : Store) (a : Account.t) : Z :=
  sum_Z (map DailyEntries.credit_amount
             (filter (fun e => column_is (DailyEntries.credit e) (Account.name a))
                     (daily_entries s))).

(** Every account with a parent has a key above its parent's. *)
Definition wf_links (s : Store) : Prop :=
  forall a p, In a (accounts s) -> Account.parent_id a = Some p -> p < Account.id a.

(** The number of rows whose key is above [i] *)
Definition above (s : Store) (i : Z) : nat :=
  List.length (filter (fun b => i <? Account.id b) (accounts s)).

(** The four roots and Cash, with 5 debited to Assets in the journal *)
Definition parent_posted_store : Store :=
  fst (create_account_in_account_tree
         (mkStore [] 1 [DailyEntries.mk (Some "Assets") None 5 0] [] [] [])
         cash_body).

Definition hd_account (v : AccountView) : Account.t :=
  match v with View account _ _ _ => account end.

(** ** Many siblings *)

(** The request for the [i]-th account under Assets *)
Definition sibling_body (i : nat) : Body :=
  mkBody ("Account " ++ nat_str i) (Some 1) None false None.

(** The first [n] such requests, in order *)
Definition siblings (n : nat) : list operation :=
  map (fun i => Create (sibling_body i)) (seq 1 n).

(** The chart after a thousand accounts were created under Assets *)
Definition crowded_store : Store := run empty_store (siblings 1000).

(** The code of the account a creation returns *)
Definition created_code (r : Store * result Account.t) : option string :=
  match snd r with
  | Ok a => Some (Account.code a)
  | _ => None
  end.

(** The codes in use under a parent, in table order *)
Definition codes_under (s : Store) (parent : Z) : list string :=
  map Account.code (with_parent s (Some parent)).

(** ** Rows and results of the examples *)

Definition assets : Account.t :=
  Account.mk 1 "Assets" "1000" None (Some "debit") (Some "balance_sheet") false.

Definition cash : Account.t :=
  Account.mk 5 "Cash" "1001" (Some 1) (Some "debit") (Some "balance_sheet") false.

Definition rent : Account.t :=
  Account.mk 5 "Rent Expense" "3001" (Some 3) (Some "debit") (Some "p&l") true.

Definition rent_store : Store :=
  fst (create_account_in_account_tree empty_store rent_body).

Definition expenses : Account.t :=
  Account.mk 3 "Expenses" "3000" None (Some "debit") (Some "p&l") false.

Definition posted_tree : TreeResult :=
  match get_account_tree posted_store with
  | Ok r => r
  | _ => mkTree [] 0 0
  end.

(** ** Charts the service builds *)

(** The key and the parent of every row, in table order *)
Definition links (s : Store) : list (Z * option Z) :=
  map (fun a => (Account.id a, Account.parent_id a)) (accounts s).

(** Every stored name is free of leading and trailing white space. *)
Definition trimmed (s : Store) : Prop :=
  forall a, In a (accounts s) -> strip (Account.name a) = Account.name a.

(** A chart as the service builds it: keys are unique, positive and
    below the sequence; every parent is a stored account with a smaller
    key; names are trimmed. *)
Definition wf_chart (s : Store) : Prop :=
  0 < next_id s
  /\ NoDup (map fst (links s))
  /\ (forall i p, In (i, p) (links s) ->
        0 < i < next_id s
        /\ forall q, p = Some q -> q < i /\ In q (map fst (links s)))
  /\ trimmed s.

(** A database before the first account: no row, the sequence at a
    positive value, any journal and any transaction tables. *)
Definition fresh (s : Store) : Prop := accounts s = [] /\ 0 < next_id s.

(** The number of rows whose key is below [i] *)
Definition below (s : Store) (i : Z) : nat :=
  List.length (filter (fun b => Account.id b <? i) (accounts s)).

(** An update under way on a chart the service built *)
Definition keeps_chart (st : update_state) : Prop :=
  let '(s, a, changes) := st in In a (accounts s) /\ wf_chart s.

(** A [name] field that is absent or spells the stored name, up to
    letter case, once trimmed *)
Definition same_name (a : Account.t) (field : option json) : bool :=
  match field with
  | None => true
  | Some (JStr v) =>
      negb (strip v =? "")%string && (lower (Account.name a) =? lower (strip v))%string
  | Some _ => false
  end.

(** ** The accounts of a subtree *)

(** [b] is [x] or lies below it: stored parents lead from [b] up to [x]. *)
Inductive descends (s : Store) (x : Account.t) : Account.t -> Prop :=
| descends_self : descends s x x
| descends_child (p b : Account.t) :
    descends s x p -> In b (accounts s) ->
    Account.parent_id b = Some (Account.id p) -> descends s x b.

Definition node_account (n : AccountNode) : Account.t :=
  match n with Node account _ => account end.

Definition node_children (n : AccountNode) : list AccountNode :=
  match n with Node _ children => children end.

Fixpoint node_accounts (n : AccountNode) : list Account.t :=
  match n with
  | Node account children => account :: flat_map node_accounts children
  end.

(** The tree of a view, its amounts left out *)
Fixpoint view_node (v : AccountView) : AccountNode :=
  match v with
  | View account _ _ children => Node account (map view_node children)
  end.

(** A tree in which the children of every node are the trees of the
    stored accounts whose parent the node is, in some order *)
Fixpoint family (s : Store) (n : AccountNode) : Prop :=
  match n with
  | Node account children =>
      Permutation (map node_account children)
                  (with_parent s (Some (Account.id account)))
      /\ (fix all (l : list AccountNode) : Prop :=
            match l with
            | [] => True
            | child :: rest => family s child /\ all rest
            end) children
  end.

Definition view_children (v : AccountView) : list AccountView :=
  match v with View _ _ _ children => children end.

(** Every node of a view, the view itself first *)
Fixpoint view_nodes (v : AccountView) : list AccountView :=
  match v with
  | View _ _ _ children => v :: flat_map view_nodes children
  end.

Definition forest_nodes (r : TreeResult) : list AccountView :=
  flat_map view_nodes (tree_accounts r).

(** Codes in ascending order, as strings *)
Fixpoint sorted_by_code (l : list Account.t) : bool :=
  match l with
  | a :: (b :: _) as rest =>
      (Account.code a <=? Account.code b)%string && sorted_by_code rest
  | _ => true
  end.

(** What [compute_account_totals] returns for an account: a view of that
    account whose tree is a family tree, each node of which has its
    children in the order of their codes and reports its own amounts
    plus those its children report. *)
Definition view_sound (s : Store) (w : AccountView) : Prop :=
  map hd_account (view_children w)
  = order_by_code (with_parent s (Some (Account.id (hd_account w))))
  /\ view_debit w = own_debit s (hd_account w) + sum_Z (map view_debit (view_children w))
  /\ view_credit w = own_credit s (hd_account w) + sum_Z (map view_credit (view_children w)).

(** ** What the service leaves alone *)

(** [s'] comes after [s]: the sequence has not gone back, the journal
    and the transaction tables are the same, and every row either has a
    key the sequence of [s] had not reached or has the key, code, parent
    and nature of a row of [s]. *)
Definition evolves (s s' : Store) : Prop :=
  next_id s <= next_id s'
  /\ daily_entries s' = daily_entries s
  /\ SalesTransaction s' = SalesTransaction s
  /\ PurchaseTransaction s' = PurchaseTransaction s
  /\ ExpenseTransaction s' = ExpenseTransaction s
  /\ forall b, In b (accounts s') ->
       next_id s <= Account.id b
       \/ exists a, In a (accounts s)
                    /\ Account.id b = Account.id a
                    /\ Account.code b = Account.code a
                    /\ Account.parent_id b = Account.parent_id a
                    /\ Account.nature b = Account.nature a.

(** An update under way on a store that comes after [s0] *)
Definition evolving (s0 s : Store) (a : Account.t) : Prop :=
  evolves s0 s /\ In a (accounts s).

(** ** Names that stay apart *)

(** A parentless account that bears one of the four root names *)
Definition bootstrap_root (a : Account.t) : Prop :=
  Account.parent_id a = None /\ In (Account.name a) root_names.

(** No two accounts have the same name up to letter case, a root of the
    bootstrap apart. *)
Definition names_apart (s : Store) : Prop :=
  forall a b, In a (accounts s) -> In b (accounts s) ->
              lower (Account.name a) = lower (Account.name b) ->
              a = b \/ bootstrap_root a \/ bootstrap_root b.

(** An update under way on a store whose names are apart *)
Definition naming (s : Store) (a : Account.t) : Prop :=
  wf_keys s /\ names_apart s /\ In a (accounts s).

(** Cash renamed to Assets after the root Assets was renamed, and the
    bootstrap run again *)
Definition shadowed_root_ops : list operation :=
  [ Create cash_body;
    Update 1 (only_name "Premises");
    Update 5 (only_name "Assets");
    Create cash_body ].

(** ** Codes *)

(** A string of decimal digits *)
Fixpoint all_digits (s : string) : bool :=
  match s with
  | EmptyString => true
  | String c r => is_digit c && all_digits r
  end.

(** A code the generator can count on from: digits, at least one *)
Definition code_ok (code : string) : bool :=
  all_digits code && negb (code =? "")%string.

Definition wf_codes (s : Store) : Prop :=
  forall a, In a (accounts s) -> code_ok (Account.code a) = true.

(** An update under way on a store with proper codes *)
Definition coding (s : Store) (a : Account.t) : Prop :=
  wf_codes s /\ In a (accounts s).

(** The errors a creation reports on a chart the service built: its own
    refusals, and the database error of the parent key 0. *)
Definition create_error (e : exn) : bool :=
  match e with
  | BadRequest (DatabaseError (ValueError _)) => false
  | BadRequest _ => true
  | AccountExistsException _ => true
  | ParentNotFoundException _ => true
  | _ => false
  end.

(** ** Pages *)

(** The dictionary [paginate_query] returns *)
Module Page.
Record t (A : Type) : Type := mk {
  items : list A;
  page : Z;
  per_page : Z;
  total : Z;
  total_pages : Z
}.
Arguments mk {A} items page per_page total total_pages.
Arguments items {A} t.
Arguments page {A} t.
Arguments per_page {A} t.
Arguments total {A} t.
Arguments total_pages {A} t.
End Page.

(** [query[start:stop]] for [0 <= start <= stop], the only slices
    [paginate_query] takes *)
Definition slice {A : Type} (query : list A) (start stop : Z) : list A :=
  firstn (Z.to_nat (stop - start)) (skipn (Z.to_nat start) query).

(** [math.ceil(total / per_page)] for [0 <= total] and [1 <= per_page].
    Python divides the two integers into a float and rounds that up;
    below 2^53, where every length and page size of the service lies,
    the float has the ceiling of the exact quotient, which is the one
    computed here. *)
Definition ceil_div (total per_page : Z) : Z := (total + per_page - 1) / per_page.

(** [paginate_query] on a list, with [page] and [per_page] given as the
    account service gives them *)
Definition paginate_query {A : Type} (query : list A) (page per_page : Z) : Page.t A :=
  let page := Z.max page 1 in
  let per_page := Z.max per_page 1 in
  let total := Z.of_nat (List.length query) in
  let start := (page - 1) * per_page in
  let stop := start + per_page in
  let items := slice query start stop in
  let total_pages := ceil_div total per_page in
  Page.mk items page per_page total total_pages.

(** The items of the pages 1 to [n], one page after the other *)
Definition pages_read {A : Type} (query : list A) (per_page : Z) (n : nat) : list A :=
  List.concat (map (fun p => Page.items (paginate_query query (Z.of_nat p) per_page))
              (seq 1 n)).

(** ** The handlers *)

(** The [except] clauses of the POST, PUT and DELETE handlers: 400 for
    a [BadRequest], the [status_code] of an account exception (409 for
    [AccountExistsException], 404 for the two not-found exceptions), 500
    for anything else. *)
Definition handler_status (e : exn) : Z :=
  match e with
  | BadRequest _ => 400
  | AccountExistsException _ => 409
  | ParentNotFoundException _ => 404
  | AccountNotFoundException _ => 404
  | ParentNameNotFoundException _ => 404
  | PyError _ => 500
  end.

(** The status a handler answers with, if the call returns *)
Definition respond {A : Type} (success : Z) (outcome : result A) : option Z :=
  match outcome with
  | Ok _ => Some success
  | Raise e => Some (handler_status e)
  | Diverge => None
  end.

Module AccountResource.

(** [post], for a body that passed the handler's two type checks *)
Definition post (s : Store) (body : Body) : Store * option Z :=
  let (s', outcome) := create_account_in_account_tree s body in
  (s', respond 201 outcome).

(** [get]: a page of the roots of the tree, with the grand totals of the
    whole tree *)
Definition get (s : Store) (page per_page : Z)
  : result (Page.t AccountView * Z * Z) :=
  result <- get_account_tree s ;;
  let paginated_accounts := paginate_query (tree_accounts result) page per_page in
  Ok (paginated_accounts, grand_total_debit result, grand_total_credit result).

End AccountResource.

Module AccountResourceUpdate.

(** [put]: without any of the three fields the data is turned down
    before [update_account] is called. *)
Definition put (s : Store) (account_id : Z) (update_fields : UpdateFields)
  : Store * option Z :=
  match f_name update_fields, f_cc_required update_fields,
        f_account_type update_fields with
  | None, None, None => (s, Some 400)
  | _, _, _ =>
      let (s', outcome) := update_account s account_id update_fields in
      (s', respond 200 outcome)
  end.

Definition delete (s : Store) (account_id : Z) : Store * option Z :=
  let (s', outcome) := delete_account s account_id in
  (s', respond 200 outcome).

End AccountResourceUpdate.

Module AccountResourceByParentName.

(** [get]: 404 for the not-found exception, 500 for any other, the
    recursion error of a walk that does not end among them. *)
Definition get (s : Store) (parent_name : string) : option Z :=
  match get_accounts_by_parent_name s parent_name with
  | Ok _ => Some 200
  | Raise (AccountNotFoundException _) => Some 404
  | Raise (ParentNameNotFoundException _) => Some 404
  | Raise _ => Some 500
  | Diverge => Some 500
  end.

End AccountResourceByParentName.

(** An exception of the service itself, as opposed to an error of the
    interpreter *)
Definition service_error (e : exn) : bool :=
  match e with
  | PyError _ => false
  | _ => true
  end.

(** An outcome that is an answer of the service *)
Definition answered {A : Type} (outcome : result A) : Prop :=
  match outcome with
  | Ok _ => True
  | Raise e => service_error e = true
  | Diverge => False
  end.

(** A request that carries at least one of the three fields *)
Definition has_field (update_fields : UpdateFields) : bool :=
  match f_name update_fields, f_cc_required update_fields,
        f_account_type update_fields with
  | None, None, None => false
  | _, _, _ => true
  end.

(** ** Numbered siblings *)

(** [str(k).zfill(3)] *)
Definition suffix (k : Z) : string := zfill 3 (py_str k).

(** What [generate_code] puts before the suffix of a child: the first
    character of a four-character parent code that ends in 000, the
    whole parent code otherwise. *)
Definition code_base (parent_code : string) : string :=
  if (String.length parent_code =? 4)%nat && endswith parent_code "000"
  then first_char parent_code
  else parent_code.

(** The children of [parent] carry codes of the scheme, with suffixes
    from 001 to 998. *)
Definition numbered (s : Store) (parent : Account.t) : Prop :=
  forall c, In c (with_parent s (Some (Account.id parent))) ->
            exists k, 1 <= k <= 998
                      /\ Account.code c = code_base (Account.code parent) ++ suffix k.

(** The suffix of [k] has three characters and reads back as [k]. *)
Definition suffix_reads (k : Z) : bool :=
  (String.length (suffix k) =? 3)%nat
  && match py_int (suffix k) with
     | Some n => n =? k
     | None => false
     end.

(** The suffix of [k] comes before the suffix of [k + 1]. *)
Definition suffix_steps (k : Z) : bool := String.ltb (suffix k) (suffix (k + 1)).

(** Cash and a second account under Assets *)
Definition two_children_store : Store :=
  run empty_store [Create cash_body; Create (sibling_body 2)].

(** ** The service over any text functions *)

(** The three text functions the service calls on names: [str.strip]
    and [str.lower] of Python, and [func.lower] of SQLAlchemy, the
    [lower()] of the database.  Outside ASCII they depend on the Unicode
    tables of the interpreter and on the database and its locale; nothing
    is assumed of them here. *)
Module Text.

Record t : Type := mk {
  strip : string -> string;
  lower : string -> string;
  sql_lower : string -> string
}.

End Text.

(** The ASCII fragments of [PyStr], for all three *)
Definition ascii_text : Text.t := Text.mk strip lower lower.

(** The functions of [utils.py] that trim or lower-case a string, over
    any [Text.t]; the others are the ones above.  At [ascii_text] they
    are the functions above. *)
Module Platform.

Section Over.

Variable T : Text.t.

(** [check_if_account_exist]: the stored name goes through the
    database's [lower()], the requested one through [str.lower]. *)
Definition check_if_account_exist (s : Store) (name : string) : result unit :=
  let lowered := Text.lower T name in
  match find (fun a => (Text.sql_lower T (Account.name a) =? lowered)%string) (accounts s) with
  | Some _ => Raise (AccountExistsException name)
  | None => Ok tt
  end.

Definition extract_body (body : Body)
  : result (string * option Z * option string * bool * option string) :=
  let parent_id := body_parent_id body in
  let cc_required := body_cc_required body in
  let account_type := body_account_type body in
  let nature := option_map (fun n => Text.lower T (Text.strip T n)) (body_nature body) in
  _ <- raise_if (truthy nature &&
                 negb (match nature with
                       | Some n => in_list n ["debit"; "credit"; "both"]
                       | None => false
                       end))
                (BadRequest NatureInvalid) ;;
  _ <- raise_if (truthy account_type &&
                 negb (match account_type with
                       | Some t => in_list t ["balance_sheet"; "p&l"]
                       | None => false
                       end))
                (BadRequest AccountTypeInvalid) ;;
  Ok (Text.strip T (body_name body), parent_id, nature, cc_required, account_type).

Definition fill_new_account_info (s : Store) (name : string) (nature : option string)
    (parent : option Account.t) (cc_required : bool) (account_type : option string)
  : result (Z -> Account.t) :=
  (* Infer account_type if not provided but determined by the root *)
  account_type <-
    match account_type, parent with
    | None, Some _ =>
        root_account <- get_root_account s parent ;;
        if in_list (Account.name root_account) ["Assets"; "Liability & Equity"]
        then Ok (Some "balance_sheet")
        else if in_list (Account.name root_account) ["Revenue"; "Expenses"]
        then Ok (Some "p&l")
        else Ok None
    | _, _ => Ok account_type
    end ;;
  (* cc_required from the account name *)
  cc_required <-
    match parent, cc_required with
    | Some _, false =>
        root_account <- get_root_account s parent ;;
        let cc_required :=
          if (Account.name root_account =? "Expenses")%string then
            if negb (contains "depreciation" (Text.lower T name)) &&
               negb (contains "bank charges" (Text.lower T name))
            then true else false
          else false in
        let cc_required :=
          if contains "cost of goods sold" (Text.lower T name) || contains "rebate" (Text.lower T name)
          then true else cc_required in
        Ok cc_required
    | _, _ => Ok cc_required
    end ;;
  code <- generate_code s parent ;;
  Ok (fun i => Account.mk i name code (option_map Account.id parent) nature
                          account_type cc_required).

Definition apply_root_rules (root_account : Account.t) (nature account_type : option string)
  : result (option string * option string) :=
  let root_name := Text.lower T (Account.name root_account) in
  if (root_name =? "assets")%string then
    nature <- nature_rule nature "debit" AssetsNature ;;
    account_type <- account_type_rule account_type "balance_sheet" AssetsAccountType ;;
    Ok (nature, account_type)
  else if (root_name =? "liability & equity")%string then
    nature <- nature_rule nature "credit" LiabilityNature ;;
    account_type <- account_type_rule account_type "balance_sheet" LiabilityAccountType ;;
    Ok (nature, account_type)
  else if (root_name =? "expenses")%string then
    let nature := nature_default nature "debit" in
    account_type <- account_type_rule account_type "p&l" ExpensesAccountType ;;
    Ok (nature, account_type)
  else if (root_name =? "revenue")%string then
    let nature := nature_default nature "credit" in
    account_type <- account_type_rule account_type "p&l" RevenueAccountType ;;
    Ok (nature, account_type)
  else Ok (nature, account_type).

(** The body of the [try] of [create_account_in_account_tree], after the
    roots are ensured. *)
Definition create_in_tree (s : Store) (body : Body) : result (Store * Account.t) :=
  '(name, parent_id, nature, cc_required, account_type) <- extract_body body ;;
  _ <- check_if_account_exist s (Text.strip T name) ;;
  (* Prevent creating additional root accounts *)
  _ <- raise_if (match parent_id with None => true | Some _ => false end)
                (BadRequest CannotCreateRoot) ;;
  parent <- get_parent_account_with_id s parent_id ;;
  root_account <- get_root_account s parent ;;
  '(nature, account_type) <- apply_root_rules root_account nature account_type ;;
  new_account <- fill_new_account_info s name nature parent cc_required account_type ;;
  Ok (add s new_account, new_account (next_id s)).

(** [create_account_in_account_tree]: the committed store and the outcome.
    The roots are committed by [validate_root_accounts] before anything
    else is checked. *)
Definition create_account_in_account_tree (s : Store) (body : Body)
  : Store * result Account.t :=
  match validate_root_accounts s with
  | Ok s1 =>
      match create_in_tree s1 body with
      | Ok (s2, new_account) => (s2, Ok new_account)
      | Raise e => (s1, Raise (create_handler e))
      | Diverge => (s1, Diverge)
      end
  | Raise e => (s, Raise (create_handler e))
  | Diverge => (s, Diverge)
  end.

(** Handle name update if provided *)
Definition update_name (st : update_state) (field : option json) : result update_state :=
  let '(s, account, changes) := st in
  match field with
  | None => Ok st
  | Some (JStr v) =>
      let new_name := Text.strip T v in
      _ <- raise_if (new_name =? "")%string (BadRequest NameEmpty) ;;
      if negb (Text.lower T (Account.name account) =? Text.lower T new_name)%string then
        let related_entries := List.length (entries_of s (Account.name account)) in
        _ <- raise_if (0 <? related_entries)%nat
                      (BadRequest (RenameHasTransactions (Account.name account))) ;;
        _ <- check_if_account_exist s new_name ;;
        let account := Account.set_name account new_name in
        Ok (write s account, account, (changes ++ ["name"])%list)
      else Ok st
  | Some _ => Raise (BadRequest NameNotString)
  end.

(** Handle cost_center_required update *)
Definition update_cc_required (st : update_state) (field : option json)
  : result update_state :=
  let '(s, account, changes) := st in
  match field with
  | None => Ok st
  | Some (JBool cc_required) =>
      if negb (Bool.eqb (Account.cc_required account) cc_required) then
        _ <- (if negb cc_required && Account.cc_required account then
                let is_purchase_or_expense :=
                  (0 <? count_refs (PurchaseTransaction s) (Account.id account))%nat ||
                  (0 <? count_refs (ExpenseTransaction s) (Account.id account))%nat in
                let is_cogs_or_rebate :=
                  contains "cost of goods sold" (Text.lower T (Account.name account)) ||
                  contains "rebate" (Text.lower T (Account.name account)) in
                raise_if (is_purchase_or_expense || is_cogs_or_rebate)
                         (BadRequest (CannotDisableCC (Account.name account)))
              else Ok tt) ;;
        let account := Account.set_cc_required account cc_required in
        Ok (write s account, account, (changes ++ ["cost center requirement"])%list)
      else Ok st
  | Some _ => Raise (BadRequest CCNotBool)
  end.

(** Handle account_type update *)
Definition update_account_type (st : update_state) (field : option json)
  : result update_state :=
  let '(s, account, changes) := st in
  let clear :=
    match Account.account_type account with
    | Some _ =>
        let account := Account.set_account_type account None in
        Ok (write s account, account, (changes ++ ["account type"])%list)
    | None => Ok st
    end in
  match field with
  | None => Ok st
  | Some JNull => clear
  | Some (JStr EmptyString) => clear
  | Some (JStr v) =>
      let new_account_type := Text.strip T v in
      _ <- raise_if (negb (in_list new_account_type ["balance_sheet"; "p&l"]))
                    (BadRequest AccountTypeInvalid) ;;
      if negb (opt_string_eqb (Account.account_type account) (Some new_account_type)) then
        root_account <- get_root_account s (Some account) ;;
        _ <- raise_if ((new_account_type =? "balance_sheet")%string &&
                       negb (in_list (Account.name root_account)
                                     ["Assets"; "Liability & Equity"]))
                      (BadRequest (BalanceSheetUnder (Account.name root_account))) ;;
        _ <- raise_if ((new_account_type =? "p&l")%string &&
                       negb (in_list (Account.name root_account) ["Revenue"; "Expenses"]))
                      (BadRequest (PLUnder (Account.name root_account))) ;;
        let account := Account.set_account_type account (Some new_account_type) in
        Ok (write s account, account, (changes ++ ["account type"])%list)
      else Ok st
  | Some _ => Raise (BadRequest AccountTypeNotString)
  end.

(** [update_account] on a dictionary: the committed store and the
    outcome.  Nothing is committed unless the function reaches
    [session.commit()]; the handler's [with session:] discards the rest. *)
Definition update_account (s : Store) (account_id : Z) (update_fields : UpdateFields)
  : Store * result update_result :=
  let run :=
    account <- get_single_account s account_id ;;
    st <- update_name (s, account, []) (f_name update_fields) ;;
    st <- update_cc_required st (f_cc_required update_fields) ;;
    st <- update_account_type st (f_account_type update_fields) ;;
    Ok st in
  match run with
  | Ok (s', _, []) => (s, Ok NoChanges)
  | Ok (s', _, changes) => (s', Ok (Updated changes))
  | Raise e => (s, Raise e)
  | Diverge => (s, Diverge)
  end.

(** Case-insensitive substring test on an account name *)
Definition name_contains (name sub : string) : bool := contains sub (Text.lower T name).

(** The default of [cc_required] for a new account that did not ask for
    it: true under the root [Expenses] unless the name mentions
    depreciation or bank charges; true under any root when the name
    mentions cost of goods sold or rebate; false otherwise. *)
Definition cc_default (root_name name : string) : bool :=
  ((root_name =? "Expenses")%string &&
   negb (name_contains name "depreciation" || name_contains name "bank charges"))
  || name_contains name "cost of goods sold"
  || name_contains name "rebate".

(** An [account_type] field that is absent or repeats the stored value *)
Definition same_account_type (a : Account.t) (field : option json) : bool :=
  match field with
  | None => true
  | Some JNull | Some (JStr EmptyString) =>
      match Account.account_type a with None => true | Some _ => false end
  | Some (JStr v) =>
      in_list (Text.strip T v) ["balance_sheet"; "p&l"] &&
      opt_string_eqb (Account.account_type a) (Some (Text.strip T v))
  | Some _ => false
  end.

End Over.

End Platform.

(** ** Leaves of the chart *)

(** An account no stored account names as its parent *)
Definition childless (s : Store) (a : Account.t) : bool :=
  match with_parent s (Some (Account.id a)) with
  | [] => true
  | _ :: _ => false
  end.

(** An operation that issues queries only *)
Definition is_read (op : operation) : Prop :=
  match op with
  | ReadTree | ReadByParentName _ => True
  | _ => False
  end.

(** ** ASCII charts and requests *)

(** A string of bytes below 128.  On such strings [lower] and [strip]
    above are [str.lower] and [str.strip], and the [lower()] of the
    database is taken to be [lower] too. *)
Fixpoint is_ascii (x : string) : bool :=
  match x with
  | EmptyString => true
  | String c r => (N_of_ascii c <? 128)%N && is_ascii r
  end.

(** Every stored name is ASCII. *)
Definition ascii_names (s : Store) : Prop :=
  forall a, In a (accounts s) -> is_ascii (Account.name a) = true.

(** A field of an update that, when it is a string, is ASCII *)
Definition ascii_json (field : option json) : Prop :=
  forall v, field = Some (JStr v) -> is_ascii v = true.

(** A creation body whose name and nature are ASCII *)
Definition ascii_body (body : Body) : Prop :=
  is_ascii (body_name body) = true
  /\ forall n, body_nature body = Some n -> is_ascii n = true.

(** An operation whose strings that are trimmed or lower-cased are
    ASCII *)
Definition ascii_op (op : operation) : Prop :=
  match op with
  | Create body => ascii_body body
  | Update _ update_fields =>
      ascii_json (f_name update_fields) /\ ascii_json (f_account_type update_fields)
  | _ => True
  end.

(** * Properties *)

(** ** The model on small inputs *)

Example lower_ex : lower "Liability & Equity" = "liability & equity".
Proof. reflexivity. Qed.
Example strip_ex : strip "  Petty Cash  " = "Petty Cash".
Proof. reflexivity. Qed.
Example py_int_ex : py_int "042" = Some 42 /\ py_int "x" = None /\ py_int " -1_0 " = Some (-10).
Proof. repeat split. Qed.
Example zfill_ex : zfill 3 (py_str 7) = "007" /\ zfill 3 (py_str 1000) = "1000" /\ zfill 3 (py_str (-4)) = "-04".
Proof. repeat split. Qed.
Example endswith_ex : endswith "1000" "000" = true /\ endswith "1001" "000" = false /\ last_n 3 "12" = "12".
Proof. repeat split. Qed.

Example bootstrapped_codes :
  map (fun a => (Account.id a, Account.name a, Account.code a)) (accounts bootstrapped)
  = [(1, "Assets", "1000"); (2, "Liability & Equity", "2000");
     (3, "Expenses", "3000"); (4, "Revenue", "4000")].
Proof. vm_compute. reflexivity. Qed.

Example create_cash :
  snd (create_account_in_account_tree empty_store cash_body)
  = Ok (Account.mk 5 "Cash" "1001" (Some 1) (Some "debit") (Some "balance_sheet") false).
Proof. vm_compute. reflexivity. Qed.

(** ** Rows and keys *)

Lemma get_by_id_id (s : Store) (i : Z) (a : Account.t) :
  get_by_id s i = Some a -> Account.id a = i.
Proof.
  unfold get_by_id; intros H.
  apply find_some in H as [_ H]. now apply Z.eqb_eq.
Qed.

Lemma get_by_id_In (s : Store) (i : Z) (a : Account.t) :
  get_by_id s i = Some a -> In a (accounts s).
Proof.
  unfold get_by_id; intros H. now apply find_some in H.
Qed.

Lemma get_by_id_remove (s : Store) (a : Account.t) :
  get_by_id (remove s a) (Account.id a) = None.
Proof.
  unfold get_by_id, remove; simpl.
  induction (accounts s) as [|b l IH]; simpl; [reflexivity|].
  destruct (Account.id b =? Account.id a) eqn:E; simpl; [exact IH|].
  now rewrite E.
Qed.

Lemma remove_not_In (s : Store) (a b : Account.t) :
  In b (accounts (remove s a)) -> Account.id b <> Account.id a.
Proof.
  unfold remove; simpl. intros H.
  apply filter_In in H as [_ H].
  apply negb_true_iff in H. now apply Z.eqb_neq.
Qed.

Lemma nonempty_length {A : Type} (l : list A) :
  (0 <? List.length l)%nat = negb (match l with [] => true | _ => false end).
Proof. now destruct l. Qed.

Lemma has_child_with_parent (s : Store) (i : Z) :
  (exists c, In c (accounts s) /\ Account.parent_id c = Some i) <->
  (0 <? List.length (with_parent s (Some i)))%nat = true.
Proof.
  unfold with_parent. split.
  - intros (c & Hin & Hp).
    assert (Hf : In c (filter (fun a => opt_Z_eqb (Account.parent_id a) (Some i)) (accounts s))).
    { apply filter_In. split; [assumption|]. rewrite Hp; simpl. apply Z.eqb_refl. }
    destruct (filter _ _); [contradiction|reflexivity].
  - intros H.
    destruct (filter _ _) as [|c l] eqn:E; [discriminate|].
    assert (Hf : In c (c :: l)) by now left.
    rewrite <- E in Hf. apply filter_In in Hf as [Hin Hp].
    exists c. split; [assumption|].
    destruct (Account.parent_id c); simpl in Hp; [|discriminate].
    apply Z.eqb_eq in Hp. now subst.
Qed.

(** ** Deletion (C5) *)

Lemma in_journal_entries (s : Store) (n : string) :
  in_journal s n <-> (0 <? List.length (entries_of s n))%nat = true.
Proof.
  unfold in_journal, entries_of. split.
  - intros (e & Hin & Hs).
    assert (Hf : In e (filter (fun e => column_is (DailyEntries.debit e) n
                                        || column_is (DailyEntries.credit e) n)
                              (daily_entries s))).
    { apply filter_In. split; [assumption|]. apply orb_true_iff.
      destruct Hs as [-> | ->]; simpl; rewrite String.eqb_refl; auto. }
    destruct (filter _ _); [contradiction|reflexivity].
  - intros H.
    destruct (filter _ _) as [|e l] eqn:E; [discriminate|].
    assert (Hf : In e (e :: l)) by now left.
    rewrite <- E in Hf. apply filter_In in Hf as [Hin Hs].
    exists e. split; [assumption|].
    apply orb_true_iff in Hs. unfold column_is in Hs.
    destruct Hs as [Hs|Hs]; [left|right].
    + destruct (DailyEntries.debit e); [|discriminate].
      apply String.eqb_eq in Hs. now subst.
    + destruct (DailyEntries.credit e); [|discriminate].
      apply String.eqb_eq in Hs. now subst.
Qed.

Lemma not_in_journal_entries (s : Store) (n : string) :
  ~ in_journal s n <-> (0 <? List.length (entries_of s n))%nat = false.
Proof.
  rewrite in_journal_entries. now destruct (0 <? _)%nat.
Qed.

Lemma count_refs_pos (table : list Z) (i : Z) :
  In i table <-> (0 <? count_refs table i)%nat = true.
Proof.
  unfold count_refs. split.
  - intros H.
    assert (Hf : In i (filter (fun x => x =? i) table)).
    { apply filter_In. split; [assumption|apply Z.eqb_refl]. }
    destruct (filter _ _); [contradiction|reflexivity].
  - intros H. destruct (filter _ _) as [|x l] eqn:E; [discriminate|].
    assert (Hf : In x (x :: l)) by now left.
    rewrite <- E in Hf. apply filter_In in Hf as [Hin Hx].
    apply Z.eqb_eq in Hx. now subst.
Qed.

Lemma count_refs_zero (table : list Z) (i : Z) :
  ~ In i table <-> (0 <? count_refs table i)%nat = false.
Proof.
  rewrite count_refs_pos. now destruct (0 <? _)%nat.
Qed.

Lemma no_child_with_parent (s : Store) (i : Z) :
  ~ has_child s i <-> (0 <? List.length (with_parent s (Some i)))%nat = false.
Proof.
  unfold has_child. rewrite has_child_with_parent. now destruct (0 <? _)%nat.
Qed.

(** C5.  Deleting an account that has a child fails with the parent
    reason and leaves the store as it was.  Deleting an account with no
    child, no journal entry naming it on either side and no sales,
    purchase or expense reference succeeds: the row is gone, every other
    row stays, and the account is returned as it last was.  The five
    blocking reasons are tested one after the other, each with an error
    of its own, and none of them changes the store. *)
Theorem delete_account_guarded (s : Store) (account_id : Z) (account : Account.t)
    (Hget : get_by_id s account_id = Some account) :
  (has_child s account_id ->
   delete_account s account_id = (s, Raise (BadRequest (IsParent account_id))))
  /\
  (~ has_child s account_id ->
   ~ in_journal s (Account.name account) ->
   ~ In account_id (SalesTransaction s) ->
   ~ In account_id (PurchaseTransaction s) ->
   ~ In account_id (ExpenseTransaction s) ->
   delete_account s account_id = (remove s account, Ok account)
   /\ get_by_id (remove s account) account_id = None
   /\ (forall b, In b (accounts (remove s account)) <->
                 In b (accounts s) /\ Account.id b <> account_id))
  /\
  (~ has_child s account_id ->
   in_journal s (Account.name account) ->
   delete_account s account_id
   = (s, Raise (BadRequest (UsedInTransactions (Account.name account)))))
  /\
  (~ has_child s account_id ->
   ~ in_journal s (Account.name account) ->
   In account_id (SalesTransaction s) ->
   delete_account s account_id
   = (s, Raise (BadRequest (ReferencedBySales account_id
                              (count_refs (SalesTransaction s) account_id)))))
  /\
  (~ has_child s account_id ->
   ~ in_journal s (Account.name account) ->
   ~ In account_id (SalesTransaction s) ->
   In account_id (PurchaseTransaction s) ->
   delete_account s account_id
   = (s, Raise (BadRequest (ReferencedByPurchase account_id
                              (count_refs (PurchaseTransaction s) account_id)))))
  /\
  (~ has_child s account_id ->
   ~ in_journal s (Account.name account) ->
   ~ In account_id (SalesTransaction s) ->
   ~ In account_id (PurchaseTransaction s) ->
   In account_id (ExpenseTransaction s) ->
   delete_account s account_id
   = (s, Raise (BadRequest (ReferencedByExpense account_id
                              (count_refs (ExpenseTransaction s) account_id)))))
  /\
  (forall n c1 c2 c3,
     NoDup [IsParent account_id; UsedInTransactions n; ReferencedBySales account_id c1;
            ReferencedByPurchase account_id c2; ReferencedByExpense account_id c3]).
Proof.
  pose proof (get_by_id_id _ _ _ Hget) as Hid.
  unfold delete_account, get_single_account. rewrite Hget. simpl. rewrite Hid.
  split; [|split; [|split; [|split; [|split; [|split]]]]].
  - intros Hc. apply has_child_with_parent in Hc. now rewrite Hc.
  - intros Hc Hj Hs Hp He.
    apply no_child_with_parent in Hc. apply not_in_journal_entries in Hj.
    apply count_refs_zero in Hs, Hp, He.
    rewrite Hc, Hj, Hs, Hp, He. simpl.
    split; [reflexivity|]. split.
    + rewrite <- Hid. apply get_by_id_remove.
    + intros b. unfold remove; simpl. rewrite filter_In, negb_true_iff, Z.eqb_neq.
      reflexivity.
  - intros Hc Hj. apply no_child_with_parent in Hc. apply in_journal_entries in Hj.
    now rewrite Hc, Hj.
  - intros Hc Hj Hs. apply no_child_with_parent in Hc.
    apply not_in_journal_entries in Hj. apply count_refs_pos in Hs.
    now rewrite Hc, Hj, Hs.
  - intros Hc Hj Hs Hp. apply no_child_with_parent in Hc.
    apply not_in_journal_entries in Hj. apply count_refs_zero in Hs.
    apply count_refs_pos in Hp.
    now rewrite Hc, Hj, Hs, Hp.
  - intros Hc Hj Hs Hp He. apply no_child_with_parent in Hc.
    apply not_in_journal_entries in Hj. apply count_refs_zero in Hs, Hp.
    apply count_refs_pos in He.
    now rewrite Hc, Hj, Hs, Hp, He.
  - intros n c1 c2 c3.
    repeat (constructor; [simpl; intuition discriminate|]). constructor.
Qed.

(** ** Outcomes of sequenced steps *)

Lemma bind_Ok {A B : Type} (m : result A) (k : A -> result B) (b : B) :
  bind m k = Ok b -> exists a, m = Ok a /\ k a = Ok b.
Proof.
  destruct m as [a| |]; simpl; intros H; try discriminate. now exists a.
Qed.

Lemma raise_if_Ok (cond : bool) (e : exn) (u : unit) :
  raise_if cond e = Ok u -> cond = false.
Proof. now destruct cond. Qed.

Ltac bind_inv H :=
  let x := fresh "x" in
  let Hx := fresh "Hx" in
  apply bind_Ok in H as (x & Hx & H).

(** ** Creation, when it succeeds *)

(** What a successful creation went through: the roots were ensured,
    the body passed [extract_body], the name was free, the parent and its
    root were found, the root's rules produced the stored nature and
    account type, and [fill_new_account_info] built the row. *)
Lemma create_success_inv (s s' : Store) (body : Body) (a : Account.t) :
  create_account_in_account_tree s body = (s', Ok a) ->
  exists s1 pid parent root nature0 account_type0 nature account_type new_account,
    validate_root_accounts s = Ok s1
    /\ extract_body body
       = Ok (strip (body_name body), Some pid, nature0, body_cc_required body, account_type0)
    /\ check_if_account_exist s1 (strip (strip (body_name body))) = Ok tt
    /\ get_by_id s1 pid = Some parent
    /\ get_root_account s1 (Some parent) = Ok root
    /\ apply_root_rules root nature0 account_type0 = Ok (nature, account_type)
    /\ fill_new_account_info s1 (strip (body_name body)) nature (Some parent)
                             (body_cc_required body) account_type = Ok new_account
    /\ s' = add s1 new_account
    /\ a = new_account (next_id s1).
Proof.
  unfold create_account_in_account_tree.
  destruct (validate_root_accounts s) as [s1| |] eqn:Hv; try discriminate.
  destruct (create_in_tree s1 body) as [[s2 a2]| |] eqn:Hc; try discriminate.
  intros H; inversion H; subst s2 a2; clear H.
  unfold create_in_tree in Hc.
  bind_inv Hc. destruct x as [[[[name pid] nature0] cc] account_type0].
  assert (Hshape : name = strip (body_name body) /\ pid = body_parent_id body
                   /\ cc = body_cc_required body).
  { unfold extract_body in Hx. bind_inv Hx. bind_inv Hx. now inversion Hx. }
  destruct Hshape as (-> & -> & ->).
  bind_inv Hc. destruct x.
  bind_inv Hc. apply raise_if_Ok in Hx1.
  destruct (body_parent_id body) as [pid|] eqn:Hpid; [clear Hx1|discriminate].
  bind_inv Hc. rename x into parent.
  bind_inv Hc. rename x into root.
  bind_inv Hc. destruct x as [nature account_type].
  bind_inv Hc. rename x into new_account.
  inversion Hc; subst; clear Hc.
  unfold get_parent_account_with_id in Hx1.
  destruct (pid =? 0) eqn:Hz.
  { inversion Hx1; subst. discriminate. }
  destruct (get_by_id s1 pid) as [p|] eqn:Hp; [|discriminate].
  inversion Hx1; subst; clear Hx1.
  exists s1, pid, p, root, nature0, account_type0, nature, account_type, new_account.
  repeat split; assumption.
Qed.

(** ** The root of a new account *)

Lemma get_by_id_add (s : Store) (new_account : Z -> Account.t) (i : Z) (a : Account.t) :
  get_by_id s i = Some a -> get_by_id (add s new_account) i = Some a.
Proof.
  unfold get_by_id, add; simpl.
  induction (accounts s) as [|b l IH]; simpl; [discriminate|].
  destruct (Account.id b =? i); [trivial|exact IH].
Qed.

Lemma get_root_account_loop_None (fuel : nat) (s : Store) :
  get_root_account_loop fuel s None = Raise (PyError AttributeError).
Proof. now destruct fuel. Qed.

Lemma get_root_account_loop_S (fuel : nat) (s : Store) (c : Account.t) :
  get_root_account_loop (S fuel) s (Some c)
  = match Account.parent_id c with
    | None => Ok c
    | Some p => get_root_account_loop fuel s (get_by_id s p)
    end.
Proof. reflexivity. Qed.

Lemma get_root_account_loop_add (s : Store) (new_account : Z -> Account.t)
    (fuel : nat) (a root : Account.t) :
  get_root_account_loop fuel s (Some a) = Ok root ->
  get_root_account_loop fuel (add s new_account) (Some a) = Ok root.
Proof.
  revert a. induction fuel as [|fuel IH]; intros a; simpl.
  - destruct (Account.parent_id a); [discriminate|trivial].
  - destruct (Account.parent_id a) as [p|]; [|trivial].
    destruct (get_by_id s p) as [b|] eqn:Hb.
    + rewrite (get_by_id_add _ _ _ _ Hb). apply IH.
    + now rewrite get_root_account_loop_None.
Qed.

Lemma length_add (s : Store) (new_account : Z -> Account.t) :
  List.length (accounts (add s new_account)) = S (List.length (accounts s)).
Proof.
  unfold add; simpl. rewrite length_app; simpl. lia.
Qed.

(** The root of a row added under [parent] is the root of [parent]. *)
Lemma get_root_account_new (s : Store) (new_account : Z -> Account.t)
    (parent root : Account.t) :
  get_by_id s (Account.id parent) = Some parent ->
  get_root_account s (Some parent) = Ok root ->
  Account.parent_id (new_account (next_id s)) = Some (Account.id parent) ->
  get_root_account (add s new_account) (Some (new_account (next_id s))) = Ok root.
Proof.
  intros Hp Hr Hn. unfold get_root_account in *.
  rewrite length_add, get_root_account_loop_S, Hn.
  rewrite (get_by_id_add _ _ _ _ Hp).
  now apply get_root_account_loop_add.
Qed.

Lemma fill_new_account_info_inv (s : Store) (name : string) (nature : option string)
    (parent root : Account.t) (cc_required : bool) (account_type : option string)
    (new_account : Z -> Account.t) :
  get_root_account s (Some parent) = Ok root ->
  fill_new_account_info s name nature (Some parent) cc_required account_type
  = Ok new_account ->
  exists code,
    generate_code s (Some parent) = Ok code /\
    new_account =
    (fun i =>
       Account.mk i name code (Some (Account.id parent)) nature
         (match account_type with
          | Some _ => account_type
          | None =>
              if in_list (Account.name root) ["Assets"; "Liability & Equity"]
              then Some "balance_sheet"
              else if in_list (Account.name root) ["Revenue"; "Expenses"]
              then Some "p&l" else None
          end)
         (if cc_required then true
          else (if contains "cost of goods sold" (lower name) || contains "rebate" (lower name)
                then true
                else if (Account.name root =? "Expenses")%string
                     then (if negb (contains "depreciation" (lower name)) &&
                              negb (contains "bank charges" (lower name))
                           then true else false)
                     else false))).
Proof.
  intros Hr H. unfold fill_new_account_info in H.
  bind_inv H. bind_inv H. bind_inv H. inversion H; subst; clear H.
  exists x1. split; [assumption|].
  assert (Hx' : x = match account_type with
                    | Some _ => account_type
                    | None =>
                        if in_list (Account.name root) ["Assets"; "Liability & Equity"]
                        then Some "balance_sheet"
                        else if in_list (Account.name root) ["Revenue"; "Expenses"]
                        then Some "p&l" else None
                    end).
  { destruct account_type.
    - now inversion Hx.
    - rewrite Hr in Hx. cbn [bind] in Hx.
      destruct (in_list (Account.name root) ["Assets"; "Liability & Equity"]);
        [now inversion Hx|].
      destruct (in_list (Account.name root) ["Revenue"; "Expenses"]); now inversion Hx. }
  subst x. destruct cc_required.
  - now inversion Hx0.
  - rewrite Hr in Hx0. cbn [bind] in Hx0. now inversion Hx0.
Qed.

(** The row of a successful creation, field by field. *)
Lemma create_success (s s' : Store) (body : Body) (a : Account.t) :
  create_account_in_account_tree s body = (s', Ok a) ->
  exists s1 parent root nature0 account_type0 nature account_type code,
    validate_root_accounts s = Ok s1
    /\ extract_body body
       = Ok (strip (body_name body), Some (Account.id parent), nature0,
             body_cc_required body, account_type0)
    /\ check_if_account_exist s1 (strip (strip (body_name body))) = Ok tt
    /\ get_by_id s1 (Account.id parent) = Some parent
    /\ get_root_account s1 (Some parent) = Ok root
    /\ get_root_account s' (Some a) = Ok root
    /\ apply_root_rules root nature0 account_type0 = Ok (nature, account_type)
    /\ generate_code s1 (Some parent) = Ok code
    /\ Account.id a = next_id s1
    /\ Account.name a = strip (body_name body)
    /\ Account.code a = code
    /\ Account.parent_id a = Some (Account.id parent)
    /\ Account.nature a = nature
    /\ Account.account_type a =
       match account_type with
       | Some _ => account_type
       | None =>
           if in_list (Account.name root) ["Assets"; "Liability & Equity"]
           then Some "balance_sheet"
           else if in_list (Account.name root) ["Revenue"; "Expenses"]
           then Some "p&l" else None
       end
    /\ Account.cc_required a =
       (if body_cc_required body then true
        else (if contains "cost of goods sold" (lower (strip (body_name body)))
                 || contains "rebate" (lower (strip (body_name body)))
              then true
              else if (Account.name root =? "Expenses")%string
                   then (if negb (contains "depreciation" (lower (strip (body_name body)))) &&
                            negb (contains "bank charges" (lower (strip (body_name body))))
                         then true else false)
                   else false))
    /\ accounts s' = (accounts s1 ++ [a])%list
    /\ next_id s' = next_id s1 + 1.
Proof.
  intros H.
  apply create_success_inv in H
    as (s1 & pid & parent & root & nature0 & account_type0 & nature & account_type
        & new_account & Hv & He & Hc & Hp & Hr & Hrule & Hfill & -> & ->).
  pose proof (get_by_id_id _ _ _ Hp) as Hpid. subst pid.
  destruct (fill_new_account_info_inv _ _ _ _ _ _ _ _ Hr Hfill) as (code & Hcode & Heq).
  assert (Hnew : get_root_account (add s1 new_account) (Some (new_account (next_id s1)))
                 = Ok root).
  { apply (get_root_account_new s1 new_account parent root Hp Hr). now rewrite Heq. }
  subst new_account.
  exists s1, parent, root, nature0, account_type0, nature, account_type, code.
  repeat split; try assumption; try reflexivity.
Qed.

(** ** Updates, step by step *)

Lemma get_by_id_write (s : Store) (a a' : Account.t) :
  get_by_id s (Account.id a') = Some a ->
  get_by_id (write s a') (Account.id a') = Some a'.
Proof.
  unfold get_by_id, write; simpl.
  induction (accounts s) as [|b l IH]; simpl; [discriminate|].
  destruct (Account.id b =? Account.id a') eqn:E; simpl.
  - now rewrite Z.eqb_refl.
  - rewrite E. exact IH.
Qed.

Lemma update_name_absent (st : update_state) : update_name st None = Ok st.
Proof. now destruct st as [[s a] ch]. Qed.

Lemma update_cc_required_absent (st : update_state) : update_cc_required st None = Ok st.
Proof. now destruct st as [[s a] ch]. Qed.

Lemma update_account_type_absent (st : update_state) :
  update_account_type st None = Ok st.
Proof. now destruct st as [[s a] ch]. Qed.

Lemma check_if_account_exist_spec (s : Store) (name : string) :
  (check_if_account_exist s name = Raise (AccountExistsException name) /\
   exists b, In b (accounts s) /\ lower (Account.name b) = lower name)
  \/
  (check_if_account_exist s name = Ok tt /\
   forall b, In b (accounts s) -> lower (Account.name b) <> lower name).
Proof.
  unfold check_if_account_exist.
  destruct (find _ (accounts s)) as [b|] eqn:E.
  - left. split; [reflexivity|]. apply find_some in E as [Hin Hb].
    exists b. split; [assumption|]. now apply String.eqb_eq.
  - right. split; [reflexivity|]. intros b Hin.
    apply (find_none _ _ E) in Hin. now apply String.eqb_neq.
Qed.

(** ** Steps that raise, steps that change nothing *)

Lemma get_root_account_loop_raise (fuel : nat) (s : Store) (c : option Account.t) (e : exn) :
  get_root_account_loop fuel s c = Raise e -> e = PyError AttributeError.
Proof.
  revert c. induction fuel as [|fuel IH]; intros [c|]; simpl; intros H;
    try (now inversion H).
  - destruct (Account.parent_id c); discriminate.
  - destruct (Account.parent_id c); [now apply IH in H|discriminate].
Qed.

Lemma bind_Raise {A B : Type} (m : result A) (k : A -> result B) (e : exn) :
  bind m k = Raise e -> m = Raise e \/ exists a, m = Ok a /\ k a = Raise e.
Proof.
  destruct m as [a| |]; simpl; intros H; try discriminate.
  - right. now exists a.
  - left. now inversion H.
Qed.

Lemma raise_if_Raise (cond : bool) (e e' : exn) : raise_if cond e = Raise e' -> e' = e.
Proof. destruct cond; simpl; intros H; now inversion H. Qed.

Lemma same_cc_required_noop (st : update_state) (field : option json) :
  same_cc_required (snd (fst st)) field = true -> update_cc_required st field = Ok st.
Proof.
  destruct st as [[s a] ch]. simpl. unfold update_cc_required.
  destruct field as [[|b|v|]|]; simpl; try discriminate; [|reflexivity].
  intros H. now rewrite H.
Qed.

Lemma same_account_type_noop (st : update_state) (field : option json) :
  same_account_type (snd (fst st)) field = true -> update_account_type st field = Ok st.
Proof.
  destruct st as [[s a] ch]. simpl. unfold update_account_type, same_account_type.
  destruct field as [[|b|v|]|]; try discriminate; [| |reflexivity].
  - destruct (Account.account_type a); [discriminate|reflexivity].
  - destruct v as [|c v]; [destruct (Account.account_type a); [discriminate|reflexivity]|].
    intros H. apply andb_true_iff in H as [Hin Heq].
    cbv zeta. unfold in_list, existsb in *. rewrite Hin, Heq. reflexivity.
Qed.

(** ** Changing the account type (C8) *)

Lemma update_only_account_type (s : Store) (account_id : Z) (account : Account.t)
    (j : json) :
  get_by_id s account_id = Some account ->
  update_account s account_id (only_account_type j)
  = match update_account_type (s, account, []) (Some j) with
    | Ok (s', _, []) => (s, Ok NoChanges)
    | Ok (s', _, changes) => (s', Ok (Updated changes))
    | Raise e => (s, Raise e)
    | Diverge => (s, Diverge)
    end.
Proof.
  intros Hget. unfold update_account, get_single_account, only_account_type.
  rewrite Hget. cbn [bind f_name f_cc_required f_account_type update_name update_cc_required].
  destruct (update_account_type (s, account, []) (Some j)); reflexivity.
Qed.

(** The account-type step for a request that names a type other than
    the stored one. *)
Lemma update_account_type_change (s : Store) (account root : Account.t)
    (t : string) (ch : list string) :
  get_root_account s (Some account) = Ok root ->
  in_list (strip t) ["balance_sheet"; "p&l"] = true ->
  Account.account_type account <> Some (strip t) ->
  update_account_type (s, account, ch) (Some (JStr t))
  = if (strip t =? "balance_sheet")%string
    then if in_list (Account.name root) ["Assets"; "Liability & Equity"]
         then Ok (write s (Account.set_account_type account (Some (strip t))),
                  Account.set_account_type account (Some (strip t)),
                  (ch ++ ["account type"])%list)
         else Raise (BadRequest (BalanceSheetUnder (Account.name root)))
    else if in_list (Account.name root) ["Revenue"; "Expenses"]
         then Ok (write s (Account.set_account_type account (Some (strip t))),
                  Account.set_account_type account (Some (strip t)),
                  (ch ++ ["account type"])%list)
         else Raise (BadRequest (PLUnder (Account.name root))).
Proof.
  intros Hroot Hvalid Hchange.
  assert (Hnonempty : exists c r, t = String c r).
  { destruct t as [|c r]; [discriminate Hvalid|now exists c, r]. }
  destruct Hnonempty as (c & r & ->).
  unfold update_account_type. cbv zeta.
  rewrite Hvalid. cbn [negb raise_if bind].
  assert (Hne : opt_string_eqb (Account.account_type account) (Some (strip (String c r)))
                = false).
  { destruct (Account.account_type account) as [x|]; simpl; [|reflexivity].
    apply String.eqb_neq. congruence. }
  rewrite Hne, Hroot. cbn [negb bind].
  unfold in_list, existsb in Hvalid.
  destruct (strip (String c r) =? "balance_sheet")%string eqn:Hbs.
  - apply String.eqb_eq in Hbs. rewrite Hbs. cbn [andb String.eqb].
    destruct (in_list (Account.name root) ["Assets"; "Liability & Equity"]);
      reflexivity.
  - simpl in Hvalid. rewrite orb_false_r in Hvalid. rewrite Hvalid.
    cbn [andb raise_if bind].
    destruct (in_list (Account.name root) ["Revenue"; "Expenses"]); reflexivity.
Qed.

(** C8, as the code has it.  An update that names an account type other
    than the stored one is rejected with a [BadRequest], the store
    unchanged, unless the root of the account is named Assets or
    Liability & Equity for [balance_sheet], Revenue or Expenses for
    [p&l]; under such a root it succeeds and stores the type.  Under a
    root named Revenue a change to [balance_sheet] is rejected.  An
    update that clears the account type (null or the empty string)
    succeeds for every account and leaves it without a type.  An update
    that names the stored account type, with or without blanks around
    it, reports that nothing changed and leaves the store as it was,
    whatever the root of the account is and whether or not it has one. *)
Theorem account_type_change_guarded (s : Store) (account_id : Z) (account : Account.t)
    (Hget : get_by_id s account_id = Some account) :
  (forall root t,
     get_root_account s (Some account) = Ok root ->
     strip t = "balance_sheet" ->
     Account.account_type account <> Some "balance_sheet" ->
     update_account s account_id (only_account_type (JStr t))
     = if in_list (Account.name root) ["Assets"; "Liability & Equity"]
       then (write s (Account.set_account_type account (Some "balance_sheet")),
             Ok (Updated ["account type"]))
       else (s, Raise (BadRequest (BalanceSheetUnder (Account.name root)))))
  /\
  (forall root t,
     get_root_account s (Some account) = Ok root ->
     strip t = "p&l" ->
     Account.account_type account <> Some "p&l" ->
     update_account s account_id (only_account_type (JStr t))
     = if in_list (Account.name root) ["Revenue"; "Expenses"]
       then (write s (Account.set_account_type account (Some "p&l")),
             Ok (Updated ["account type"]))
       else (s, Raise (BadRequest (PLUnder (Account.name root)))))
  /\
  (forall root,
     get_root_account s (Some account) = Ok root ->
     Account.name root = "Revenue" ->
     Account.account_type account <> Some "balance_sheet" ->
     update_account s account_id (only_account_type (JStr "balance_sheet"))
     = (s, Raise (BadRequest (BalanceSheetUnder "Revenue"))))
  /\
  (forall j, j = JNull \/ j = JStr "" ->
     exists s' r,
       update_account s account_id (only_account_type j) = (s', Ok r)
       /\ option_map Account.account_type (get_by_id s' account_id) = Some None)
  /\
  (forall t v,
     t = "balance_sheet" \/ t = "p&l" ->
     Account.account_type account = Some t ->
     strip v = t ->
     update_account s account_id (only_account_type (JStr v)) = (s, Ok NoChanges)).
Proof.
  pose proof (get_by_id_id _ _ _ Hget) as Hid.
  assert (Hbs : forall root t,
     get_root_account s (Some account) = Ok root ->
     strip t = "balance_sheet" ->
     Account.account_type account <> Some "balance_sheet" ->
     update_account s account_id (only_account_type (JStr t))
     = if in_list (Account.name root) ["Assets"; "Liability & Equity"]
       then (write s (Account.set_account_type account (Some "balance_sheet")),
             Ok (Updated ["account type"]))
       else (s, Raise (BadRequest (BalanceSheetUnder (Account.name root))))).
  { intros root t Hroot Ht Hchange.
    rewrite (update_only_account_type _ _ _ _ Hget).
    rewrite (update_account_type_change s account root t [] Hroot);
      rewrite Ht; [|reflexivity|assumption].
    cbn [String.eqb Ascii.eqb Bool.eqb].
    destruct (in_list (Account.name root) ["Assets"; "Liability & Equity"]); reflexivity. }
  split; [exact Hbs|]. split; [|split; [|split]].
  - intros root t Hroot Ht Hchange.
    rewrite (update_only_account_type _ _ _ _ Hget).
    rewrite (update_account_type_change s account root t [] Hroot);
      rewrite Ht; [|reflexivity|assumption].
    cbn [String.eqb Ascii.eqb Bool.eqb].
    destruct (in_list (Account.name root) ["Revenue"; "Expenses"]); reflexivity.
  - intros root Hroot Hname Hchange.
    rewrite (Hbs root "balance_sheet" Hroot eq_refl Hchange), Hname. reflexivity.
  - intros j Hj.
    assert (Hstep : update_account_type (s, account, []) (Some j)
                    = match Account.account_type account with
                      | Some _ => Ok (write s (Account.set_account_type account None),
                                      Account.set_account_type account None,
                                      ["account type"])
                      | None => Ok (s, account, [])
                      end).
    { destruct Hj as [-> | ->]; reflexivity. }
    rewrite (update_only_account_type _ _ _ _ Hget), Hstep.
    destruct (Account.account_type account) as [old|] eqn:Hold.
    + eexists _, _. split; [reflexivity|].
      rewrite <- Hid.
      change (Account.id account)
        with (Account.id (Account.set_account_type account None)).
      rewrite (get_by_id_write s account); [reflexivity|].
      simpl. now rewrite Hid.
    + exists s, NoChanges. split; [reflexivity|]. now rewrite Hget, <- Hold.
  - intros t v Ht Hstored Hv.
    rewrite (update_only_account_type _ _ _ _ Hget).
    rewrite (same_account_type_noop (s, account, []) (Some (JStr v))); [reflexivity|].
    cbn [fst snd]. unfold same_account_type.
    destruct v as [|c v]; [destruct Ht as [-> | ->]; discriminate Hv|].
    rewrite Hv, Hstored. destruct Ht as [-> | ->]; reflexivity.
Qed.

(** The claim of C8 as worded fails: Cash is rooted at an account named
    Revenue and already of type [balance_sheet]; setting its type to
    [balance_sheet] is not rejected, it reports that nothing changed. *)
Lemma same_account_type_not_rejected :
  option_map Account.account_type (get_by_id relabelled_store 5)
  = Some (Some "balance_sheet")
  /\ option_map Account.name
       (match get_root_account relabelled_store (get_by_id relabelled_store 5) with
        | Ok root => Some root
        | _ => None
        end) = Some "Revenue"
  /\ update_account relabelled_store 5 (only_account_type (JStr "balance_sheet"))
     = (relabelled_store, Ok NoChanges)
  /\ ~ (exists e, snd (update_account relabelled_store 5
                         (only_account_type (JStr "balance_sheet"))) = Raise e).
Proof.
  split; [vm_compute; reflexivity|]. split; [vm_compute; reflexivity|].
  split; [vm_compute; reflexivity|].
  intros [e He]. vm_compute in He. discriminate He.
Qed.

(** ** Roots across a write *)

Section RootAcrossWrite.

Variable s : Store.
Variables a a' : Account.t.
Hypothesis Hget : get_by_id s (Account.id a') = Some a.
Hypothesis Hparent : Account.parent_id a' = Account.parent_id a.

Lemma moved_id (b : Account.t) : Account.id (moved a' b) = Account.id b.
Proof.
  unfold moved. destruct (Account.id b =? Account.id a') eqn:E; [|reflexivity].
  apply Z.eqb_eq in E. now rewrite E.
Qed.

Lemma moved_parent_id (b : Account.t) :
  first_of_key a a' b -> Account.parent_id (moved a' b) = Account.parent_id b.
Proof.
  unfold moved, first_of_key. intros Hb.
  destruct (Account.id b =? Account.id a') eqn:E; [|reflexivity].
  apply Z.eqb_eq in E. rewrite (Hb E). exact Hparent.
Qed.

Lemma get_by_id_first_of_key (i : Z) (b : Account.t) :
  get_by_id s i = Some b -> first_of_key a a' b.
Proof.
  intros Hb Hid. pose proof (get_by_id_id _ _ _ Hb) as Hi.
  rewrite <- Hi, Hid, Hget in Hb. now inversion Hb.
Qed.

Lemma get_by_id_write_any (i : Z) :
  get_by_id (write s a') i = option_map (moved a') (get_by_id s i).
Proof.
  unfold get_by_id, write; simpl.
  induction (accounts s) as [|b l IH]; simpl; [reflexivity|].
  fold (moved a' b). rewrite moved_id.
  destruct (Account.id b =? i); [reflexivity|exact IH].
Qed.

Lemma get_root_account_loop_write (fuel : nat) (c : option Account.t) (root : Account.t) :
  (forall b, c = Some b -> first_of_key a a' b) ->
  get_root_account_loop fuel s c = Ok root ->
  first_of_key a a' root /\
  get_root_account_loop fuel (write s a') (option_map (moved a') c) = Ok (moved a' root).
Proof.
  revert c. induction fuel as [|fuel IH]; intros [c|] Hc; simpl;
    try discriminate.
  - rewrite (moved_parent_id c (Hc c eq_refl)).
    destruct (Account.parent_id c); [discriminate|].
    intros H; inversion H; subst. split; [now apply Hc|reflexivity].
  - rewrite (moved_parent_id c (Hc c eq_refl)).
    destruct (Account.parent_id c) as [p|].
    + rewrite get_by_id_write_any. apply IH.
      intros b Hb. now apply (get_by_id_first_of_key p).
    + intros H; inversion H; subst. split; [now apply Hc|reflexivity].
Qed.

Lemma length_write : List.length (accounts (write s a')) = List.length (accounts s).
Proof. unfold write; simpl. apply length_map. Qed.

(** The root of the written account is the old root, or the written
    account itself when it was its own root. *)
Lemma get_root_account_write (root : Account.t) :
  get_root_account s (Some a) = Ok root ->
  exists root', get_root_account (write s a') (Some a') = Ok root'
                /\ (root' = root \/ (root = a /\ root' = a')).
Proof.
  unfold get_root_account. rewrite length_write. intros H.
  apply get_root_account_loop_write in H as [Hfirst H].
  - assert (Hm : moved a' a = a').
    { unfold moved. pose proof (get_by_id_id _ _ _ Hget) as Hid.
      rewrite Hid, Z.eqb_refl. reflexivity. }
    simpl option_map in H. rewrite Hm in H.
    exists (moved a' root). split; [exact H|].
    unfold moved. destruct (Account.id root =? Account.id a') eqn:E; [|now left].
    right. apply Z.eqb_eq in E. split; [now apply Hfirst|reflexivity].
  - intros b Hb. inversion Hb; subst. now intros _.
Qed.

End RootAcrossWrite.

(** ** Nature and account type against the root policy (C4) *)

Lemma opt_string_eqb_eq (x y : option string) : opt_string_eqb x y = true <-> x = y.
Proof.
  destruct x as [x|], y as [y|]; simpl; try (split; intros; congruence).
  rewrite String.eqb_eq. split; intros; congruence.
Qed.






Lemma keeps_type_write (a0 : Account.t) (s : Store) (a a' : Account.t)
    (ch ch' : list string) :
  keeps_type a0 (s, a, ch) ->
  Account.id a' = Account.id a -> Account.parent_id a' = Account.parent_id a ->
  Account.nature a' = Account.nature a ->
  Account.account_type a' = Account.account_type a ->
  keeps_type a0 (write s a', a', ch').
Proof.
  intros (Hid & Hp & Hn & Ht & Hg) Hid' Hp' Hn' Ht'. unfold keeps_type.
  repeat split; try congruence.
  rewrite <- Hid, <- Hid' in *. now apply (get_by_id_write s a).
Qed.

Lemma update_name_keeps_type (a0 : Account.t) (st st' : update_state)
    (field : option json) :
  keeps_type a0 st -> update_name st field = Ok st' -> keeps_type a0 st'.
Proof.
  destruct st as [[s a] ch]. unfold update_name. intros Hk.
  destruct field as [[|b|v|]|]; try discriminate.
  - intros H. bind_inv H.
    destruct (negb (lower (Account.name a) =? lower (strip v))%string).
    + bind_inv H. bind_inv H. inversion H; subst.
      apply (keeps_type_write a0 s a _ ch); [exact Hk|reflexivity..].
    + now inversion H; subst.
  - intros H. now inversion H; subst.
Qed.

Lemma update_cc_required_keeps_type (a0 : Account.t) (st st' : update_state)
    (field : option json) :
  keeps_type a0 st -> update_cc_required st field = Ok st' -> keeps_type a0 st'.
Proof.
  destruct st as [[s a] ch]. unfold update_cc_required. intros Hk.
  destruct field as [[|b|v|]|]; try discriminate.
  - destruct (negb (Bool.eqb (Account.cc_required a) b)).
    + intros H. bind_inv H. inversion H; subst.
      apply (keeps_type_write a0 s a _ ch); [exact Hk|reflexivity..].
    + intros H. now inversion H; subst.
  - intros H. now inversion H; subst.
Qed.

Lemma keeps_type_policy (a0 : Account.t) (st : update_state) :
  keeps_type a0 st -> keeps_policy a0 st.
Proof.
  destruct st as [[s a] ch]. intros (Hid & Hp & Hn & Ht & Hg).
  unfold keeps_policy. repeat split; auto.
Qed.

Lemma update_account_type_keeps_policy (a0 : Account.t) (st st' : update_state)
    (field : option json) :
  keeps_type a0 st -> update_account_type st field = Ok st' -> keeps_policy a0 st'.
Proof.
  destruct st as [[s a] ch]. intros Hk.
  pose proof Hk as (Hid & Hp & Hn & Ht & Hg).
  assert (Hclear : forall st',
            match Account.account_type a with
            | Some _ => Ok (write s (Account.set_account_type a None),
                            Account.set_account_type a None,
                            (ch ++ ["account type"])%list)
            | None => Ok (s, a, ch)
            end = Ok st' -> keeps_policy a0 st').
  { intros st0. destruct (Account.account_type a) eqn:Eold; intros H;
      inversion H; subst; [|now apply keeps_type_policy].
    unfold keeps_policy. repeat split; try assumption.
    - rewrite <- Hid.
      change (Account.id a) with (Account.id (Account.set_account_type a None)).
      apply (get_by_id_write s a). simpl. now rewrite Hid.
    - right. now left. }
  unfold update_account_type.
  destruct field as [[|b|v|]|]; try discriminate.
  - apply Hclear.
  - destruct v as [|c v]; [apply Hclear|]. cbv zeta.
    set (t := strip (String c v)).
    intros H. bind_inv H.
    destruct (negb (opt_string_eqb (Account.account_type a) (Some t)));
      [|inversion H; subst; now apply keeps_type_policy].
    bind_inv H. rename x0 into root. bind_inv H. bind_inv H.
    inversion H; subst; clear H.
    apply raise_if_Ok in Hx1, Hx2.
    assert (Hg' : get_by_id s (Account.id (Account.set_account_type a (Some t)))
                  = Some a) by (simpl; now rewrite Hid).
    destruct (get_root_account_write s a (Account.set_account_type a (Some t))
                Hg' eq_refl root Hx0) as (root' & Hroot' & Hcases).
    assert (Hname : Account.name root' = Account.name root).
    { destruct Hcases as [->|[-> ->]]; reflexivity. }
    unfold keeps_policy. repeat split; try assumption.
    + rewrite <- Hid.
      change (Account.id a) with (Account.id (Account.set_account_type a (Some t))).
      apply (get_by_id_write s a). exact Hg'.
    + right. right. exists root', t. split; [exact Hroot'|]. split; [reflexivity|].
      rewrite Hname. apply raise_if_Ok in Hx.
      apply negb_false_iff in Hx. unfold in_list, existsb in Hx.
      unfold type_allowed. unfold in_list, existsb in Hx1, Hx2.
      destruct (t =? "balance_sheet")%string eqn:Ebs.
      * left. apply String.eqb_eq in Ebs. split; [assumption|].
        simpl in Hx1. apply negb_false_iff in Hx1.
        rewrite orb_false_r in Hx1. apply orb_true_iff in Hx1.
        destruct Hx1 as [E|E]; apply String.eqb_eq in E; auto.
      * right. simpl in Hx. rewrite orb_false_r in Hx.
        rewrite Hx in Hx2. apply String.eqb_eq in Hx. split; [assumption|].
        simpl in Hx2. apply negb_false_iff in Hx2.
        rewrite orb_false_r in Hx2. apply orb_true_iff in Hx2.
        destruct Hx2 as [E|E]; apply String.eqb_eq in E; auto.
  - intros H. inversion H; subst. now apply keeps_type_policy.
Qed.



(** ** Keys *)

Lemma wf_keys_unique (s : Store) (a b : Account.t) :
  wf_keys s -> In a (accounts s) -> In b (accounts s) ->
  Account.id a = Account.id b -> a = b.
Proof.
  intros [Hnd _]. induction (accounts s) as [|c l IH]; simpl; [contradiction|].
  simpl in Hnd. inversion Hnd as [|x xs Hnotin Hnd']; subst.
  intros [->|Ha] [->|Hb] Hid; auto.
  - exfalso. apply Hnotin. rewrite Hid. now apply in_map.
  - exfalso. apply Hnotin. rewrite <- Hid. now apply in_map.
Qed.

Lemma write_accounts (s : Store) (a' : Account.t) :
  accounts (write s a') = map (moved a') (accounts s).
Proof. reflexivity. Qed.

(** Writing back a row that differs from the stored one in no framed
    column leaves every frame as it was. *)
Lemma write_frame (s : Store) (a a' : Account.t) :
  wf_keys s -> In a (accounts s) -> frame a' = frame a ->
  map frame (accounts (write s a')) = map frame (accounts s).
Proof.
  intros Hwf Hin Hf. rewrite write_accounts, map_map.
  apply map_ext_in. intros b Hb. unfold moved.
  destruct (Account.id b =? Account.id a') eqn:E; [|reflexivity].
  apply Z.eqb_eq in E.
  assert (Hid : Account.id a' = Account.id a) by (unfold frame in Hf; congruence).
  rewrite Hid in E. now rewrite (wf_keys_unique s b a Hwf Hb Hin E).
Qed.

Lemma write_ids (s : Store) (a' : Account.t) :
  map Account.id (accounts (write s a')) = map Account.id (accounts s).
Proof.
  rewrite write_accounts, map_map. apply map_ext. intros b. unfold moved.
  destruct (Account.id b =? Account.id a') eqn:E; [|reflexivity].
  apply Z.eqb_eq in E. now rewrite E.
Qed.

Lemma wf_keys_write (s : Store) (a' : Account.t) : wf_keys s -> wf_keys (write s a').
Proof.
  intros [Hnd Hlt]. split.
  - now rewrite write_ids.
  - intros b Hb. change (next_id (write s a')) with (next_id s).
    apply (in_map Account.id) in Hb. rewrite write_ids in Hb.
    apply in_map_iff in Hb as (c & <- & Hc). now apply Hlt.
Qed.

Lemma wf_keys_add (s : Store) (new_account : Z -> Account.t) :
  (forall i, Account.id (new_account i) = i) ->
  wf_keys s -> wf_keys (add s new_account).
Proof.
  intros Hnew [Hnd Hlt]. unfold add. split; simpl.
  - rewrite map_app. simpl. rewrite Hnew.
    apply NoDup_app; [assumption|repeat constructor; auto|].
    intros i Hi [<-|[]]. apply in_map_iff in Hi as (c & Hc & Hin).
    apply Hlt in Hin. lia.
  - intros b Hb. apply in_app_or in Hb as [Hb|[<-|[]]].
    + apply Hlt in Hb. lia.
    + rewrite Hnew. lia.
Qed.

Lemma wf_keys_remove (s : Store) (a : Account.t) : wf_keys s -> wf_keys (remove s a).
Proof.
  intros [Hnd Hlt]. unfold remove. split; simpl.
  - induction (accounts s) as [|b l IH]; simpl; [constructor|].
    simpl in Hnd. inversion Hnd as [|x xs Hnotin Hnd']; subst.
    assert (IH' : NoDup (map Account.id
                     (filter (fun b => negb (Account.id b =? Account.id a)) l))).
    { apply IH; [assumption|]. intros c Hc. apply Hlt. now right. }
    destruct (negb (Account.id b =? Account.id a)); [|exact IH'].
    simpl. constructor; [|exact IH'].
    intros Hin. apply Hnotin. apply in_map_iff in Hin as (c & Hc & Hin).
    apply filter_In in Hin as [Hin _]. rewrite <- Hc. now apply in_map.
  - intros b Hb. apply filter_In in Hb as [Hb _]. now apply Hlt.
Qed.

Lemma wf_keys_empty (journal : list DailyEntries.t) (sales purchases expenses : list Z) :
  wf_keys (mkStore [] 1 journal sales purchases expenses).
Proof. split; simpl; [constructor|contradiction]. Qed.

(** The parentless rows depend on the frames only. *)
Lemma root_keys_frame (s s' : Store) :
  map frame (accounts s') = map frame (accounts s) -> root_keys s' = root_keys s.
Proof.
  unfold root_keys, with_parent.
  generalize (accounts s). generalize (accounts s').
  induction l as [|a l IH]; intros [|b m]; simpl; try discriminate; [reflexivity|].
  intros H. inversion H as [[Hid Hname Hcode Hparent Hnature Hrest]].
  rewrite Hparent. destruct (opt_Z_eqb (Account.parent_id b) None); simpl.
  - rewrite Hid, Hname. f_equal. now apply IH.
  - now apply IH.
Qed.

(** ** The bootstrap, entry by entry *)

Lemma validate_root_accounts_unfold (s : Store) :
  validate_root_accounts s = validate_roots root_accounts s.
Proof. reflexivity. Qed.

Lemma validate_roots_stuck (entries : list (string * root_props)) (r : result Store) :
  (forall s, r <> Ok s) ->
  fold_left (fun acc entry => s' <- acc ;; validate_root s' entry) entries r = r.
Proof.
  intros Hr. induction entries as [|e es IH]; simpl; [reflexivity|].
  destruct r as [s| |]; [now contradiction (Hr s)| |]; exact IH.
Qed.

Lemma validate_roots_cons (e : string * root_props) (es : list (string * root_props))
    (s : Store) :
  validate_roots (e :: es) s = s' <- validate_root s e ;; validate_roots es s'.
Proof.
  unfold validate_roots. simpl.
  destruct (validate_root s e) as [s'| |]; simpl; [reflexivity| |];
    apply validate_roots_stuck; discriminate.
Qed.

Lemma synced_spec (props : root_props) (account : Account.t) :
  frame (synced props account) = frame account
  /\ Account.account_type (synced props account) = Some (props_account_type props)
  /\ Account.cc_required (synced props account) = props_cc_required props.
Proof.
  unfold synced.
  destruct (opt_string_eqb (Account.account_type account)
                           (Some (props_account_type props))) eqn:Et; simpl;
    destruct (Bool.eqb (Account.cc_required account) (props_cc_required props)) eqn:Ec;
    simpl; repeat split;
    try (now apply opt_string_eqb_eq in Et); try (now apply Bool.eqb_prop in Ec).
Qed.

Lemma synced_fixed (props : root_props) (account : Account.t) :
  Account.account_type account = Some (props_account_type props) ->
  Account.cc_required account = props_cc_required props ->
  synced props account = account.
Proof.
  intros Ht Hc. unfold synced. rewrite Ht. simpl. rewrite String.eqb_refl. simpl.
  rewrite Hc, Bool.eqb_reflx. reflexivity.
Qed.

Lemma validate_root_found (s : Store) (name : string) (props : root_props)
    (account : Account.t) :
  find_root s name = Some account ->
  validate_root s (name, props) = Ok (write s (synced props account)).
Proof. intros H. unfold validate_root. now rewrite H. Qed.

Lemma validate_root_missing (s : Store) (name : string) (props : root_props) :
  find_root s name = None ->
  validate_root s (name, props)
  = code <- generate_code s None ;;
    Ok (add s (fun i => Account.mk i name code None (Some (props_nature props))
                          (Some (props_account_type props)) (props_cc_required props))).
Proof. intros H. unfold validate_root. now rewrite H. Qed.

Lemma find_root_In (s : Store) (name : string) (r : Account.t) :
  find_root s name = Some r ->
  In r (accounts s) /\ Account.name r = name /\ Account.parent_id r = None.
Proof.
  unfold find_root. intros H. apply find_some in H as [Hin H].
  apply andb_true_iff in H as [Hn Hp]. apply String.eqb_eq in Hn.
  destruct (Account.parent_id r); [discriminate|]. auto.
Qed.

Lemma find_map_stable {A : Type} (P : A -> bool) (g : A -> A) (l : list A) :
  (forall b, In b l -> P (g b) = P b) ->
  (forall b, In b l -> P b = true -> g b = b) ->
  find P (map g l) = find P l.
Proof.
  induction l as [|b l IH]; simpl; [reflexivity|]. intros H1 H2.
  rewrite (H1 b (or_introl eq_refl)).
  destruct (P b) eqn:E.
  - now rewrite (H2 b (or_introl eq_refl) E).
  - apply IH; intros c Hc; [apply H1|apply H2]; now right.
Qed.

(** A root written back is found again under its name. *)
Lemma find_root_write_same (s : Store) (name : string) (r r' : Account.t) :
  wf_keys s -> find_root s name = Some r -> frame r' = frame r ->
  find_root (write s r') name = Some r'.
Proof.
  intros Hwf Hfind Hf.
  destruct (find_root_In _ _ _ Hfind) as (Hin & Hname & Hparent).
  assert (Hid : Account.id r' = Account.id r) by (unfold frame in Hf; congruence).
  assert (Hn : Account.name r' = Account.name r) by (unfold frame in Hf; congruence).
  assert (Hp : Account.parent_id r' = Account.parent_id r)
    by (unfold frame in Hf; congruence).
  assert (Huniq : forall b, In b (accounts s) -> Account.id b = Account.id r -> b = r).
  { intros b Hb E. now apply (wf_keys_unique s). }
  unfold find_root in *. rewrite write_accounts.
  revert Hfind Hin.
  induction (accounts s) as [|b l IH]; simpl; [discriminate|].
  intros Hfind _.
  assert (Hm : moved r' b = if Account.id b =? Account.id r' then r' else b)
    by reflexivity.
  rewrite Hm. clear Hm.
  destruct (Account.id b =? Account.id r') eqn:E.
  - apply Z.eqb_eq in E. rewrite Hid in E.
    rewrite (Huniq b (or_introl eq_refl) E) in *.
    now rewrite Hn, Hp, Hname, Hparent, String.eqb_refl.
  - destruct ((Account.name b =? name)%string && opt_Z_eqb (Account.parent_id b) None).
    + inversion Hfind; subst. rewrite Hid, Z.eqb_refl in E. discriminate.
    + assert (Hin : In r l).
      { apply find_some in Hfind. tauto. }
      apply IH; auto. intros c Hc. apply Huniq. now right.
Qed.

(** A root written back does not disturb the search for another name. *)
Lemma find_root_write_other (s : Store) (name : string) (r r' : Account.t) :
  wf_keys s -> In r (accounts s) -> frame r' = frame r -> Account.name r <> name ->
  find_root (write s r') name = find_root s name.
Proof.
  intros Hwf Hin Hf Hne.
  assert (Hid : Account.id r' = Account.id r) by (unfold frame in Hf; congruence).
  assert (Hn : Account.name r' = Account.name r) by (unfold frame in Hf; congruence).
  assert (Hsame : forall b, In b (accounts s) ->
            (Account.id b =? Account.id r') = true -> b = r).
  { intros b Hb E. apply Z.eqb_eq in E. rewrite Hid in E.
    now apply (wf_keys_unique s). }
  assert (Hfalse : forall c, Account.name c = Account.name r ->
            (Account.name c =? name)%string && opt_Z_eqb (Account.parent_id c) None = false).
  { intros c Hc. apply andb_false_iff. left. apply String.eqb_neq. congruence. }
  unfold find_root. rewrite write_accounts. apply find_map_stable.
  - intros b Hb. unfold moved.
    destruct (Account.id b =? Account.id r') eqn:E; [|reflexivity].
    rewrite (Hsame b Hb E). now rewrite (Hfalse r' Hn), (Hfalse r eq_refl).
  - intros b Hb Hpb. unfold moved.
    destruct (Account.id b =? Account.id r') eqn:E; [|reflexivity].
    rewrite (Hsame b Hb E) in Hpb. rewrite (Hfalse r eq_refl) in Hpb. discriminate.
Qed.

Lemma find_app_some {A : Type} (P : A -> bool) (l m : list A) (x : A) :
  find P l = Some x -> find P (l ++ m) = Some x.
Proof.
  induction l as [|b l IH]; simpl; [discriminate|].
  destruct (P b); [trivial|exact IH].
Qed.

Lemma find_app_none {A : Type} (P : A -> bool) (l m : list A) :
  find P l = None -> find P (l ++ m) = find P m.
Proof.
  induction l as [|b l IH]; simpl; [reflexivity|].
  destruct (P b); [discriminate|exact IH].
Qed.

Lemma settled_write (s : Store) (name : string) (props : root_props) (r : Account.t)
    (entry : string * root_props) :
  wf_keys s -> find_root s name = Some r -> fst entry <> name ->
  settled s entry -> settled (write s (synced props r)) entry.
Proof.
  intros Hwf Hfind Hne (r0 & H0 & Ht & Hc).
  destruct (find_root_In _ _ _ Hfind) as (Hin & Hname & _).
  destruct (synced_spec props r) as (Hf & _).
  exists r0. split; [|auto].
  rewrite (find_root_write_other s (fst entry) r _ Hwf Hin Hf); [assumption|].
  congruence.
Qed.

Lemma settled_add (s : Store) (new_account : Z -> Account.t)
    (entry : string * root_props) :
  settled s entry -> settled (add s new_account) entry.
Proof.
  intros (r0 & H0 & Ht & Hc). exists r0. split; [|auto].
  unfold find_root, add; simpl. now apply find_app_some.
Qed.

(** One turn of the loop: the entry is settled, the frames of the old
    rows stay, rows are only appended, and what was settled stays so. *)
Lemma validate_root_step (s s' : Store) (entry : string * root_props) :
  wf_keys s -> validate_root s entry = Ok s' ->
  wf_keys s'
  /\ settled s' entry
  /\ (exists news, map frame (accounts s') = (map frame (accounts s) ++ map frame news)%list
                   /\ forall a, In a news ->
                        find_root s (fst entry) = None /\
                        a = Account.mk (next_id s) (fst entry) (Account.code a) None
                              (Some (props_nature (snd entry)))
                              (Some (props_account_type (snd entry)))
                              (props_cc_required (snd entry)))
  /\ (forall e, fst e <> fst entry -> settled s e -> settled s' e).
Proof.
  destruct entry as [name props]. intros Hwf H.
  destruct (find_root s name) as [r|] eqn:Hfind.
  - rewrite (validate_root_found _ _ _ _ Hfind) in H. inversion H; subst; clear H.
    destruct (find_root_In _ _ _ Hfind) as (Hin & Hname & Hparent).
    destruct (synced_spec props r) as (Hf & Ht & Hc).
    split; [now apply wf_keys_write|]. split; [|split].
    + exists (synced props r). split; [|auto].
      now apply (find_root_write_same s name r).
    + exists []. simpl. rewrite app_nil_r. split; [|contradiction].
      now apply (write_frame s r).
    + intros e Hne He. now apply (settled_write s name).
  - rewrite (validate_root_missing _ _ _ Hfind) in H. bind_inv H.
    inversion H; subst; clear H. rename x into code.
    split; [apply wf_keys_add; auto|]. split; [|split].
    + eexists. split.
      { unfold find_root, add; simpl. unfold find_root in Hfind.
        rewrite (find_app_none _ _ _ Hfind). simpl. now rewrite String.eqb_refl. }
      split; reflexivity.
    + eexists [_]. unfold add; simpl. rewrite map_app. split; [reflexivity|].
      intros a [<-|[]]. split; [assumption|reflexivity].
    + intros e _ He. now apply settled_add.
Qed.

Lemma validate_roots_settle (entries : list (string * root_props)) (s s' : Store) :
  NoDup (map fst entries) -> wf_keys s -> validate_roots entries s = Ok s' ->
  wf_keys s'
  /\ (forall e, In e entries -> settled s' e)
  /\ (forall e, ~ In (fst e) (map fst entries) -> settled s e -> settled s' e)
  /\ (exists news, map frame (accounts s') = (map frame (accounts s) ++ map frame news)%list).
Proof.
  revert s. induction entries as [|e es IH]; intros s Hnd Hwf H.
  - inversion H; subst. split; [assumption|]. split; [contradiction|].
    split; [auto|]. exists []. simpl. now rewrite app_nil_r.
  - rewrite validate_roots_cons in H. bind_inv H. rename x into s1.
    simpl in Hnd. inversion Hnd as [|n ns Hnotin Hnd']; subst.
    destruct (validate_root_step _ _ _ Hwf Hx) as (Hwf1 & He & (news1 & Hf1 & _) & Hkeep1).
    destruct (IH s1 Hnd' Hwf1 H) as (Hwf' & Hes & Hkeep & (news & Hf)).
    split; [assumption|]. split; [|split].
    + intros e0 [<-|Hin]; [now apply Hkeep|now apply Hes].
    + intros e0 Hnot He0. apply Hkeep.
      * intros Hin. apply Hnot. now right.
      * apply Hkeep1; [|assumption]. intros Heq. apply Hnot. now left.
    + exists (news1 ++ news)%list. rewrite Hf, Hf1, map_app, app_assoc. reflexivity.
Qed.

Lemma write_fixed (s : Store) (r : Account.t) :
  wf_keys s -> In r (accounts s) -> write s r = s.
Proof.
  intros Hwf Hin. unfold write, with_accounts. destruct s as [l n j sa pu ex]; simpl in *.
  f_equal. rewrite <- (map_id l) at 2. apply map_ext_in. intros b Hb.
  destruct (Account.id b =? Account.id r) eqn:E; [|reflexivity].
  apply Z.eqb_eq in E. symmetry.
  now apply (wf_keys_unique (mkStore l n j sa pu ex)).
Qed.

(** Where every entry is settled the loop changes nothing. *)
Lemma validate_roots_settled (entries : list (string * root_props)) (s : Store) :
  wf_keys s -> (forall e, In e entries -> settled s e) ->
  validate_roots entries s = Ok s.
Proof.
  intros Hwf. induction entries as [|[name props] es IH]; intros Hs; [reflexivity|].
  rewrite validate_roots_cons.
  destruct (Hs (name, props) (or_introl eq_refl)) as (r & Hfind & Ht & Hc).
  simpl in Hfind, Ht, Hc.
  rewrite (validate_root_found _ _ _ _ Hfind), (synced_fixed _ _ Ht Hc).
  destruct (find_root_In _ _ _ Hfind) as (Hin & _).
  rewrite (write_fixed _ _ Hwf Hin). cbn [bind].
  apply IH. intros e He. apply Hs. now right.
Qed.

Lemma root_accounts_NoDup : NoDup (map fst root_accounts).
Proof.
  repeat (constructor; [simpl; intuition discriminate|]). constructor.
Qed.

(** The bootstrap is idempotent on a store with proper keys. *)
Lemma validate_root_accounts_idempotent (s s1 : Store) :
  wf_keys s -> validate_root_accounts s = Ok s1 ->
  wf_keys s1 /\ validate_root_accounts s1 = Ok s1.
Proof.
  intros Hwf H. rewrite validate_root_accounts_unfold in *.
  destruct (validate_roots_settle _ _ _ root_accounts_NoDup Hwf H) as (Hwf1 & Hs & _).
  split; [assumption|]. now apply validate_roots_settled.
Qed.

(** ** The bootstrap on a chart without roots *)

Lemma filter_nil_forall {A : Type} (P : A -> bool) (l : list A) :
  filter P l = [] -> forall x, In x l -> P x = false.
Proof.
  intros H x Hin. destruct (P x) eqn:E; [|reflexivity].
  assert (Hf : In x (filter P l)) by (apply filter_In; auto).
  rewrite H in Hf. contradiction.
Qed.

Lemma with_parent_grown (s : Store) (m : list Account.t) (n : Z) :
  with_parent s None = [] ->
  with_parent (grown s m n) None = filter (fun a => opt_Z_eqb (Account.parent_id a) None) m.
Proof.
  unfold with_parent, grown; simpl. intros H. now rewrite filter_app, H.
Qed.

Lemma find_root_grown (s : Store) (m : list Account.t) (n : Z) (name : string) :
  with_parent s None = [] ->
  find_root (grown s m n) name
  = find (fun a => (Account.name a =? name)%string && opt_Z_eqb (Account.parent_id a) None) m.
Proof.
  unfold find_root, grown; simpl. intros H. apply find_app_none.
  destruct (find _ (accounts s)) as [r|] eqn:E; [|reflexivity].
  apply find_some in E as [Hin E]. apply andb_true_iff in E as [_ E].
  unfold with_parent in H. now rewrite (filter_nil_forall _ _ H r Hin) in E.
Qed.

Lemma add_grown (s : Store) (m : list Account.t) (n : Z) (new_account : Z -> Account.t) :
  add (grown s m n) new_account = grown s (m ++ [new_account n]) (n + 1).
Proof.
  unfold add, grown, with_accounts; simpl. now rewrite app_assoc.
Qed.

Lemma grown_nil (s : Store) : grown s [] (next_id s) = s.
Proof.
  unfold grown, with_accounts. rewrite app_nil_r. now destruct s.
Qed.

(** Without a parentless row the bootstrap succeeds and appends the four
    canonical roots, coded 1000 to 4000. *)
Lemma validate_root_accounts_seed (s : Store) :
  with_parent s None = [] ->
  validate_root_accounts s = Ok (grown s (seed (next_id s)) (next_id s + 1 + 1 + 1 + 1)).
Proof.
  intros H. rewrite validate_root_accounts_unfold. unfold root_accounts.
  rewrite <- (grown_nil s) at 1.
  repeat (rewrite validate_roots_cons;
          rewrite validate_root_missing by (now rewrite (find_root_grown _ _ _ _ H));
          unfold generate_code; rewrite (with_parent_grown _ _ _ H);
          cbn [filter Account.parent_id opt_Z_eqb first_by_code_desc Account.code
               String.ltb String.compare Ascii.compare];
          simpl bind; rewrite add_grown; simpl app).
  reflexivity.
Qed.

(** ** Idempotence of the bootstrap (C9) *)

Lemma bootstrap_times_fixed (n : nat) (s : Store) :
  validate_root_accounts s = Ok s -> bootstrap_times n s = Ok s.
Proof.
  intros H. induction n as [|n IH]; simpl; [reflexivity|]. now rewrite H.
Qed.

(** C9, as the code has it.  On a store with proper keys where the
    bootstrap succeeds, any number [n >= 1] of invocations yields the
    store of the first one: later invocations change nothing, so no key
    changes after a root is created.  The first invocation keeps key,
    name, code, parent and nature of every row and only appends rows;
    after it each of the four names has a parentless account with the
    canonical account type and [cc_required = false].  On a store
    without parentless rows it succeeds, and the parentless rows are
    then exactly the four roots with the canonical nature, account type
    and [cc_required], coded 1000, 2000, 3000, 4000. *)
Theorem bootstrap_idempotent :
  (forall s s1 n,
     wf_keys s -> validate_root_accounts s = Ok s1 -> (1 <= n)%nat ->
     bootstrap_times n s = Ok s1)
  /\
  (forall s s1,
     wf_keys s -> validate_root_accounts s = Ok s1 ->
     (exists news, map frame (accounts s1)
                   = (map frame (accounts s) ++ map frame news)%list)
     /\ (forall e, In e root_accounts -> settled s1 e))
  /\
  (forall s,
     with_parent s None = [] ->
     exists s1,
       validate_root_accounts s = Ok s1
       /\ map root_values (with_parent s1 None) = canonical_roots
       /\ map Account.code (with_parent s1 None) = ["1000"; "2000"; "3000"; "4000"]
       /\ map Account.id (with_parent s1 None)
          = [next_id s; next_id s + 1; next_id s + 1 + 1; next_id s + 1 + 1 + 1]).
Proof.
  split; [|split].
  - intros s s1 n Hwf H Hn. destruct n as [|n]; [lia|]. simpl. rewrite H. cbn [bind].
    apply bootstrap_times_fixed. now apply (validate_root_accounts_idempotent s).
  - intros s s1 Hwf H. rewrite validate_root_accounts_unfold in H.
    destruct (validate_roots_settle _ _ _ root_accounts_NoDup Hwf H)
      as (_ & Hs & _ & Hnews).
    split; assumption.
  - intros s H. eexists. split; [now apply validate_root_accounts_seed|].
    rewrite (with_parent_grown _ _ _ H). repeat split.
Qed.

(** The claim of C9 as worded fails.  After the root Assets was renamed,
    the bootstrap leaves five parentless accounts; and where the root
    Assets was renamed to Revenue, the bootstrap leaves the root Revenue
    with the nature [debit]. *)
Lemma bootstrap_not_canonical :
  map Account.name (roots_after_bootstrap renamed_root_store)
  = ["Holdings"; "Liability & Equity"; "Expenses"; "Revenue"; "Assets"]
  /\ List.length (roots_after_bootstrap renamed_root_store) <> 4%nat
  /\ map root_values (roots_after_bootstrap relabelled_store)
     = [ ("Revenue", Some "debit", Some "p&l", false);
         ("Liability & Equity", Some "credit", Some "balance_sheet", false);
         ("Expenses", Some "debit", Some "p&l", false);
         ("Assets", Some "debit", Some "balance_sheet", false) ]
  /\ ~ In ("Revenue", Some "credit", Some "p&l", false)
          (map root_values (roots_after_bootstrap relabelled_store)).
Proof.
  split; [vm_compute; reflexivity|]. split; [vm_compute; discriminate|].
  split; [vm_compute; reflexivity|].
  vm_compute. intuition discriminate.
Qed.

(** ** The roots under the operations (C1) *)

Lemma root_keys_unfold (s : Store) :
  root_keys s = map key_name (filter is_root (accounts s)).
Proof. reflexivity. Qed.

Lemma root_keys_map (g : Account.t -> Account.t) (l : list Account.t) :
  (forall b, In b l -> is_root (g b) = is_root b) ->
  (forall b, In b l -> is_root b = true -> key_name (g b) = key_name b) ->
  map key_name (filter is_root (map g l)) = map key_name (filter is_root l).
Proof.
  induction l as [|b l IH]; simpl; [reflexivity|]. intros H1 H2.
  rewrite (H1 b (or_introl eq_refl)).
  assert (IH' : map key_name (filter is_root (map g l)) = map key_name (filter is_root l)).
  { apply IH; intros c Hc; [apply H1|apply H2]; now right. }
  destruct (is_root b) eqn:E; simpl; [|exact IH'].
  now rewrite (H2 b (or_introl eq_refl) E), IH'.
Qed.

(** Writing a row back keeps the parentless rows when the row keeps its
    key and parent and either keeps its name or has a parent. *)
Lemma root_keys_write (s : Store) (a a' : Account.t) :
  wf_keys s -> In a (accounts s) ->
  Account.id a' = Account.id a -> Account.parent_id a' = Account.parent_id a ->
  (Account.name a' = Account.name a \/ Account.parent_id a <> None) ->
  root_keys (write s a') = root_keys s.
Proof.
  intros Hwf Hin Hid Hp Hn. rewrite !root_keys_unfold, write_accounts.
  assert (Hsame : forall b, In b (accounts s) ->
            (Account.id b =? Account.id a') = true -> b = a).
  { intros b Hb E. apply Z.eqb_eq in E. rewrite Hid in E.
    now apply (wf_keys_unique s). }
  apply root_keys_map.
  - intros b Hb. unfold moved.
    destruct (Account.id b =? Account.id a') eqn:E; [|reflexivity].
    rewrite (Hsame b Hb E). unfold is_root. now rewrite Hp.
  - intros b Hb Hr. unfold moved.
    destruct (Account.id b =? Account.id a') eqn:E; [|reflexivity].
    rewrite (Hsame b Hb E) in *. unfold key_name. rewrite Hid.
    destruct Hn as [->|Hn]; [reflexivity|].
    unfold is_root in Hr. destruct (Account.parent_id a); [discriminate|tauto].
Qed.

Lemma root_keys_add (s : Store) (new_account : Z -> Account.t) :
  Account.parent_id (new_account (next_id s)) <> None ->
  root_keys (add s new_account) = root_keys s.
Proof.
  intros Hp. rewrite !root_keys_unfold. unfold add; simpl.
  rewrite filter_app. simpl. unfold is_root at 2.
  destruct (Account.parent_id (new_account (next_id s))); [|contradiction].
  simpl. now rewrite app_nil_r.
Qed.

Lemma root_keys_remove (s : Store) (a : Account.t) :
  wf_keys s -> In a (accounts s) -> Account.parent_id a <> None ->
  root_keys (remove s a) = root_keys s.
Proof.
  intros Hwf Hin Hp. rewrite !root_keys_unfold. unfold remove; simpl.
  assert (Hsame : forall b, In b (accounts s) ->
            (Account.id b =? Account.id a) = true -> is_root b = false).
  { intros b Hb E. apply Z.eqb_eq in E.
    rewrite (wf_keys_unique s b a Hwf Hb Hin E). unfold is_root.
    destruct (Account.parent_id a); [reflexivity|contradiction]. }
  clear Hin. revert Hsame.
  induction (accounts s) as [|b l IH]; simpl; [reflexivity|]. intros Hsame.
  assert (IH' : map key_name (filter is_root
                   (filter (fun b => negb (Account.id b =? Account.id a)) l))
                = map key_name (filter is_root l)).
  { apply IH. intros c Hc. apply Hsame. now right. }
  destruct (Account.id b =? Account.id a) eqn:E; simpl.
  - rewrite (Hsame b (or_introl eq_refl) E). exact IH'.
  - destruct (is_root b); simpl; now rewrite IH'.
Qed.

Lemma find_root_present (s : Store) (name : string) :
  In name (map snd (root_keys s)) -> exists r, find_root s name = Some r.
Proof.
  intros H. unfold root_keys in H. rewrite map_map in H. simpl in H.
  apply in_map_iff in H as (r & Hname & Hin).
  unfold with_parent in Hin. apply filter_In in Hin as [Hin Hp].
  unfold find_root.
  destruct (find _ (accounts s)) as [r0|] eqn:E; [now exists r0|].
  apply (find_none _ _ E) in Hin. rewrite Hname, String.eqb_refl, Hp in Hin.
  discriminate.
Qed.

(** Where every name of the table has a parentless account, the loop
    succeeds, creates nothing and keeps the parentless rows. *)
Lemma validate_roots_present (entries : list (string * root_props)) (s : Store) :
  wf_keys s ->
  (forall e, In e entries -> In (fst e) (map snd (root_keys s))) ->
  exists s1, validate_roots entries s = Ok s1
             /\ wf_keys s1 /\ root_keys s1 = root_keys s.
Proof.
  revert s. induction entries as [|[name props] es IH]; intros s Hwf Hall.
  - exists s. split; [reflexivity|]. split; [assumption|reflexivity].
  - destruct (find_root_present s name (Hall (name, props) (or_introl eq_refl)))
      as (r & Hfind).
    destruct (find_root_In _ _ _ Hfind) as (Hin & Hname & Hparent).
    destruct (synced_spec props r) as (Hf & _).
    assert (Hkeys : root_keys (write s (synced props r)) = root_keys s).
    { apply (root_keys_write s r); auto; unfold frame in Hf; try congruence.
      left. congruence. }
    destruct (IH (write s (synced props r))) as (s1 & Hrun & Hwf1 & Hk1).
    + now apply wf_keys_write.
    + intros e He. rewrite Hkeys. apply Hall. now right.
    + exists s1. rewrite validate_roots_cons, (validate_root_found _ _ _ _ Hfind).
      cbn [bind]. split; [assumption|]. split; [assumption|congruence].
Qed.

Lemma four_roots_present (s : Store) :
  four_roots s -> forall e, In e root_accounts -> In (fst e) (map snd (root_keys s)).
Proof.
  intros H e He. apply (Permutation_in _ (Permutation_sym H)).
  unfold root_names. now apply in_map.
Qed.

Lemma wf_keys_snoc (s s' : Store) (a : Account.t) :
  wf_keys s -> accounts s' = (accounts s ++ [a])%list ->
  Account.id a = next_id s -> next_id s' = next_id s + 1 -> wf_keys s'.
Proof.
  intros [Hnd Hlt] Hacc Hid Hnext. split.
  - rewrite Hacc, map_app. simpl. rewrite Hid.
    apply NoDup_app; [assumption|repeat constructor; auto|].
    intros i Hi [<-|[]]. apply in_map_iff in Hi as (c & Hc & Hin).
    apply Hlt in Hin. lia.
  - intros b Hb. rewrite Hacc in Hb. rewrite Hnext.
    apply in_app_or in Hb as [Hb|[<-|[]]]; [apply Hlt in Hb|]; lia.
Qed.

Lemma root_keys_snoc (s s' : Store) (a : Account.t) :
  accounts s' = (accounts s ++ [a])%list -> Account.parent_id a <> None ->
  root_keys s' = root_keys s.
Proof.
  intros Hacc Hp. rewrite !root_keys_unfold, Hacc, filter_app. simpl.
  unfold is_root at 2. destruct (Account.parent_id a); [|contradiction].
  simpl. now rewrite app_nil_r.
Qed.

Lemma create_keeps_roots (s : Store) (body : Body) :
  wf_keys s -> four_roots s ->
  wf_keys (fst (create_account_in_account_tree s body))
  /\ root_keys (fst (create_account_in_account_tree s body)) = root_keys s.
Proof.
  intros Hwf H4.
  destruct (validate_roots_present root_accounts s Hwf (four_roots_present s H4))
    as (s1 & Hv & Hwf1 & Hk1).
  rewrite <- validate_root_accounts_unfold in Hv.
  destruct (create_account_in_account_tree s body) as [s' r] eqn:Hc.
  destruct r as [a|e|].
  - apply create_success in Hc
      as (s1' & parent & root & n0 & t0 & n & t & code & Hv' & _ & _ & _ & _ & _ & _ &
          _ & Hid & _ & _ & Hp & _ & _ & _ & Hacc & Hnext).
    rewrite Hv in Hv'. inversion Hv'; subst s1'; clear Hv'. simpl.
    split.
    + now apply (wf_keys_snoc s1 s' a).
    + rewrite <- Hk1. apply (root_keys_snoc s1 s' a); [assumption|]. now rewrite Hp.
  - unfold create_account_in_account_tree in Hc. rewrite Hv in Hc.
    destruct (create_in_tree s1 body) as [[s2 a2]| |]; inversion Hc; subst. auto.
  - unfold create_account_in_account_tree in Hc. rewrite Hv in Hc.
    destruct (create_in_tree s1 body) as [[s2 a2]| |]; inversion Hc; subst. auto.
Qed.

Lemma In_write (s : Store) (a a' : Account.t) :
  In a (accounts s) -> Account.id a' = Account.id a -> In a' (accounts (write s a')).
Proof.
  intros Hin Hid. rewrite write_accounts.
  replace a' with (moved a' a) at 1; [now apply in_map|].
  unfold moved. now rewrite Hid, Z.eqb_refl.
Qed.

Lemma keeps_roots_write (s0 : Store) (a0 : Account.t) (s : Store) (a a' : Account.t)
    (ch ch' : list string) :
  keeps_roots s0 a0 (s, a, ch) ->
  Account.id a' = Account.id a -> Account.parent_id a' = Account.parent_id a ->
  (Account.name a' = Account.name a \/ Account.parent_id a <> None) ->
  keeps_roots s0 a0 (write s a', a', ch').
Proof.
  intros (Hid & Hp & Hin & Hwf & Hk) Hid' Hp' Hn. unfold keeps_roots.
  split; [congruence|]. split; [congruence|].
  split; [now apply (In_write s a)|]. split; [now apply wf_keys_write|].
  rewrite <- Hk. now apply (root_keys_write s a).
Qed.

Lemma update_name_keeps_roots (s0 : Store) (a0 : Account.t) (st st' : update_state)
    (field : option json) :
  keeps_roots s0 a0 st -> Account.parent_id a0 <> None \/ field = None ->
  update_name st field = Ok st' -> keeps_roots s0 a0 st'.
Proof.
  destruct st as [[s a] ch]. unfold update_name. intros Hk Hspare.
  destruct field as [[|b|v|]|]; try discriminate.
  - destruct Hspare as [Hp|Hnone]; [|discriminate].
    intros H. bind_inv H.
    destruct (negb (lower (Account.name a) =? lower (strip v))%string).
    + bind_inv H. bind_inv H. inversion H; subst.
      apply (keeps_roots_write s0 a0 s a _ ch); [exact Hk|reflexivity..|].
      right. simpl. destruct Hk as (_ & Hpa & _). congruence.
    + now inversion H; subst.
  - intros H. now inversion H; subst.
Qed.

Lemma update_cc_required_keeps_roots (s0 : Store) (a0 : Account.t) (st st' : update_state)
    (field : option json) :
  keeps_roots s0 a0 st -> update_cc_required st field = Ok st' -> keeps_roots s0 a0 st'.
Proof.
  destruct st as [[s a] ch]. unfold update_cc_required. intros Hk.
  destruct field as [[|b|v|]|]; try discriminate.
  - destruct (negb (Bool.eqb (Account.cc_required a) b)).
    + intros H. bind_inv H. inversion H; subst.
      apply (keeps_roots_write s0 a0 s a _ ch); [exact Hk|reflexivity..|now left].
    + intros H. now inversion H; subst.
  - intros H. now inversion H; subst.
Qed.

Lemma update_account_type_keeps_roots (s0 : Store) (a0 : Account.t) (st st' : update_state)
    (field : option json) :
  keeps_roots s0 a0 st -> update_account_type st field = Ok st' -> keeps_roots s0 a0 st'.
Proof.
  destruct st as [[s a] ch]. intros Hk.
  assert (Hset : forall t,
            keeps_roots s0 a0 (write s (Account.set_account_type a t),
                               Account.set_account_type a t,
                               (ch ++ ["account type"])%list)).
  { intros t. apply (keeps_roots_write s0 a0 s a _ ch); [exact Hk|reflexivity..|now left]. }
  assert (Hclear : forall st',
            match Account.account_type a with
            | Some _ => Ok (write s (Account.set_account_type a None),
                            Account.set_account_type a None,
                            (ch ++ ["account type"])%list)
            | None => Ok (s, a, ch)
            end = Ok st' -> keeps_roots s0 a0 st').
  { intros st0. destruct (Account.account_type a); intros H; inversion H; subst;
      [apply Hset|exact Hk]. }
  unfold update_account_type.
  destruct field as [[|b|v|]|]; try discriminate.
  - apply Hclear.
  - destruct v as [|c v]; [apply Hclear|].
    intros H. bind_inv H.
    destruct (negb (opt_string_eqb _ _)).
    + bind_inv H. bind_inv H. bind_inv H. inversion H; subst. apply Hset.
    + inversion H; subst. exact Hk.
  - intros H. inversion H; subst. exact Hk.
Qed.

Lemma update_keeps_roots (s : Store) (account_id : Z) (fields : UpdateFields) :
  wf_keys s -> spares_roots s (Update account_id fields) ->
  wf_keys (fst (update_account s account_id fields))
  /\ root_keys (fst (update_account s account_id fields)) = root_keys s.
Proof.
  intros Hwf Hspare. unfold spares_roots in Hspare.
  unfold update_account, get_single_account.
  destruct (get_by_id s account_id) as [a0|] eqn:Hget; cbn [bind]; [|auto].
  assert (Hk0 : keeps_roots s a0 (s, a0, [])).
  { unfold keeps_roots. repeat split; auto.
    - now apply (get_by_id_In s account_id).
    - apply Hwf.
    - apply Hwf. }
  destruct (update_name (s, a0, []) (f_name fields)) as [st1| |] eqn:H1;
    cbn [bind]; auto.
  pose proof (update_name_keeps_roots _ _ _ _ _ Hk0 Hspare H1) as Hk1.
  destruct (update_cc_required st1 (f_cc_required fields)) as [st2| |] eqn:H2;
    cbn [bind]; auto.
  pose proof (update_cc_required_keeps_roots _ _ _ _ _ Hk1 H2) as Hk2.
  destruct (update_account_type st2 (f_account_type fields)) as [st3| |] eqn:H3;
    cbn [bind]; auto.
  pose proof (update_account_type_keeps_roots _ _ _ _ _ Hk2 H3) as Hk3.
  destruct st3 as [[s3 a3] [|c ch]]; simpl; [auto|].
  destruct Hk3 as (_ & _ & _ & Hwf3 & Hk). auto.
Qed.

Lemma delete_keeps_roots (s : Store) (account_id : Z) :
  wf_keys s -> spares_roots s (Delete account_id) ->
  wf_keys (fst (delete_account s account_id))
  /\ root_keys (fst (delete_account s account_id)) = root_keys s.
Proof.
  intros Hwf Hspare. unfold spares_roots in Hspare.
  unfold delete_account, get_single_account.
  destruct (get_by_id s account_id) as [a|] eqn:Hget; cbn [bind]; [|auto].
  repeat (match goal with
          | |- context [raise_if ?c ?e] => destruct c; cbn [raise_if bind]; auto
          end).
  simpl. split; [now apply wf_keys_remove|].
  apply root_keys_remove; auto. now apply (get_by_id_In s account_id).
Qed.

(** An operation that spares the roots keeps the keys proper and the
    parentless rows, key by key and name by name. *)
Lemma step_keeps_roots (s : Store) (op : operation) :
  wf_keys s -> four_roots s -> spares_roots s op ->
  wf_keys (step s op) /\ root_keys (step s op) = root_keys s.
Proof.
  intros Hwf H4 Hspare. destruct op; simpl.
  - now apply create_keeps_roots.
  - now apply update_keeps_roots.
  - now apply delete_keeps_roots.
  - auto.
  - auto.
Qed.

Lemma run_keeps_roots (ops : list operation) (s : Store) :
  wf_keys s -> four_roots s -> spared_run s ops ->
  wf_keys (run s ops) /\ root_keys (run s ops) = root_keys s.
Proof.
  revert s. induction ops as [|op ops IH]; intros s Hwf H4 Hrun; simpl; [auto|].
  destruct Hrun as [Hspare Hrest].
  destruct (step_keeps_roots s op Hwf H4 Hspare) as [Hwf1 Hk1].
  destruct (IH (step s op)) as [Hwf2 Hk2]; auto.
  - unfold four_roots. now rewrite Hk1.
  - split; [assumption|congruence].
Qed.

(** C1, as the code has it.  On a chart without parentless rows the
    bootstrap succeeds and leaves exactly the four roots Assets,
    Liability & Equity, Expenses and Revenue, each without parent.  From
    a store with proper keys and these four roots, every run of
    operations that are not aimed at a root (no deletion of a parentless
    account, no name sent for one) keeps the parentless rows, key by key
    and name by name: creation adds none and removes none, nor do the
    other updates and deletions, and the two reads change nothing.  A
    creation without parent never succeeds, and a created account always
    has a parent. *)
Theorem roots_invariant :
  (forall s,
     with_parent s None = [] ->
     exists s1, validate_root_accounts s = Ok s1
                /\ four_roots s1
                /\ (forall r, In r (with_parent s1 None) -> Account.parent_id r = None)
                /\ (wf_keys s -> wf_keys s1))
  /\
  (forall s ops,
     wf_keys s -> four_roots s -> spared_run s ops ->
     four_roots (run s ops) /\ root_keys (run s ops) = root_keys s /\ wf_keys (run s ops))
  /\
  (forall s body,
     body_parent_id body = None ->
     forall a, snd (create_account_in_account_tree s body) <> Ok a)
  /\
  (forall s s' body a,
     create_account_in_account_tree s body = (s', Ok a) -> Account.parent_id a <> None)
  /\
  (forall s, step s ReadTree = s)
  /\
  (forall s parent_name, step s (ReadByParentName parent_name) = s).
Proof.
  split; [|split; [|split; [|split; [|split]]]].
  - intros s H. exists (grown s (seed (next_id s)) (next_id s + 1 + 1 + 1 + 1)).
    pose proof (validate_root_accounts_seed s H) as Hv.
    split; [exact Hv|]. split; [|split].
    + unfold four_roots, root_keys. rewrite (with_parent_grown _ _ _ H).
      apply Permutation_refl.
    + intros r Hr. unfold with_parent in Hr. apply filter_In in Hr as [_ Hr].
      destruct (Account.parent_id r); [discriminate|reflexivity].
    + intros Hwf. now apply (validate_root_accounts_idempotent s).
  - intros s ops Hwf H4 Hrun.
    destruct (run_keeps_roots ops s Hwf H4 Hrun) as [Hwf' Hk].
    split; [|split; assumption]. unfold four_roots. now rewrite Hk.
  - intros s body Hnone a Hcreate.
    destruct (create_account_in_account_tree s body) as [s' r] eqn:Hc.
    simpl in Hcreate. subst r.
    apply create_success_inv in Hc
      as (s1 & pid & parent & root & n0 & t0 & n & t & new_account & _ & Hbody & _).
    unfold extract_body in Hbody. bind_inv Hbody. bind_inv Hbody.
    inversion Hbody. congruence.
  - intros s s' body a Hc.
    apply create_success in Hc
      as (s1 & parent & root & n0 & t0 & n & t & code & _ & _ & _ & _ & _ & _ & _ &
          _ & _ & _ & _ & Hp & _).
    now rewrite Hp.
  - reflexivity.
  - reflexivity.
Qed.

(** The claim of C1 as worded fails: the root Revenue, which has no
    child and no reference, can be deleted, and three roots remain. *)
Lemma root_deleted :
  map snd (root_keys cash_store) = root_names
  /\ snd (delete_account cash_store 4)
     = Ok (Account.mk 4 "Revenue" "4000" None (Some "credit") (Some "p&l") false)
  /\ map snd (root_keys (step cash_store (Delete 4)))
     = ["Assets"; "Liability & Equity"; "Expenses"]
  /\ ~ four_roots (step cash_store (Delete 4)).
Proof.
  split; [vm_compute; reflexivity|]. split; [vm_compute; reflexivity|].
  assert (H : map snd (root_keys (step cash_store (Delete 4)))
              = ["Assets"; "Liability & Equity"; "Expenses"])
    by (vm_compute; reflexivity).
  split; [exact H|].
  unfold four_roots. rewrite H. intros Hp. apply Permutation_length in Hp. discriminate.
Qed.

(** ** Totals of the tree *)

Lemma fold_add_shift (l : list Z) (a : Z) : fold_left Z.add l a = a + fold_left Z.add l 0.
Proof.
  revert a. induction l as [|x l IH]; intros a; simpl; [lia|].
  rewrite (IH (a + x)), (IH x). lia.
Qed.

Lemma sum_Z_cons (x : Z) (l : list Z) : sum_Z (x :: l) = x + sum_Z l.
Proof. unfold sum_Z. simpl. apply fold_add_shift. Qed.

Lemma sum_Z_app (l m : list Z) : sum_Z (l ++ m) = sum_Z l + sum_Z m.
Proof.
  induction l as [|x l IH]; simpl; [reflexivity|].
  rewrite !sum_Z_cons, IH. lia.
Qed.

Lemma sum_Z_flat_map {A B : Type} (f : B -> Z) (g : A -> list B) (l : list A) :
  sum_Z (map f (flat_map g l)) = sum_Z (map (fun x => sum_Z (map f (g x))) l).
Proof.
  induction l as [|x l IH]; simpl; [reflexivity|].
  now rewrite map_app, sum_Z_app, sum_Z_cons, IH.
Qed.

Lemma filter_filter_or {A : Type} (P Q : A -> bool) (l : list A) :
  filter P (filter (fun x => P x || Q x) l) = filter P l.
Proof.
  induction l as [|x l IH]; simpl; [reflexivity|].
  destruct (P x) eqn:E; simpl; [now rewrite E, IH|].
  destruct (Q x); simpl; [now rewrite E|exact IH].
Qed.

Lemma own_debit_spec (s : Store) (a : Account.t) : own_debit s a = spec_own_debit s a.
Proof.
  unfold own_debit, spec_own_debit, entries_of.
  now rewrite (filter_filter_or (fun e => column_is (DailyEntries.debit e) (Account.name a))).
Qed.

Lemma own_credit_spec (s : Store) (a : Account.t) : own_credit s a = spec_own_credit s a.
Proof.
  unfold own_credit, spec_own_credit, entries_of.
  assert (H : forall l,
            filter (fun e => column_is (DailyEntries.credit e) (Account.name a))
              (filter (fun e => column_is (DailyEntries.debit e) (Account.name a)
                                || column_is (DailyEntries.credit e) (Account.name a)) l)
            = filter (fun e => column_is (DailyEntries.credit e) (Account.name a)) l).
  { induction l as [|x l IH]; simpl; [reflexivity|].
    destruct (column_is (DailyEntries.credit x) (Account.name a)) eqn:E.
    - rewrite orb_true_r. simpl. now rewrite E, IH.
    - rewrite orb_false_r.
      destruct (column_is (DailyEntries.debit x) (Account.name a)); simpl;
        [now rewrite E|exact IH]. }
  now rewrite H.
Qed.

(** The loop that adds up what [visit] returns *)
Lemma accumulate_from {X : Type} (visit : X -> result (AccountView * Z * Z))
    (D C : AccountView -> Z) (xs : list X) :
  (forall x v d c, In x xs -> visit x = Ok (v, d, c) -> d = D v /\ c = C v) ->
  forall views0 d0 c0 views td tc,
    fold_left
      (fun acc x =>
         '(views, total_debit, total_credit) <- acc ;;
         '(view, x_debit, x_credit) <- visit x ;;
         Ok ((views ++ [view])%list, total_debit + x_debit, total_credit + x_credit))
      xs (Ok (views0, d0, c0)) = Ok (views, td, tc) ->
    exists vs, views = (views0 ++ vs)%list
               /\ td = d0 + sum_Z (map D vs) /\ tc = c0 + sum_Z (map C vs)
               /\ List.length vs = List.length xs.
Proof.
  induction xs as [|x xs IH]; intros Hvisit views0 d0 c0 views td tc H.
  - simpl in H. inversion H; subst. exists []. rewrite app_nil_r.
    repeat split; unfold sum_Z; simpl; lia.
  - simpl in H. destruct (visit x) as [[[v d] c]| |] eqn:Ev; cbn [bind] in H.
    + destruct (Hvisit x v d c (or_introl eq_refl) Ev) as [-> ->].
      apply IH in H as (vs & -> & -> & -> & Hlen).
      * exists (v :: vs). rewrite <- app_assoc. simpl.
        rewrite !sum_Z_cons. repeat split; simpl; lia.
      * intros y v' d' c' Hy. apply Hvisit. now right.
    + exfalso. clear -H. induction xs as [|y ys IHy]; simpl in H; [discriminate|auto].
    + exfalso. clear -H. induction xs as [|y ys IHy]; simpl in H; [discriminate|auto].
Qed.

Lemma accumulate_totals {X : Type} (visit : X -> result (AccountView * Z * Z))
    (D C : AccountView -> Z) (xs : list X) (views : list AccountView) (td tc : Z) :
  (forall x v d c, In x xs -> visit x = Ok (v, d, c) -> d = D v /\ c = C v) ->
  accumulate visit xs = Ok (views, td, tc) ->
  td = sum_Z (map D views) /\ tc = sum_Z (map C views)
  /\ List.length views = List.length xs.
Proof.
  intros Hvisit H. unfold accumulate in H.
  apply (accumulate_from visit D C xs Hvisit) in H as (vs & -> & -> & -> & Hlen).
  simpl. repeat split; auto.
Qed.

Lemma compute_account_totals_S (fuel : nat) (s : Store) (account : Account.t) :
  compute_account_totals (S fuel) s account
  = '(children_list, children_total_debit, children_total_credit) <-
      accumulate (compute_account_totals fuel s)
                 (order_by_code (with_parent s (Some (Account.id account)))) ;;
    Ok (View account (own_debit s account + children_total_debit)
             (own_credit s account + children_total_credit) children_list,
        own_debit s account + children_total_debit,
        own_credit s account + children_total_credit).
Proof. reflexivity. Qed.

(** The totals of a node are the own amounts summed over every account
    of its tree, and are the amounts the node reports. *)
Lemma compute_account_totals_sum (s : Store) (fuel : nat) (account : Account.t)
    (v : AccountView) (d c : Z) :
  compute_account_totals fuel s account = Ok (v, d, c) ->
  (d = sum_Z (map (own_debit s) (view_accounts v)) /\ view_debit v = d)
  /\ (c = sum_Z (map (own_credit s) (view_accounts v)) /\ view_credit v = c).
Proof.
  revert account v d c. induction fuel as [|fuel IH]; intros account v d c H;
    [discriminate|].
  rewrite compute_account_totals_S in H. bind_inv H.
  destruct x as [[views cd] cc]. inversion H; subst; clear H.
  apply (accumulate_totals _
           (fun v => sum_Z (map (own_debit s) (view_accounts v)))
           (fun v => sum_Z (map (own_credit s) (view_accounts v)))) in Hx
    as (-> & -> & _).
  - simpl. rewrite !sum_Z_cons, !sum_Z_flat_map. auto.
  - intros x v d c _ Hv. apply IH in Hv. tauto.
Qed.

(** *** The walk ends on a chart whose parents come first *)

Lemma filter_length_le {A : Type} (P Q : A -> bool) (l : list A) :
  (forall x, In x l -> P x = true -> Q x = true) ->
  (List.length (filter P l) <= List.length (filter Q l))%nat.
Proof.
  induction l as [|x l IH]; intros H; simpl; [lia|].
  assert (IH' : (List.length (filter P l) <= List.length (filter Q l))%nat).
  { apply IH. intros y Hy. apply H. now right. }
  destruct (P x) eqn:E.
  - rewrite (H x (or_introl eq_refl) E). simpl. lia.
  - destruct (Q x); simpl; lia.
Qed.

Lemma filter_length_lt {A : Type} (P Q : A -> bool) (l : list A) (w : A) :
  (forall x, In x l -> P x = true -> Q x = true) ->
  In w l -> P w = false -> Q w = true ->
  (List.length (filter P l) < List.length (filter Q l))%nat.
Proof.
  induction l as [|x l IH]; intros H Hin Hp Hq; simpl; [contradiction|].
  assert (Hsub : forall y, In y l -> P y = true -> Q y = true).
  { intros y Hy. apply H. now right. }
  destruct Hin as [->|Hin].
  - rewrite Hp, Hq. simpl. pose proof (filter_length_le P Q l Hsub). lia.
  - pose proof (IH Hsub Hin Hp Hq) as IH'.
    destruct (P x) eqn:E.
    + rewrite (H x (or_introl eq_refl) E). simpl. lia.
    + destruct (Q x); simpl; lia.
Qed.

Lemma above_child (s : Store) (a c : Account.t) :
  In c (accounts s) -> Account.id a < Account.id c ->
  (above s (Account.id c) < above s (Account.id a))%nat.
Proof.
  intros Hin Hlt. unfold above. apply (filter_length_lt _ _ _ c); auto.
  - intros x _ Hx. apply Z.ltb_lt in Hx. apply Z.ltb_lt. lia.
  - apply Z.ltb_irrefl.
  - now apply Z.ltb_lt.
Qed.

Lemma above_le (s : Store) (i : Z) : (above s i <= List.length (accounts s))%nat.
Proof.
  unfold above. induction (accounts s) as [|b l IH]; simpl; [lia|].
  destruct (i <? Account.id b); simpl; lia.
Qed.

Lemma In_insert_by_code (a x : Account.t) (l : list Account.t) :
  In x (insert_by_code a l) -> x = a \/ In x l.
Proof.
  induction l as [|b l IH]; simpl; [intuition|].
  destruct (_ || _); simpl; intuition.
Qed.

Lemma In_order_by_code (x : Account.t) (l : list Account.t) :
  In x (order_by_code l) -> In x l.
Proof.
  unfold order_by_code.
  assert (H : forall acc, In x (fold_left (fun acc a => insert_by_code a acc) l acc) ->
                          In x acc \/ In x l).
  { induction l as [|a l IH]; intros acc Hin; simpl in *; [auto|].
    apply IH in Hin as [Hin|Hin]; [|auto].
    apply In_insert_by_code in Hin as [->|Hin]; auto. }
  intros Hin. apply H in Hin as [[]|Hin]. exact Hin.
Qed.

Lemma accumulate_total {X : Type} (visit : X -> result (AccountView * Z * Z))
    (xs : list X) :
  (forall x, In x xs -> exists res, visit x = Ok res) ->
  exists res, accumulate visit xs = Ok res.
Proof.
  unfold accumulate. generalize (@nil AccountView, 0, 0).
  induction xs as [|x xs IH]; intros acc H; simpl; [now exists acc|].
  destruct (H x (or_introl eq_refl)) as ([[v d] c] & Hv).
  destruct acc as [[vs td] tc]. rewrite Hv. cbn [bind].
  apply IH. intros y Hy. apply H. now right.
Qed.

Lemma compute_account_totals_total (s : Store) (fuel : nat) (account : Account.t) :
  wf_links s -> (above s (Account.id account) < fuel)%nat ->
  exists res, compute_account_totals fuel s account = Ok res.
Proof.
  intros Hwf. revert account. induction fuel as [|fuel IH]; intros account Hlt; [lia|].
  rewrite compute_account_totals_S.
  destruct (accumulate_total (compute_account_totals fuel s)
              (order_by_code (with_parent s (Some (Account.id account)))))
    as ([[views cd] cc] & Hacc).
  - intros c Hc. apply In_order_by_code in Hc.
    unfold with_parent in Hc. apply filter_In in Hc as [Hin Hp].
    apply IH.
    assert (Hparent : Account.parent_id c = Some (Account.id account)).
    { destruct (Account.parent_id c) as [p|]; simpl in Hp; [|discriminate].
      apply Z.eqb_eq in Hp. now subst. }
    pose proof (Hwf c _ Hin Hparent) as Hid.
    pose proof (above_child s account c Hin Hid). lia.
  - rewrite Hacc. cbn [bind]. eexists. reflexivity.
Qed.

Lemma get_account_tree_inv (s : Store) (r : TreeResult) :
  get_account_tree s = Ok r ->
  accumulate (compute_account_totals (S (List.length (accounts s))) s) (with_parent s None)
  = Ok (tree_accounts r, grand_total_debit r, grand_total_credit r).
Proof.
  unfold get_account_tree, get_all_accounts_from_stmt. intros H. bind_inv H.
  destruct x as [[views d] c]. inversion H; subst. exact Hx.
Qed.

(** ** Codes (C3) *)

(** C3 at its failing input.  After a thousand accounts were created
    under Assets (code 1000), the last of them carries the code 11000;
    the next account created under Assets succeeds and is given the code
    11000 again: the largest code under Assets, as strings are ordered,
    is still 1999. *)
Theorem sibling_codes_collide :
  let s := crowded_store in
  option_map Account.code (get_by_id s 1) = Some "1000"
  /\ List.length (codes_under s 1) = 1000%nat
  /\ option_map Account.code (first_by_code_desc (with_parent s (Some 1))) = Some "1999"
  /\ option_map Account.code (get_by_id s 1004) = Some "11000"
  /\ created_code (create_account_in_account_tree s (sibling_body 1001)) = Some "11000"
  /\ existsb (fun c => (c =? "11000")%string) (codes_under s 1) = true.
Proof. vm_compute. repeat split. Qed.

(** ** The theorems at concrete inputs *)

Lemma wf_keys_cash_store : wf_keys cash_store.
Proof.
  split.
  - vm_compute. repeat (constructor; [simpl; intuition discriminate|]). constructor.
  - intros a Ha. vm_compute in Ha.
    repeat (destruct Ha as [<-|Ha]; [vm_compute; reflexivity|]). contradiction.
Qed.

(** Deleting Cash, which has no child and no reference, succeeds. *)
Lemma delete_account_guarded_witness :
  get_by_id cash_store 5 = Some cash
  /\ delete_account cash_store 5 = (remove cash_store cash, Ok cash)
  /\ get_by_id (remove cash_store cash) 5 = None.
Proof.
  assert (Hget : get_by_id cash_store 5 = Some cash) by (vm_compute; reflexivity).
  split; [exact Hget|].
  destruct (proj1 (proj2 (delete_account_guarded cash_store 5 cash Hget)))
    as (Hdel & Hgone & _).
  - apply no_child_with_parent. vm_compute. reflexivity.
  - apply not_in_journal_entries. vm_compute. reflexivity.
  - vm_compute. tauto.
  - vm_compute. tauto.
  - vm_compute. tauto.
  - split; assumption.
Defined.

(** Cash, under Assets, cannot become a profit-and-loss account; asked
    to become the balance-sheet account it is, it is left as it is. *)
Lemma account_type_change_guarded_witness :
  get_by_id cash_store 5 = Some cash
  /\ get_root_account cash_store (Some cash) = Ok assets
  /\ update_account cash_store 5 (only_account_type (JStr "p&l"))
     = (cash_store, Raise (BadRequest (PLUnder "Assets")))
  /\ update_account cash_store 5 (only_account_type (JStr " balance_sheet "))
     = (cash_store, Ok NoChanges).
Proof.
  assert (Hget : get_by_id cash_store 5 = Some cash) by (vm_compute; reflexivity).
  assert (Hroot : get_root_account cash_store (Some cash) = Ok assets)
    by (vm_compute; reflexivity).
  split; [exact Hget|]. split; [exact Hroot|].
  assert (Hchange : Account.account_type cash <> Some "p&l") by (vm_compute; discriminate).
  split.
  - exact (proj1 (proj2 (account_type_change_guarded cash_store 5 cash Hget))
             assets "p&l" Hroot eq_refl Hchange).
  - exact (proj2 (proj2 (proj2 (proj2 (account_type_change_guarded cash_store 5 cash Hget))))
             "balance_sheet" " balance_sheet " (or_introl eq_refl) eq_refl eq_refl).
Defined.


(** Three bootstraps of the empty chart give the store of the first. *)
Lemma bootstrap_idempotent_witness :
  wf_keys empty_store
  /\ validate_root_accounts empty_store = Ok bootstrapped
  /\ bootstrap_times 3%nat empty_store = Ok bootstrapped.
Proof.
  assert (Hwf : wf_keys empty_store) by apply wf_keys_empty.
  assert (Hv : validate_root_accounts empty_store = Ok bootstrapped)
    by (vm_compute; reflexivity).
  split; [exact Hwf|]. split; [exact Hv|].
  apply (proj1 bootstrap_idempotent empty_store bootstrapped 3%nat Hwf Hv). lia.
Defined.

(** A creation, a deletion of Cash and a read keep the four roots. *)
Lemma roots_invariant_witness :
  wf_keys cash_store /\ four_roots cash_store
  /\ four_roots (run cash_store [Create (sibling_body 1); Delete 5; ReadTree]).
Proof.
  assert (H4 : four_roots cash_store).
  { unfold four_roots.
    replace (map snd (root_keys cash_store)) with root_names by (vm_compute; reflexivity).
    apply Permutation_refl. }
  split; [exact wf_keys_cash_store|]. split; [exact H4|].
  apply (proj1 (proj2 roots_invariant) cash_store
           [Create (sibling_body 1); Delete 5; ReadTree] wf_keys_cash_store H4).
  vm_compute. repeat split. discriminate.
Defined.

(** * Further properties of the account module *)

(** ** Trimming twice *)

Lemma lstrip_head (s : string) :
  match lstrip s with
  | EmptyString => True
  | String c _ => is_space c = false
  end.
Proof.
  induction s as [|c r IH]; simpl; [exact I|].
  destruct (is_space c) eqn:E; [exact IH|exact E].
Qed.

Lemma lstrip_fixed (s : string) :
  match s with
  | EmptyString => True
  | String c _ => is_space c = false
  end -> lstrip s = s.
Proof. destruct s as [|c r]; simpl; [reflexivity|]. now intros ->. Qed.

Lemma lstrip_idempotent (s : string) : lstrip (lstrip s) = lstrip s.
Proof. apply lstrip_fixed, lstrip_head. Qed.

Lemma rstrip_idempotent (s : string) : rstrip (rstrip s) = rstrip s.
Proof.
  induction s as [|c r IH]; simpl; [reflexivity|].
  destruct (rstrip r) as [|c' r'] eqn:E.
  - destruct (is_space c) eqn:Ec; simpl; [reflexivity|now rewrite Ec].
  - simpl. simpl in IH. now rewrite IH.
Qed.

Lemma rstrip_lstrip (s : string) : rstrip (lstrip s) = lstrip (rstrip s).
Proof.
  induction s as [|c r IH]; simpl; [reflexivity|].
  destruct (is_space c) eqn:Ec.
  - rewrite IH. destruct (rstrip r) as [|c' r']; simpl; try rewrite Ec; reflexivity.
  - simpl. destruct (rstrip r) as [|c' r']; simpl; try rewrite Ec; reflexivity.
Qed.

Lemma strip_idempotent (s : string) : strip (strip s) = strip s.
Proof.
  unfold strip. now rewrite rstrip_lstrip, lstrip_idempotent, rstrip_idempotent.
Qed.

(** ** The chart invariant *)

Lemma links_ids (s : Store) : map fst (links s) = map Account.id (accounts s).
Proof. unfold links. rewrite map_map. reflexivity. Qed.

Lemma In_links (s : Store) (a : Account.t) :
  In a (accounts s) -> In (Account.id a, Account.parent_id a) (links s).
Proof.
  intros H. unfold links.
  now apply (in_map (fun a => (Account.id a, Account.parent_id a))).
Qed.

Lemma wf_chart_keys (s : Store) : wf_chart s -> wf_keys s.
Proof.
  intros (_ & Hnd & Hl & _). split.
  - now rewrite <- links_ids.
  - intros a Ha. apply In_links in Ha. apply Hl in Ha. lia.
Qed.

Lemma wf_chart_links (s : Store) : wf_chart s -> wf_links s.
Proof.
  intros (_ & _ & Hl & _) a p Ha Hp. apply In_links in Ha. rewrite Hp in Ha.
  destruct (Hl _ _ Ha) as [_ Hq]. now apply (Hq p).
Qed.

Lemma get_by_id_resolves (s : Store) (i : Z) :
  In i (map fst (links s)) <-> exists b, get_by_id s i = Some b.
Proof.
  rewrite links_ids. unfold get_by_id. split.
  - intros H. apply in_map_iff in H as (b & Hb & Hin).
    destruct (find _ (accounts s)) as [c|] eqn:E; [now exists c|].
    apply (find_none _ _ E) in Hin. rewrite Hb, Z.eqb_refl in Hin. discriminate.
  - intros (b & Hb). apply find_some in Hb as [Hin Hb].
    apply Z.eqb_eq in Hb. subst i. now apply in_map.
Qed.

Lemma links_write (s : Store) (a a' : Account.t) :
  wf_keys s -> In a (accounts s) ->
  Account.id a' = Account.id a -> Account.parent_id a' = Account.parent_id a ->
  links (write s a') = links s.
Proof.
  intros Hwf Hin Hid Hp. unfold links. rewrite write_accounts, map_map.
  apply map_ext_in. intros b Hb. unfold moved.
  destruct (Account.id b =? Account.id a') eqn:E; [|reflexivity].
  apply Z.eqb_eq in E. rewrite Hid in E.
  rewrite (wf_keys_unique s b a Hwf Hb Hin E). now rewrite Hid, Hp.
Qed.

Lemma trimmed_write (s : Store) (a' : Account.t) :
  trimmed s -> strip (Account.name a') = Account.name a' -> trimmed (write s a').
Proof.
  intros Ht Ha b Hb. rewrite write_accounts in Hb.
  apply in_map_iff in Hb as (c & <- & Hc). unfold moved.
  destruct (Account.id c =? Account.id a'); [exact Ha|now apply Ht].
Qed.

Lemma wf_chart_transport (s s' : Store) :
  links s' = links s -> next_id s' = next_id s -> trimmed s' ->
  wf_chart s -> wf_chart s'.
Proof.
  intros Hl Hn Ht (Hpos & Hnd & Hlinks & _). unfold wf_chart. rewrite Hl, Hn. auto.
Qed.

Lemma wf_chart_write (s : Store) (a a' : Account.t) :
  wf_chart s -> In a (accounts s) ->
  Account.id a' = Account.id a -> Account.parent_id a' = Account.parent_id a ->
  strip (Account.name a') = Account.name a' ->
  wf_chart (write s a').
Proof.
  intros Hwf Hin Hid Hp Hname. apply (wf_chart_transport s); auto.
  - apply (links_write s a); auto. now apply wf_chart_keys.
  - apply trimmed_write; [apply Hwf|assumption].
Qed.

Lemma wf_chart_add (s : Store) (new_account : Z -> Account.t) :
  wf_chart s ->
  Account.id (new_account (next_id s)) = next_id s ->
  strip (Account.name (new_account (next_id s))) = Account.name (new_account (next_id s)) ->
  (forall q, Account.parent_id (new_account (next_id s)) = Some q ->
             In q (map fst (links s))) ->
  wf_chart (add s new_account).
Proof.
  intros (Hpos & Hnd & Hl & Ht) Hid Hname Hparent.
  assert (Hlinks : links (add s new_account)
                   = (links s ++ [(next_id s,
                                   Account.parent_id (new_account (next_id s)))])%list).
  { unfold links, add; simpl. rewrite map_app. simpl. now rewrite Hid. }
  assert (Hbound : forall i, In i (map fst (links s)) -> 0 < i < next_id s).
  { intros i Hi. apply in_map_iff in Hi as ([j p] & <- & Hin). now apply Hl in Hin. }
  unfold wf_chart. rewrite Hlinks, map_app. simpl.
  split; [|split; [|split]].
  - lia.
  - apply NoDup_app; [assumption|repeat constructor; auto|].
    intros i Hi [<-|[]]. apply Hbound in Hi. lia.
  - intros i p Hin. apply in_app_or in Hin as [Hin|[Heq|[]]].
    + destruct (Hl _ _ Hin) as [Hb Hq]. split; [lia|].
      intros q Hpq. destruct (Hq q Hpq) as [Hlt Hin']. split; [assumption|].
      apply in_or_app. now left.
    + inversion Heq; subst i p; clear Heq.
      split; [lia|].
      intros q Hq. pose proof (Hparent q Hq) as Hin. split.
      * apply Hbound in Hin. lia.
      * apply in_or_app. now left.
  - intros b Hb. unfold add in Hb; simpl in Hb.
    apply in_app_or in Hb as [Hb|[<-|[]]]; [now apply Ht|exact Hname].
Qed.

Lemma links_remove (s : Store) (a : Account.t) :
  links (remove s a) = filter (fun l => negb (fst l =? Account.id a)) (links s).
Proof.
  unfold links, remove; simpl.
  induction (accounts s) as [|b l IH]; simpl; [reflexivity|].
  destruct (negb (Account.id b =? Account.id a)); simpl; now rewrite IH.
Qed.

Lemma NoDup_map_filter {A B : Type} (f : A -> B) (P : A -> bool) (l : list A) :
  NoDup (map f l) -> NoDup (map f (filter P l)).
Proof.
  induction l as [|x l IH]; simpl; intros H; [constructor|].
  inversion H as [|y ys Hnotin Hnd]; subst.
  destruct (P x); simpl; [|now apply IH].
  constructor; [|now apply IH].
  intros Hin. apply Hnotin. apply in_map_iff in Hin as (z & Hz & Hin).
  apply filter_In in Hin as [Hin _]. rewrite <- Hz. now apply in_map.
Qed.

(** Removing an account that is nobody's parent keeps the chart. *)
Lemma wf_chart_remove (s : Store) (a : Account.t) :
  wf_chart s -> ~ has_child s (Account.id a) -> wf_chart (remove s a).
Proof.
  intros (Hpos & Hnd & Hl & Ht) Hleaf. unfold wf_chart.
  rewrite links_remove. change (next_id (remove s a)) with (next_id s).
  split; [assumption|]. split; [now apply NoDup_map_filter|]. split.
  - intros i p Hin. apply filter_In in Hin as [Hin Hne].
    destruct (Hl _ _ Hin) as [Hb Hq]. split; [assumption|].
    intros q Hpq. destruct (Hq q Hpq) as [Hlt Hin']. split; [assumption|].
    apply in_map_iff in Hin' as ([j r] & Hj & Hin'). simpl in Hj. subst j.
    apply in_map_iff. exists (q, r). split; [reflexivity|].
    apply filter_In. split; [assumption|]. simpl.
    apply negb_true_iff, Z.eqb_neq. intros Heq. apply Hleaf.
    unfold links in Hin. apply in_map_iff in Hin as (c & Hc & Hcin).
    inversion Hc; subst. exists c. split; [assumption|]. congruence.
  - intros b Hb. unfold remove in Hb; simpl in Hb.
    apply filter_In in Hb as [Hb _]. now apply Ht.
Qed.

Lemma fresh_wf_chart (s : Store) : fresh s -> wf_chart s.
Proof.
  intros [Hacc Hpos]. unfold wf_chart, links, trimmed. rewrite Hacc. simpl.
  split; [assumption|]. split; [constructor|]. split; contradiction.
Qed.

Lemma root_accounts_trimmed (entry : string * root_props) :
  In entry root_accounts -> strip (fst entry) = fst entry.
Proof.
  intros H. simpl in H.
  repeat (destruct H as [<-|H]; [vm_compute; reflexivity|]). contradiction.
Qed.

Lemma validate_root_wf_chart (s s' : Store) (entry : string * root_props) :
  wf_chart s -> strip (fst entry) = fst entry ->
  validate_root s entry = Ok s' -> wf_chart s'.
Proof.
  destruct entry as [name props]. intros Hwf Hname H. cbn [fst] in Hname.
  destruct (find_root s name) as [r|] eqn:Hfind.
  - rewrite (validate_root_found _ _ _ _ Hfind) in H. inversion H; subst; clear H.
    destruct (find_root_In _ _ _ Hfind) as (Hin & Hn & _).
    destruct (synced_spec props r) as (Hf & _). unfold frame in Hf.
    assert (Hname' : strip (Account.name (synced props r)) = Account.name (synced props r)).
    { replace (Account.name (synced props r)) with (Account.name r) by congruence.
      now apply Hwf. }
    apply (wf_chart_write s r); auto; congruence.
  - rewrite (validate_root_missing _ _ _ Hfind) in H. bind_inv H.
    inversion H; subst; clear H.
    apply wf_chart_add; auto. simpl. discriminate.
Qed.

Lemma validate_roots_wf_chart (entries : list (string * root_props)) (s s' : Store) :
  (forall e, In e entries -> strip (fst e) = fst e) ->
  wf_chart s -> validate_roots entries s = Ok s' -> wf_chart s'.
Proof.
  revert s. induction entries as [|e es IH]; intros s Hes Hwf H.
  - now inversion H; subst.
  - rewrite validate_roots_cons in H. bind_inv H.
    apply (IH x); [intros e' He'; apply Hes; now right| |assumption].
    apply (validate_root_wf_chart s x e); auto. apply Hes. now left.
Qed.

Lemma validate_root_accounts_wf_chart (s s' : Store) :
  wf_chart s -> validate_root_accounts s = Ok s' -> wf_chart s'.
Proof.
  rewrite validate_root_accounts_unfold.
  apply validate_roots_wf_chart. exact root_accounts_trimmed.
Qed.

(** What a creation leaves behind when it does not succeed *)
Lemma create_failure_store (s : Store) (body : Body) :
  (forall a, snd (create_account_in_account_tree s body) <> Ok a) ->
  fst (create_account_in_account_tree s body)
  = match validate_root_accounts s with
    | Ok s1 => s1
    | _ => s
    end.
Proof.
  unfold create_account_in_account_tree. intros H.
  destruct (validate_root_accounts s) as [s1| |]; [|reflexivity..].
  destruct (create_in_tree s1 body) as [[s2 a]| |]; [|reflexivity..].
  exfalso. now apply (H a).
Qed.

Lemma create_wf_chart (s : Store) (body : Body) :
  wf_chart s -> wf_chart (fst (create_account_in_account_tree s body)).
Proof.
  intros Hwf.
  destruct (create_account_in_account_tree s body) as [s' r] eqn:Hc.
  destruct r as [a|e|].
  - apply create_success_inv in Hc
      as (s1 & pid & parent & root & n0 & t0 & n & t & new_account & Hv & _ & _ & Hp &
          Hr & _ & Hfill & -> & ->).
    pose proof (get_by_id_id _ _ _ Hp) as Hpid. subst pid.
    destruct (fill_new_account_info_inv _ _ _ _ _ _ _ _ Hr Hfill) as (code & _ & ->).
    simpl. apply wf_chart_add; simpl.
    + now apply (validate_root_accounts_wf_chart s).
    + reflexivity.
    + apply strip_idempotent.
    + intros q Hq. inversion Hq; subst q. apply get_by_id_resolves. now exists parent.
  - assert (Hs : s' = fst (create_account_in_account_tree s body)) by now rewrite Hc.
    rewrite Hs, create_failure_store by (rewrite Hc; discriminate).
    destruct (validate_root_accounts s) as [s1| |] eqn:Hv; auto.
    now apply (validate_root_accounts_wf_chart s).
  - assert (Hs : s' = fst (create_account_in_account_tree s body)) by now rewrite Hc.
    rewrite Hs, create_failure_store by (rewrite Hc; discriminate).
    destruct (validate_root_accounts s) as [s1| |] eqn:Hv; auto.
    now apply (validate_root_accounts_wf_chart s).
Qed.

Lemma keeps_chart_write (s : Store) (a a' : Account.t) (ch ch' : list string) :
  keeps_chart (s, a, ch) ->
  Account.id a' = Account.id a -> Account.parent_id a' = Account.parent_id a ->
  strip (Account.name a') = Account.name a' ->
  keeps_chart (write s a', a', ch').
Proof.
  intros [Hin Hwf] Hid Hp Hname. split.
  - now apply (In_write s a).
  - now apply (wf_chart_write s a).
Qed.

Lemma update_name_keeps_chart (st st' : update_state) (field : option json) :
  keeps_chart st -> update_name st field = Ok st' -> keeps_chart st'.
Proof.
  destruct st as [[s a] ch]. unfold update_name. intros Hk.
  destruct field as [[|b|v|]|]; try discriminate.
  - intros H. bind_inv H.
    destruct (negb (lower (Account.name a) =? lower (strip v))%string).
    + bind_inv H. bind_inv H. inversion H; subst.
      apply (keeps_chart_write s a _ ch); [exact Hk|reflexivity..|].
      apply strip_idempotent.
    + now inversion H; subst.
  - intros H. now inversion H; subst.
Qed.

Lemma update_cc_required_keeps_chart (st st' : update_state) (field : option json) :
  keeps_chart st -> update_cc_required st field = Ok st' -> keeps_chart st'.
Proof.
  destruct st as [[s a] ch]. unfold update_cc_required. intros Hk.
  assert (Hname : strip (Account.name a) = Account.name a).
  { destruct Hk as [Hin (_ & _ & _ & Ht)]. now apply Ht. }
  destruct field as [[|b|v|]|]; try discriminate.
  - destruct (negb (Bool.eqb (Account.cc_required a) b)).
    + intros H. bind_inv H. inversion H; subst.
      apply (keeps_chart_write s a _ ch); [exact Hk|reflexivity..|exact Hname].
    + intros H. now inversion H; subst.
  - intros H. now inversion H; subst.
Qed.

Lemma update_account_type_keeps_chart (st st' : update_state) (field : option json) :
  keeps_chart st -> update_account_type st field = Ok st' -> keeps_chart st'.
Proof.
  destruct st as [[s a] ch]. intros Hk.
  assert (Hname : strip (Account.name a) = Account.name a).
  { destruct Hk as [Hin (_ & _ & _ & Ht)]. now apply Ht. }
  assert (Hset : forall t,
            keeps_chart (write s (Account.set_account_type a t),
                         Account.set_account_type a t, (ch ++ ["account type"])%list)).
  { intros t. apply (keeps_chart_write s a _ ch); [exact Hk|reflexivity..|exact Hname]. }
  assert (Hclear : forall st',
            match Account.account_type a with
            | Some _ => Ok (write s (Account.set_account_type a None),
                            Account.set_account_type a None,
                            (ch ++ ["account type"])%list)
            | None => Ok (s, a, ch)
            end = Ok st' -> keeps_chart st').
  { intros st0. destruct (Account.account_type a); intros H; inversion H; subst;
      [apply Hset|exact Hk]. }
  unfold update_account_type.
  destruct field as [[|b|v|]|]; try discriminate.
  - apply Hclear.
  - destruct v as [|c v]; [apply Hclear|].
    intros H. bind_inv H.
    destruct (negb (opt_string_eqb _ _)).
    + bind_inv H. bind_inv H. bind_inv H. inversion H; subst. apply Hset.
    + inversion H; subst. exact Hk.
  - intros H. inversion H; subst. exact Hk.
Qed.

Lemma update_wf_chart (s : Store) (account_id : Z) (fields : UpdateFields) :
  wf_chart s -> wf_chart (fst (update_account s account_id fields)).
Proof.
  intros Hwf. unfold update_account, get_single_account.
  destruct (get_by_id s account_id) as [a0|] eqn:Hget; cbn [bind]; [|auto].
  assert (Hk0 : keeps_chart (s, a0, [])).
  { split; [now apply (get_by_id_In s account_id)|assumption]. }
  destruct (update_name (s, a0, []) (f_name fields)) as [st1| |] eqn:H1;
    cbn [bind]; auto.
  pose proof (update_name_keeps_chart _ _ _ Hk0 H1) as Hk1.
  destruct (update_cc_required st1 (f_cc_required fields)) as [st2| |] eqn:H2;
    cbn [bind]; auto.
  pose proof (update_cc_required_keeps_chart _ _ _ Hk1 H2) as Hk2.
  destruct (update_account_type st2 (f_account_type fields)) as [st3| |] eqn:H3;
    cbn [bind]; auto.
  pose proof (update_account_type_keeps_chart _ _ _ Hk2 H3) as Hk3.
  destruct st3 as [[s3 a3] [|c ch]]; simpl; [auto|]. apply Hk3.
Qed.

(** What a deletion does, by cases *)
Lemma delete_account_cases (s : Store) (account_id : Z) :
  (exists e, delete_account s account_id = (s, Raise e))
  \/ (exists a, get_by_id s account_id = Some a
                /\ ~ has_child s account_id
                /\ ~ in_journal s (Account.name a)
                /\ ~ In account_id (SalesTransaction s)
                /\ ~ In account_id (PurchaseTransaction s)
                /\ ~ In account_id (ExpenseTransaction s)
                /\ delete_account s account_id = (remove s a, Ok a)).
Proof.
  unfold delete_account, get_single_account.
  destruct (get_by_id s account_id) as [a|] eqn:Hget; cbn [bind];
    [|left; eexists; reflexivity].
  pose proof (get_by_id_id _ _ _ Hget) as Hid. rewrite Hid.
  destruct (0 <? List.length (with_parent s (Some account_id)))%nat eqn:Hc;
    cbn [raise_if bind]; [left; eexists; reflexivity|].
  destruct (0 <? List.length (entries_of s (Account.name a)))%nat eqn:Hj;
    cbn [raise_if bind]; [left; eexists; reflexivity|].
  destruct (0 <? count_refs (SalesTransaction s) account_id)%nat eqn:Hs;
    cbn [raise_if bind]; [left; eexists; reflexivity|].
  destruct (0 <? count_refs (PurchaseTransaction s) account_id)%nat eqn:Hp;
    cbn [raise_if bind]; [left; eexists; reflexivity|].
  destruct (0 <? count_refs (ExpenseTransaction s) account_id)%nat eqn:He;
    cbn [raise_if bind]; [left; eexists; reflexivity|].
  right. exists a. split; [reflexivity|].
  split; [now apply no_child_with_parent|].
  split; [now apply not_in_journal_entries|].
  repeat (split; [now apply count_refs_zero|]). reflexivity.
Qed.

Lemma delete_wf_chart (s : Store) (account_id : Z) :
  wf_chart s -> wf_chart (fst (delete_account s account_id)).
Proof.
  intros Hwf.
  destruct (delete_account_cases s account_id) as [(e & ->)|(a & Hget & Hleaf & _ & _ & _ & _ & ->)];
    [assumption|].
  simpl. apply wf_chart_remove; [assumption|].
  now rewrite (get_by_id_id _ _ _ Hget).
Qed.

Lemma step_wf_chart (s : Store) (op : operation) : wf_chart s -> wf_chart (step s op).
Proof.
  intros Hwf. destruct op; simpl; auto.
  - now apply create_wf_chart.
  - now apply update_wf_chart.
  - now apply delete_wf_chart.
Qed.

Lemma run_wf_chart (ops : list operation) (s : Store) : wf_chart s -> wf_chart (run s ops).
Proof.
  revert s. induction ops as [|op ops IH]; intros s Hwf; simpl; [assumption|].
  apply IH. now apply step_wf_chart.
Qed.

(** ** Roots on a chart the service built *)

Lemma below_parent (s : Store) (a b : Account.t) :
  In b (accounts s) -> Account.id b < Account.id a ->
  (below s (Account.id b) < below s (Account.id a))%nat.
Proof.
  intros Hin Hlt. unfold below. apply (filter_length_lt _ _ _ b); auto.
  - intros x _ Hx. apply Z.ltb_lt in Hx. apply Z.ltb_lt. lia.
  - apply Z.ltb_irrefl.
  - now apply Z.ltb_lt.
Qed.

Lemma below_le (s : Store) (i : Z) : (below s i <= List.length (accounts s))%nat.
Proof.
  unfold below. induction (accounts s) as [|b l IH]; simpl; [lia|].
  destruct (Account.id b <? i); simpl; lia.
Qed.

Lemma parent_resolves (s : Store) (a : Account.t) (p : Z) :
  wf_chart s -> In a (accounts s) -> Account.parent_id a = Some p ->
  exists b, get_by_id s p = Some b /\ In b (accounts s) /\ Account.id b < Account.id a.
Proof.
  intros (_ & _ & Hl & _) Hin Hp. apply In_links in Hin. rewrite Hp in Hin.
  destruct (Hl _ _ Hin) as [_ Hq]. destruct (Hq p eq_refl) as [Hlt Hres].
  apply get_by_id_resolves in Hres as (b & Hb). exists b.
  split; [assumption|]. split; [now apply (get_by_id_In s p)|].
  now rewrite (get_by_id_id _ _ _ Hb).
Qed.

Lemma get_root_account_loop_total (s : Store) (fuel : nat) (a : Account.t) :
  wf_chart s -> In a (accounts s) -> (below s (Account.id a) <= fuel)%nat ->
  exists root, get_root_account_loop fuel s (Some a) = Ok root
               /\ In root (accounts s) /\ Account.parent_id root = None.
Proof.
  intros Hwf. revert a. induction fuel as [|fuel IH]; intros a Hin Hfuel.
  - simpl. destruct (Account.parent_id a) as [p|] eqn:Hp; [|now exists a].
    destruct (parent_resolves s a p Hwf Hin Hp) as (b & _ & Hb & Hlt).
    pose proof (below_parent s a b Hb Hlt). lia.
  - rewrite get_root_account_loop_S.
    destruct (Account.parent_id a) as [p|] eqn:Hp; [|now exists a].
    destruct (parent_resolves s a p Hwf Hin Hp) as (b & Hget & Hb & Hlt).
    rewrite Hget. apply IH; [assumption|].
    pose proof (below_parent s a b Hb Hlt). lia.
Qed.

Lemma get_root_account_loop_more (s : Store) (fuel : nat) (c : option Account.t)
    (root : Account.t) :
  get_root_account_loop fuel s c = Ok root ->
  get_root_account_loop (S fuel) s c = Ok root.
Proof.
  revert c. induction fuel as [|fuel IH]; intros [c|] H; try discriminate.
  - simpl in *. destruct (Account.parent_id c); [discriminate|exact H].
  - rewrite get_root_account_loop_S in *.
    destruct (Account.parent_id c) as [p|]; [|exact H]. now apply IH.
Qed.

(** X1.  A database without accounts is a chart as the service builds
    it, and every operation keeps it one: keys stay unique, positive and
    below the sequence, every parent stays a stored account with a
    smaller key, and names stay trimmed; so it is after any run. *)
Theorem chart_invariant :
  (forall s, fresh s -> wf_chart s)
  /\ (forall s op, wf_chart s -> wf_chart (step s op))
  /\ (forall s ops, fresh s -> wf_chart (run s ops)).
Proof.
  split; [exact fresh_wf_chart|]. split; [exact step_wf_chart|].
  intros s ops Hf. apply run_wf_chart. now apply fresh_wf_chart.
Qed.

Lemma chart_invariant_witness :
  fresh journal_store
  /\ wf_chart (run journal_store [Create cash_body; Update 5 (only_name " Till "); Delete 4]).
Proof.
  assert (Hf : fresh journal_store) by (split; [reflexivity|reflexivity]).
  split; [exact Hf|].
  exact (proj2 (proj2 chart_invariant) journal_store
           [Create cash_body; Update 5 (only_name " Till "); Delete 4] Hf).
Defined.

(** X2.  On a chart the service built, the root of every stored account
    is found: the walk ends at a stored account without parent, which
    is the account itself when it has no parent, and an account and its
    parent have the same root. *)
Theorem root_resolves (s : Store) (a : Account.t)
    (Hwf : wf_chart s) (Hin : In a (accounts s)) :
  (exists root, get_root_account s (Some a) = Ok root
                /\ In root (accounts s) /\ Account.parent_id root = None)
  /\ (Account.parent_id a = None -> get_root_account s (Some a) = Ok a)
  /\ (forall p, Account.parent_id a = Some p ->
        exists b, get_by_id s p = Some b
                  /\ get_root_account s (Some a) = get_root_account s (Some b)).
Proof.
  split; [|split].
  - apply get_root_account_loop_total; auto.
    pose proof (below_le s (Account.id a)). lia.
  - intros Hp. unfold get_root_account. rewrite get_root_account_loop_S. now rewrite Hp.
  - intros p Hp.
    destruct (parent_resolves s a p Hwf Hin Hp) as (b & Hget & Hb & Hlt).
    exists b. split; [assumption|].
    unfold get_root_account. rewrite (get_root_account_loop_S _ s a), Hp, Hget.
    destruct (get_root_account_loop_total s (List.length (accounts s)) b Hwf Hb)
      as (root & Hroot & _).
    { apply below_le. }
    rewrite Hroot. symmetry. now apply get_root_account_loop_more.
Qed.

Lemma wf_chart_cash_store : wf_chart cash_store.
Proof.
  apply (run_wf_chart [Create cash_body] empty_store).
  apply fresh_wf_chart. split; reflexivity.
Qed.

Lemma root_resolves_witness :
  In cash (accounts cash_store)
  /\ get_root_account cash_store (Some cash) = get_root_account cash_store (Some assets).
Proof.
  assert (Hin : In cash (accounts cash_store)).
  { vm_compute. do 4 right. now left. }
  split; [exact Hin|].
  destruct (proj2 (proj2 (root_resolves cash_store cash wf_chart_cash_store Hin))
              1 eq_refl) as (b & Hb & Heq).
  vm_compute in Hb. inversion Hb; subst b. exact Heq.
Defined.

(** ** Accounts that are not there *)

(** X3.  An update or a deletion aimed at a key that no account has
    fails with [AccountNotFoundException] for that key and changes
    nothing; after a successful deletion the key is such a key, so a
    second deletion and any update of it fail that way. *)
Theorem missing_account_rejected :
  (forall s account_id fields,
     get_by_id s account_id = None ->
     update_account s account_id fields
     = (s, Raise (AccountNotFoundException account_id))
     /\ delete_account s account_id = (s, Raise (AccountNotFoundException account_id)))
  /\
  (forall s s' account_id a fields,
     delete_account s account_id = (s', Ok a) ->
     get_by_id s' account_id = None
     /\ delete_account s' account_id = (s', Raise (AccountNotFoundException account_id))
     /\ update_account s' account_id fields
        = (s', Raise (AccountNotFoundException account_id))).
Proof.
  assert (Hmissing : forall s account_id fields,
     get_by_id s account_id = None ->
     update_account s account_id fields
     = (s, Raise (AccountNotFoundException account_id))
     /\ delete_account s account_id = (s, Raise (AccountNotFoundException account_id))).
  { intros s account_id fields Hget.
    unfold update_account, delete_account, get_single_account. rewrite Hget. auto. }
  split; [exact Hmissing|].
  intros s s' account_id a fields Hdel.
  assert (Hgone : get_by_id s' account_id = None).
  { destruct (delete_account_cases s account_id)
      as [(e & He)|(a0 & Hget & _ & _ & _ & _ & _ & He)];
      rewrite He in Hdel; inversion Hdel; subst.
    rewrite <- (get_by_id_id _ _ _ Hget). apply get_by_id_remove. }
  split; [exact Hgone|]. destruct (Hmissing s' account_id fields Hgone). auto.
Qed.

Lemma missing_account_rejected_witness :
  get_by_id cash_store 9 = None
  /\ delete_account cash_store 9 = (cash_store, Raise (AccountNotFoundException 9)).
Proof.
  assert (Hget : get_by_id cash_store 9 = None) by (vm_compute; reflexivity).
  split; [exact Hget|].
  exact (proj2 (proj1 missing_account_rejected cash_store 9 (only_name "x") Hget)).
Defined.

(** ** The cost-centre flag on update *)

(** X4.  An update that carries only [cc_required]: a value that is no
    boolean is rejected; the stored value repeated changes nothing;
    turning the flag on always succeeds; turning it off is rejected,
    the store unchanged, when a purchase or an expense transaction
    refers to the account or its name contains "cost of goods sold" or
    "rebate" in any letter case, and succeeds otherwise. *)
Theorem cc_required_change_guarded (s : Store) (account_id : Z) (account : Account.t)
    (Hget : get_by_id s account_id = Some account) :
  (forall j, (forall b, j <> JBool b) ->
     update_account s account_id (mkFields None (Some j) None)
     = (s, Raise (BadRequest CCNotBool)))
  /\
  (update_account s account_id
     (mkFields None (Some (JBool (Account.cc_required account))) None)
   = (s, Ok NoChanges))
  /\
  (Account.cc_required account = false ->
   update_account s account_id (mkFields None (Some (JBool true)) None)
   = (write s (Account.set_cc_required account true),
      Ok (Updated ["cost center requirement"])))
  /\
  (Account.cc_required account = true ->
   update_account s account_id (mkFields None (Some (JBool false)) None)
   = if (existsb (fun x => x =? account_id) (PurchaseTransaction s)
         || existsb (fun x => x =? account_id) (ExpenseTransaction s))
        || (name_contains (Account.name account) "cost of goods sold"
            || name_contains (Account.name account) "rebate")
     then (s, Raise (BadRequest (CannotDisableCC (Account.name account))))
     else (write s (Account.set_cc_required account false),
           Ok (Updated ["cost center requirement"]))).
Proof.
  pose proof (get_by_id_id _ _ _ Hget) as Hid.
  assert (Hcount : forall table,
            (0 <? count_refs table account_id)%nat = existsb (fun x => x =? account_id) table).
  { intros table. unfold count_refs.
    induction table as [|x l IH]; simpl; [reflexivity|].
    destruct (x =? account_id); simpl; [reflexivity|exact IH]. }
  split; [|split; [|split]].
  - intros j Hj. unfold update_account, get_single_account. rewrite Hget. simpl.
    destruct j as [|b|v|]; try reflexivity. now contradiction (Hj b).
  - unfold update_account, get_single_account. rewrite Hget. simpl.
    now rewrite Bool.eqb_reflx.
  - intros Hcc. unfold update_account, get_single_account. rewrite Hget. simpl.
    rewrite Hcc. reflexivity.
  - intros Hcc. unfold update_account, get_single_account. rewrite Hget. simpl.
    rewrite Hcc. cbn [Bool.eqb negb andb]. rewrite Hid, !Hcount.
    unfold name_contains.
    destruct ((existsb _ (PurchaseTransaction s) || existsb _ (ExpenseTransaction s))
              || _); reflexivity.
Qed.

Lemma cc_required_change_guarded_witness :
  get_by_id rent_store 5 = Some rent
  /\ update_account rent_store 5 (mkFields None (Some (JBool false)) None)
     = (write rent_store (Account.set_cc_required rent false),
        Ok (Updated ["cost center requirement"])).
Proof.
  assert (Hget : get_by_id rent_store 5 = Some rent) by (vm_compute; reflexivity).
  split; [exact Hget|].
  exact (proj2 (proj2 (proj2 (cc_required_change_guarded rent_store 5 rent Hget))) eq_refl).
Defined.

(** ** A creation and what follows it *)

Lemma find_frames (i : Z) (l l' : list Account.t)
    (extra : list (Z * string * string * option Z * option string)) (b : Account.t) :
  map frame l' = (map frame l ++ extra)%list ->
  find (fun a => Account.id a =? i) l = Some b ->
  exists b', find (fun a => Account.id a =? i) l' = Some b' /\ frame b' = frame b.
Proof.
  revert l'. induction l as [|x l IH]; intros l' Hmap Hfind; [discriminate|].
  destruct l' as [|x' l']; [discriminate|].
  simpl in Hmap.
  assert (Hx : frame x' = frame x) by congruence.
  assert (Hrest : map frame l' = (map frame l ++ extra)%list) by congruence.
  clear Hmap.
  assert (Hid : Account.id x' = Account.id x) by (unfold frame in Hx; congruence).
  cbn [find] in *. rewrite Hid.
  destruct (Account.id x =? i).
  - injection Hfind as <-. exists x'. split; [reflexivity|exact Hx].
  - now apply IH.
Qed.

Lemma get_by_id_fresh (s : Store) (i : Z) :
  wf_keys s -> next_id s <= i -> get_by_id s i = None.
Proof.
  intros [_ Hlt] Hi. unfold get_by_id.
  destruct (find _ (accounts s)) as [b|] eqn:E; [|reflexivity].
  apply find_some in E as [Hin E]. apply Z.eqb_eq in E. apply Hlt in Hin. lia.
Qed.

Lemma validate_root_accounts_keeps (s s1 : Store) :
  wf_keys s -> validate_root_accounts s = Ok s1 ->
  wf_keys s1
  /\ (forall e, In e root_accounts -> settled s1 e)
  /\ (forall i b, get_by_id s i = Some b ->
        exists b', get_by_id s1 i = Some b' /\ frame b' = frame b).
Proof.
  intros Hwf Hv. rewrite validate_root_accounts_unfold in Hv.
  destruct (validate_roots_settle _ _ _ root_accounts_NoDup Hwf Hv)
    as (Hwf1 & Hs & _ & (news & Hnews)).
  split; [assumption|]. split; [assumption|].
  intros i b Hb. now apply (find_frames i (accounts s) (accounts s1) (map frame news)).
Qed.

Lemma generate_code_accounts (s t : Store) (parent : option Account.t) :
  accounts s = accounts t -> generate_code s parent = generate_code t parent.
Proof.
  intros H. unfold generate_code, with_parent. now rewrite H.
Qed.

Lemma settled_accounts (s t : Store) (entry : string * root_props) :
  accounts s = accounts t -> settled s entry -> settled t entry.
Proof.
  intros H (r & Hr & Hrest). exists r. split; [|assumption].
  unfold find_root in *. now rewrite <- H.
Qed.

Lemma remove_last_created (s1 : Store) (a : Account.t) :
  wf_keys s1 -> Account.id a = next_id s1 ->
  filter (fun b => negb (Account.id b =? Account.id a)) (accounts s1 ++ [a]) = accounts s1.
Proof.
  intros [_ Hlt] Hid. rewrite filter_app. simpl. rewrite Z.eqb_refl. simpl.
  rewrite app_nil_r. rewrite Hid.
  assert (H : forall b, In b (accounts s1) -> negb (Account.id b =? next_id s1) = true).
  { intros b Hb. apply negb_true_iff, Z.eqb_neq. apply Hlt in Hb. lia. }
  clear Hlt. induction (accounts s1) as [|b l IH]; simpl; [reflexivity|].
  rewrite (H b (or_introl eq_refl)). f_equal. apply IH.
  intros c Hc. apply H. now right.
Qed.

(** X7.  Codes are handed out again: when the account a creation has
    just made is deleted, the next account created under the same
    parent is given the very code of the deleted one, under a new key. *)
Theorem code_reused_after_delete (s s' s'' s3 : Store) (body body2 : Body)
    (a b : Account.t)
    (Hwf : wf_keys s)
    (Hcreate : create_account_in_account_tree s body = (s', Ok a))
    (Hdelete : delete_account s' (Account.id a) = (s'', Ok a))
    (Hagain : create_account_in_account_tree s'' body2 = (s3, Ok b))
    (Hparent : body_parent_id body2 = body_parent_id body) :
  Account.code b = Account.code a
  /\ Account.parent_id b = Account.parent_id a
  /\ Account.id b = Account.id a + 1.
Proof.
  apply create_success in Hcreate
    as (s1 & parent & root & n0 & t0 & n & t & code & Hv & Hbody & _ & Hp & _ & _ & _ &
        Hcode & Hid & _ & Hca & Hpa & _ & _ & _ & Hacc & Hnext).
  destruct (validate_root_accounts_keeps s s1 Hwf Hv) as (Hwf1 & Hsettled & _).
  assert (Hwf' : wf_keys s') by now apply (wf_keys_snoc s1 s' a).
  assert (Hacc'' : accounts s'' = accounts s1 /\ next_id s'' = next_id s1 + 1
                   /\ wf_keys s'').
  { destruct (delete_account_cases s' (Account.id a))
      as [(e & He)|(a0 & Hget & _ & _ & _ & _ & _ & He)];
      rewrite He in Hdelete; inversion Hdelete; subst.
    split; [|split].
    - unfold remove; simpl. rewrite Hacc. now apply remove_last_created.
    - simpl. exact Hnext.
    - now apply wf_keys_remove. }
  destruct Hacc'' as (Hacc'' & Hnext'' & Hwf'').
  assert (Hv'' : validate_root_accounts s'' = Ok s'').
  { rewrite validate_root_accounts_unfold. apply validate_roots_settled; [assumption|].
    intros e He. apply (settled_accounts s1); auto. }
  apply create_success in Hagain
    as (s2 & parent2 & root2 & n0' & t0' & n' & t' & code2 & Hv2 & Hbody2 & _ & Hp2 & _ &
        _ & _ & Hcode2 & Hid2 & _ & Hcb & Hpb & _).
  rewrite Hv'' in Hv2. inversion Hv2; subst s2; clear Hv2.
  assert (Hpid : body_parent_id body = Some (Account.id parent)).
  { unfold extract_body in Hbody. bind_inv Hbody. bind_inv Hbody. now inversion Hbody. }
  assert (Hpid2 : body_parent_id body2 = Some (Account.id parent2)).
  { unfold extract_body in Hbody2. bind_inv Hbody2. bind_inv Hbody2.
    now inversion Hbody2. }
  assert (Hsame : parent2 = parent).
  { assert (E : Account.id parent2 = Account.id parent) by congruence.
    unfold get_by_id in Hp, Hp2. rewrite Hacc'', E, Hp in Hp2. now inversion Hp2. }
  subst parent2.
  rewrite (generate_code_accounts s'' s1 _ Hacc''), Hcode in Hcode2.
  inversion Hcode2; subst code2.
  split; [congruence|]. split; [congruence|]. lia.
Qed.

Lemma code_reused_after_delete_witness :
  wf_keys empty_store
  /\ Account.code (Account.mk 6 "Till" "1001" (Some 1) (Some "debit")
                              (Some "balance_sheet") false)
     = Account.code cash.
Proof.
  assert (Hwf : wf_keys empty_store) by apply wf_keys_empty.
  split; [exact Hwf|].
  refine (proj1 (code_reused_after_delete empty_store cash_store
                   (fst (delete_account cash_store 5))
                   (fst (create_account_in_account_tree (fst (delete_account cash_store 5))
                           (mkBody "Till" (Some 1) None false None)))
                   cash_body (mkBody "Till" (Some 1) None false None) cash _
                   Hwf _ _ _ eq_refl));
    vm_compute; reflexivity.
Defined.

(** ** An update made twice *)

Lemma same_name_noop (st : update_state) (field : option json) :
  same_name (snd (fst st)) field = true -> update_name st field = Ok st.
Proof.
  destruct st as [[s a] ch]. cbn [fst snd]. unfold same_name, update_name.
  destruct field as [[|b|v|]|]; try discriminate; [|reflexivity].
  intros H. apply andb_true_iff in H as [Hne Heq].
  apply negb_true_iff in Hne. rewrite Hne, Heq. reflexivity.
Qed.

Lemma update_name_settles (s s' : Store) (a a' : Account.t) (ch ch' : list string)
    (field : option json) :
  update_name (s, a, ch) field = Ok (s', a', ch') -> same_name a' field = true.
Proof.
  unfold update_name, same_name.
  destruct field as [[|b|v|]|]; try discriminate; [|reflexivity].
  intros H. bind_inv H. apply raise_if_Ok in Hx. rewrite Hx. cbn [negb andb].
  destruct (lower (Account.name a) =? lower (strip v))%string eqn:E; cbn [negb] in H.
  - inversion H; subst. exact E.
  - bind_inv H. bind_inv H. inversion H; subst. simpl. apply String.eqb_refl.
Qed.

Lemma update_cc_required_settles (s s' : Store) (a a' : Account.t) (ch ch' : list string)
    (field : option json) :
  update_cc_required (s, a, ch) field = Ok (s', a', ch') ->
  same_cc_required a' field = true /\ Account.name a' = Account.name a.
Proof.
  unfold update_cc_required, same_cc_required.
  destruct field as [[|b|v|]|]; try discriminate.
  - destruct (Bool.eqb (Account.cc_required a) b) eqn:E; cbn [negb].
    + intros H. inversion H; subst. auto.
    + intros H. bind_inv H. inversion H; subst. simpl. split; [|reflexivity].
      apply Bool.eqb_reflx.
  - intros H. inversion H; subst. auto.
Qed.

Lemma update_account_type_settles (s s' : Store) (a a' : Account.t) (ch ch' : list string)
    (field : option json) :
  update_account_type (s, a, ch) field = Ok (s', a', ch') ->
  same_account_type a' field = true
  /\ Account.name a' = Account.name a /\ Account.cc_required a' = Account.cc_required a.
Proof.
  unfold update_account_type, same_account_type.
  assert (Hclear :
            match Account.account_type a with
            | Some _ => Ok (write s (Account.set_account_type a None),
                            Account.set_account_type a None,
                            (ch ++ ["account type"])%list)
            | None => Ok (s, a, ch)
            end = Ok (s', a', ch') ->
            match Account.account_type a' with None => true | Some _ => false end = true
            /\ Account.name a' = Account.name a
            /\ Account.cc_required a' = Account.cc_required a).
  { destruct (Account.account_type a) eqn:E; intros H; inversion H; subst; simpl; auto.
    rewrite E. auto. }
  destruct field as [[|b|v|]|]; try discriminate.
  - exact Hclear.
  - destruct v as [|c v]; [exact Hclear|]. cbv zeta.
    intros H. bind_inv H. apply raise_if_Ok in Hx. apply negb_false_iff in Hx.
    rewrite Hx. cbn [andb].
    destruct (opt_string_eqb (Account.account_type a) (Some (strip (String c v)))) eqn:E;
      cbn [negb] in H.
    + inversion H; subst. auto.
    + bind_inv H. bind_inv H. bind_inv H. inversion H; subst. simpl.
      split; [apply String.eqb_refl|auto].
  - intros H. inversion H; subst. auto.
Qed.

Lemma same_name_ext (a a' : Account.t) (field : option json) :
  Account.name a' = Account.name a -> same_name a' field = same_name a field.
Proof. intros H. unfold same_name. now rewrite H. Qed.

Lemma same_cc_required_ext (a a' : Account.t) (field : option json) :
  Account.cc_required a' = Account.cc_required a ->
  same_cc_required a' field = same_cc_required a field.
Proof. intros H. unfold same_cc_required. now rewrite H. Qed.

(** X8.  An update is idempotent: the request of a successful update,
    sent again to the store it left, finds nothing to change, reports
    so and leaves that store as it is. *)
Theorem update_idempotent (s s' : Store) (account_id : Z) (fields : UpdateFields)
    (r : update_result)
    (Hupdate : update_account s account_id fields = (s', Ok r)) :
  update_account s' account_id fields = (s', Ok NoChanges).
Proof.
  pose proof Hupdate as Hrun.
  unfold update_account, get_single_account in Hrun.
  destruct (get_by_id s account_id) as [a0|] eqn:Hget; cbn [bind] in Hrun;
    [|discriminate].
  pose proof (get_by_id_id _ _ _ Hget) as Hid.
  assert (Hk0 : keeps_type a0 (s, a0, [])).
  { unfold keeps_type. rewrite Hid. repeat split; auto. }
  destruct (update_name (s, a0, []) (f_name fields)) as [[[s1 a1] ch1]| |] eqn:H1;
    cbn [bind] in Hrun; try discriminate.
  pose proof (update_name_keeps_type _ _ _ _ Hk0 H1) as Hk1.
  destruct (update_cc_required (s1, a1, ch1) (f_cc_required fields))
    as [[[s2 a2] ch2]| |] eqn:H2; cbn [bind] in Hrun; try discriminate.
  pose proof (update_cc_required_keeps_type _ _ _ _ Hk1 H2) as Hk2.
  destruct (update_account_type (s2, a2, ch2) (f_account_type fields))
    as [[[s3 a3] ch3]| |] eqn:H3; cbn [bind] in Hrun; try discriminate.
  pose proof (update_account_type_keeps_policy _ _ _ _ Hk2 H3) as Hk3.
  destruct ch3 as [|c ch3]; inversion Hrun; subst; clear Hrun.
  - exact Hupdate.
  - destruct Hk3 as (_ & _ & _ & Hg3 & _).
    apply update_name_settles in H1.
    apply update_cc_required_settles in H2 as [Hcc Hn2].
    apply update_account_type_settles in H3 as (Hty & Hn3 & Hc3).
    assert (Hname : same_name a3 (f_name fields) = true).
    { rewrite (same_name_ext a1 a3); [assumption|congruence]. }
    assert (Hcc3 : same_cc_required a3 (f_cc_required fields) = true).
    { rewrite (same_cc_required_ext a2 a3); assumption. }
    unfold update_account, get_single_account. rewrite Hg3. cbn [bind].
    rewrite (same_name_noop (s', a3, []) _ Hname). cbn [bind].
    rewrite (same_cc_required_noop (s', a3, []) _ Hcc3). cbn [bind].
    rewrite (same_account_type_noop (s', a3, []) _ Hty). reflexivity.
Qed.

Lemma update_idempotent_witness :
  update_account cash_store 5 (mkFields (Some (JStr " Till ")) (Some (JBool true)) (Some JNull))
  = (fst (update_account cash_store 5
            (mkFields (Some (JStr " Till ")) (Some (JBool true)) (Some JNull))),
     Ok (Updated ["name"; "cost center requirement"; "account type"]))
  /\ update_account
       (fst (update_account cash_store 5
               (mkFields (Some (JStr " Till ")) (Some (JBool true)) (Some JNull))))
       5 (mkFields (Some (JStr " Till ")) (Some (JBool true)) (Some JNull))
     = (fst (update_account cash_store 5
               (mkFields (Some (JStr " Till ")) (Some (JBool true)) (Some JNull))),
        Ok NoChanges).
Proof.
  assert (H : update_account cash_store 5
                (mkFields (Some (JStr " Till ")) (Some (JBool true)) (Some JNull))
              = (fst (update_account cash_store 5
                        (mkFields (Some (JStr " Till ")) (Some (JBool true)) (Some JNull))),
                 Ok (Updated ["name"; "cost center requirement"; "account type"])))
    by (vm_compute; reflexivity).
  split; [exact H|].
  exact (update_idempotent _ _ _ _ _ H).
Defined.

(** ** The forest and the chart *)

Lemma AccountNode_induction (P : AccountNode -> Prop) :
  (forall account children, Forall P children -> P (Node account children)) ->
  forall n, P n.
Proof.
  intros H.
  exact (fix F (n : AccountNode) : P n :=
           match n with
           | Node account children =>
               H account children
                 ((fix G (l : list AccountNode) : Forall P l :=
                     match l with
                     | [] => Forall_nil P
                     | child :: rest => Forall_cons child (F child) (G rest)
                     end) children)
           end).
Qed.

Lemma family_Node (s : Store) (account : Account.t) (children : list AccountNode) :
  family s (Node account children)
  <-> Permutation (map node_account children)
                  (with_parent s (Some (Account.id account)))
      /\ Forall (family s) children.
Proof.
  cbn [family].
  assert (H : forall l,
            (fix all (l : list AccountNode) : Prop :=
               match l with
               | [] => True
               | child :: rest => family s child /\ all rest
               end) l <-> Forall (family s) l).
  { induction l as [|c l IH]; split; intros Hl; auto.
    - destruct Hl as [Hc Hl]. constructor; [assumption|now apply IH].
    - inversion Hl; subst. split; [assumption|now apply IH]. }
  now rewrite H.
Qed.

Lemma node_account_first (n : AccountNode) : In (node_account n) (node_accounts n).
Proof. destruct n. now left. Qed.

Lemma with_parent_In (s : Store) (p : Z) (b : Account.t) :
  In b (with_parent s (Some p)) <-> In b (accounts s) /\ Account.parent_id b = Some p.
Proof.
  unfold with_parent. rewrite filter_In. split; intros [Hin Hp]; split; auto.
  - destruct (Account.parent_id b) as [q|]; simpl in Hp; [|discriminate].
    apply Z.eqb_eq in Hp. now subst.
  - rewrite Hp. simpl. apply Z.eqb_refl.
Qed.

Lemma with_parent_None_In (s : Store) (b : Account.t) :
  In b (with_parent s None) <-> In b (accounts s) /\ Account.parent_id b = None.
Proof.
  unfold with_parent. rewrite filter_In. split; intros [Hin Hp]; split; auto.
  - destruct (Account.parent_id b) as [q|]; simpl in Hp; [discriminate|reflexivity].
  - now rewrite Hp.
Qed.

Lemma NoDup_accounts (s : Store) : wf_keys s -> NoDup (accounts s).
Proof. intros [Hnd _]. now apply NoDup_map_inv in Hnd. Qed.

Lemma NoDup_with_parent (s : Store) (p : option Z) :
  wf_keys s -> NoDup (with_parent s p).
Proof. intros H. apply NoDup_filter. now apply NoDup_accounts. Qed.

Section Family.
Variable s : Store.
Hypothesis Hwf : wf_chart s.

(** The members of a family tree are stored, none has a key below the
    root's, and each but the root has its parent in the tree. *)
Lemma family_members (n : AccountNode) :
  family s n -> In (node_account n) (accounts s) ->
  forall b, In b (node_accounts n) ->
            In b (accounts s)
            /\ (b = node_account n
                \/ Account.id (node_account n) < Account.id b
                   /\ exists p, In p (node_accounts n)
                                /\ Account.parent_id b = Some (Account.id p)).
Proof.
  induction n as [a ch IH] using AccountNode_induction.
  intros Hfam Ha b Hb. apply family_Node in Hfam as [Hperm Hall].
  cbn [node_account node_accounts] in *.
  destruct Hb as [<-|Hb]; [auto|].
  apply in_flat_map in Hb as (c & Hc & Hb).
  rewrite Forall_forall in IH, Hall.
  assert (Hchild : In (node_account c) (with_parent s (Some (Account.id a)))).
  { apply (Permutation_in _ Hperm). now apply in_map. }
  apply with_parent_In in Hchild as [Hcin Hcp].
  pose proof (wf_chart_links s Hwf _ _ Hcin Hcp) as Hlt.
  destruct (IH c Hc (Hall c Hc) Hcin b Hb) as [Hbin Hrel].
  split; [assumption|]. right.
  destruct Hrel as [->|[Hlt' (p & Hp & Hbp)]].
  - split; [assumption|]. exists a. split; [now left|assumption].
  - split; [lia|]. exists p. split; [|assumption].
    right. apply in_flat_map. now exists c.
Qed.

Lemma family_closed (n : AccountNode) :
  family s n ->
  forall p b, In p (node_accounts n) -> In b (accounts s) ->
              Account.parent_id b = Some (Account.id p) -> In b (node_accounts n).
Proof.
  induction n as [a ch IH] using AccountNode_induction.
  intros Hfam p b Hp Hb Hbp. apply family_Node in Hfam as [Hperm Hall].
  cbn [node_accounts] in *. right. apply in_flat_map.
  rewrite Forall_forall in IH, Hall.
  destruct Hp as [<-|Hp].
  - assert (Hin : In b (map node_account ch)).
    { apply (Permutation_in _ (Permutation_sym Hperm)). now apply with_parent_In. }
    apply in_map_iff in Hin as (c & <- & Hc). exists c. split; [assumption|].
    apply node_account_first.
  - apply in_flat_map in Hp as (c & Hc & Hp). exists c. split; [assumption|].
    now apply (IH c Hc (Hall c Hc) p b).
Qed.

(** Two family trees that share an account hold one another's root. *)
Lemma family_overlap (n1 n2 : AccountNode) :
  family s n1 -> family s n2 ->
  In (node_account n1) (accounts s) -> In (node_account n2) (accounts s) ->
  forall b, In b (node_accounts n1) -> In b (node_accounts n2) ->
            In (node_account n1) (node_accounts n2)
            \/ In (node_account n2) (node_accounts n1).
Proof.
  intros F1 F2 R1 R2.
  assert (H : forall k : nat, forall b, (below s (Account.id b) < k)%nat ->
            In b (node_accounts n1) -> In b (node_accounts n2) ->
            In (node_account n1) (node_accounts n2)
            \/ In (node_account n2) (node_accounts n1)).
  { induction k as [|k IH]; intros b Hk H1 H2; [lia|].
    destruct (family_members n1 F1 R1 b H1) as [Hb [->|[_ (p1 & Hp1 & Hbp1)]]]; [auto|].
    destruct (family_members n2 F2 R2 b H2) as [_ [->|[_ (p2 & Hp2 & Hbp2)]]]; [auto|].
    destruct (family_members n1 F1 R1 p1 Hp1) as [Hp1in _].
    destruct (family_members n2 F2 R2 p2 Hp2) as [Hp2in _].
    assert (p1 = p2).
    { apply (wf_keys_unique s); auto using wf_chart_keys. congruence. }
    subst p2.
    pose proof (wf_chart_links s Hwf _ _ Hb Hbp1) as Hlt.
    pose proof (below_parent s b p1 Hp1in Hlt).
    apply (IH p1); auto. lia. }
  intros b. apply (H (S (below s (Account.id b)))). lia.
Qed.

Lemma NoDup_flat_map {A B : Type} (f : A -> list B) (l : list A) :
  (forall a, In a l -> NoDup (f a)) ->
  ForallOrdPairs (fun a a' => forall b, In b (f a) -> ~ In b (f a')) l ->
  NoDup (flat_map f l).
Proof.
  intros Hnd Hdis. induction Hdis as [|a l Ha Hl IH]; simpl; [constructor|].
  apply NoDup_app.
  - apply Hnd. now left.
  - apply IH. intros x Hx. apply Hnd. now right.
  - intros b Hb Hb'. apply in_flat_map in Hb' as (a' & Ha' & Hb').
    rewrite Forall_forall in Ha. exact (Ha a' Ha' b Hb Hb').
Qed.

Lemma ForallOrdPairs_map_NoDup {A B : Type} (g : A -> B) (R : A -> A -> Prop)
    (l : list A) :
  NoDup (map g l) ->
  (forall a a', In a l -> In a' l -> g a <> g a' -> R a a') ->
  ForallOrdPairs R l.
Proof.
  induction l as [|a l IH]; intros Hnd H; [constructor|].
  simpl in Hnd. inversion Hnd as [|x xs Hnotin Hnd']; subst.
  constructor.
  - apply Forall_forall. intros a' Ha'. apply H; [now left|now right|].
    intros E. apply Hnotin. rewrite E. now apply in_map.
  - apply IH; [assumption|]. intros x y Hx Hy. apply H; now right.
Qed.

(** Trees of distinct accounts, none of which lies in the tree of
    another, list every account once. *)
Lemma family_forest_NoDup (l : list AccountNode) :
  NoDup (map node_account l) ->
  (forall n, In n l -> family s n /\ In (node_account n) (accounts s)
                       /\ NoDup (node_accounts n)) ->
  (forall n n', In n l -> In n' l -> node_account n <> node_account n' ->
                ~ In (node_account n) (node_accounts n')) ->
  NoDup (flat_map node_accounts l).
Proof.
  intros Hnd Hfam Hapart. apply NoDup_flat_map.
  - intros n Hn. now apply Hfam.
  - apply (ForallOrdPairs_map_NoDup node_account); [assumption|].
    intros n n' Hn Hn' Hne b Hb Hb'.
    destruct (Hfam n Hn) as (F & R & _). destruct (Hfam n' Hn') as (F' & R' & _).
    destruct (family_overlap n n' F F' R R' b Hb Hb') as [H|H].
    + exact (Hapart n n' Hn Hn' Hne H).
    + apply (Hapart n' n Hn' Hn); auto.
Qed.

Lemma family_NoDup (n : AccountNode) :
  family s n -> In (node_account n) (accounts s) -> NoDup (node_accounts n).
Proof.
  induction n as [a ch IH] using AccountNode_induction.
  intros Hfam Ha. pose proof Hfam as Hfam'.
  apply family_Node in Hfam as [Hperm Hall].
  cbn [node_account node_accounts] in *.
  rewrite Forall_forall in IH, Hall.
  assert (Hchild : forall c, In c ch ->
            In (node_account c) (accounts s)
            /\ Account.parent_id (node_account c) = Some (Account.id a)).
  { intros c Hc. apply with_parent_In. apply (Permutation_in _ Hperm). now apply in_map. }
  constructor.
  - intros Hin.
    destruct (family_members (Node a ch) Hfam' Ha a (or_intror Hin)) as [_ Hrel].
    apply in_flat_map in Hin as (c & Hc & Hin).
    destruct (Hchild c Hc) as [Hcin Hcp].
    destruct (family_members c (Hall c Hc) Hcin a Hin) as [_ [E|[Hlt _]]].
    + rewrite <- E in Hcp.
      pose proof (wf_chart_links s Hwf _ _ Ha Hcp). lia.
    + pose proof (wf_chart_links s Hwf _ _ Hcin Hcp). lia.
  - apply family_forest_NoDup.
    + apply (Permutation_NoDup (Permutation_sym Hperm)).
      apply NoDup_with_parent. now apply wf_chart_keys.
    + intros c Hc. destruct (Hchild c Hc) as [Hcin _].
      split; [now apply Hall|]. split; [assumption|]. now apply IH; auto.
    + intros c c' Hc Hc' Hne Hin.
      destruct (Hchild c Hc) as [Hcin Hcp]. destruct (Hchild c' Hc') as [Hcin' Hcp'].
      destruct (family_members c' (Hall c' Hc') Hcin' _ Hin)
        as [_ [E|[_ (p & Hp & Hpp)]]]; [contradiction|].
      destruct (family_members c' (Hall c' Hc') Hcin' p Hp) as [Hpin Hrel].
      assert (p = a).
      { apply (wf_keys_unique s); auto using wf_chart_keys. congruence. }
      subst p.
      pose proof (wf_chart_links s Hwf _ _ Hcin' Hcp').
      destruct Hrel as [E|[Hlt _]]; [rewrite E in *|]; lia.
Qed.

Lemma family_descends (n : AccountNode) :
  family s n -> In (node_account n) (accounts s) ->
  forall b, In b (node_accounts n) <-> descends s (node_account n) b.
Proof.
  intros Hfam Hroot b. split.
  - assert (H : forall k : nat, forall b, (below s (Account.id b) < k)%nat ->
              In b (node_accounts n) -> descends s (node_account n) b).
    { induction k as [|k IH]; intros c Hk Hc; [lia|].
      destruct (family_members n Hfam Hroot c Hc) as [Hcin [->|[_ (p & Hp & Hcp)]]];
        [constructor|].
      destruct (family_members n Hfam Hroot p Hp) as [Hpin _].
      pose proof (wf_chart_links s Hwf _ _ Hcin Hcp) as Hlt.
      pose proof (below_parent s c p Hpin Hlt).
      apply (descends_child s _ p); auto. apply IH; auto. lia. }
    apply (H (S (below s (Account.id b)))). lia.
  - induction 1 as [|p c _ IH Hc Hcp].
    + apply node_account_first.
    + now apply (family_closed n Hfam p c).
Qed.

(** Every stored account lies in the tree of a parentless one. *)
Lemma family_forest_covers (l : list AccountNode) :
  (forall n, In n l -> family s n) ->
  (forall a, In a (with_parent s None) -> In a (map node_account l)) ->
  forall b, In b (accounts s) -> In b (flat_map node_accounts l).
Proof.
  intros Hfam Hroots.
  assert (H : forall k : nat, forall b, (below s (Account.id b) < k)%nat ->
            In b (accounts s) -> In b (flat_map node_accounts l)).
  { induction k as [|k IH]; intros b Hk Hb; [lia|].
    destruct (Account.parent_id b) as [q|] eqn:Hp.
    - destruct (parent_resolves s b q Hwf Hb Hp) as (p & Hg & Hpin & Hlt).
      pose proof (below_parent s b p Hpin Hlt).
      assert (Hin : In p (flat_map node_accounts l)) by (apply IH; auto; lia).
      apply in_flat_map in Hin as (n & Hn & Hin). apply in_flat_map.
      exists n. split; [assumption|].
      apply (family_closed n (Hfam n Hn) p b); auto.
      now rewrite (get_by_id_id _ _ _ Hg).
    - assert (Hin : In b (map node_account l)).
      { apply Hroots. now apply with_parent_None_In. }
      apply in_map_iff in Hin as (n & <- & Hn). apply in_flat_map.
      exists n. split; [assumption|apply node_account_first]. }
  intros b. apply (H (S (below s (Account.id b)))). lia.
Qed.

End Family.

(** *** The two walks build family trees *)

Lemma Permutation_insert_by_code (a : Account.t) (l : list Account.t) :
  Permutation (insert_by_code a l) (a :: l).
Proof.
  induction l as [|b l IH]; simpl; [reflexivity|].
  destruct (_ || _); [|reflexivity].
  rewrite IH. apply perm_swap.
Qed.

Lemma Permutation_order_by_code (l : list Account.t) :
  Permutation (order_by_code l) l.
Proof.
  unfold order_by_code.
  assert (H : forall acc,
            Permutation (fold_left (fun acc a => insert_by_code a acc) l acc)
                        (acc ++ l)).
  { induction l as [|a l IH]; intros acc; simpl.
    - now rewrite app_nil_r.
    - rewrite IH, Permutation_insert_by_code. apply Permutation_middle. }
  apply (H []).
Qed.

Lemma sorted_by_code_cons (a b : Account.t) (l : list Account.t) :
  sorted_by_code (a :: b :: l)
  = (Account.code a <=? Account.code b)%string && sorted_by_code (b :: l).
Proof. reflexivity. Qed.

Lemma sorted_insert_by_code (a : Account.t) (l : list Account.t) :
  sorted_by_code l = true -> sorted_by_code (insert_by_code a l) = true.
Proof.
  induction l as [|b l IH]; intros Hs; [reflexivity|].
  cbn [insert_by_code].
  destruct (String.ltb (Account.code b) (Account.code a)
            || (Account.code b =? Account.code a)%string) eqn:E.
  - assert (Hba : (Account.code b <=? Account.code a)%string = true).
    { unfold String.leb. apply orb_true_iff in E as [E|E].
      - unfold String.ltb in E. destruct (_ ?= _)%string; auto; discriminate E.
      - apply String.eqb_eq in E. rewrite E.
        destruct (Account.code a ?= Account.code a)%string eqn:C; auto.
        pose proof (String.compare_antisym (Account.code a) (Account.code a)) as H.
        rewrite C in H. discriminate H. }
    destruct l as [|c l].
    + cbn [insert_by_code]. rewrite sorted_by_code_cons, Hba. reflexivity.
    + rewrite sorted_by_code_cons in Hs. apply andb_true_iff in Hs as [Hbc Hl].
      specialize (IH Hl). cbn [insert_by_code] in *.
      destruct (String.ltb (Account.code c) (Account.code a)
                || (Account.code c =? Account.code a)%string).
      * rewrite sorted_by_code_cons, Hbc. exact IH.
      * rewrite sorted_by_code_cons, Hba. exact IH.
  - rewrite sorted_by_code_cons, Hs, andb_true_r.
    apply orb_false_iff in E as [E1 E2].
    unfold String.leb. unfold String.ltb in E1.
    rewrite String.compare_antisym.
    destruct (Account.code b ?= Account.code a)%string eqn:C; auto; discriminate E1.
Qed.

Lemma sorted_order_by_code (l : list Account.t) :
  sorted_by_code (order_by_code l) = true.
Proof.
  unfold order_by_code.
  assert (H : forall acc, sorted_by_code acc = true ->
            sorted_by_code (fold_left (fun acc a => insert_by_code a acc) l acc) = true).
  { induction l as [|a l IH]; intros acc Hacc; simpl; [assumption|].
    apply IH. now apply sorted_insert_by_code. }
  now apply H.
Qed.


(** The rows a loop visits and the entries it appends, pairwise *)
Lemma accumulate_Forall2 {X : Type} (visit : X -> result (AccountView * Z * Z))
    (xs : list X) (views : list AccountView) (td tc : Z) :
  accumulate visit xs = Ok (views, td, tc) ->
  Forall2 (fun x v => exists d c, visit x = Ok (v, d, c)) xs views.
Proof.
  unfold accumulate.
  assert (H : forall views0 d0 c0,
            fold_left
              (fun acc x =>
                 '(views, total_debit, total_credit) <- acc ;;
                 '(view, x_debit, x_credit) <- visit x ;;
                 Ok ((views ++ [view])%list, total_debit + x_debit, total_credit + x_credit))
              xs (Ok (views0, d0, c0)) = Ok (views, td, tc) ->
            exists vs, views = (views0 ++ vs)%list
                       /\ Forall2 (fun x v => exists d c, visit x = Ok (v, d, c)) xs vs).
  { induction xs as [|x xs IH]; intros views0 d0 c0 H.
    - simpl in H. inversion H; subst. exists []. rewrite app_nil_r. auto.
    - simpl in H. destruct (visit x) as [[[v d] c]| |] eqn:Ev; cbn [bind] in H.
      + apply IH in H as (vs & -> & Hall). exists (v :: vs).
        rewrite <- app_assoc. split; [reflexivity|]. constructor; eauto.
      + exfalso. clear -H. induction xs as [|y ys IHy]; simpl in H; [discriminate|auto].
      + exfalso. clear -H. induction xs as [|y ys IHy]; simpl in H; [discriminate|auto]. }
  intros Hacc. apply H in Hacc as (vs & -> & Hall). exact Hall.
Qed.

Lemma collect_Forall2 {X Y : Type} (visit : X -> result Y) (xs : list X) (ys : list Y) :
  collect visit xs = Ok ys -> Forall2 (fun x y => visit x = Ok y) xs ys.
Proof.
  unfold collect.
  assert (H : forall ys0,
            fold_left (fun acc x => ys <- acc ;; y <- visit x ;; Ok (ys ++ [y])%list)
                      xs (Ok ys0) = Ok ys ->
            exists zs, ys = (ys0 ++ zs)%list /\ Forall2 (fun x y => visit x = Ok y) xs zs).
  { induction xs as [|x xs IH]; intros ys0 H.
    - simpl in H. inversion H; subst. exists []. rewrite app_nil_r. auto.
    - simpl in H. destruct (visit x) as [y| |] eqn:Ev; cbn [bind] in H.
      + apply IH in H as (zs & -> & Hall). exists (y :: zs).
        rewrite <- app_assoc. split; [reflexivity|]. constructor; auto.
      + exfalso. clear -H. induction xs as [|z zs IHz]; simpl in H; [discriminate|auto].
      + exfalso. clear -H. induction xs as [|z zs IHz]; simpl in H; [discriminate|auto]. }
  intros Hc. apply H in Hc as (zs & -> & Hall). exact Hall.
Qed.

Lemma collect_total {X Y : Type} (visit : X -> result Y) (xs : list X) :
  (forall x, In x xs -> exists y, visit x = Ok y) ->
  exists ys, collect visit xs = Ok ys.
Proof.
  unfold collect.
  assert (G : forall acc,
            (forall x, In x xs -> exists y, visit x = Ok y) ->
            exists ys,
              fold_left (fun acc x => ys <- acc ;; y <- visit x ;; Ok (ys ++ [y])%list)
                        xs (Ok acc) = Ok ys).
  { induction xs as [|x xs IH]; intros acc H; simpl; [now exists acc|].
    destruct (H x (or_introl eq_refl)) as (y & Hy). rewrite Hy. cbn [bind].
    apply IH. intros z Hz. apply H. now right. }
  apply G.
Qed.

Lemma Forall2_map_l {A B C : Type} (f : A -> C) (g : B -> C) (l : list A) (m : list B) :
  Forall2 (fun x y => g y = f x) l m -> map g m = map f l.
Proof. induction 1; simpl; congruence. Qed.

Lemma build_account_tree_S (fuel : nat) (s : Store) (account : Account.t) :
  build_account_tree (S fuel) s account
  = children <- collect (build_account_tree fuel s)
                        (with_parent s (Some (Account.id account))) ;;
    Ok (Node account children).
Proof. reflexivity. Qed.

Lemma build_account_tree_family (s : Store) (fuel : nat) (account : Account.t)
    (n : AccountNode) :
  build_account_tree fuel s account = Ok n ->
  node_account n = account /\ family s n.
Proof.
  revert account n. induction fuel as [|fuel IH]; intros account n H; [discriminate|].
  rewrite build_account_tree_S in H. bind_inv H. inversion H; subst; clear H.
  apply collect_Forall2 in Hx. split; [reflexivity|]. apply family_Node. split.
  - rewrite (Forall2_map_l (fun a => a) node_account
               (with_parent s (Some (Account.id account))) x).
    + now rewrite map_id.
    + eapply Forall2_impl; [|exact Hx]. intros a c Hc. now apply IH in Hc.
  - clear -Hx IH. induction Hx as [|a c l m Hc _ IHl]; constructor; auto.
    now apply IH in Hc.
Qed.

Lemma build_account_tree_total (s : Store) (fuel : nat) (account : Account.t) :
  wf_links s -> (above s (Account.id account) < fuel)%nat ->
  exists n, build_account_tree fuel s account = Ok n.
Proof.
  intros Hwf. revert account. induction fuel as [|fuel IH]; intros account Hlt; [lia|].
  rewrite build_account_tree_S.
  destruct (collect_total (build_account_tree fuel s)
              (with_parent s (Some (Account.id account)))) as (children & Hc).
  - intros c Hc. apply with_parent_In in Hc as [Hin Hp]. apply IH.
    pose proof (Hwf c _ Hin Hp) as Hid.
    pose proof (above_child s account c Hin Hid). lia.
  - rewrite Hc. cbn [bind]. eexists. reflexivity.
Qed.

Lemma compute_account_totals_family (s : Store) (fuel : nat) (account : Account.t)
    (v : AccountView) (d c : Z) :
  compute_account_totals fuel s account = Ok (v, d, c) ->
  hd_account v = account
  /\ family s (view_node v)
  /\ node_accounts (view_node v) = view_accounts v
  /\ forall w, In w (view_nodes v) -> view_sound s w.
Proof.
  revert account v d c. induction fuel as [|fuel IH]; intros account v d c H;
    [discriminate|].
  rewrite compute_account_totals_S in H. bind_inv H.
  destruct x as [[views cd] cc]. inversion H; subst; clear H.
  pose proof (accumulate_Forall2 _ _ _ _ _ Hx) as Hall.
  apply (accumulate_totals _ view_debit view_credit) in Hx as (Hd & Hc & _).
  2:{ intros y w dy cy _ Hw. apply compute_account_totals_sum in Hw. intuition. }
  assert (Hheads : map hd_account views
                   = order_by_code (with_parent s (Some (Account.id account)))).
  { rewrite (Forall2_map_l (fun a => a) hd_account
               (order_by_code (with_parent s (Some (Account.id account)))) views).
    - now rewrite map_id.
    - eapply Forall2_impl; [|exact Hall]. intros a w (dw & cw & Hw).
      now apply IH in Hw. }
  assert (Hviews : forall w, In w views ->
            family s (view_node w) /\ node_accounts (view_node w) = view_accounts w
            /\ forall u, In u (view_nodes w) -> view_sound s u).
  { clear -Hall IH. induction Hall as [|a w l m (dw & cw & Hw) _ IHl];
      intros u Hu; [destruct Hu|].
    destruct Hu as [<-|Hu]; auto. apply IH in Hw. tauto. }
  split; [reflexivity|]. split; [|split].
  - cbn [view_node]. apply family_Node. split.
    + rewrite map_map.
      rewrite (map_ext (fun w => node_account (view_node w)) hd_account)
        by (now intros [a ? ? ?]).
      rewrite Hheads. apply Permutation_order_by_code.
    + apply Forall_forall. intros n Hn. apply in_map_iff in Hn as (w & <- & Hw).
      now apply Hviews.
  - cbn [view_node node_accounts view_accounts]. f_equal.
    clear -Hviews. induction views as [|w l IHl]; simpl; [reflexivity|].
    rewrite IHl by (intros u Hu; apply Hviews; now right).
    destruct (Hviews w (or_introl eq_refl)) as (_ & -> & _). reflexivity.
  - intros w. cbn [view_nodes]. intros [<-|Hw].
    + unfold view_sound. cbn [hd_account view_children view_debit view_credit].
      rewrite Hheads, Hd, Hc. auto.
    + apply in_flat_map in Hw as (u & Hu & Hw). now apply (Hviews u Hu).
Qed.

Lemma flat_map_view_node (views : list AccountView) :
  (forall w, In w views -> node_accounts (view_node w) = view_accounts w) ->
  flat_map node_accounts (map view_node views) = flat_map view_accounts views.
Proof.
  induction views as [|w l IH]; intros H; simpl; [reflexivity|].
  rewrite H by now left. rewrite IH; [reflexivity|].
  intros u Hu. apply H. now right.
Qed.

Lemma get_account_tree_total (s : Store) :
  wf_links s ->
  exists views d c,
    accumulate (compute_account_totals (S (List.length (accounts s))) s) (with_parent s None)
    = Ok (views, d, c)
    /\ get_account_tree s = Ok (mkTree views d c).
Proof.
  intros Hwf.
  destruct (accumulate_total (compute_account_totals (S (List.length (accounts s))) s)
              (with_parent s None)) as ([[views d] c] & Hacc).
  - intros x _. apply compute_account_totals_total; [assumption|].
    pose proof (above_le s (Account.id x)). lia.
  - exists views, d, c. split; [assumption|].
    unfold get_account_tree, get_all_accounts_from_stmt. rewrite Hacc. reflexivity.
Qed.

(** X9.  On a chart the service built, [get_account_tree] returns, and
    its forest is the chart: the roots are the parentless accounts in
    table order, every stored account occurs in the forest exactly once,
    and the tree of a root holds exactly the accounts from which stored
    parents lead up to it.  At every node the children are exactly the
    stored accounts whose parent is the node, each once and in ascending
    order of their codes, and the amounts of the node are its own amounts
    plus the amounts its children report. *)
Theorem tree_covers_chart (s : Store) (Hwf : wf_chart s) :
  exists r,
    get_account_tree s = Ok r
    /\ map hd_account (tree_accounts r) = with_parent s None
    /\ Permutation (forest_accounts r) (accounts s)
    /\ (forall v b, In v (tree_accounts r) ->
                    (In b (view_accounts v) <-> descends s (hd_account v) b))
    /\ (forall w, In w (forest_nodes r) ->
          (forall c, In c (map hd_account (view_children w))
                     <-> In c (accounts s)
                         /\ Account.parent_id c = Some (Account.id (hd_account w)))
          /\ NoDup (map hd_account (view_children w))
          /\ sorted_by_code (map hd_account (view_children w)) = true
          /\ view_debit w
             = own_debit s (hd_account w) + sum_Z (map view_debit (view_children w))
          /\ view_credit w
             = own_credit s (hd_account w) + sum_Z (map view_credit (view_children w))).
Proof.
  pose proof (wf_chart_keys s Hwf) as Hkeys.
  destruct (get_account_tree_total s (wf_chart_links s Hwf)) as (views & d & c & Hacc & Hr).
  exists (mkTree views d c). split; [exact Hr|].
  cbn [tree_accounts]. unfold forest_accounts, forest_nodes. cbn [tree_accounts].
  apply accumulate_Forall2 in Hacc.
  assert (Hheads : map hd_account views = with_parent s None).
  { rewrite (Forall2_map_l (fun a => a) hd_account (with_parent s None) views).
    - now rewrite map_id.
    - eapply Forall2_impl; [|exact Hacc]. intros a w (dw & cw & Hw).
      now apply compute_account_totals_family in Hw. }
  assert (Hviews : forall w, In w views ->
            family s (view_node w) /\ node_accounts (view_node w) = view_accounts w
            /\ forall u, In u (view_nodes w) -> view_sound s u).
  { clear -Hacc. induction Hacc as [|a w l m (dw & cw & Hw) _ IHl];
      intros u Hu; [destruct Hu|].
    destruct Hu as [<-|Hu]; auto. apply compute_account_totals_family in Hw. tauto. }
  assert (Hroot : forall w, In w views ->
            In (hd_account w) (accounts s) /\ Account.parent_id (hd_account w) = None).
  { intros w Hw. apply with_parent_None_In. rewrite <- Hheads. now apply in_map. }
  assert (Hnode : forall w, node_account (view_node w) = hd_account w)
    by (now intros [a ? ? ?]).
  split; [exact Hheads|]. split; [|split].
  - rewrite <- (flat_map_view_node views) by (intros w Hw; now apply Hviews).
    apply NoDup_Permutation.
    + apply (family_forest_NoDup s Hwf).
      * rewrite map_map, (map_ext _ _ Hnode), Hheads. now apply NoDup_with_parent.
      * intros n Hn. apply in_map_iff in Hn as (w & <- & Hw).
        destruct (Hviews w Hw) as (Hfam & _). destruct (Hroot w Hw) as [Hin _].
        rewrite Hnode. split; [assumption|]. split; [assumption|].
        apply (family_NoDup s Hwf); [assumption|now rewrite Hnode].
      * intros n n' Hn Hn' Hne Hin.
        apply in_map_iff in Hn as (w & <- & Hw).
        apply in_map_iff in Hn' as (w' & <- & Hw').
        destruct (Hviews w' Hw') as (Hfam' & _).
        destruct (Hroot w Hw) as [_ Hnone]. destruct (Hroot w' Hw') as [Hin' _].
        rewrite <- Hnode in Hin'.
        destruct (family_members s Hwf _ Hfam' Hin' _ Hin) as [_ [E|[_ (p & _ & Hp)]]];
          [contradiction|].
        rewrite Hnode in Hp. congruence.
    + now apply NoDup_accounts.
    + intros b. split.
      * intros Hb. apply in_flat_map in Hb as (n & Hn & Hb).
        apply in_map_iff in Hn as (w & <- & Hw).
        destruct (Hviews w Hw) as (Hfam & _). destruct (Hroot w Hw) as [Hin _].
        rewrite <- Hnode in Hin.
        now destruct (family_members s Hwf _ Hfam Hin b Hb).
      * apply (family_forest_covers s Hwf).
        -- intros n Hn. apply in_map_iff in Hn as (w & <- & Hw). now apply Hviews.
        -- intros a Ha. now rewrite map_map, (map_ext _ _ Hnode), Hheads.
  - intros v b Hv. destruct (Hviews v Hv) as (Hfam & Heq & _).
    destruct (Hroot v Hv) as [Hin _]. rewrite <- Heq, <- Hnode.
    apply (family_descends s Hwf); [assumption|now rewrite Hnode].
  - intros w Hw. apply in_flat_map in Hw as (v & Hv & Hw).
    destruct (Hviews v Hv) as (_ & _ & Hsound).
    destruct (Hsound w Hw) as (Hch & Hd & Hc). rewrite Hch.
    split; [|split; [|split; [|split]]]; auto.
    + intros x. rewrite <- with_parent_In. split.
      * apply Permutation_in, Permutation_order_by_code.
      * apply Permutation_in, Permutation_sym, Permutation_order_by_code.
    + apply (Permutation_NoDup (Permutation_sym (Permutation_order_by_code _))).
      now apply NoDup_with_parent.
    + apply sorted_order_by_code.
Qed.

Lemma tree_covers_chart_witness :
  wf_chart cash_store
  /\ exists r,
       get_account_tree cash_store = Ok r
       /\ Permutation (forest_accounts r) (accounts cash_store).
Proof.
  split; [exact wf_chart_cash_store|].
  destruct (tree_covers_chart cash_store wf_chart_cash_store) as (r & Hr & _ & Hp & _).
  exists r. split; assumption.
Defined.

Lemma find_name_none (s : Store) (n : string) :
  find (fun a => (Account.name a =? n)%string) (accounts s) = None
  <-> forall a, In a (accounts s) -> Account.name a <> n.
Proof.
  split.
  - intros H a Ha E. apply (find_none _ _ H) in Ha. simpl in Ha.
    apply String.eqb_neq in Ha. contradiction.
  - intros H. destruct (find _ (accounts s)) as [a|] eqn:E; [|reflexivity].
    apply find_some in E as [Hin E]. apply String.eqb_eq in E.
    now destruct (H a Hin).
Qed.

(** X10.  [get_accounts_by_parent_name] raises its not-found error
    exactly when no stored account has the given name, letter for letter;
    it never returns a tree then.  On a chart the service built, when
    some account has the name it returns a tree whose root is a stored
    account of that name and which holds, each exactly once, the
    accounts from which stored parents lead up to the root; the root has
    no children in the tree exactly when no stored account has it as
    parent. *)
Theorem subtree_by_name (s : Store) (parent_name : string) (Hwf : wf_chart s) :
  ((forall a, In a (accounts s) -> Account.name a <> parent_name)
   <-> get_accounts_by_parent_name s parent_name
       = Raise (ParentNameNotFoundException parent_name))
  /\ ((exists a, In a (accounts s) /\ Account.name a = parent_name) ->
      exists t,
        get_accounts_by_parent_name s parent_name = Ok t
        /\ In (node_account t) (accounts s)
        /\ Account.name (node_account t) = parent_name
        /\ NoDup (node_accounts t)
        /\ (forall b, In b (node_accounts t) <-> descends s (node_account t) b)
        /\ (node_children t = [] <-> ~ has_child s (Account.id (node_account t)))).
Proof.
  unfold get_accounts_by_parent_name. split.
  - rewrite <- find_name_none.
    destruct (find _ (accounts s)) as [parent|] eqn:E.
    + split; [discriminate|]. intros H.
      destruct (build_account_tree_total s (S (List.length (accounts s))) parent
                  (wf_chart_links s Hwf)) as (n & Hn).
      * pose proof (above_le s (Account.id parent)). lia.
      * rewrite Hn in H. discriminate.
    + split; reflexivity.
  - intros (a & Ha & Hname).
    destruct (find _ (accounts s)) as [parent|] eqn:E.
    + apply find_some in E as [Hin E]. apply String.eqb_eq in E.
      destruct (build_account_tree_total s (S (List.length (accounts s))) parent
                  (wf_chart_links s Hwf)) as (t & Ht).
      * pose proof (above_le s (Account.id parent)). lia.
      * exists t. split; [exact Ht|].
        apply build_account_tree_family in Ht as [Hroot Hfam]. rewrite Hroot.
        split; [assumption|]. split; [assumption|].
        rewrite <- Hroot in Hin |- *.
        split; [now apply (family_NoDup s Hwf)|].
        split; [now apply (family_descends s Hwf)|].
        destruct t as [x ch]. cbn [node_account node_children] in *.
        apply family_Node in Hfam as [Hperm _].
        rewrite no_child_with_parent. split.
        -- intros ->. simpl in Hperm. apply Permutation_nil in Hperm.
           now rewrite Hperm.
        -- intros Hlen. destruct (with_parent s (Some (Account.id x))) eqn:W;
             [|discriminate].
           apply Permutation_sym, Permutation_nil in Hperm.
           now destruct ch.
    + exfalso. exact (proj1 (find_name_none s parent_name) E a Ha Hname).
Qed.

Lemma subtree_by_name_witness :
  wf_chart cash_store
  /\ (exists a, In a (accounts cash_store) /\ Account.name a = "Assets")
  /\ exists t,
       get_accounts_by_parent_name cash_store "Assets" = Ok t
       /\ NoDup (node_accounts t).
Proof.
  assert (H : exists a, In a (accounts cash_store) /\ Account.name a = "Assets").
  { exists assets. vm_compute. split; [now left|reflexivity]. }
  split; [exact wf_chart_cash_store|]. split; [exact H|].
  destruct (subtree_by_name cash_store "Assets" wf_chart_cash_store) as [_ Hsub].
  destruct (Hsub H) as (t & Ht & _ & _ & Hnd & _).
  exists t. split; assumption.
Defined.

(** ** The steps of an update, one shape *)

Lemma update_name_shape (s : Store) (a : Account.t) (ch : list string)
    (field : option json) (st' : update_state) :
  update_name (s, a, ch) field = Ok st' ->
  st' = (s, a, ch)
  \/ exists v, field = Some (JStr v)
               /\ check_if_account_exist s (strip v) = Ok tt
               /\ st' = (write s (Account.set_name a (strip v)),
                         Account.set_name a (strip v), (ch ++ ["name"])%list).
Proof.
  unfold update_name. destruct field as [[|b|v|]|]; try discriminate.
  - intros H. bind_inv H.
    destruct (negb (lower (Account.name a) =? lower (strip v))%string).
    + bind_inv H. bind_inv H. destruct x1. inversion H; subst. right. eauto.
    + inversion H; auto.
  - intros H. inversion H; auto.
Qed.

Lemma update_cc_required_shape (s : Store) (a : Account.t) (ch : list string)
    (field : option json) (st' : update_state) :
  update_cc_required (s, a, ch) field = Ok st' ->
  st' = (s, a, ch)
  \/ exists b, st' = (write s (Account.set_cc_required a b),
                      Account.set_cc_required a b,
                      (ch ++ ["cost center requirement"])%list).
Proof.
  unfold update_cc_required. destruct field as [[|b|v|]|]; try discriminate.
  - destruct (negb (Bool.eqb (Account.cc_required a) b)).
    + intros H. bind_inv H. inversion H; subst. right. eauto.
    + intros H. inversion H; auto.
  - intros H. inversion H; auto.
Qed.

Lemma update_account_type_shape (s : Store) (a : Account.t) (ch : list string)
    (field : option json) (st' : update_state) :
  update_account_type (s, a, ch) field = Ok st' ->
  st' = (s, a, ch)
  \/ exists t, st' = (write s (Account.set_account_type a t),
                      Account.set_account_type a t,
                      (ch ++ ["account type"])%list).
Proof.
  assert (Hclear :
            match Account.account_type a with
            | Some _ => Ok (write s (Account.set_account_type a None),
                            Account.set_account_type a None,
                            (ch ++ ["account type"])%list)
            | None => Ok (s, a, ch)
            end = Ok st' ->
            st' = (s, a, ch)
            \/ exists t, st' = (write s (Account.set_account_type a t),
                                Account.set_account_type a t,
                                (ch ++ ["account type"])%list)).
  { destruct (Account.account_type a); intros H; inversion H; subst; eauto. }
  unfold update_account_type. destruct field as [[|b|v|]|]; try discriminate.
  - exact Hclear.
  - destruct v as [|c v]; [exact Hclear|].
    intros H. bind_inv H.
    destruct (negb (opt_string_eqb _ _)).
    + bind_inv H. bind_inv H. bind_inv H. inversion H; subst. right. eauto.
    + inversion H; auto.
  - intros H. inversion H; auto.
Qed.

(** A property of the store and the account object that the three
    writes of an update keep holds of the store an update leaves. *)
Lemma update_account_keeps (P : Store -> Account.t -> Prop) :
  (forall s a v, P s a -> check_if_account_exist s (strip v) = Ok tt ->
                 P (write s (Account.set_name a (strip v)))
                   (Account.set_name a (strip v))) ->
  (forall s a b, P s a ->
                 P (write s (Account.set_cc_required a b)) (Account.set_cc_required a b)) ->
  (forall s a t, P s a ->
                 P (write s (Account.set_account_type a t)) (Account.set_account_type a t)) ->
  forall s account_id fields a0,
    get_by_id s account_id = Some a0 -> P s a0 ->
    exists a, P (fst (update_account s account_id fields)) a.
Proof.
  intros Hname Hcc Htype s account_id fields a0 Hget H0.
  unfold update_account, get_single_account. rewrite Hget. cbn [bind].
  destruct (update_name (s, a0, []) (f_name fields)) as [[[s1 a1] ch1]| |] eqn:H1;
    cbn [bind]; eauto.
  assert (P1 : P s1 a1).
  { apply update_name_shape in H1 as [H1|(v & _ & Hc & H1)]; inversion H1; subst; auto. }
  destruct (update_cc_required (s1, a1, ch1) (f_cc_required fields))
    as [[[s2 a2] ch2]| |] eqn:H2; cbn [bind]; eauto.
  assert (P2 : P s2 a2).
  { apply update_cc_required_shape in H2 as [H2|(b & H2)]; inversion H2; subst; auto. }
  destruct (update_account_type (s2, a2, ch2) (f_account_type fields))
    as [[[s3 a3] ch3]| |] eqn:H3; cbn [bind]; eauto.
  assert (P3 : P s3 a3).
  { apply update_account_type_shape in H3 as [H3|(t & H3)]; inversion H3; subst; auto. }
  destruct ch3; simpl; eauto.
Qed.

(** ** Keys, codes, parents and natures stay *)

Lemma evolves_refl (s : Store) : evolves s s.
Proof.
  unfold evolves. repeat split; try lia.
  intros b Hb. right. exists b. auto.
Qed.

Lemma evolves_trans (s s1 s2 : Store) : evolves s s1 -> evolves s1 s2 -> evolves s s2.
Proof.
  intros (Hn & Hd & Hs & Hp & He & Ha) (Hn' & Hd' & Hs' & Hp' & He' & Ha').
  unfold evolves. repeat split; try congruence; try lia.
  intros b Hb. destruct (Ha' b Hb) as [Hlt|(a & Hin & Hi & Hc & Hpa & Hna)].
  - left. lia.
  - destruct (Ha a Hin) as [Hlt|(a0 & Hin0 & Hi0 & Hc0 & Hpa0 & Hna0)].
    + left. lia.
    + right. exists a0. repeat split; congruence.
Qed.

Lemma evolves_add (s : Store) (new_account : Z -> Account.t) :
  Account.id (new_account (next_id s)) = next_id s -> evolves s (add s new_account).
Proof.
  intros Hid. unfold evolves, add, with_accounts. simpl.
  repeat split; try lia.
  intros b Hb. apply in_app_or in Hb as [Hb|[<-|[]]].
  - right. exists b. auto.
  - left. lia.
Qed.

Lemma evolves_write (s : Store) (a a' : Account.t) :
  In a (accounts s) ->
  Account.id a' = Account.id a -> Account.code a' = Account.code a ->
  Account.parent_id a' = Account.parent_id a -> Account.nature a' = Account.nature a ->
  evolves s (write s a').
Proof.
  intros Hin Hi Hc Hp Hn. unfold evolves, write, with_accounts. simpl.
  repeat split; try lia.
  intros b Hb. right. apply in_map_iff in Hb as (x & Hx & Hxin).
  destruct (Account.id x =? Account.id a'); subst b; [exists a|exists x]; auto.
Qed.

Lemma evolves_remove (s : Store) (a : Account.t) : evolves s (remove s a).
Proof.
  unfold evolves, remove, with_accounts. simpl. repeat split; try lia.
  intros b Hb. apply filter_In in Hb as [Hb _]. right. exists b. auto.
Qed.

Lemma evolving_write (s0 s : Store) (a a' : Account.t) :
  evolving s0 s a ->
  Account.id a' = Account.id a -> Account.code a' = Account.code a ->
  Account.parent_id a' = Account.parent_id a -> Account.nature a' = Account.nature a ->
  evolving s0 (write s a') a'.
Proof.
  intros [Hev Hin] Hi Hc Hp Hn. split.
  - apply (evolves_trans s0 s); [assumption|]. now apply (evolves_write s a).
  - unfold write, with_accounts. simpl. apply in_map_iff. exists a.
    split; [|assumption]. rewrite Hi, Z.eqb_refl. reflexivity.
Qed.

Lemma validate_root_evolves (s s' : Store) (entry : string * root_props) :
  validate_root s entry = Ok s' -> evolves s s'.
Proof.
  destruct entry as [name props].
  destruct (find_root s name) as [account|] eqn:E.
  - rewrite (validate_root_found s name props account E).
    intros H. inversion H; subst. apply find_root_In in E as (Hin & _ & _).
    apply (evolves_write s account); auto;
      unfold synced;
      destruct (negb (opt_string_eqb _ _)); destruct (negb (Bool.eqb _ _)); reflexivity.
  - rewrite (validate_root_missing s name props E). intros H. bind_inv H.
    inversion H; subst. now apply evolves_add.
Qed.

Lemma validate_roots_evolves (entries : list (string * root_props)) (s s' : Store) :
  validate_roots entries s = Ok s' -> evolves s s'.
Proof.
  revert s. induction entries as [|e es IH]; intros s H.
  - inversion H; subst. apply evolves_refl.
  - rewrite validate_roots_cons in H. bind_inv H.
    apply (evolves_trans s x); [now apply (validate_root_evolves s x e)|now apply IH].
Qed.

Lemma create_evolves (s : Store) (body : Body) :
  evolves s (fst (create_account_in_account_tree s body)).
Proof.
  assert (Hboot : forall s1, validate_root_accounts s = Ok s1 -> evolves s s1).
  { intros s1. apply (validate_roots_evolves root_accounts). }
  destruct (create_account_in_account_tree s body) as [s' [a| |]] eqn:E.
  - apply create_success_inv in E
      as (s1 & pid & parent & root & n0 & t0 & n & t & new_account & Hv & _ & _ & _ & Hroot
          & _ & Hfill & -> & Ha).
    simpl. apply (evolves_trans s s1); [now apply Hboot|]. apply evolves_add.
    apply (fill_new_account_info_inv _ _ _ _ root) in Hfill as (code & _ & Hnew);
      [|exact Hroot].
    rewrite Hnew. reflexivity.
  - pose proof (create_failure_store s body) as H. rewrite E in H. simpl in H.
    rewrite H by discriminate.
    destruct (validate_root_accounts s) eqn:Hv; [now apply Hboot|apply evolves_refl..].
  - pose proof (create_failure_store s body) as H. rewrite E in H. simpl in H.
    rewrite H by discriminate.
    destruct (validate_root_accounts s) eqn:Hv; [now apply Hboot|apply evolves_refl..].
Qed.

Lemma update_evolves (s : Store) (account_id : Z) (fields : UpdateFields) :
  evolves s (fst (update_account s account_id fields)).
Proof.
  destruct (get_by_id s account_id) as [a0|] eqn:Hget.
  - destruct (update_account_keeps (evolving s)) with (s := s) (account_id := account_id)
      (fields := fields) (a0 := a0) as (a & Hev & _); auto.
    + intros s1 a v H _. now apply (evolving_write s s1 a).
    + intros s1 a b H. now apply (evolving_write s s1 a).
    + intros s1 a t H. now apply (evolving_write s s1 a).
    + split; [apply evolves_refl|now apply (get_by_id_In s account_id)].
  - unfold update_account, get_single_account. rewrite Hget. apply evolves_refl.
Qed.

Lemma delete_evolves (s : Store) (account_id : Z) :
  evolves s (fst (delete_account s account_id)).
Proof.
  destruct (delete_account_cases s account_id) as [(e & ->)|(a & _ & _ & _ & _ & _ & _ & ->)].
  - apply evolves_refl.
  - apply evolves_remove.
Qed.

Lemma step_evolves (s : Store) (op : operation) : evolves s (step s op).
Proof.
  destruct op; simpl;
    auto using create_evolves, update_evolves, delete_evolves, evolves_refl.
Qed.

Lemma run_evolves (ops : list operation) (s : Store) : evolves s (run s ops).
Proof.
  unfold run. revert s. induction ops as [|op ops IH]; intros s; simpl.
  - apply evolves_refl.
  - apply (evolves_trans s (step s op)); [apply step_evolves|apply IH].
Qed.

(** X11.  What no run of the service does.  Whatever operations run on a
    store with proper keys: the journal and the sales, purchase and
    expense tables are left as they were and the key sequence never goes
    back; an account found afterwards under a key the sequence had
    passed was there before under that key, with the same code, parent
    and nature; so a key that was free below the sequence, such as the
    key of a deleted account, is never given to an account again. *)
Theorem service_footprint (s : Store) (ops : list operation) (Hwf : wf_keys s) :
  next_id s <= next_id (run s ops)
  /\ daily_entries (run s ops) = daily_entries s
  /\ SalesTransaction (run s ops) = SalesTransaction s
  /\ PurchaseTransaction (run s ops) = PurchaseTransaction s
  /\ ExpenseTransaction (run s ops) = ExpenseTransaction s
  /\ (forall i b', get_by_id (run s ops) i = Some b' -> i < next_id s ->
        exists b, get_by_id s i = Some b
                  /\ Account.code b' = Account.code b
                  /\ Account.parent_id b' = Account.parent_id b
                  /\ Account.nature b' = Account.nature b)
  /\ (forall i, i < next_id s -> get_by_id s i = None -> get_by_id (run s ops) i = None).
Proof.
  destruct (run_evolves ops s) as (Hn & Hd & Hs & Hp & He & Ha).
  assert (Hkept : forall i b', get_by_id (run s ops) i = Some b' -> i < next_id s ->
            exists b, get_by_id s i = Some b
                      /\ Account.code b' = Account.code b
                      /\ Account.parent_id b' = Account.parent_id b
                      /\ Account.nature b' = Account.nature b).
  { intros i b' Hg Hlt.
    pose proof (get_by_id_id _ _ _ Hg) as Hid. apply get_by_id_In in Hg.
    destruct (Ha b' Hg) as [Hge|(a & Hin & Hi & Hc & Hpa & Hna)]; [lia|].
    destruct (get_by_id s i) as [b|] eqn:Hb.
    - pose proof (get_by_id_id _ _ _ Hb) as Hbid.
      assert (b = a).
      { apply (wf_keys_unique s); auto; [now apply (get_by_id_In s i)|congruence]. }
      subst b. exists a. auto.
    - exfalso. unfold get_by_id in Hb. apply (find_none _ _ Hb) in Hin.
      simpl in Hin. apply Z.eqb_neq in Hin. congruence. }
  repeat split; auto.
  intros i Hlt Hnone. destruct (get_by_id (run s ops) i) as [b'|] eqn:Hg; [|reflexivity].
  destruct (Hkept i b' Hg Hlt) as (b & Hb & _). congruence.
Qed.

Lemma service_footprint_witness :
  wf_keys (run empty_store [Create cash_body; Delete 5])
  /\ get_by_id (run (run empty_store [Create cash_body; Delete 5]) [Create cash_body]) 5
     = None.
Proof.
  assert (Hwf : wf_keys (run empty_store [Create cash_body; Delete 5])).
  { apply wf_chart_keys, run_wf_chart, fresh_wf_chart. split; reflexivity. }
  split; [exact Hwf|].
  destruct (service_footprint _ [Create cash_body] Hwf) as (_ & _ & _ & _ & _ & _ & H).
  apply H; vm_compute; reflexivity.
Defined.

(** ** Names *)

Lemma names_apart_add (s : Store) (new_account : Z -> Account.t) :
  names_apart s ->
  bootstrap_root (new_account (next_id s))
  \/ (forall b, In b (accounts s) ->
                lower (Account.name b) <> lower (Account.name (new_account (next_id s)))) ->
  names_apart (add s new_account).
Proof.
  intros Hs Hnew a b Ha Hb E. unfold add, with_accounts in Ha, Hb. simpl in Ha, Hb.
  apply in_app_or in Ha as [Ha|[<-|[]]]; apply in_app_or in Hb as [Hb|[<-|[]]]; auto.
  - destruct Hnew as [Hboot|Hfresh]; [auto|]. now destruct (Hfresh a Ha).
  - destruct Hnew as [Hboot|Hfresh]; [auto|]. symmetry in E. now destruct (Hfresh b Hb).
Qed.

Lemma names_apart_remove (s : Store) (a : Account.t) :
  names_apart s -> names_apart (remove s a).
Proof.
  intros Hs x y Hx Hy. unfold remove, with_accounts in Hx, Hy. simpl in Hx, Hy.
  apply filter_In in Hx as [Hx _]. apply filter_In in Hy as [Hy _]. now apply Hs.
Qed.

Lemma names_apart_write (s : Store) (a a' : Account.t) :
  wf_keys s -> names_apart s -> In a (accounts s) ->
  Account.id a' = Account.id a -> Account.parent_id a' = Account.parent_id a ->
  Account.name a' = Account.name a
  \/ (forall b, In b (accounts s) -> lower (Account.name b) <> lower (Account.name a')) ->
  names_apart (write s a').
Proof.
  intros Hwf Hs Hin Hid Hp Hname x' y' Hx Hy E.
  unfold write, with_accounts in Hx, Hy. simpl in Hx, Hy.
  apply in_map_iff in Hx as (x & Hx & Hxin). apply in_map_iff in Hy as (y & Hy & Hyin).
  assert (Hboot : bootstrap_root a -> Account.name a' = Account.name a -> bootstrap_root a').
  { intros [Hp0 Hn0] Hn. split; congruence. }
  destruct (Account.id x =? Account.id a') eqn:Ex;
    destruct (Account.id y =? Account.id a') eqn:Ey; subst x' y'; auto.
  - apply Z.eqb_eq in Ex.
    assert (x = a) by (apply (wf_keys_unique s); auto; congruence). subst x.
    destruct Hname as [Hn|Hfresh].
    + rewrite Hn in E. destruct (Hs a y Hin Hyin E) as [->|[Hb|Hb]]; auto.
      rewrite Hid, Z.eqb_refl in Ey. discriminate.
    + symmetry in E. now destruct (Hfresh y Hyin).
  - apply Z.eqb_eq in Ey.
    assert (y = a) by (apply (wf_keys_unique s); auto; congruence). subst y.
    destruct Hname as [Hn|Hfresh].
    + rewrite Hn in E. destruct (Hs x a Hxin Hin E) as [->|[Hb|Hb]]; auto.
      rewrite Hid, Z.eqb_refl in Ex. discriminate.
    + now destruct (Hfresh x Hxin).
Qed.

Lemma naming_write (s : Store) (a a' : Account.t) :
  naming s a ->
  Account.id a' = Account.id a -> Account.parent_id a' = Account.parent_id a ->
  Account.name a' = Account.name a
  \/ (forall b, In b (accounts s) -> lower (Account.name b) <> lower (Account.name a')) ->
  naming (write s a') a'.
Proof.
  intros (Hwf & Hs & Hin) Hid Hp Hname. split; [|split].
  - now apply wf_keys_write.
  - now apply (names_apart_write s a).
  - unfold write, with_accounts. simpl. apply in_map_iff. exists a.
    split; [|assumption]. rewrite Hid, Z.eqb_refl. reflexivity.
Qed.

Lemma validate_root_names_apart (s s' : Store) (entry : string * root_props) :
  In (fst entry) root_names -> wf_keys s -> names_apart s ->
  validate_root s entry = Ok s' -> wf_keys s' /\ names_apart s'.
Proof.
  intros Hentry Hwf Hs H. split; [now apply (validate_root_step s s' entry)|].
  destruct entry as [name props].
  destruct (find_root s name) as [account|] eqn:E.
  - rewrite (validate_root_found s name props account E) in H.
    inversion H; subst. apply find_root_In in E as (Hin & _ & _).
    apply (names_apart_write s account); auto; [| |left];
      unfold synced;
      destruct (negb (opt_string_eqb _ _)); destruct (negb (Bool.eqb _ _)); reflexivity.
  - rewrite (validate_root_missing s name props E) in H. bind_inv H.
    inversion H; subst. apply names_apart_add; [assumption|].
    left. split; [reflexivity|exact Hentry].
Qed.

Lemma validate_roots_names_apart (entries : list (string * root_props)) (s s' : Store) :
  (forall e, In e entries -> In (fst e) root_names) -> wf_keys s -> names_apart s ->
  validate_roots entries s = Ok s' -> wf_keys s' /\ names_apart s'.
Proof.
  revert s. induction entries as [|e es IH]; intros s Hes Hwf Hs H.
  - inversion H; subst. auto.
  - rewrite validate_roots_cons in H. bind_inv H.
    destruct (validate_root_names_apart s x e) as [Hwf' Hs']; auto.
    + apply Hes. now left.
    + apply (IH x); auto. intros e' He'. apply Hes. now right.
Qed.

Lemma validate_root_accounts_names_apart (s s' : Store) :
  wf_keys s -> names_apart s -> validate_root_accounts s = Ok s' ->
  wf_keys s' /\ names_apart s'.
Proof.
  apply (validate_roots_names_apart root_accounts).
  intros e He. unfold root_names. now apply in_map.
Qed.

Lemma create_names_apart (s : Store) (body : Body) :
  wf_keys s -> names_apart s ->
  names_apart (fst (create_account_in_account_tree s body)).
Proof.
  intros Hwf Hs.
  assert (Hfail : (forall a, snd (create_account_in_account_tree s body) <> Ok a) ->
                  names_apart (fst (create_account_in_account_tree s body))).
  { intros H. rewrite create_failure_store by exact H.
    destruct (validate_root_accounts s) as [s1| |] eqn:Hv; auto.
    now apply (validate_root_accounts_names_apart s s1). }
  destruct (create_account_in_account_tree s body) as [s' [a| |]] eqn:E;
    [|apply Hfail; simpl; discriminate..].
  clear Hfail. pose proof E as E'.
  apply create_success in E
    as (s1 & parent & root & n0 & t0 & n & t & code & Hv & _ & Hcheck & _ & _ & _ & _ & _
        & _ & Hname & _).
  apply create_success_inv in E'
    as (s1' & pid & parent' & root' & n0' & t0' & n' & t' & new_account & Hv' & _ & _ & _
        & _ & _ & _ & -> & Ha).
  assert (s1' = s1) by congruence. subst s1'.
  destruct (validate_root_accounts_names_apart s s1 Hwf Hs Hv) as [_ Hs1].
  simpl. apply names_apart_add; [assumption|]. right. rewrite <- Ha, Hname.
  destruct (check_if_account_exist_spec s1 (strip (strip (body_name body))))
    as [[Hc _]|[_ Hfresh]]; [congruence|].
  now rewrite strip_idempotent in Hfresh.
Qed.

Lemma update_names_apart (s : Store) (account_id : Z) (fields : UpdateFields) :
  wf_keys s -> names_apart s ->
  names_apart (fst (update_account s account_id fields)).
Proof.
  intros Hwf Hs. destruct (get_by_id s account_id) as [a0|] eqn:Hget.
  - destruct (update_account_keeps naming) with (s := s) (account_id := account_id)
      (fields := fields) (a0 := a0) as (a & _ & H & _); auto.
    + intros s1 a v H Hc. apply (naming_write s1 a); auto. right.
      destruct (check_if_account_exist_spec s1 (strip v)) as [[Hr _]|[_ Hfresh]];
        [congruence|exact Hfresh].
    + intros s1 a b H. apply (naming_write s1 a); auto.
    + intros s1 a t H. apply (naming_write s1 a); auto.
    + split; [assumption|]. split; [assumption|now apply (get_by_id_In s account_id)].
  - unfold update_account, get_single_account. now rewrite Hget.
Qed.

Lemma delete_names_apart (s : Store) (account_id : Z) :
  names_apart s -> names_apart (fst (delete_account s account_id)).
Proof.
  intros Hs.
  destruct (delete_account_cases s account_id) as [(e & ->)|(a & _ & _ & _ & _ & _ & _ & ->)];
    [assumption|now apply names_apart_remove].
Qed.

Lemma step_names_apart (s : Store) (op : operation) :
  wf_keys s -> names_apart s -> names_apart (step s op).
Proof.
  intros Hwf Hs. destruct op; simpl;
    auto using create_names_apart, update_names_apart, delete_names_apart.
Qed.

Lemma run_names_apart (ops : list operation) (s : Store) :
  wf_chart s -> names_apart s -> names_apart (run s ops).
Proof.
  unfold run. revert s. induction ops as [|op ops IH]; intros s Hwf Hs; simpl; auto.
  apply IH; [now apply step_wf_chart|].
  apply step_names_apart; [now apply wf_chart_keys|assumption].
Qed.

(** ** Digits *)

Lemma is_digit_not_space (c : ascii) : is_digit c = true -> is_space c = false.
Proof.
  unfold is_digit, is_space. cbv zeta. intros H.
  apply andb_true_iff in H as [H1 H2]. apply N.leb_le in H1. apply N.leb_le in H2.
  apply orb_false_iff. split; apply andb_false_iff.
  - right. apply N.leb_gt. lia.
  - right. apply N.leb_gt. lia.
Qed.

Lemma is_digit_cases (c : ascii) :
  is_digit c = true ->
  In c ["0"; "1"; "2"; "3"; "4"; "5"; "6"; "7"; "8"; "9"]%char.
Proof.
  destruct c as [[] [] [] [] [] [] [] []]; vm_compute; intros H;
    try discriminate H; auto 12.
Qed.

Lemma all_digits_app (a b : string) :
  all_digits (a ++ b) = all_digits a && all_digits b.
Proof.
  induction a as [|c a IH]; simpl; [reflexivity|]. now rewrite IH, andb_assoc.
Qed.

Lemma all_digits_zeros (n : nat) : all_digits (zeros n) = true.
Proof. induction n as [|n IH]; simpl; [reflexivity|exact IH]. Qed.

Lemma all_digits_drop (n : nat) (s : string) :
  all_digits s = true -> all_digits (drop n s) = true.
Proof.
  revert s. induction n as [|n IH]; intros s H; [destruct s; exact H|].
  destruct s as [|c r]; simpl; [reflexivity|].
  simpl in H. apply andb_true_iff in H as [_ H]. now apply IH.
Qed.

Lemma length_drop (n : nat) (s : string) :
  String.length (drop n s) = (String.length s - n)%nat.
Proof.
  revert s. induction n as [|n IH]; intros s; [destruct s; simpl; lia|].
  destruct s as [|c r]; simpl; [reflexivity|apply IH].
Qed.

Lemma code_ok_spec (code : string) :
  code_ok code = true <-> all_digits code = true /\ (0 < String.length code)%nat.
Proof.
  unfold code_ok. rewrite andb_true_iff, negb_true_iff. destruct code; simpl.
  - split; intros [H1 H2]; [discriminate|lia].
  - split; intros [H1 H2]; split; auto; lia.
Qed.

Lemma code_ok_last_n (n : nat) (code : string) :
  (0 < n)%nat -> code_ok code = true -> code_ok (last_n n code) = true.
Proof.
  intros Hn H. apply code_ok_spec in H as [Hd Hl]. apply code_ok_spec.
  unfold last_n. split; [now apply all_digits_drop|]. rewrite length_drop. lia.
Qed.

Lemma length_append (a b : string) :
  String.length (a ++ b) = (String.length a + String.length b)%nat.
Proof. induction a as [|c a IH]; simpl; [reflexivity|now rewrite IH]. Qed.

Lemma code_ok_app (a b : string) :
  all_digits a = true -> code_ok b = true -> code_ok (a ++ b) = true.
Proof.
  intros Ha Hb. apply code_ok_spec in Hb as [Hd Hl]. apply code_ok_spec.
  rewrite all_digits_app, Ha, Hd. split; [reflexivity|].
  rewrite length_append. lia.
Qed.

Lemma rstrip_digits (s : string) : all_digits s = true -> rstrip s = s.
Proof.
  induction s as [|c r IH]; simpl; [reflexivity|].
  intros H. apply andb_true_iff in H as [Hc Hr]. rewrite (IH Hr).
  destruct r; [|reflexivity]. now rewrite (is_digit_not_space c Hc).
Qed.

Lemma strip_digits (s : string) : all_digits s = true -> strip s = s.
Proof.
  intros H. unfold strip. rewrite (rstrip_digits s H).
  destruct s as [|c r]; simpl; [reflexivity|].
  simpl in H. apply andb_true_iff in H as [Hc _].
  now rewrite (is_digit_not_space c Hc).
Qed.

Lemma parse_digits_digits (s : string) (acc : Z) (after_digit : bool) :
  all_digits s = true -> 0 <= acc -> (0 < String.length s)%nat \/ after_digit = true ->
  exists n, parse_digits acc after_digit s = Some n /\ 0 <= n.
Proof.
  revert acc after_digit. induction s as [|c r IH]; intros acc b Hd Hacc Hne;
    cbn [parse_digits].
  - destruct Hne as [Hne| ->]; [simpl in Hne; lia|]. now exists acc.
  - simpl in Hd. apply andb_true_iff in Hd as [Hc Hr]. rewrite Hc.
    unfold is_digit in Hc. cbv zeta in Hc. apply andb_true_iff in Hc as [Hc _].
    apply N.leb_le in Hc.
    apply IH; [assumption| |now right].
    unfold digit_val. lia.
Qed.

Lemma py_int_digits (s : string) :
  code_ok s = true -> exists n, py_int s = Some n /\ 0 <= n.
Proof.
  intros H. apply code_ok_spec in H as [Hd Hl]. unfold py_int.
  rewrite (strip_digits s Hd). destruct s as [|c r]; [simpl in Hl; lia|].
  pose proof Hd as Hd'. simpl in Hd'. apply andb_true_iff in Hd' as [Hc _].
  assert (Hgo : exists n, parse_digits 0 false (String c r) = Some n /\ 0 <= n).
  { apply parse_digits_digits; auto; lia. }
  apply is_digit_cases in Hc.
  repeat (destruct Hc as [<-|Hc]; [exact Hgo|]). destruct Hc.
Qed.

Lemma int_digits (s : string) : code_ok s = true -> exists n, int s = Ok n /\ 0 <= n.
Proof.
  intros H. destruct (py_int_digits s H) as (n & Hn & Hpos).
  exists n. unfold int. now rewrite Hn.
Qed.

Lemma string_of_uint_digits (d : Decimal.uint) :
  all_digits (NilEmpty.string_of_uint d) = true.
Proof. induction d; simpl; auto. Qed.

Lemma py_str_digits (n : Z) : 0 <= n -> code_ok (py_str n) = true.
Proof.
  intros Hn. unfold py_str.
  assert (H : forall d, code_ok (NilZero.string_of_uint d) = true).
  { intros d. apply code_ok_spec. destruct d; simpl;
      try (split; [apply string_of_uint_digits|lia]). split; [reflexivity|lia]. }
  destruct n as [|p|p]; simpl; [reflexivity|apply H|lia].
Qed.

Lemma zfill_digits (width : nat) (s : string) :
  code_ok s = true -> code_ok (zfill width s) = true.
Proof.
  intros H. pose proof H as H'. apply code_ok_spec in H' as [Hd Hl].
  assert (Hpad : code_ok (zeros (width - String.length s) ++ s) = true).
  { apply code_ok_app; [apply all_digits_zeros|exact H]. }
  unfold zfill. cbv zeta. destruct s as [|c r]; [exact Hpad|].
  simpl in Hd. apply andb_true_iff in Hd as [Hc _]. apply is_digit_cases in Hc.
  repeat (destruct Hc as [<-|Hc]; [exact Hpad|]). destruct Hc.
Qed.

Lemma first_char_digits (s : string) :
  all_digits s = true -> all_digits (first_char s) = true.
Proof.
  destruct s as [|c r]; simpl; [reflexivity|].
  intros H. apply andb_true_iff in H as [Hc _]. now rewrite Hc.
Qed.

(** ** The generator on proper codes *)

Lemma first_by_code_desc_In (l : list Account.t) (a : Account.t) :
  first_by_code_desc l = Some a -> In a l.
Proof.
  revert a. induction l as [|x l IH]; intros a; simpl; [discriminate|].
  destruct (first_by_code_desc l) as [b|].
  - destruct (String.ltb _ _); intros H; inversion H; subst; auto.
  - intros H; inversion H; subst; auto.
Qed.

Lemma next_suffix_ok (code : string) :
  code_ok code = true ->
  exists n, int (last_n 3 code) = Ok n /\ code_ok (zfill 3 (py_str (n + 1))) = true.
Proof.
  intros H. destruct (int_digits (last_n 3 code)) as (n & Hn & Hpos).
  - apply code_ok_last_n; [lia|exact H].
  - exists n. split; [exact Hn|]. apply zfill_digits, py_str_digits. lia.
Qed.

Lemma generate_code_ok (s : Store) (parent : option Account.t) :
  wf_codes s ->
  match parent with Some p => In p (accounts s) | None => True end ->
  exists code, generate_code s parent = Ok code /\ code_ok code = true.
Proof.
  intros Hwf Hparent. unfold generate_code.
  assert (Hlast : forall p last, first_by_code_desc (with_parent s p) = Some last ->
                                 code_ok (Account.code last) = true).
  { intros p last H. apply first_by_code_desc_In in H. unfold with_parent in H.
    apply filter_In in H as [H _]. now apply Hwf. }
  destruct parent as [p|].
  - pose proof (Hwf p Hparent) as Hp. apply code_ok_spec in Hp as [Hpd _].
    destruct (first_by_code_desc (with_parent s (Some (Account.id p)))) as [last|] eqn:E.
    + destruct (next_suffix_ok _ (Hlast _ _ E)) as (n & Hn & Hok).
      rewrite Hn. cbn [bind].
      destruct ((String.length (Account.code p) =? 4)%nat && endswith (Account.code p) "000");
        [|destruct (String.length (Account.code p) =? 4)%nat];
        eexists; (split; [reflexivity|]); apply code_ok_app; auto.
      now apply first_char_digits.
    + destruct ((String.length (Account.code p) =? 4)%nat && endswith (Account.code p) "000");
        eexists; (split; [reflexivity|]); apply code_ok_app; auto.
      now apply first_char_digits.
  - destruct (first_by_code_desc (with_parent s None)) as [last|] eqn:E.
    + destruct (int_digits _ (Hlast _ _ E)) as (n & Hn & Hpos).
      rewrite Hn. cbn [bind]. eexists. split; [reflexivity|].
      apply py_str_digits. apply Z.mul_nonneg_nonneg; [|lia].
      pose proof (Z.div_pos n 1000 Hpos). lia.
    + exists "1000". split; reflexivity.
Qed.

Lemma wf_codes_add (s : Store) (new_account : Z -> Account.t) :
  wf_codes s -> code_ok (Account.code (new_account (next_id s))) = true ->
  wf_codes (add s new_account).
Proof.
  intros Hs Hnew a Ha. unfold add, with_accounts in Ha. simpl in Ha.
  apply in_app_or in Ha as [Ha|[<-|[]]]; auto.
Qed.

Lemma wf_codes_write (s : Store) (a a' : Account.t) :
  wf_codes s -> In a (accounts s) -> Account.code a' = Account.code a ->
  wf_codes (write s a').
Proof.
  intros Hs Hin Hc b Hb. unfold write, with_accounts in Hb. simpl in Hb.
  apply in_map_iff in Hb as (x & Hx & Hxin).
  destruct (Account.id x =? Account.id a'); subst b; [rewrite Hc|]; auto.
Qed.

Lemma wf_codes_remove (s : Store) (a : Account.t) : wf_codes s -> wf_codes (remove s a).
Proof.
  intros Hs b Hb. unfold remove, with_accounts in Hb. simpl in Hb.
  apply filter_In in Hb as [Hb _]. now apply Hs.
Qed.

Lemma coding_write (s : Store) (a a' : Account.t) :
  coding s a -> Account.id a' = Account.id a -> Account.code a' = Account.code a ->
  coding (write s a') a'.
Proof.
  intros [Hs Hin] Hid Hc. split; [now apply (wf_codes_write s a)|].
  unfold write, with_accounts. simpl. apply in_map_iff. exists a.
  split; [|assumption]. rewrite Hid, Z.eqb_refl. reflexivity.
Qed.

Lemma validate_root_codes (s : Store) (entry : string * root_props) :
  wf_codes s -> exists s', validate_root s entry = Ok s' /\ wf_codes s'.
Proof.
  intros Hs. destruct entry as [name props].
  destruct (find_root s name) as [account|] eqn:E.
  - rewrite (validate_root_found s name props account E). eexists. split; [reflexivity|].
    apply find_root_In in E as (Hin & _ & _).
    apply (wf_codes_write s account); auto. unfold synced.
    destruct (negb (opt_string_eqb _ _)); destruct (negb (Bool.eqb _ _)); reflexivity.
  - rewrite (validate_root_missing s name props E).
    destruct (generate_code_ok s None Hs I) as (code & -> & Hok). cbn [bind].
    eexists. split; [reflexivity|]. now apply wf_codes_add.
Qed.

Lemma validate_roots_codes (entries : list (string * root_props)) (s : Store) :
  wf_codes s -> exists s', validate_roots entries s = Ok s' /\ wf_codes s'.
Proof.
  revert s. induction entries as [|e es IH]; intros s Hs.
  - exists s. split; [reflexivity|assumption].
  - rewrite validate_roots_cons.
    destruct (validate_root_codes s e Hs) as (s1 & -> & Hs1). cbn [bind]. now apply IH.
Qed.

Lemma validate_root_accounts_codes (s : Store) :
  wf_codes s -> exists s', validate_root_accounts s = Ok s' /\ wf_codes s'.
Proof. apply (validate_roots_codes root_accounts). Qed.

Lemma create_codes (s : Store) (body : Body) :
  wf_codes s -> wf_codes (fst (create_account_in_account_tree s body)).
Proof.
  intros Hs. destruct (validate_root_accounts_codes s Hs) as (s1 & Hv & Hs1).
  destruct (create_account_in_account_tree s body) as [s' [a| |]] eqn:E.
  - apply create_success_inv in E
      as (s1' & pid & parent & root & n0 & t0 & n & t & new_account & Hv' & _ & _ & Hp
          & Hroot & _ & Hfill & -> & Ha).
    assert (s1' = s1) by congruence. subst s1'.
    simpl. apply wf_codes_add; [assumption|].
    apply (fill_new_account_info_inv _ _ _ _ root) in Hfill as (code & Hcode & Hnew);
      [|exact Hroot].
    rewrite Hnew. simpl.
    destruct (generate_code_ok s1 (Some parent) Hs1) as (code' & Hcode' & Hok).
    + now apply (get_by_id_In s1 pid).
    + congruence.
  - pose proof (create_failure_store s body) as H. rewrite E in H. simpl in H.
    rewrite H by discriminate. now rewrite Hv.
  - pose proof (create_failure_store s body) as H. rewrite E in H. simpl in H.
    rewrite H by discriminate. now rewrite Hv.
Qed.

Lemma update_codes (s : Store) (account_id : Z) (fields : UpdateFields) :
  wf_codes s -> wf_codes (fst (update_account s account_id fields)).
Proof.
  intros Hs. destruct (get_by_id s account_id) as [a0|] eqn:Hget.
  - destruct (update_account_keeps coding) with (s := s) (account_id := account_id)
      (fields := fields) (a0 := a0) as (a & H & _); auto.
    + intros s1 a v H _. now apply (coding_write s1 a).
    + intros s1 a b H. now apply (coding_write s1 a).
    + intros s1 a t H. now apply (coding_write s1 a).
    + split; [assumption|now apply (get_by_id_In s account_id)].
  - unfold update_account, get_single_account. now rewrite Hget.
Qed.

Lemma delete_codes (s : Store) (account_id : Z) :
  wf_codes s -> wf_codes (fst (delete_account s account_id)).
Proof.
  intros Hs.
  destruct (delete_account_cases s account_id) as [(e & ->)|(a & _ & _ & _ & _ & _ & _ & ->)];
    [assumption|now apply wf_codes_remove].
Qed.

Lemma step_codes (s : Store) (op : operation) : wf_codes s -> wf_codes (step s op).
Proof.
  intros Hs. destruct op; simpl; auto using create_codes, update_codes, delete_codes.
Qed.

Lemma run_codes (ops : list operation) (s : Store) : wf_codes s -> wf_codes (run s ops).
Proof.
  unfold run. revert s. induction ops as [|op ops IH]; intros s Hs; simpl; auto.
  apply IH. now apply step_codes.
Qed.

(** ** A creation always answers *)

Lemma extract_body_outcome (body : Body) :
  match extract_body body with
  | Ok _ => True
  | Raise e => create_error (create_handler e) = true
  | Diverge => False
  end.
Proof.
  unfold extract_body, raise_if. cbv zeta.
  destruct (truthy _ && negb _); cbn [bind]; [reflexivity|].
  destruct (truthy _ && negb _); cbn [bind]; [reflexivity|exact I].
Qed.

Lemma apply_root_rules_outcome (root : Account.t) (nature account_type : option string) :
  match apply_root_rules root nature account_type with
  | Ok _ => True
  | Raise e => create_error (create_handler e) = true
  | Diverge => False
  end.
Proof.
  unfold apply_root_rules, nature_rule, account_type_rule, raise_if. cbv zeta.
  repeat match goal with
         | |- context [if ?c then _ else _] => destruct c; cbn [bind]
         end; auto.
Qed.

Lemma fill_new_account_info_total (s : Store) (name : string) (nature : option string)
    (parent root : Account.t) (cc_required : bool) (account_type : option string)
    (code : string) :
  get_root_account s (Some parent) = Ok root ->
  generate_code s (Some parent) = Ok code ->
  exists new_account,
    fill_new_account_info s name nature (Some parent) cc_required account_type
    = Ok new_account.
Proof.
  intros Hroot Hcode. unfold fill_new_account_info. rewrite Hroot, Hcode.
  destruct account_type; destruct cc_required; cbn [bind];
    repeat match goal with
           | |- context [if ?c then _ else _] => destruct c; cbn [bind]
           end; eauto.
Qed.

Lemma create_in_tree_outcome (s : Store) (body : Body) :
  wf_chart s -> wf_codes s ->
  match create_in_tree s body with
  | Ok _ => True
  | Raise e => create_error (create_handler e) = true
  | Diverge => False
  end.
Proof.
  intros Hwf Hcodes. unfold create_in_tree.
  pose proof (extract_body_outcome body) as Hbody.
  destruct (extract_body body) as [[[[[name pid] nature] cc] ty]|e|]; cbn [bind];
    [|exact Hbody..].
  destruct (check_if_account_exist_spec s (strip name)) as [[-> _]|[-> _]]; cbn [bind];
    [reflexivity|].
  destruct pid as [i|]; cbn [raise_if bind]; [|reflexivity].
  unfold get_parent_account_with_id. destruct (i =? 0); cbn [bind]; [reflexivity|].
  destruct (get_by_id s i) as [parent|] eqn:Hp; cbn [bind]; [|reflexivity].
  pose proof (get_by_id_In _ _ _ Hp) as Hin.
  destruct (get_root_account_loop_total s (S (List.length (accounts s))) parent Hwf Hin)
    as (root & Hroot & _).
  { pose proof (below_le s (Account.id parent)). lia. }
  fold (get_root_account s (Some parent)) in Hroot. rewrite Hroot. cbn [bind].
  pose proof (apply_root_rules_outcome root nature ty) as Hrules.
  destruct (apply_root_rules root nature ty) as [[nature' ty']|e|]; cbn [bind];
    [|exact Hrules..].
  destruct (generate_code_ok s (Some parent) Hcodes Hin) as (code & Hcode & _).
  destruct (fill_new_account_info_total s name nature' parent root cc ty' code Hroot Hcode)
    as (new_account & ->).
  exact I.
Qed.

(** X13.  Codes stay countable.  Every code of a chart built from a
    database without accounts is a non-empty string of decimal digits,
    and every operation keeps the codes so.  On such codes the bootstrap
    of the roots always succeeds and the generator always finds a code,
    again of digits, for a child of any stored account: [int] never meets
    a string it cannot read.  A creation on a chart the service built
    therefore always answers, with the new account or with one of the
    service's own refusals (or the database error of the parent key 0),
    never with the database error of a code that is no number. *)
Theorem codes_stay_countable :
  (forall s ops, fresh s -> wf_codes (run s ops))
  /\ (forall s op, wf_codes s -> wf_codes (step s op))
  /\ (forall s, wf_codes s ->
        (exists s1, validate_root_accounts s = Ok s1 /\ wf_codes s1)
        /\ forall parent, In parent (accounts s) ->
             exists code, generate_code s (Some parent) = Ok code
                          /\ code_ok code = true)
  /\ (forall s body, wf_chart s -> wf_codes s ->
        (exists a, snd (create_account_in_account_tree s body) = Ok a)
        \/ (exists e, snd (create_account_in_account_tree s body) = Raise e
                      /\ create_error e = true)).
Proof.
  split; [|split; [|split]].
  - intros s ops [Hnil _]. apply run_codes. intros a Ha. rewrite Hnil in Ha. destruct Ha.
  - apply step_codes.
  - intros s Hs. split; [now apply validate_root_accounts_codes|].
    intros parent Hin. now apply (generate_code_ok s (Some parent)).
  - intros s body Hwf Hcodes. unfold create_account_in_account_tree.
    destruct (validate_root_accounts_codes s Hcodes) as (s1 & Hv & Hs1). rewrite Hv.
    pose proof (create_in_tree_outcome s1 body
                  (validate_root_accounts_wf_chart s s1 Hwf Hv) Hs1) as H.
    destruct (create_in_tree s1 body) as [[s2 a]|e|]; simpl.
    + left. now exists a.
    + right. now exists (create_handler e).
    + destruct H.
Qed.

Lemma codes_stay_countable_witness :
  wf_chart cash_store /\ wf_codes cash_store
  /\ ((exists a, snd (create_account_in_account_tree cash_store rent_body) = Ok a)
      \/ (exists e, snd (create_account_in_account_tree cash_store rent_body) = Raise e
                    /\ create_error e = true)).
Proof.
  assert (Hcodes : wf_codes cash_store).
  { destruct codes_stay_countable as (H & _).
    apply (H empty_store [Create cash_body]). split; [reflexivity|vm_compute; reflexivity]. }
  split; [exact wf_chart_cash_store|]. split; [exact Hcodes|].
  destruct codes_stay_countable as (_ & _ & _ & H).
  exact (H cash_store rent_body wf_chart_cash_store Hcodes).
Defined.

(** ** Pages *)

Lemma chunks_concat {A : Type} (k n : nat) (l : list A) :
  (List.length l <= n * k)%nat ->
  List.concat (map (fun p => firstn k (skipn (p * k) l)) (seq 0 n)) = l.
Proof.
  revert l. induction n as [|n IH]; intros l Hl.
  - simpl in *. destruct l; [reflexivity|simpl in Hl; lia].
  - rewrite <- cons_seq, <- seq_shift, map_cons, map_map. cbn [List.concat].
    rewrite (map_ext _ (fun p => firstn k (skipn (p * k) (skipn k l)))).
    + rewrite IH; [apply firstn_skipn|]. rewrite length_skipn. lia.
    + intros p. rewrite skipn_skipn. f_equal. f_equal. lia.
Qed.

Lemma items_chunk {A : Type} (query : list A) (page per_page : Z) :
  1 <= page ->
  Page.items (paginate_query query page per_page)
  = firstn (Z.to_nat (Z.max per_page 1))
           (skipn ((Z.to_nat page - 1) * Z.to_nat (Z.max per_page 1)) query).
Proof.
  intros Hp. unfold paginate_query, slice. cbn [Page.items].
  rewrite (Z.max_l page 1) by lia. f_equal.
  - f_equal. lia.
  - f_equal. rewrite Z2Nat.inj_mul by lia. f_equal. lia.
Qed.

Lemma ceil_div_bounds (total per_page : Z) :
  0 <= total -> 1 <= per_page ->
  total <= ceil_div total per_page * per_page
  /\ (total = 0 -> ceil_div total per_page = 0)
  /\ (0 < total -> (ceil_div total per_page - 1) * per_page < total)
  /\ 0 <= ceil_div total per_page.
Proof.
  intros Ht Hp. unfold ceil_div.
  pose proof (Z.div_mod (total + per_page - 1) per_page ltac:(lia)) as Hdm.
  pose proof (Z.mod_pos_bound (total + per_page - 1) per_page ltac:(lia)) as Hm.
  assert (H0 : 0 <= (total + per_page - 1) / per_page) by (apply Z.div_pos; lia).
  repeat split; nia.
Qed.

Lemma chunk_start (p k : Z) :
  1 <= p -> 1 <= k -> Z.of_nat ((Z.to_nat p - 1) * Z.to_nat k) = (p - 1) * k.
Proof.
  intros Hp Hk. rewrite Nat2Z.inj_mul, Nat2Z.inj_sub, !Z2Nat.id by lia. reflexivity.
Qed.

Lemma pages_read_all {A : Type} (query : list A) (per_page : Z) :
  pages_read query per_page
    (Z.to_nat (ceil_div (Z.of_nat (List.length query)) (Z.max per_page 1)))
  = query.
Proof.
  set (k := Z.max per_page 1).
  assert (Hk : 1 <= k) by (unfold k; lia).
  destruct (ceil_div_bounds (Z.of_nat (List.length query)) k ltac:(lia) Hk)
    as (Hup & _ & _ & Hn0).
  set (n := ceil_div (Z.of_nat (List.length query)) k) in *.
  unfold pages_read.
  transitivity (List.concat (map (fun p => firstn (Z.to_nat k)
                                            (skipn (p * Z.to_nat k) query))
                                 (seq 0 (Z.to_nat n))));
    [|apply chunks_concat; nia].
  rewrite <- seq_shift, map_map. f_equal. apply map_ext. intros p.
  rewrite items_chunk by lia. fold k. rewrite Nat2Z.id. f_equal. f_equal. f_equal. lia.
Qed.

(** X14.  Pages partition the list.  For a list and a page size below
    2^53 (where the rounded quotient of the source has the exact
    ceiling): read one after the other, the pages 1 to [total_pages] of
    [paginate_query] give back the list, item for item and in order;
    each of these pages holds at least one item and no page holds more
    than [per_page]; every later page is empty; a page number below 1 is
    read as 1 and a page size below 1 as 1; [total] is the length of the
    list and there is no page exactly when the list is empty. *)
Theorem pages_partition {A : Type} (query : list A) (per_page : Z)
    (Hlen : Z.of_nat (List.length query) < 2 ^ 53) (Hper : per_page < 2 ^ 53) :
  let n := Page.total_pages (paginate_query query 1 per_page) in
  pages_read query per_page (Z.to_nat n) = query
  /\ (forall p, 1 <= p <= n -> Page.items (paginate_query query p per_page) <> [])
  /\ (forall p, Z.of_nat (List.length (Page.items (paginate_query query p per_page)))
                <= Z.max per_page 1)
  /\ (forall p, n < p -> Page.items (paginate_query query p per_page) = [])
  /\ (forall p, p <= 1 -> paginate_query query p per_page = paginate_query query 1 per_page)
  /\ (forall p, per_page <= 1 -> paginate_query query p per_page = paginate_query query p 1)
  /\ (forall p, Page.total (paginate_query query p per_page) = Z.of_nat (List.length query)
                /\ Page.total_pages (paginate_query query p per_page) = n)
  /\ (n = 0 <-> query = []).
Proof.
  cbv zeta. cbn [paginate_query Page.total_pages].
  set (k := Z.max per_page 1).
  assert (Hk : 1 <= k) by (unfold k; lia).
  destruct (ceil_div_bounds (Z.of_nat (List.length query)) k ltac:(lia) Hk)
    as (Hup & Hzero & Hlow & Hn0).
  set (n := ceil_div (Z.of_nat (List.length query)) k) in *.
  split; [|split; [|split; [|split; [|split; [|split; [|split]]]]]].
  - apply pages_read_all.
  - intros p Hp. rewrite items_chunk by lia. fold k. intros E.
    apply (f_equal (@List.length A)) in E.
    rewrite length_firstn, length_skipn in E. cbn [List.length] in E.
    pose proof (chunk_start p k ltac:(lia) Hk) as Hs.
    assert (Hz : (p - 1) * k < Z.of_nat (List.length query)) by nia.
    lia.
  - intros p. unfold paginate_query, slice. cbn [Page.items]. fold k.
    rewrite length_firstn. lia.
  - intros p Hp. rewrite items_chunk by lia. fold k.
    pose proof (chunk_start p k ltac:(lia) Hk) as Hs.
    rewrite skipn_all2; [now rewrite firstn_nil|]. nia.
  - intros p Hp. unfold paginate_query. now rewrite (Z.max_r p 1), (Z.max_l 1 1) by lia.
  - intros p Hp. unfold paginate_query. now rewrite (Z.max_r per_page 1), (Z.max_l 1 1) by lia.
  - intros p. split; reflexivity.
  - split.
    + intros E. destruct query; [reflexivity|]. cbn [List.length] in *. nia.
    + intros ->. now apply Hzero.
Qed.

Lemma pages_partition_witness :
  Z.of_nat (List.length [1; 2; 3; 4; 5]) < 2 ^ 53 /\ 2 < 2 ^ 53
  /\ pages_read [1; 2; 3; 4; 5] 2 3 = [1; 2; 3; 4; 5].
Proof.
  assert (H1 : Z.of_nat (List.length [1; 2; 3; 4; 5]) < 2 ^ 53) by (vm_compute; reflexivity).
  assert (H2 : 2 < 2 ^ 53) by (vm_compute; reflexivity).
  split; [exact H1|]. split; [exact H2|].
  exact (proj1 (pages_partition [1; 2; 3; 4; 5] 2 H1 H2)).
Defined.

Lemma In_firstn {A : Type} (n : nat) (l : list A) (x : A) :
  In x (firstn n l) -> In x l.
Proof. intros H. rewrite <- (firstn_skipn n l). apply in_or_app. now left. Qed.

Lemma In_skipn {A : Type} (n : nat) (l : list A) (x : A) :
  In x (skipn n l) -> In x l.
Proof. intros H. rewrite <- (firstn_skipn n l). apply in_or_app. now right. Qed.

Lemma get_account_tree_roots (s : Store) :
  wf_links s ->
  exists r, get_account_tree s = Ok r
            /\ map hd_account (tree_accounts r) = with_parent s None.
Proof.
  intros Hwf.
  destruct (get_account_tree_total s Hwf) as (views & d & c & Hacc & Hr).
  exists (mkTree views d c). split; [exact Hr|]. cbn [tree_accounts].
  apply accumulate_Forall2 in Hacc.
  rewrite (Forall2_map_l (fun a => a) hd_account (with_parent s None) views).
  - now rewrite map_id.
  - eapply Forall2_impl; [|exact Hacc]. intros a w (dw & cw & Hw).
    now apply compute_account_totals_family in Hw.
Qed.

(** X15.  The account listing, page by page.  On a chart the service
    built (with fewer than 2^53 accounts and a page size below 2^53; the
    recursion limit of the interpreter, which cuts the walk of the tree
    short on a chart some thousand levels deep, is not modelled),
    [AccountResource.get] answers for every page number and page size;
    every page reports the number of parentless accounts as [total], the
    same [total_pages], and the grand totals of the whole tree, whatever
    the page; and the pages 1 to [total_pages], read one after the
    other, show the trees of the parentless accounts, each once and in
    table order. *)
Theorem account_pages (s : Store) (per_page : Z)
    (Hwf : wf_chart s)
    (Hlen : Z.of_nat (List.length (accounts s)) < 2 ^ 53) (Hper : per_page < 2 ^ 53) :
  exists r n,
    get_account_tree s = Ok r
    /\ n = ceil_div (Z.of_nat (List.length (with_parent s None))) (Z.max per_page 1)
    /\ (forall page,
          exists paginated_accounts,
            AccountResource.get s page per_page
            = Ok (paginated_accounts, grand_total_debit r, grand_total_credit r)
            /\ Page.total paginated_accounts
               = Z.of_nat (List.length (with_parent s None))
            /\ Page.total_pages paginated_accounts = n
            /\ incl (Page.items paginated_accounts) (tree_accounts r))
    /\ map hd_account (pages_read (tree_accounts r) per_page (Z.to_nat n))
       = with_parent s None.
Proof.
  destruct (get_account_tree_roots s (wf_chart_links s Hwf)) as (r & Hr & Hroots).
  assert (Hcount : List.length (tree_accounts r) = List.length (with_parent s None)).
  { now rewrite <- Hroots, length_map. }
  exists r, (ceil_div (Z.of_nat (List.length (with_parent s None))) (Z.max per_page 1)).
  split; [exact Hr|]. split; [reflexivity|]. split.
  - intros page. exists (paginate_query (tree_accounts r) page per_page).
    unfold AccountResource.get. rewrite Hr. cbn [bind].
    split; [reflexivity|]. unfold paginate_query. cbn [Page.total Page.total_pages Page.items].
    rewrite Hcount. split; [reflexivity|]. split; [reflexivity|].
    unfold slice. intros v Hv. apply In_firstn in Hv. now apply In_skipn in Hv.
  - rewrite <- Hcount, pages_read_all. exact Hroots.
Qed.

Lemma account_pages_witness :
  wf_chart cash_store
  /\ Z.of_nat (List.length (accounts cash_store)) < 2 ^ 53 /\ 3 < 2 ^ 53
  /\ exists r n,
       get_account_tree cash_store = Ok r
       /\ map hd_account (pages_read (tree_accounts r) 3 (Z.to_nat n))
          = with_parent cash_store None.
Proof.
  assert (H1 : Z.of_nat (List.length (accounts cash_store)) < 2 ^ 53)
    by (vm_compute; reflexivity).
  assert (H2 : 3 < 2 ^ 53) by (vm_compute; reflexivity).
  split; [exact wf_chart_cash_store|]. split; [exact H1|]. split; [exact H2|].
  destruct (account_pages cash_store 3 wf_chart_cash_store H1 H2)
    as (r & n & Hr & _ & _ & Hpages).
  exists r, n. split; assumption.
Defined.

(** ** Every request is answered *)

Lemma update_name_answered (st : update_state) (field : option json) :
  answered (update_name st field).
Proof.
  destruct st as [[s a] ch]. unfold update_name, raise_if.
  destruct field as [[|b|v|]|]; try exact I; try reflexivity.
  destruct (strip v =? "")%string; cbn [bind]; [reflexivity|].
  destruct (negb _); [|exact I].
  destruct (0 <? _)%nat; cbn [bind]; [reflexivity|].
  destruct (check_if_account_exist_spec s (strip v)) as [[-> _]|[-> _]]; cbn [bind];
    [reflexivity|exact I].
Qed.

Lemma update_cc_required_answered (st : update_state) (field : option json) :
  answered (update_cc_required st field).
Proof.
  destruct st as [[s a] ch]. unfold update_cc_required, raise_if.
  destruct field as [[|b|v|]|]; try exact I; try reflexivity.
  destruct (negb (Bool.eqb _ _)); [|exact I].
  destruct (negb b && Account.cc_required a); cbn [bind]; [|exact I].
  destruct (_ || _); cbn [bind]; [reflexivity|exact I].
Qed.

Lemma update_account_type_answered (st : update_state) (field : option json) :
  keeps_chart st -> answered (update_account_type st field).
Proof.
  destruct st as [[s a] ch]. intros [Hin Hwf].
  assert (Hclear : answered
            match Account.account_type a with
            | Some _ => Ok (write s (Account.set_account_type a None),
                            Account.set_account_type a None,
                            (ch ++ ["account type"])%list)
            | None => Ok (s, a, ch)
            end).
  { destruct (Account.account_type a); exact I. }
  unfold update_account_type, raise_if.
  destruct field as [[|b|v|]|]; try exact I; try reflexivity; try exact Hclear.
  destruct v as [|c v]; [exact Hclear|].
  destruct (negb (in_list _ _)); cbn [bind]; [reflexivity|].
  destruct (negb (opt_string_eqb _ _)); [|exact I].
  destruct (get_root_account_loop_total s (S (List.length (accounts s))) a Hwf Hin)
    as (root & Hroot & _).
  { pose proof (below_le s (Account.id a)). lia. }
  fold (get_root_account s (Some a)) in Hroot. rewrite Hroot. cbn [bind].
  destruct (_ && negb _); cbn [bind]; [reflexivity|].
  destruct (_ && negb _); cbn [bind]; [reflexivity|exact I].
Qed.

Lemma update_account_answered (s : Store) (account_id : Z) (fields : UpdateFields) :
  wf_chart s -> answered (snd (update_account s account_id fields)).
Proof.
  intros Hwf. unfold update_account, get_single_account.
  destruct (get_by_id s account_id) as [a0|] eqn:Hget; cbn [bind]; [|reflexivity].
  assert (Hk0 : keeps_chart (s, a0, [])).
  { split; [now apply (get_by_id_In s account_id)|assumption]. }
  pose proof (update_name_answered (s, a0, []) (f_name fields)) as A1.
  destruct (update_name (s, a0, []) (f_name fields)) as [st1| |] eqn:H1;
    cbn [bind]; try exact A1.
  pose proof (update_name_keeps_chart _ _ _ Hk0 H1) as Hk1.
  pose proof (update_cc_required_answered st1 (f_cc_required fields)) as A2.
  destruct (update_cc_required st1 (f_cc_required fields)) as [st2| |] eqn:H2;
    cbn [bind]; try exact A2.
  pose proof (update_cc_required_keeps_chart _ _ _ Hk1 H2) as Hk2.
  pose proof (update_account_type_answered st2 (f_account_type fields) Hk2) as A3.
  destruct (update_account_type st2 (f_account_type fields)) as [[[s3 a3] ch3]| |] eqn:H3;
    cbn [bind]; try exact A3.
  destruct ch3; exact I.
Qed.

Lemma delete_account_answered (s : Store) (account_id : Z) :
  match snd (delete_account s account_id) with
  | Ok _ => True
  | Raise e => handler_status e = 400 \/ handler_status e = 404
  | Diverge => False
  end.
Proof.
  unfold delete_account, get_single_account, raise_if.
  destruct (get_by_id s account_id) as [a|]; cbn [bind]; [|now right].
  repeat match goal with
         | |- context [if ?c then _ else _] => destruct c; cbn [bind]; [now left|]
         end.
  exact I.
Qed.

Lemma service_error_status (e : exn) :
  service_error e = true ->
  handler_status e = 400 \/ handler_status e = 404 \/ handler_status e = 409.
Proof. destruct e; simpl; intros H; auto; discriminate. Qed.

Lemma create_error_status (e : exn) :
  create_error e = true ->
  handler_status e = 400 \/ handler_status e = 404 \/ handler_status e = 409.
Proof. destruct e as [r| | | | |]; simpl; intros H; auto; discriminate. Qed.

(** X16.  Every request is answered.  On a chart the service built,
    with codes of digits: the POST handler answers 201, 400, 404 or 409,
    the PUT handler 200, 400, 404 or 409, the DELETE handler 200, 400 or
    404 and the by-parent-name handler 200 or 404, the latter exactly
    when no account has the name; none of the four ever answers 500 or
    fails to answer.  A PUT that carries none of the three fields is
    answered 400 and changes nothing; a PUT with a field and a DELETE
    aimed at a key that no account has are answered 404. *)
Theorem handlers_answer (s : Store) (Hwf : wf_chart s) (Hcodes : wf_codes s) :
  (forall body,
     In (snd (AccountResource.post s body)) [Some 201; Some 400; Some 404; Some 409])
  /\ (forall account_id fields,
        In (snd (AccountResourceUpdate.put s account_id fields))
           [Some 200; Some 400; Some 404; Some 409])
  /\ (forall account_id,
        In (snd (AccountResourceUpdate.delete s account_id))
           [Some 200; Some 400; Some 404])
  /\ (forall parent_name,
        AccountResourceByParentName.get s parent_name
        = if existsb (fun a => (Account.name a =? parent_name)%string) (accounts s)
          then Some 200 else Some 404)
  /\ (forall account_id fields,
        has_field fields = false ->
        AccountResourceUpdate.put s account_id fields = (s, Some 400))
  /\ (forall account_id,
        get_by_id s account_id = None ->
        AccountResourceUpdate.delete s account_id = (s, Some 404)
        /\ forall fields, has_field fields = true ->
             AccountResourceUpdate.put s account_id fields = (s, Some 404)).
Proof.
  split; [|split; [|split; [|split; [|split]]]].
  - intros body. unfold AccountResource.post, create_account_in_account_tree.
    destruct (validate_root_accounts_codes s Hcodes) as (s1 & Hv & Hs1). rewrite Hv.
    pose proof (create_in_tree_outcome s1 body
                  (validate_root_accounts_wf_chart s s1 Hwf Hv) Hs1) as H.
    destruct (create_in_tree s1 body) as [[s2 a]|e|]; cbn [snd respond].
    + now left.
    + destruct (create_error_status _ H) as [ -> | [ -> | -> ] ]; simpl; auto.
    + destruct H.
  - intros account_id fields. unfold AccountResourceUpdate.put.
    pose proof (update_account_answered s account_id fields Hwf) as H.
    destruct (update_account s account_id fields) as [s' [r|e|]]; cbn [snd] in H.
    + destruct (f_name fields), (f_cc_required fields), (f_account_type fields);
        simpl; auto.
    + destruct (service_error_status e H) as [E|[E|E]];
        destruct (f_name fields), (f_cc_required fields), (f_account_type fields);
        cbn [snd respond]; rewrite ?E; simpl; auto.
    + destruct H.
  - intros account_id. unfold AccountResourceUpdate.delete.
    pose proof (delete_account_answered s account_id) as H.
    destruct (delete_account s account_id) as [s' [r|e|]]; cbn [snd respond] in *.
    + now left.
    + destruct H as [ -> | -> ]; simpl; auto.
    + destruct H.
  - intros parent_name. unfold AccountResourceByParentName.get, get_accounts_by_parent_name.
    destruct (find (fun a => (Account.name a =? parent_name)%string) (accounts s))
      as [parent|] eqn:E.
    + destruct (build_account_tree_total s (S (List.length (accounts s))) parent
                  (wf_chart_links s Hwf)) as (t & ->).
      { pose proof (above_le s (Account.id parent)). lia. }
      apply find_some in E as [Hin E].
      assert (Hex : existsb (fun a => (Account.name a =? parent_name)%string) (accounts s)
                    = true) by (apply existsb_exists; eauto).
      now rewrite Hex.
    + assert (Hex : existsb (fun a => (Account.name a =? parent_name)%string) (accounts s)
                    = false).
      { destruct (existsb _ (accounts s)) eqn:X; [|reflexivity].
        apply existsb_exists in X as (a & Hin & Ha).
        apply (find_none _ _ E) in Hin. simpl in Hin. congruence. }
      now rewrite Hex.
  - intros account_id fields H. unfold AccountResourceUpdate.put. unfold has_field in H.
    destruct (f_name fields), (f_cc_required fields), (f_account_type fields);
      try discriminate H. reflexivity.
  - intros account_id Hnone. split.
    + unfold AccountResourceUpdate.delete, delete_account, get_single_account.
      now rewrite Hnone.
    + intros fields H. unfold AccountResourceUpdate.put. unfold has_field in H.
      unfold update_account, get_single_account. rewrite Hnone. cbn [bind].
      destruct (f_name fields), (f_cc_required fields), (f_account_type fields);
        try discriminate H; reflexivity.
Qed.

Lemma handlers_answer_witness :
  wf_chart cash_store /\ wf_codes cash_store
  /\ AccountResourceUpdate.delete cash_store 9 = (cash_store, Some 404).
Proof.
  assert (Hcodes : wf_codes cash_store).
  { apply (run_codes [Create cash_body] empty_store). intros a Ha. destruct Ha. }
  split; [exact wf_chart_cash_store|]. split; [exact Hcodes|].
  destruct (handlers_answer cash_store wf_chart_cash_store Hcodes)
    as (_ & _ & _ & _ & _ & H).
  apply H. vm_compute. reflexivity.
Defined.

(** ** The order of codes *)

Lemma ltb_trans (a b c : string) :
  String.ltb a b = true -> String.ltb b c = true -> String.ltb a c = true.
Proof.
  unfold String.ltb. intros Hab Hbc.
  assert (Lab : (a ?= b)%string = Lt) by (destruct (a ?= b)%string; auto; discriminate).
  assert (Lbc : (b ?= c)%string = Lt) by (destruct (b ?= c)%string; auto; discriminate).
  apply OrderedTypeEx.String_as_OT.cmp_lt in Lab, Lbc.
  pose proof (OrderedTypeEx.String_as_OT.lt_trans _ _ _ Lab Lbc) as Lac.
  apply OrderedTypeEx.String_as_OT.cmp_lt in Lac.
  unfold OrderedTypeEx.String_as_OT.cmp in Lac. now rewrite Lac.
Qed.

Lemma ltb_irrefl (a : string) : String.ltb a a = false.
Proof.
  unfold String.ltb. pose proof (String.compare_antisym a a) as H.
  destruct (a ?= a)%string; auto; discriminate.
Qed.

Lemma ltb_asym (a b : string) : String.ltb a b = true -> String.ltb b a = false.
Proof.
  unfold String.ltb. rewrite (String.compare_antisym b a).
  destruct (a ?= b)%string; auto; discriminate.
Qed.

(** Of two strings, neither before the other, and a third before the
    first: the third is before the second. *)
Lemma ltb_le_trans (a b c : string) :
  String.ltb a b = false -> String.ltb b c = false -> String.ltb a c = false.
Proof.
  intros Hab Hbc. destruct (String.ltb a c) eqn:Hac; [|reflexivity].
  unfold String.ltb in Hab, Hbc.
  destruct (b ?= c)%string eqn:Cbc; try discriminate.
  - apply String.compare_eq_iff in Cbc. subst c.
    unfold String.ltb in Hac. destruct (a ?= b)%string; discriminate.
  - assert (Lcb : String.ltb c b = true).
    { unfold String.ltb. rewrite String.compare_antisym, Cbc. reflexivity. }
    pose proof (ltb_trans a c b Hac Lcb) as H. unfold String.ltb in H.
    destruct (a ?= b)%string; discriminate.
Qed.

Lemma compare_prefix (b x y : string) :
  ((b ++ x) ?= (b ++ y))%string = (x ?= y)%string.
Proof.
  induction b as [|c b IH]; simpl; [reflexivity|].
  assert (Hc : (c ?= c)%char = Eq).
  { pose proof (Ascii.compare_antisym c c) as H. destruct (c ?= c)%char; auto; discriminate. }
  now rewrite Hc.
Qed.

Lemma ltb_prefix (b x y : string) : String.ltb (b ++ x) (b ++ y) = String.ltb x y.
Proof. unfold String.ltb. now rewrite compare_prefix. Qed.

Lemma first_by_code_desc_max (l : list Account.t) (x : Account.t) :
  first_by_code_desc l = Some x ->
  In x l /\ forall y, In y l -> String.ltb (Account.code x) (Account.code y) = false.
Proof.
  revert x. induction l as [|a l IH]; intros x; simpl; [discriminate|].
  destruct (first_by_code_desc l) as [b|] eqn:E.
  - destruct (IH b eq_refl) as [Hb Hmax].
    destruct (String.ltb (Account.code a) (Account.code b)) eqn:Hab;
      intros H; inversion H; subst; clear H.
    + split; [now right|]. intros y [<-|Hy]; [now apply ltb_asym|now apply Hmax].
    + split; [now left|]. intros y [<-|Hy]; [apply ltb_irrefl|].
      apply (ltb_le_trans _ (Account.code b)); auto.
  - intros H; inversion H; subst. split; [now left|].
    intros y [<-|Hy]; [apply ltb_irrefl|].
    destruct l; [destruct Hy|]. simpl in E.
    destruct (first_by_code_desc l); [destruct (String.ltb _ _)|]; discriminate.
Qed.

(** ** Suffixes *)

Lemma last_n_app (n : nat) (b t : string) :
  String.length t = n -> last_n n (b ++ t) = t.
Proof.
  intros Hn. unfold last_n. rewrite length_append, Hn.
  replace (String.length b + n - n)%nat with (String.length b) by lia.
  clear Hn. induction b as [|c b IH]; simpl; [now destruct t|exact IH].
Qed.

Lemma in_range (k : Z) (n : nat) :
  0 <= k < Z.of_nat n -> In k (map Z.of_nat (seq 0 n)).
Proof.
  intros H. apply in_map_iff. exists (Z.to_nat k). split; [lia|].
  apply in_seq. lia.
Qed.

Lemma suffix_reads_all (k : Z) : 0 <= k <= 999 -> suffix_reads k = true.
Proof.
  assert (H : forallb suffix_reads (map Z.of_nat (seq 0 1000)) = true)
    by (vm_compute; reflexivity).
  intros Hk. rewrite forallb_forall in H. apply H. apply in_range. lia.
Qed.

Lemma suffix_steps_all (k : Z) : 0 <= k <= 998 -> suffix_steps k = true.
Proof.
  assert (H : forallb suffix_steps (map Z.of_nat (seq 0 999)) = true)
    by (vm_compute; reflexivity).
  intros Hk. rewrite forallb_forall in H. apply H. apply in_range. lia.
Qed.

Lemma suffix_length (k : Z) : 0 <= k <= 999 -> String.length (suffix k) = 3%nat.
Proof.
  intros Hk. pose proof (suffix_reads_all k Hk) as H. unfold suffix_reads in H.
  apply andb_true_iff in H as [H _]. now apply Nat.eqb_eq.
Qed.

Lemma int_suffix (k : Z) : 0 <= k <= 999 -> int (suffix k) = Ok k.
Proof.
  intros Hk. pose proof (suffix_reads_all k Hk) as H. unfold suffix_reads in H.
  apply andb_true_iff in H as [_ H]. unfold int.
  destruct (py_int (suffix k)) as [n|]; [|discriminate].
  apply Z.eqb_eq in H. now subst.
Qed.

Lemma suffix_mono (j k : Z) :
  0 <= j -> j < k -> k <= 999 -> String.ltb (suffix j) (suffix k) = true.
Proof.
  intros Hj Hjk Hk.
  assert (H : forall d : nat, j + 1 + Z.of_nat d <= 999 ->
                              String.ltb (suffix j) (suffix (j + 1 + Z.of_nat d)) = true).
  { induction d as [|d IH]; intros Hd.
    - replace (j + 1 + Z.of_nat 0) with (j + 1) by lia.
      apply (suffix_steps_all j). lia.
    - apply (ltb_trans _ (suffix (j + 1 + Z.of_nat d))); [apply IH; lia|].
      replace (j + 1 + Z.of_nat (S d)) with (j + 1 + Z.of_nat d + 1) by lia.
      apply (suffix_steps_all (j + 1 + Z.of_nat d)). lia. }
  replace k with (j + 1 + Z.of_nat (Z.to_nat (k - j - 1))) by lia.
  apply H. lia.
Qed.

Lemma generate_code_child (s : Store) (parent : Account.t) :
  generate_code s (Some parent)
  = match first_by_code_desc (with_parent s (Some (Account.id parent))) with
    | Some last_sibling =>
        last_suffix <- int (last_n 3 (Account.code last_sibling)) ;;
        Ok (code_base (Account.code parent) ++ suffix (last_suffix + 1))
    | None => Ok (code_base (Account.code parent) ++ suffix 1)
    end.
Proof.
  unfold generate_code, code_base, suffix.
  destruct (first_by_code_desc _) as [last|].
  - destruct ((String.length (Account.code parent) =? 4)%nat
              && endswith (Account.code parent) "000");
      [reflexivity|]. now destruct (String.length (Account.code parent) =? 4)%nat.
  - now destruct ((String.length (Account.code parent) =? 4)%nat
                  && endswith (Account.code parent) "000").
Qed.

(** X17.  The scheme below its overflow.  When the children of an
    account carry codes of the scheme with suffixes from 001 to 998, the
    generator hands out the base and the suffix that follows the largest
    one in use (001 when there is no child): a code that comes after the
    code of every child in the order of strings, so that no child has
    it, and that is again of the scheme.  A creation under such a parent
    therefore never repeats the code of a sibling. *)
Theorem next_sibling_code (s : Store) (parent : Account.t)
    (Hnumbered : numbered s parent) :
  (exists k,
     1 <= k <= 999
     /\ generate_code s (Some parent)
        = Ok (code_base (Account.code parent) ++ suffix k)
     /\ (with_parent s (Some (Account.id parent)) = [] -> k = 1)
     /\ (forall c, In c (with_parent s (Some (Account.id parent))) ->
           exists j, 1 <= j < k
                     /\ Account.code c = code_base (Account.code parent) ++ suffix j)
     /\ (1 < k ->
         exists c, In c (with_parent s (Some (Account.id parent)))
                   /\ Account.code c
                      = code_base (Account.code parent) ++ suffix (k - 1))
     /\ forall c, In c (with_parent s (Some (Account.id parent))) ->
          String.ltb (Account.code c) (code_base (Account.code parent) ++ suffix k) = true
          /\ Account.code c <> code_base (Account.code parent) ++ suffix k)
  /\ (forall s0 s' body a,
        validate_root_accounts s0 = Ok s ->
        body_parent_id body = Some (Account.id parent) ->
        get_by_id s (Account.id parent) = Some parent ->
        create_account_in_account_tree s0 body = (s', Ok a) ->
        forall c, In c (with_parent s (Some (Account.id parent))) ->
                  Account.code c <> Account.code a).
Proof.
  assert (Hgen : exists k,
            1 <= k <= 999
            /\ generate_code s (Some parent)
               = Ok (code_base (Account.code parent) ++ suffix k)
            /\ (with_parent s (Some (Account.id parent)) = [] -> k = 1)
            /\ (forall c, In c (with_parent s (Some (Account.id parent))) ->
                  exists j, 1 <= j < k
                            /\ Account.code c = code_base (Account.code parent) ++ suffix j)
            /\ (1 < k ->
                exists c, In c (with_parent s (Some (Account.id parent)))
                          /\ Account.code c
                             = code_base (Account.code parent) ++ suffix (k - 1))).
  { rewrite generate_code_child.
    destruct (first_by_code_desc (with_parent s (Some (Account.id parent))))
      as [last|] eqn:E.
    - apply first_by_code_desc_max in E as [Hlast Hmax].
      destruct (Hnumbered last Hlast) as (m & Hm & Hcode).
      exists (m + 1). split; [lia|].
      rewrite Hcode, (last_n_app 3) by (apply suffix_length; lia).
      rewrite (int_suffix m) by lia. cbn [bind]. split; [reflexivity|].
      split; [intros Hnil; rewrite Hnil in Hlast; destruct Hlast|]. split.
      + intros c Hc. destruct (Hnumbered c Hc) as (j & Hj & Hcj).
        exists j. split; [|exact Hcj].
        specialize (Hmax c Hc). rewrite Hcode, Hcj, ltb_prefix in Hmax.
        destruct (Z_lt_le_dec m j) as [Hlt|Hle]; [|lia].
        rewrite (suffix_mono m j) in Hmax by lia. discriminate.
      + intros _. exists last. split; [exact Hlast|].
        now replace (m + 1 - 1) with m by lia.
    - exists 1. split; [lia|]. split; [reflexivity|]. split; [reflexivity|].
      assert (Hnil : with_parent s (Some (Account.id parent)) = []).
      { destruct (with_parent s (Some (Account.id parent))) as [|x l]; [reflexivity|].
        simpl in E. destruct (first_by_code_desc l); [destruct (String.ltb _ _)|];
          discriminate. }
      rewrite Hnil. split; [intros c []|lia]. }
  destruct Hgen as (k & Hk & Hcode & Hfirst & Hbelow & Hprev).
  assert (Hfresh : forall c, In c (with_parent s (Some (Account.id parent))) ->
            String.ltb (Account.code c) (code_base (Account.code parent) ++ suffix k) = true
            /\ Account.code c <> code_base (Account.code parent) ++ suffix k).
  { intros c Hc. destruct (Hbelow c Hc) as (j & Hj & Hcj).
    assert (Hlt : String.ltb (Account.code c)
                    (code_base (Account.code parent) ++ suffix k) = true).
    { rewrite Hcj, ltb_prefix. apply suffix_mono; lia. }
    split; [exact Hlt|]. intros Heq. rewrite Heq, ltb_irrefl in Hlt. discriminate. }
  split.
  - exists k. repeat split; auto; try lia; now apply Hfresh.
  - intros s0 s' body a Hv Hbody Hparent Hcreate c Hc.
    apply create_success in Hcreate
      as (s1 & parent' & root & n0 & t0 & n & t & code & Hv' & Hextract & _ & Hp' & _ & _
          & _ & Hcode' & _ & _ & Hacode & _).
    assert (s1 = s) by congruence. subst s1.
    assert (Hpid : Account.id parent' = Account.id parent).
    { unfold extract_body in Hextract. bind_inv Hextract. bind_inv Hextract.
      inversion Hextract. congruence. }
    assert (parent' = parent) by (rewrite Hpid in Hp'; congruence). subst parent'.
    rewrite Hacode. rewrite Hcode in Hcode'. inversion Hcode'; subst code.
    now apply Hfresh.
Qed.

Lemma next_sibling_code_witness :
  numbered two_children_store assets
  /\ exists k,
       1 <= k <= 999
       /\ generate_code two_children_store (Some assets)
          = Ok (code_base (Account.code assets) ++ suffix k).
Proof.
  assert (H : numbered two_children_store assets).
  { intros c Hc. vm_compute in Hc.
    destruct Hc as [<-|[<-|[]]]; [exists 1|exists 2]; split; try lia; vm_compute; reflexivity. }
  split; [exact H|].
  destruct (next_sibling_code two_children_store assets H) as ((k & Hk & Hcode & _) & _).
  exists k. split; assumption.
Defined.

(** * The service over any text functions *)

(** ** The ASCII instance *)

Lemma platform_ascii_check_if_account_exist (s : Store) (name : string) :
  Platform.check_if_account_exist ascii_text s name = check_if_account_exist s name.
Proof. reflexivity. Qed.

Lemma platform_ascii_create (s : Store) (body : Body) :
  Platform.create_account_in_account_tree ascii_text s body
  = create_account_in_account_tree s body.
Proof. reflexivity. Qed.

Lemma platform_ascii_update (s : Store) (account_id : Z) (fields : UpdateFields) :
  Platform.update_account ascii_text s account_id fields
  = update_account s account_id fields.
Proof. reflexivity. Qed.

Lemma platform_ascii_cc_default (root_name name : string) :
  Platform.cc_default ascii_text root_name name = cc_default root_name name.
Proof. reflexivity. Qed.

Lemma platform_ascii_same_account_type (a : Account.t) (field : option json) :
  Platform.same_account_type ascii_text a field = same_account_type a field.
Proof. reflexivity. Qed.

Section PlatformSteps.

Variable T : Text.t.

(** ** Creation, when it succeeds *)

Lemma platform_check_if_account_exist_spec (s : Store) (name : string) :
  (Platform.check_if_account_exist T s name = Raise (AccountExistsException name) /\
   exists b, In b (accounts s) /\ Text.sql_lower T (Account.name b) = Text.lower T name)
  \/
  (Platform.check_if_account_exist T s name = Ok tt /\
   forall b, In b (accounts s) -> Text.sql_lower T (Account.name b) <> Text.lower T name).
Proof.
  unfold Platform.check_if_account_exist.
  destruct (find _ (accounts s)) as [b|] eqn:E.
  - left. split; [reflexivity|]. apply find_some in E as [Hin Hb].
    exists b. split; [assumption|]. now apply String.eqb_eq.
  - right. split; [reflexivity|]. intros b Hin.
    apply (find_none _ _ E) in Hin. now apply String.eqb_neq.
Qed.

Lemma platform_extract_body_shape (body : Body) (name : string) (pid : option Z)
    (nature : option string) (cc : bool) (account_type : option string) :
  Platform.extract_body T body = Ok (name, pid, nature, cc, account_type) ->
  name = Text.strip T (body_name body) /\ pid = body_parent_id body
  /\ cc = body_cc_required body.
Proof.
  intros Hx. unfold Platform.extract_body in Hx. bind_inv Hx. bind_inv Hx.
  now inversion Hx.
Qed.

Lemma platform_create_success_inv (s s' : Store) (body : Body) (a : Account.t) :
  Platform.create_account_in_account_tree T s body = (s', Ok a) ->
  exists s1 pid parent root nature0 account_type0 nature account_type new_account,
    validate_root_accounts s = Ok s1
    /\ Platform.extract_body T body
       = Ok (Text.strip T (body_name body), Some pid, nature0, body_cc_required body,
             account_type0)
    /\ Platform.check_if_account_exist T s1 (Text.strip T (Text.strip T (body_name body)))
       = Ok tt
    /\ get_by_id s1 pid = Some parent
    /\ get_root_account s1 (Some parent) = Ok root
    /\ Platform.apply_root_rules T root nature0 account_type0 = Ok (nature, account_type)
    /\ Platform.fill_new_account_info T s1 (Text.strip T (body_name body)) nature
         (Some parent) (body_cc_required body) account_type = Ok new_account
    /\ s' = add s1 new_account
    /\ a = new_account (next_id s1).
Proof.
  unfold Platform.create_account_in_account_tree.
  destruct (validate_root_accounts s) as [s1| |] eqn:Hv; try discriminate.
  destruct (Platform.create_in_tree T s1 body) as [[s2 a2]| |] eqn:Hc; try discriminate.
  intros H; inversion H; subst s2 a2; clear H.
  unfold Platform.create_in_tree in Hc.
  bind_inv Hc. destruct x as [[[[name pid] nature0] cc] account_type0].
  destruct (platform_extract_body_shape _ _ _ _ _ _ Hx) as (-> & -> & ->).
  bind_inv Hc. destruct x.
  bind_inv Hc. apply raise_if_Ok in Hx1.
  destruct (body_parent_id body) as [pid|] eqn:Hpid; [clear Hx1|discriminate].
  bind_inv Hc. rename x into parent.
  bind_inv Hc. rename x into root.
  bind_inv Hc. destruct x as [nature account_type].
  bind_inv Hc. rename x into new_account.
  inversion Hc; subst; clear Hc.
  unfold get_parent_account_with_id in Hx1.
  destruct (pid =? 0) eqn:Hz.
  { inversion Hx1; subst. discriminate. }
  destruct (get_by_id s1 pid) as [p|] eqn:Hp; [|discriminate].
  inversion Hx1; subst; clear Hx1.
  exists s1, pid, p, root, nature0, account_type0, nature, account_type, new_account.
  repeat split; assumption.
Qed.

Lemma platform_fill_new_account_info_inv (s : Store) (name : string)
    (nature : option string) (parent root : Account.t) (cc_required : bool)
    (account_type : option string) (new_account : Z -> Account.t) :
  get_root_account s (Some parent) = Ok root ->
  Platform.fill_new_account_info T s name nature (Some parent) cc_required account_type
  = Ok new_account ->
  exists code,
    generate_code s (Some parent) = Ok code /\
    new_account =
    (fun i =>
       Account.mk i name code (Some (Account.id parent)) nature
         (match account_type with
          | Some _ => account_type
          | None =>
              if in_list (Account.name root) ["Assets"; "Liability & Equity"]
              then Some "balance_sheet"
              else if in_list (Account.name root) ["Revenue"; "Expenses"]
              then Some "p&l" else None
          end)
         (if cc_required then true
          else (if contains "cost of goods sold" (Text.lower T name)
                   || contains "rebate" (Text.lower T name)
                then true
                else if (Account.name root =? "Expenses")%string
                     then (if negb (contains "depreciation" (Text.lower T name)) &&
                              negb (contains "bank charges" (Text.lower T name))
                           then true else false)
                     else false))).
Proof.
  intros Hr H. unfold Platform.fill_new_account_info in H.
  bind_inv H. bind_inv H. bind_inv H. inversion H; subst; clear H.
  exists x1. split; [assumption|].
  assert (Hx' : x = match account_type with
                    | Some _ => account_type
                    | None =>
                        if in_list (Account.name root) ["Assets"; "Liability & Equity"]
                        then Some "balance_sheet"
                        else if in_list (Account.name root) ["Revenue"; "Expenses"]
                        then Some "p&l" else None
                    end).
  { destruct account_type.
    - now inversion Hx.
    - rewrite Hr in Hx. cbn [bind] in Hx.
      destruct (in_list (Account.name root) ["Assets"; "Liability & Equity"]);
        [now inversion Hx|].
      destruct (in_list (Account.name root) ["Revenue"; "Expenses"]); now inversion Hx. }
  subst x. destruct cc_required.
  - now inversion Hx0.
  - rewrite Hr in Hx0. cbn [bind] in Hx0. now inversion Hx0.
Qed.

(** The row of a successful creation *)
Lemma platform_create_success (s s' : Store) (body : Body) (a : Account.t) :
  Platform.create_account_in_account_tree T s body = (s', Ok a) ->
  exists s1 parent root,
    validate_root_accounts s = Ok s1
    /\ Platform.check_if_account_exist T s1 (Text.strip T (Text.strip T (body_name body)))
       = Ok tt
    /\ get_by_id s1 (Account.id parent) = Some parent
    /\ get_root_account s1 (Some parent) = Ok root
    /\ get_root_account s' (Some a) = Ok root
    /\ Account.id a = next_id s1
    /\ Account.name a = Text.strip T (body_name body)
    /\ Account.parent_id a = Some (Account.id parent)
    /\ Account.cc_required a =
       (if body_cc_required body then true
        else (if contains "cost of goods sold" (Text.lower T (Text.strip T (body_name body)))
                 || contains "rebate" (Text.lower T (Text.strip T (body_name body)))
              then true
              else if (Account.name root =? "Expenses")%string
                   then (if negb (contains "depreciation"
                                    (Text.lower T (Text.strip T (body_name body)))) &&
                            negb (contains "bank charges"
                                    (Text.lower T (Text.strip T (body_name body))))
                         then true else false)
                   else false))
    /\ accounts s' = (accounts s1 ++ [a])%list
    /\ next_id s' = next_id s1 + 1.
Proof.
  intros H.
  apply platform_create_success_inv in H
    as (s1 & pid & parent & root & nature0 & account_type0 & nature & account_type
        & new_account & Hv & He & Hc & Hp & Hr & Hrule & Hfill & -> & ->).
  pose proof (get_by_id_id _ _ _ Hp) as Hpid. subst pid.
  destruct (platform_fill_new_account_info_inv _ _ _ _ _ _ _ _ Hr Hfill)
    as (code & Hcode & Heq).
  assert (Hnew : get_root_account (add s1 new_account) (Some (new_account (next_id s1)))
                 = Ok root).
  { apply (get_root_account_new s1 new_account parent root Hp Hr). now rewrite Heq. }
  subst new_account.
  exists s1, parent, root.
  repeat split; try assumption; try reflexivity.
Qed.

Lemma platform_create_in_tree_raise (s s1 : Store) (body : Body) (e : exn) :
  validate_root_accounts s = Ok s1 ->
  Platform.create_in_tree T s1 body = Raise e ->
  Platform.create_account_in_account_tree T s body = (s1, Raise (create_handler e)).
Proof.
  intros Hv Hc. unfold Platform.create_account_in_account_tree. now rewrite Hv, Hc.
Qed.

(** A creation that is not carried out leaves what the bootstrap
    committed. *)
Lemma platform_create_failure_store (s s1 : Store) (body : Body) :
  validate_root_accounts s = Ok s1 ->
  (forall a, snd (Platform.create_account_in_account_tree T s body) <> Ok a) ->
  fst (Platform.create_account_in_account_tree T s body) = s1.
Proof.
  intros Hv H. unfold Platform.create_account_in_account_tree in *. rewrite Hv in *.
  destruct (Platform.create_in_tree T s1 body) as [[s2 a]| |]; try reflexivity.
  now contradiction (H a).
Qed.

(** ** Updates, step by step *)

Lemma platform_update_name_same_lower (s : Store) (a : Account.t) (ch : list string)
    (v : string) :
  Text.strip T v <> "" ->
  Text.lower T (Text.strip T v) = Text.lower T (Account.name a) ->
  Platform.update_name T (s, a, ch) (Some (JStr v)) = Ok (s, a, ch).
Proof.
  intros Hne Hl. unfold Platform.update_name.
  apply String.eqb_neq in Hne. rewrite Hne. cbn [raise_if bind].
  rewrite Hl, String.eqb_refl. reflexivity.
Qed.

Lemma platform_update_name_differs (s : Store) (a : Account.t) (ch : list string)
    (v : string) :
  Text.strip T v <> "" ->
  Text.lower T (Text.strip T v) <> Text.lower T (Account.name a) ->
  Platform.update_name T (s, a, ch) (Some (JStr v)) =
  if (0 <? List.length (entries_of s (Account.name a)))%nat
  then Raise (BadRequest (RenameHasTransactions (Account.name a)))
  else match Platform.check_if_account_exist T s (Text.strip T v) with
       | Ok _ => Ok (write s (Account.set_name a (Text.strip T v)),
                     Account.set_name a (Text.strip T v), (ch ++ ["name"])%list)
       | Raise e => Raise e
       | Diverge => Diverge
       end.
Proof.
  intros Hne Hl. unfold Platform.update_name.
  apply String.eqb_neq in Hne. rewrite Hne. cbn [raise_if bind].
  assert (Hl' : (Text.lower T (Account.name a) =? Text.lower T (Text.strip T v))%string
                = false).
  { apply String.eqb_neq. congruence. }
  rewrite Hl'. cbn [negb].
  destruct (0 <? _)%nat; cbn [raise_if bind]; [reflexivity|].
  destruct (Platform.check_if_account_exist T s (Text.strip T v)); reflexivity.
Qed.

Lemma platform_update_cc_required_raise (st : update_state) (field : option json)
    (e : exn) :
  Platform.update_cc_required T st field = Raise e -> is_name_check_error e = false.
Proof.
  destruct st as [[s a] ch]. unfold Platform.update_cc_required.
  destruct field as [[|b|v|]|]; try (intros H; now inversion H).
  destruct (negb (Bool.eqb (Account.cc_required a) b)); [|discriminate].
  intros H. apply bind_Raise in H as [H|(u & _ & H)]; [|discriminate].
  destruct (negb b && Account.cc_required a); [|discriminate].
  apply raise_if_Raise in H. now subst.
Qed.

Lemma platform_update_account_type_raise (st : update_state) (field : option json)
    (e : exn) :
  Platform.update_account_type T st field = Raise e -> is_name_check_error e = false.
Proof.
  destruct st as [[s a] ch]. unfold Platform.update_account_type.
  destruct field as [[|b|v|]|]; try (intros H; now inversion H).
  - destruct (Account.account_type a); discriminate.
  - destruct v as [|c v]; [destruct (Account.account_type a); discriminate|].
    intros H. apply bind_Raise in H as [H|(u & _ & H)].
    { apply raise_if_Raise in H. now subst. }
    destruct (negb (opt_string_eqb _ _)); [|discriminate].
    apply bind_Raise in H as [H|(root & _ & H)].
    { apply get_root_account_loop_raise in H. now subst. }
    apply bind_Raise in H as [H|(u1 & _ & H)].
    { apply raise_if_Raise in H. now subst. }
    apply bind_Raise in H as [H|(u2 & _ & H)]; [|discriminate].
    apply raise_if_Raise in H. now subst.
Qed.

Lemma platform_update_cc_required_keeps_name (a0 : Account.t) (st st' : update_state)
    (field : option json) :
  keeps_name a0 st -> Platform.update_cc_required T st field = Ok st' -> keeps_name a0 st'.
Proof.
  destruct st as [[s a] ch]. unfold Platform.update_cc_required.
  intros Hk. destruct field as [[|b|v|]|]; try discriminate.
  - destruct (negb (Bool.eqb (Account.cc_required a) b)).
    + intros H. bind_inv H. inversion H; subst; clear H.
      destruct Hk as (Hid & Hn & Hg & Hch). unfold keeps_name.
      split; [exact Hid|]. split; [exact Hn|]. split.
      * rewrite <- Hid in *.
        change (Account.id a) with (Account.id (Account.set_cc_required a b)).
        now apply (get_by_id_write s a).
      * intros Hin. apply in_app_or in Hin as [Hin|[Hin|[]]]; [tauto|discriminate].
    + intros H. now inversion H; subst.
  - intros H. now inversion H; subst.
Qed.

Lemma platform_update_account_type_keeps_name (a0 : Account.t) (st st' : update_state)
    (field : option json) :
  keeps_name a0 st -> Platform.update_account_type T st field = Ok st' ->
  keeps_name a0 st'.
Proof.
  destruct st as [[s a] ch]. unfold Platform.update_account_type.
  intros Hk.
  assert (Hset : forall t,
            keeps_name a0 (write s (Account.set_account_type a t),
                           Account.set_account_type a t, (ch ++ ["account type"])%list)).
  { intros t. destruct Hk as (Hid & Hn & Hg & Hch). unfold keeps_name.
    split; [exact Hid|]. split; [exact Hn|]. split.
    - rewrite <- Hid in *.
      change (Account.id a) with (Account.id (Account.set_account_type a t)).
      now apply (get_by_id_write s a).
    - intros Hin. apply in_app_or in Hin as [Hin|[Hin|[]]]; [tauto|discriminate]. }
  assert (Hclear : forall st',
            match Account.account_type a with
            | Some _ => Ok (write s (Account.set_account_type a None),
                            Account.set_account_type a None,
                            (ch ++ ["account type"])%list)
            | None => Ok (s, a, ch)
            end = Ok st' -> keeps_name a0 st').
  { intros st0. destruct (Account.account_type a); intros H; inversion H; subst;
      [apply Hset|exact Hk]. }
  destruct field as [[|b|v|]|]; try discriminate.
  - apply Hclear.
  - destruct v as [|c v]; [apply Hclear|].
    intros H. bind_inv H.
    destruct (negb (opt_string_eqb _ _)).
    + bind_inv H. bind_inv H. bind_inv H. inversion H; subst. apply Hset.
    + inversion H; subst. exact Hk.
  - intros H. inversion H; subst. exact Hk.
Qed.

Lemma platform_same_cc_required_noop (st : update_state) (field : option json) :
  same_cc_required (snd (fst st)) field = true ->
  Platform.update_cc_required T st field = Ok st.
Proof.
  destruct st as [[s a] ch]. simpl. unfold Platform.update_cc_required.
  destruct field as [[|b|v|]|]; simpl; try discriminate; [|reflexivity].
  intros H. now rewrite H.
Qed.

Lemma platform_same_account_type_noop (st : update_state) (field : option json) :
  Platform.same_account_type T (snd (fst st)) field = true ->
  Platform.update_account_type T st field = Ok st.
Proof.
  destruct st as [[s a] ch]. simpl.
  unfold Platform.update_account_type, Platform.same_account_type.
  destruct field as [[|b|v|]|]; try discriminate; [| |reflexivity].
  - destruct (Account.account_type a); [discriminate|reflexivity].
  - destruct v as [|c v]; [destruct (Account.account_type a); [discriminate|reflexivity]|].
    intros H. apply andb_true_iff in H as [Hin Heq].
    cbv zeta. unfold in_list, existsb in *. rewrite Hin, Heq. reflexivity.
Qed.

End PlatformSteps.

(** ** Cost-centre default (C7) *)



(** ** Renaming (C6) *)

(** C6, as the code has it, over any text functions.  For a request
    whose trimmed name differs from the stored name after [str.lower]:
    if a journal entry names the account on either side, the update
    fails and the store is unchanged (with the transactions reason when
    the trimmed name is not empty), whatever the other fields are; if no
    entry names it and the trimmed name is not empty, a request that
    carries the name only succeeds and stores the trimmed name when no
    stored name, lower-cased by the database, is the trimmed name
    lower-cased by Python, and any request fails with [AccountExists]
    and an unchanged store when some stored name is. *)
Theorem rename_guarded (T : Text.t) (s : Store) (account_id : Z) (account : Account.t)
    (v : string) (fields : UpdateFields)
    (Hget : get_by_id s account_id = Some account)
    (Hname : f_name fields = Some (JStr v))
    (Hdiff : Text.lower T (Text.strip T v) <> Text.lower T (Account.name account)) :
  (in_journal s (Account.name account) ->
   exists e, Platform.update_account T s account_id fields = (s, Raise e))
  /\
  (in_journal s (Account.name account) -> Text.strip T v <> "" ->
   Platform.update_account T s account_id fields
   = (s, Raise (BadRequest (RenameHasTransactions (Account.name account)))))
  /\
  (~ in_journal s (Account.name account) -> Text.strip T v <> "" ->
   (forall b, In b (accounts s) ->
              Text.sql_lower T (Account.name b) <> Text.lower T (Text.strip T v)) ->
   f_cc_required fields = None -> f_account_type fields = None ->
   Platform.update_account T s account_id fields
   = (write s (Account.set_name account (Text.strip T v)), Ok (Updated ["name"]))
   /\ get_by_id (write s (Account.set_name account (Text.strip T v))) account_id
      = Some (Account.set_name account (Text.strip T v)))
  /\
  (~ in_journal s (Account.name account) -> Text.strip T v <> "" ->
   (exists b, In b (accounts s)
              /\ Text.sql_lower T (Account.name b) = Text.lower T (Text.strip T v)) ->
   Platform.update_account T s account_id fields
   = (s, Raise (AccountExistsException (Text.strip T v)))).
Proof.
  pose proof (get_by_id_id _ _ _ Hget) as Hid.
  assert (Hjournal : in_journal s (Account.name account) -> Text.strip T v <> "" ->
            Platform.update_account T s account_id fields
            = (s, Raise (BadRequest (RenameHasTransactions (Account.name account))))).
  { intros Hj Hne. apply in_journal_entries in Hj.
    unfold Platform.update_account, get_single_account. rewrite Hget, Hname. cbn [bind].
    rewrite (platform_update_name_differs T _ _ _ _ Hne Hdiff), Hj. reflexivity. }
  split; [|split; [exact Hjournal|split]].
  - intros Hj. destruct (string_dec (Text.strip T v) "") as [He|Hne].
    + exists (BadRequest NameEmpty).
      unfold Platform.update_account, get_single_account. rewrite Hget, Hname. cbn [bind].
      unfold Platform.update_name. rewrite He. reflexivity.
    + eexists. now apply Hjournal.
  - intros Hj Hne Hfree Hcc Hat. apply not_in_journal_entries in Hj.
    split.
    + unfold Platform.update_account, get_single_account. rewrite Hget, Hname, Hcc, Hat.
      cbn [bind].
      rewrite (platform_update_name_differs T _ _ _ _ Hne Hdiff), Hj.
      destruct (platform_check_if_account_exist_spec T s (Text.strip T v))
        as [[_ (b & Hin & Hb)]|[Hok _]].
      * exfalso. exact (Hfree b Hin Hb).
      * rewrite Hok. reflexivity.
    + rewrite <- Hid.
      change (Account.id account)
        with (Account.id (Account.set_name account (Text.strip T v))).
      apply (get_by_id_write s account). simpl. now rewrite Hid.
  - intros Hj Hne (b & Hin & Hb). apply not_in_journal_entries in Hj.
    unfold Platform.update_account, get_single_account. rewrite Hget, Hname. cbn [bind].
    rewrite (platform_update_name_differs T _ _ _ _ Hne Hdiff), Hj.
    destruct (platform_check_if_account_exist_spec T s (Text.strip T v))
      as [[Hex _]|[_ Hfree]].
    + rewrite Hex. reflexivity.
    + exfalso. exact (Hfree b Hin Hb).
Qed.

(** Renaming Cash, which no journal entry names, to Till succeeds. *)
Lemma rename_guarded_witness :
  get_by_id cash_store 5 = Some cash
  /\ Text.lower ascii_text (Text.strip ascii_text "Till")
     <> Text.lower ascii_text (Account.name cash)
  /\ Platform.update_account ascii_text cash_store 5 (only_name "Till")
     = (write cash_store (Account.set_name cash (Text.strip ascii_text "Till")),
        Ok (Updated ["name"])).
Proof.
  assert (Hget : get_by_id cash_store 5 = Some cash) by (vm_compute; reflexivity).
  assert (Hdiff : Text.lower ascii_text (Text.strip ascii_text "Till")
                  <> Text.lower ascii_text (Account.name cash))
    by (vm_compute; discriminate).
  split; [exact Hget|]. split; [exact Hdiff|].
  apply (proj1 (proj2 (proj2 (rename_guarded ascii_text cash_store 5 cash "Till"
                                (only_name "Till") Hget eq_refl Hdiff)))).
  - apply not_in_journal_entries. vm_compute. reflexivity.
  - vm_compute. discriminate.
  - intros b Hb. vm_compute in Hb.
    repeat (destruct Hb as [<-|Hb]; [vm_compute; discriminate|]). contradiction.
  - reflexivity.
  - reflexivity.
Defined.

(** The claim of C6 as worded fails: Cash is named by the journal, and a
    request to rename it to CASH does not fail; it reports that nothing
    changed. *)
Lemma rename_case_only_not_rejected :
  get_by_id posted_store 5
  = Some (Account.mk 5 "Cash" "1001" (Some 1) (Some "debit") (Some "balance_sheet") false)
  /\ in_journal posted_store "Cash"
  /\ update_account posted_store 5 (only_name "CASH") = (posted_store, Ok NoChanges)
  /\ ~ (exists e, snd (update_account posted_store 5 (only_name "CASH")) = Raise e).
Proof.
  split; [vm_compute; reflexivity|]. split; [|split; [vm_compute; reflexivity|]].
  - exists (DailyEntries.mk (Some "Cash") None 100 0).
    split; [vm_compute; now left|now left].
  - intros [e He]. vm_compute in He. discriminate He.
Qed.

(** ** Case-only renames (C10) *)

(** C10, for one request, over any text functions.  When the request's
    name, trimmed, is not empty and is the stored name after [str.lower],
    the update behaves as if the request had no name: the outcome is that
    of the same request without its name key, the account keeps its
    name, no name change is recorded, the outcome is never one of the
    two errors of the rename checks, and when no other field differs the
    result is "No changes detected" with the store as it was. *)
Theorem case_only_rename_ignored (T : Text.t) (s : Store) (account_id : Z)
    (account : Account.t) (v : string) (fields : UpdateFields)
    (Hget : get_by_id s account_id = Some account)
    (Hname : f_name fields = Some (JStr v))
    (Hne : Text.strip T v <> "")
    (Hcase : Text.lower T (Text.strip T v) = Text.lower T (Account.name account)) :
  Platform.update_account T s account_id fields
  = Platform.update_account T s account_id (without_name fields)
  /\
  (exists a', get_by_id (fst (Platform.update_account T s account_id fields)) account_id
              = Some a'
              /\ Account.name a' = Account.name account)
  /\
  (forall changes,
     snd (Platform.update_account T s account_id fields) = Ok (Updated changes) ->
     ~ In "name" changes)
  /\
  (forall e, snd (Platform.update_account T s account_id fields) = Raise e ->
             is_name_check_error e = false)
  /\
  (same_cc_required account (f_cc_required fields) = true ->
   Platform.same_account_type T account (f_account_type fields) = true ->
   Platform.update_account T s account_id fields = (s, Ok NoChanges)).
Proof.
  pose proof (get_by_id_id _ _ _ Hget) as Hid.
  assert (Hrun : Platform.update_account T s account_id fields
                 = match (st <- Platform.update_cc_required T (s, account, [])
                                  (f_cc_required fields) ;;
                          st <- Platform.update_account_type T st (f_account_type fields) ;;
                          Ok st) with
                   | Ok (s', _, []) => (s, Ok NoChanges)
                   | Ok (s', _, changes) => (s', Ok (Updated changes))
                   | Raise e => (s, Raise e)
                   | Diverge => (s, Diverge)
                   end).
  { unfold Platform.update_account, get_single_account. rewrite Hget, Hname. cbn [bind].
    rewrite (platform_update_name_same_lower T _ _ _ _ Hne Hcase). reflexivity. }
  assert (Hkeep : keeps_name account (s, account, [])).
  { unfold keeps_name. rewrite Hid. repeat split; auto. }
  split; [|split; [|split; [|split]]].
  - rewrite Hrun. unfold Platform.update_account, get_single_account, without_name.
    rewrite Hget. reflexivity.
  - rewrite Hrun.
    destruct (Platform.update_cc_required T (s, account, []) (f_cc_required fields))
      as [st1| |] eqn:H1; cbn [bind]; try (now exists account).
    pose proof (platform_update_cc_required_keeps_name T _ _ _ _ Hkeep H1) as Hk1.
    destruct (Platform.update_account_type T st1 (f_account_type fields))
      as [st2| |] eqn:H2; cbn [bind]; try (now exists account).
    pose proof (platform_update_account_type_keeps_name T _ _ _ _ Hk1 H2) as Hk2.
    destruct st2 as [[s2 a2] [|c ch]]; [now exists account|].
    destruct Hk2 as (_ & Hn & Hg & _). simpl. exists a2. now rewrite <- Hid.
  - intros changes. rewrite Hrun.
    destruct (Platform.update_cc_required T (s, account, []) (f_cc_required fields))
      as [st1| |] eqn:H1; cbn [bind]; try discriminate.
    pose proof (platform_update_cc_required_keeps_name T _ _ _ _ Hkeep H1) as Hk1.
    destruct (Platform.update_account_type T st1 (f_account_type fields))
      as [st2| |] eqn:H2; cbn [bind]; try discriminate.
    pose proof (platform_update_account_type_keeps_name T _ _ _ _ Hk1 H2) as Hk2.
    destruct st2 as [[s2 a2] [|c ch]]; [discriminate|].
    destruct Hk2 as (_ & _ & _ & Hch). simpl. intros H. now inversion H; subst.
  - intros e. rewrite Hrun.
    destruct (Platform.update_cc_required T (s, account, []) (f_cc_required fields))
      as [st1| |] eqn:H1; cbn [bind].
    + destruct (Platform.update_account_type T st1 (f_account_type fields))
        as [st2| |] eqn:H2; cbn [bind].
      * destruct st2 as [[s2 a2] [|c ch]]; discriminate.
      * simpl. intros H; inversion H; subst.
        now apply platform_update_account_type_raise in H2.
      * discriminate.
    + simpl. intros H; inversion H; subst.
      now apply platform_update_cc_required_raise in H1.
    + discriminate.
  - intros Hcc Hat. rewrite Hrun.
    rewrite (platform_same_cc_required_noop T (s, account, []) _ Hcc). cbn [bind].
    rewrite (platform_same_account_type_noop T (s, account, []) _ Hat). reflexivity.
Qed.

(** Cash spelled CASH, with blanks around it, is no rename. *)
Lemma case_only_rename_ignored_witness :
  get_by_id cash_store 5 = Some cash
  /\ Text.lower ascii_text (Text.strip ascii_text " CASH ")
     = Text.lower ascii_text (Account.name cash)
  /\ Platform.update_account ascii_text cash_store 5 (only_name " CASH ")
     = (cash_store, Ok NoChanges).
Proof.
  assert (Hget : get_by_id cash_store 5 = Some cash) by (vm_compute; reflexivity).
  assert (Hcase : Text.lower ascii_text (Text.strip ascii_text " CASH ")
                  = Text.lower ascii_text (Account.name cash))
    by (vm_compute; reflexivity).
  assert (Hne : Text.strip ascii_text " CASH " <> "") by (vm_compute; discriminate).
  split; [exact Hget|]. split; [exact Hcase|].
  apply (proj2 (proj2 (proj2 (proj2
           (case_only_rename_ignored ascii_text cash_store 5 cash " CASH "
              (only_name " CASH ") Hget eq_refl Hne Hcase))))); reflexivity.
Defined.

(** The last sentence of C10 as worded fails: two successive renames,
    through another name, change the letter case of Cash. *)
Lemma capitalization_changed_by_two_updates :
  let s1 := fst (update_account cash_store 5 (only_name "Till")) in
  let s2 := fst (update_account s1 5 (only_name "cash")) in
  option_map Account.name (get_by_id cash_store 5) = Some "Cash"
  /\ snd (update_account cash_store 5 (only_name "Till")) = Ok (Updated ["name"])
  /\ snd (update_account s1 5 (only_name "cash")) = Ok (Updated ["name"])
  /\ option_map Account.name (get_by_id s2 5) = Some "cash".
Proof. vm_compute. repeat split. Qed.

(** ** Creations that are turned down *)

(** X5.  Once the roots are ensured, a creation is turned down in this
    order, and each time the store is the one the bootstrap committed:
    a nature that, trimmed and lower-cased, is not empty and is none of
    debit, credit and both; a name that, trimmed and lower-cased by
    Python, is a stored name lower-cased by the database, with
    [AccountExistsException]; no parent, with the reason that roots
    cannot be created; the parent key 0, which Python takes for no
    parent at the lookup, with a database error; a parent key that no
    account has, with [ParentNotFoundException].  A creation that is
    not carried out never leaves anything but the bootstrap behind. *)
Theorem create_rejections (T : Text.t) (s s1 : Store) (body : Body)
    (Hv : validate_root_accounts s = Ok s1) :
  (forall n, body_nature body = Some n ->
     Text.lower T (Text.strip T n) <> "" ->
     in_list (Text.lower T (Text.strip T n)) ["debit"; "credit"; "both"] = false ->
     Platform.create_account_in_account_tree T s body
     = (s1, Raise (BadRequest NatureInvalid)))
  /\
  (forall name pid nature cc account_type,
     Platform.extract_body T body = Ok (name, pid, nature, cc, account_type) ->
     name = Text.strip T (body_name body)
     /\ ((exists b, In b (accounts s1)
                    /\ Text.sql_lower T (Account.name b) = Text.lower T (Text.strip T name)) ->
         Platform.create_account_in_account_tree T s body
         = (s1, Raise (AccountExistsException (Text.strip T name))))
     /\ ((forall b, In b (accounts s1) ->
                    Text.sql_lower T (Account.name b) <> Text.lower T (Text.strip T name)) ->
         (pid = None ->
          Platform.create_account_in_account_tree T s body
          = (s1, Raise (BadRequest CannotCreateRoot)))
         /\ (pid = Some 0 ->
             Platform.create_account_in_account_tree T s body
             = (s1, Raise (BadRequest (DatabaseError AttributeError))))
         /\ (forall i, pid = Some i -> i <> 0 -> get_by_id s1 i = None ->
             Platform.create_account_in_account_tree T s body
             = (s1, Raise (ParentNotFoundException i)))))
  /\
  ((forall a, snd (Platform.create_account_in_account_tree T s body) <> Ok a) ->
   fst (Platform.create_account_in_account_tree T s body) = s1).
Proof.
  split; [|split].
  - intros n Hn Hne Hbad.
    apply (platform_create_in_tree_raise T s s1 body (BadRequest NatureInvalid) Hv).
    unfold Platform.create_in_tree, Platform.extract_body. rewrite Hn. cbn [option_map].
    assert (Ht : truthy (Some (Text.lower T (Text.strip T n))) = true).
    { destruct (Text.lower T (Text.strip T n)); [contradiction|reflexivity]. }
    rewrite Ht, Hbad. reflexivity.
  - intros name pid nature cc account_type Hbody.
    split; [exact (proj1 (platform_extract_body_shape T _ _ _ _ _ _ Hbody))|].
    split.
    + intros (b & Hin & Hb).
      apply (platform_create_in_tree_raise T s s1 body
               (AccountExistsException (Text.strip T name)) Hv).
      unfold Platform.create_in_tree. rewrite Hbody. cbn [bind].
      destruct (platform_check_if_account_exist_spec T s1 (Text.strip T name))
        as [[-> _]|[_ Hfree]]; [reflexivity|].
      exfalso. exact (Hfree b Hin Hb).
    + intros Hfree.
      assert (Hcheck : Platform.check_if_account_exist T s1 (Text.strip T name) = Ok tt).
      { destruct (platform_check_if_account_exist_spec T s1 (Text.strip T name))
          as [[_ (b & Hin & Hb)]|[-> _]]; [|reflexivity].
        exfalso. exact (Hfree b Hin Hb). }
      split; [|split].
      * intros ->.
        rewrite (platform_create_in_tree_raise T s s1 body (BadRequest CannotCreateRoot) Hv);
          [reflexivity|].
        unfold Platform.create_in_tree. rewrite Hbody. cbn [bind]. now rewrite Hcheck.
      * intros ->.
        rewrite (platform_create_in_tree_raise T s s1 body (PyError AttributeError) Hv);
          [reflexivity|].
        unfold Platform.create_in_tree. rewrite Hbody. cbn [bind]. rewrite Hcheck.
        cbn [bind raise_if].
        unfold get_parent_account_with_id, get_root_account. reflexivity.
      * intros i -> Hi Hget.
        rewrite (platform_create_in_tree_raise T s s1 body (ParentNotFoundException i) Hv);
          [reflexivity|].
        unfold Platform.create_in_tree. rewrite Hbody. cbn [bind]. rewrite Hcheck.
        cbn [bind raise_if].
        unfold get_parent_account_with_id. apply Z.eqb_neq in Hi. now rewrite Hi, Hget.
  - now apply platform_create_failure_store.
Qed.

(** An account of nature cash is turned down; so is a second Cash,
    whatever the letter case and the blanks around it. *)
Lemma create_rejections_witness :
  validate_root_accounts cash_store = Ok cash_store
  /\ Platform.create_account_in_account_tree ascii_text cash_store
       (mkBody "Till" (Some 1) (Some "cash") false None)
     = (cash_store, Raise (BadRequest NatureInvalid))
  /\ Platform.create_account_in_account_tree ascii_text cash_store
       (mkBody " cASH " (Some 1) None false None)
     = (cash_store, Raise (AccountExistsException "cASH")).
Proof.
  assert (Hv : validate_root_accounts cash_store = Ok cash_store)
    by (vm_compute; reflexivity).
  split; [exact Hv|]. split.
  - apply (proj1 (create_rejections ascii_text cash_store cash_store
                    (mkBody "Till" (Some 1) (Some "cash") false None) Hv) "cash").
    + reflexivity.
    + vm_compute. discriminate.
    + vm_compute. reflexivity.
  - apply (proj1 (proj2 (proj1 (proj2 (create_rejections ascii_text cash_store cash_store
                    (mkBody " cASH " (Some 1) None false None) Hv))
                    "cASH" (Some 1) None false None eq_refl))).
    exists cash. split; [vm_compute; tauto|vm_compute; reflexivity].
Defined.

(** ** A creation and what follows it *)

(** X6.  On a store with proper keys a successful creation can be read
    back: the new account is found under its key, which no account had
    before; every account that was there is still found under its key
    with the same name, code, parent and nature; and the new name would
    not pass the check of names again: no other stored name, lower-cased
    by the database, is the new name trimmed and lower-cased by Python. *)
Theorem create_then_lookup (T : Text.t) (s s' : Store) (body : Body) (a : Account.t)
    (Hwf : wf_keys s)
    (Hcreate : Platform.create_account_in_account_tree T s body = (s', Ok a)) :
  get_single_account s' (Account.id a) = Ok a
  /\ get_by_id s (Account.id a) = None
  /\ (forall i b, get_by_id s i = Some b ->
        exists b', get_by_id s' i = Some b' /\ frame b' = frame b)
  /\ (forall b, In b (accounts s') -> b <> a ->
        Text.sql_lower T (Account.name b) <> Text.lower T (Text.strip T (Account.name a)))
  /\ wf_keys s'.
Proof.
  apply platform_create_success in Hcreate
    as (s1 & parent & root & Hv & Hcheck & _ & _ & _ & Hid & Hname & _ & _ & Hacc & Hnext).
  destruct (validate_root_accounts_keeps s s1 Hwf Hv) as (Hwf1 & _ & Hkeep).
  assert (Hfresh1 : get_by_id s1 (Account.id a) = None).
  { apply get_by_id_fresh; [assumption|lia]. }
  assert (Hget : get_by_id s' (Account.id a) = Some a).
  { unfold get_by_id in *. rewrite Hacc, (find_app_none _ _ _ Hfresh1). simpl.
    now rewrite Z.eqb_refl. }
  split; [|split; [|split; [|split]]].
  - unfold get_single_account. now rewrite Hget.
  - destruct (get_by_id s (Account.id a)) as [b|] eqn:E; [|reflexivity].
    destruct (Hkeep _ _ E) as (b' & Hb' & _). rewrite Hfresh1 in Hb'. discriminate.
  - intros i b Hb. destruct (Hkeep _ _ Hb) as (b' & Hb' & Hf).
    exists b'. split; [|assumption].
    unfold get_by_id in *. rewrite Hacc. now apply find_app_some.
  - intros b Hb Hne. rewrite Hacc in Hb. apply in_app_or in Hb as [Hb|[Hb|[]]].
    + destruct (platform_check_if_account_exist_spec T s1
                  (Text.strip T (Text.strip T (body_name body))))
        as [[Hex _]|[_ Hfree]]; [rewrite Hex in Hcheck; discriminate|].
      rewrite Hname. now apply Hfree.
    + now contradiction Hne.
  - now apply (wf_keys_snoc s1 s' a).
Qed.

Lemma create_then_lookup_witness :
  wf_keys empty_store
  /\ Platform.create_account_in_account_tree ascii_text empty_store cash_body
     = (cash_store, Ok cash)
  /\ get_single_account cash_store (Account.id cash) = Ok cash.
Proof.
  assert (Hwf : wf_keys empty_store) by apply wf_keys_empty.
  assert (Hc : Platform.create_account_in_account_tree ascii_text empty_store cash_body
               = (cash_store, Ok cash))
    by (vm_compute; reflexivity).
  split; [exact Hwf|]. split; [exact Hc|].
  exact (proj1 (create_then_lookup ascii_text empty_store cash_store cash_body cash Hwf Hc)).
Defined.

(** * Totals of the tree against the chart (C2) *)

Lemma sum_Z_Permutation (l m : list Z) : Permutation l m -> sum_Z l = sum_Z m.
Proof.
  induction 1 as [|x l m _ IH|x y l|l m n _ IH1 _ IH2].
  - reflexivity.
  - now rewrite !sum_Z_cons, IH.
  - rewrite !sum_Z_cons. lia.
  - now rewrite IH1.
Qed.

Lemma filter_Permutation {A : Type} (f : A -> bool) (l m : list A) :
  Permutation l m -> Permutation (filter f l) (filter f m).
Proof.
  induction 1 as [|x l m _ IH|x y l|l m n _ IH1 _ IH2]; simpl.
  - constructor.
  - destruct (f x); [now constructor|assumption].
  - destruct (f x), (f y); try apply Permutation_refl. apply perm_swap.
  - now apply (perm_trans IH1).
Qed.

Lemma filter_flat_map {A B : Type} (f : B -> bool) (g : A -> list B) (l : list A) :
  filter f (flat_map g l) = flat_map (fun x => filter f (g x)) l.
Proof.
  induction l as [|x l IH]; simpl; [reflexivity|].
  now rewrite filter_app, IH.
Qed.

Lemma childless_has_child (s : Store) (a : Account.t) :
  childless s a = true <-> ~ has_child s (Account.id a).
Proof.
  rewrite no_child_with_parent. unfold childless.
  destruct (with_parent s (Some (Account.id a))); simpl; split; auto; discriminate.
Qed.

(** The leaves of the tree [compute_account_totals] returns are its
    accounts without a stored child. *)
Lemma compute_account_totals_childless (s : Store) (fuel : nat) (account : Account.t)
    (v : AccountView) (d c : Z) :
  compute_account_totals fuel s account = Ok (v, d, c) ->
  view_leaves v = filter (childless s) (view_accounts v).
Proof.
  revert account v d c. induction fuel as [|fuel IH]; intros account v d c H;
    [discriminate|].
  rewrite compute_account_totals_S in H. bind_inv H.
  destruct x as [[views cd] cc]. inversion H; subst; clear H.
  pose proof (accumulate_Forall2 _ _ _ _ _ Hx) as Hall.
  assert (Hlen : List.length views
                 = List.length (order_by_code (with_parent s (Some (Account.id account))))).
  { symmetry. exact (Forall2_length Hall). }
  assert (Hviews : forall w, In w views ->
            view_leaves w = filter (childless s) (view_accounts w)).
  { clear -Hall IH. induction Hall as [|a w l m (dw & cw & Hw) _ IHl];
      intros u Hu; [destruct Hu|].
    destruct Hu as [<-|Hu]; auto. now apply IH in Hw. }
  assert (Hkids : flat_map view_leaves views
                  = filter (childless s) (flat_map view_accounts views)).
  { rewrite filter_flat_map. clear -Hviews.
    induction views as [|w l IHl]; simpl; [reflexivity|].
    rewrite (Hviews w (or_introl eq_refl)), IHl; [reflexivity|].
    intros u Hu. apply Hviews. now right. }
  rewrite (Permutation_length (Permutation_order_by_code _)) in Hlen.
  cbn [view_accounts filter]. unfold childless at 1.
  destruct views as [|w views].
  - destruct (with_parent s (Some (Account.id account))); [reflexivity|discriminate].
  - destruct (with_parent s (Some (Account.id account))); [discriminate|].
    exact Hkids.
Qed.

(** On a chart the service built, the trees [compute_account_totals]
    returns for the parentless accounts hold every stored account
    exactly once. *)
Lemma forest_is_chart (s : Store) (views : list AccountView) (d c : Z) :
  wf_chart s ->
  accumulate (compute_account_totals (S (List.length (accounts s))) s) (with_parent s None)
  = Ok (views, d, c) ->
  Permutation (flat_map view_accounts views) (accounts s).
Proof.
  intros Hwf Hacc.
  pose proof (wf_chart_keys s Hwf) as Hkeys.
  apply accumulate_Forall2 in Hacc.
  assert (Hheads : map hd_account views = with_parent s None).
  { rewrite (Forall2_map_l (fun a => a) hd_account (with_parent s None) views).
    - now rewrite map_id.
    - eapply Forall2_impl; [|exact Hacc]. intros a w (dw & cw & Hw).
      now apply compute_account_totals_family in Hw. }
  assert (Hviews : forall w, In w views ->
            family s (view_node w) /\ node_accounts (view_node w) = view_accounts w).
  { clear -Hacc. induction Hacc as [|a w l m (dw & cw & Hw) _ IHl];
      intros u Hu; [destruct Hu|].
    destruct Hu as [<-|Hu]; auto. apply compute_account_totals_family in Hw. tauto. }
  assert (Hroot : forall w, In w views ->
            In (hd_account w) (accounts s) /\ Account.parent_id (hd_account w) = None).
  { intros w Hw. apply with_parent_None_In. rewrite <- Hheads. now apply in_map. }
  assert (Hnode : forall w, node_account (view_node w) = hd_account w)
    by (now intros [a ? ? ?]).
  rewrite <- (flat_map_view_node views) by (intros w Hw; now apply Hviews).
  apply NoDup_Permutation.
  - apply (family_forest_NoDup s Hwf).
    + rewrite map_map, (map_ext _ _ Hnode), Hheads. now apply NoDup_with_parent.
    + intros n Hn. apply in_map_iff in Hn as (w & <- & Hw).
      destruct (Hviews w Hw) as (Hfam & _). destruct (Hroot w Hw) as [Hin _].
      rewrite Hnode. split; [assumption|]. split; [assumption|].
      apply (family_NoDup s Hwf); [assumption|now rewrite Hnode].
    + intros n n' Hn Hn' Hne Hin.
      apply in_map_iff in Hn as (w & <- & Hw).
      apply in_map_iff in Hn' as (w' & <- & Hw').
      destruct (Hviews w' Hw') as (Hfam' & _).
      destruct (Hroot w Hw) as [_ Hnone]. destruct (Hroot w' Hw') as [Hin' _].
      rewrite <- Hnode in Hin'.
      destruct (family_members s Hwf _ Hfam' Hin' _ Hin) as [_ [E|[_ (p & _ & Hp)]]];
        [contradiction|].
      rewrite Hnode in Hp. congruence.
  - now apply NoDup_accounts.
  - intros b. split.
    + intros Hb. apply in_flat_map in Hb as (n & Hn & Hb).
      apply in_map_iff in Hn as (w & <- & Hw).
      destruct (Hviews w Hw) as (Hfam & _). destruct (Hroot w Hw) as [Hin _].
      rewrite <- Hnode in Hin.
      now destruct (family_members s Hwf _ Hfam Hin b Hb).
    + apply (family_forest_covers s Hwf).
      * intros n Hn. apply in_map_iff in Hn as (w & <- & Hw). now apply Hviews.
      * intros a Ha. now rewrite map_map, (map_ext _ _ Hnode), Hheads.
Qed.

(** When no stored account with a child is named in the journal, the
    totals of a stored account are the own amounts summed over the
    leaves of its tree. *)
Lemma compute_account_totals_quiet (s : Store) (fuel : nat) (account : Account.t)
    (v : AccountView) (d c : Z) :
  (forall b, In b (accounts s) -> with_parent s (Some (Account.id b)) <> [] ->
             own_debit s b = 0 /\ own_credit s b = 0) ->
  In account (accounts s) ->
  compute_account_totals fuel s account = Ok (v, d, c) ->
  d = sum_Z (map (own_debit s) (view_leaves v))
  /\ c = sum_Z (map (own_credit s) (view_leaves v)).
Proof.
  intros Hquiet.
  revert account v d c. induction fuel as [|fuel IH]; intros account v d c Hin H;
    [discriminate|].
  rewrite compute_account_totals_S in H. bind_inv H.
  destruct x as [[views cd] cc]. inversion H; subst; clear H.
  apply (accumulate_totals _
           (fun v => sum_Z (map (own_debit s) (view_leaves v)))
           (fun v => sum_Z (map (own_credit s) (view_leaves v)))) in Hx
    as (-> & -> & Hlen).
  - destruct views as [|v0 views].
    + simpl. unfold sum_Z at 2 4. simpl. unfold sum_Z. simpl. lia.
    + assert (Hne : with_parent s (Some (Account.id account)) <> []).
      { intros He. rewrite He in Hlen. discriminate. }
      destruct (Hquiet account Hin Hne) as [-> ->].
      change (view_leaves (View account
                (0 + sum_Z (map (fun v => sum_Z (map (own_debit s) (view_leaves v)))
                                (v0 :: views)))
                (0 + sum_Z (map (fun v => sum_Z (map (own_credit s) (view_leaves v)))
                                (v0 :: views)))
                (v0 :: views)))
        with (flat_map view_leaves (v0 :: views)).
      rewrite !sum_Z_flat_map. lia.
  - intros x v d c Hx' Hv. apply In_order_by_code in Hx'.
    apply filter_In in Hx' as [Hx' _]. now apply IH in Hv.
Qed.

Lemma run_reads (ops : list operation) (s : Store) :
  Forall is_read ops -> run s ops = s.
Proof.
  unfold run. induction 1 as [|op ops Hop _ IH]; simpl; [reflexivity|].
  destruct op; try contradiction; exact IH.
Qed.

Lemma wf_chart_posted_store : wf_chart posted_store.
Proof.
  apply (run_wf_chart [Create cash_body] journal_store).
  apply fresh_wf_chart. split; reflexivity.
Qed.

(** C2, as the code has it.  Whenever [get_account_tree] returns, its
    grand totals are the own amounts summed over every account of the
    returned forest, with or without children, an account's own debit
    (credit) being the sum of the debit (credit) amounts of exactly the
    journal entries whose debit (credit) name is its name; they are also
    the sums of the totals the root nodes report; and they are the own
    amounts summed over the leaves of the forest when no stored account
    that has a child is named in the journal.  On a chart the service
    built the forest holds every stored account once and its leaves are
    the stored accounts without a child, so that the grand totals are
    the own amounts summed over all stored accounts, and over the
    childless ones alone when no stored account with a child is named in
    the journal.  The walk ends on every chart whose parents have
    smaller keys than their children (the recursion limit of the
    interpreter, which cuts the walk short on a chart some thousand
    levels deep, is not modelled); reads change nothing, so after any
    number of reads the same result is returned.  With 100 debited and
    40 credited to Cash, Cash reports 100 and 40 of its own and so do
    the grand totals. *)
Theorem tree_totals :
  (forall s r,
     get_account_tree s = Ok r ->
     grand_total_debit r = sum_Z (map (spec_own_debit s) (forest_accounts r))
     /\ grand_total_credit r = sum_Z (map (spec_own_credit s) (forest_accounts r))
     /\ grand_total_debit r = sum_Z (map view_debit (tree_accounts r))
     /\ grand_total_credit r = sum_Z (map view_credit (tree_accounts r)))
  /\
  (forall s r,
     get_account_tree s = Ok r ->
     (forall b, In b (accounts s) -> has_child s (Account.id b) ->
                spec_own_debit s b = 0 /\ spec_own_credit s b = 0) ->
     grand_total_debit r = sum_Z (map (spec_own_debit s) (forest_leaves r))
     /\ grand_total_credit r = sum_Z (map (spec_own_credit s) (forest_leaves r)))
  /\
  (forall s r,
     wf_chart s ->
     get_account_tree s = Ok r ->
     Permutation (forest_accounts r) (accounts s)
     /\ Permutation (forest_leaves r) (filter (childless s) (accounts s))
     /\ grand_total_debit r = sum_Z (map (spec_own_debit s) (accounts s))
     /\ grand_total_credit r = sum_Z (map (spec_own_credit s) (accounts s))
     /\ ((forall b, In b (accounts s) -> has_child s (Account.id b) ->
                    spec_own_debit s b = 0 /\ spec_own_credit s b = 0) ->
         grand_total_debit r
         = sum_Z (map (spec_own_debit s) (filter (childless s) (accounts s)))
         /\ grand_total_credit r
            = sum_Z (map (spec_own_credit s) (filter (childless s) (accounts s)))))
  /\
  (forall s a, childless s a = true <-> ~ has_child s (Account.id a))
  /\
  (forall s, wf_links s -> exists r, get_account_tree s = Ok r)
  /\
  (forall s ops, Forall is_read ops ->
     run s ops = s /\ get_account_tree (run s ops) = get_account_tree s)
  /\
  (exists r,
     get_account_tree posted_store = Ok r
     /\ option_map (spec_own_debit posted_store) (get_by_id posted_store 5) = Some 100
     /\ option_map (spec_own_credit posted_store) (get_by_id posted_store 5) = Some 40
     /\ map (fun v => (Account.name (hd_account v), view_debit v, view_credit v))
            (tree_accounts r)
        = [("Assets", 100, 40); ("Liability & Equity", 0, 0);
           ("Expenses", 0, 0); ("Revenue", 0, 0)]
     /\ grand_total_debit r = 100 /\ grand_total_credit r = 40).
Proof.
  assert (Hall : forall s r,
     get_account_tree s = Ok r ->
     grand_total_debit r = sum_Z (map (spec_own_debit s) (forest_accounts r))
     /\ grand_total_credit r = sum_Z (map (spec_own_credit s) (forest_accounts r))
     /\ grand_total_debit r = sum_Z (map view_debit (tree_accounts r))
     /\ grand_total_credit r = sum_Z (map view_credit (tree_accounts r))).
  { intros s r H. apply get_account_tree_inv in H.
    pose proof H as H'.
    apply (accumulate_totals _
             (fun v => sum_Z (map (spec_own_debit s) (view_accounts v)))
             (fun v => sum_Z (map (spec_own_credit s) (view_accounts v)))) in H
      as (Hd & Hc & _).
    2:{ intros x v d c _ Hv. apply compute_account_totals_sum in Hv.
        rewrite (map_ext _ _ (own_debit_spec s)) in Hv.
        rewrite (map_ext _ _ (own_credit_spec s)) in Hv. tauto. }
    apply (accumulate_totals _ view_debit view_credit) in H' as (Hd' & Hc' & _).
    2:{ intros x v d c _ Hv. apply compute_account_totals_sum in Hv.
        destruct Hv as [[_ ->] [_ ->]]. auto. }
    unfold forest_accounts. rewrite !sum_Z_flat_map.
    repeat split; assumption. }
  assert (Hleaves : forall s r,
     get_account_tree s = Ok r ->
     (forall b, In b (accounts s) -> has_child s (Account.id b) ->
                spec_own_debit s b = 0 /\ spec_own_credit s b = 0) ->
     grand_total_debit r = sum_Z (map (spec_own_debit s) (forest_leaves r))
     /\ grand_total_credit r = sum_Z (map (spec_own_credit s) (forest_leaves r))).
  { intros s r H Hquiet. apply get_account_tree_inv in H.
    apply (accumulate_totals _
             (fun v => sum_Z (map (spec_own_debit s) (view_leaves v)))
             (fun v => sum_Z (map (spec_own_credit s) (view_leaves v)))) in H
      as (Hd & Hc & _).
    - unfold forest_leaves. rewrite !sum_Z_flat_map.
      split; assumption.
    - intros x v d c Hx Hv.
      rewrite <- (map_ext _ _ (own_debit_spec s)).
      rewrite <- (map_ext _ _ (own_credit_spec s)).
      apply (compute_account_totals_quiet s (S (List.length (accounts s))) x v d c);
        [|now apply with_parent_None_In in Hx|exact Hv].
      intros b Hb Hkids. rewrite own_debit_spec, own_credit_spec.
      apply (Hquiet b Hb). apply has_child_with_parent.
      destruct (with_parent s (Some (Account.id b))); [contradiction|reflexivity]. }
  split; [exact Hall|]. split; [exact Hleaves|].
  split; [|split; [|split; [|split]]].
  - intros s r Hwf H.
    destruct (Hall s r H) as (Hd & Hc & _).
    pose proof (get_account_tree_inv s r H) as Hacc.
    pose proof (forest_is_chart s _ _ _ Hwf Hacc) as Hperm.
    fold (forest_accounts r) in Hperm.
    assert (Hl : forest_leaves r = filter (childless s) (forest_accounts r)).
    { unfold forest_leaves, forest_accounts. rewrite filter_flat_map.
      apply accumulate_Forall2 in Hacc. clear -Hacc.
      induction Hacc as [|a w l m (dw & cw & Hw) _ IHl]; simpl; [reflexivity|].
      now rewrite IHl, (compute_account_totals_childless _ _ _ _ _ _ Hw). }
    assert (Hpl : Permutation (forest_leaves r) (filter (childless s) (accounts s))).
    { rewrite Hl. now apply filter_Permutation. }
    split; [exact Hperm|]. split; [exact Hpl|].
    split; [|split].
    + rewrite Hd. apply sum_Z_Permutation. now apply Permutation_map.
    + rewrite Hc. apply sum_Z_Permutation. now apply Permutation_map.
    + intros Hquiet. destruct (Hleaves s r H Hquiet) as [Hd' Hc'].
      rewrite Hd', Hc'.
      split; apply sum_Z_Permutation; now apply Permutation_map.
  - exact childless_has_child.
  - intros s Hwf. unfold get_account_tree, get_all_accounts_from_stmt.
    destruct (accumulate_total (compute_account_totals (S (List.length (accounts s))) s)
                (with_parent s None)) as ([[views d] c] & Hacc).
    + intros x _. apply compute_account_totals_total; [assumption|].
      pose proof (above_le s (Account.id x)). lia.
    + rewrite Hacc. cbn [bind]. eexists. reflexivity.
  - intros s ops Hops. rewrite (run_reads ops s Hops). split; reflexivity.
  - eexists. split; [vm_compute; reflexivity|].
    vm_compute. repeat split.
Qed.

(** The totals of the posted chart, where only Cash is named in the
    journal, are the own amounts of its accounts without a child. *)
Lemma tree_totals_witness :
  wf_chart posted_store
  /\ get_account_tree posted_store = Ok posted_tree
  /\ (forall b, In b (accounts posted_store) -> has_child posted_store (Account.id b) ->
                spec_own_debit posted_store b = 0 /\ spec_own_credit posted_store b = 0)
  /\ grand_total_debit posted_tree
     = sum_Z (map (spec_own_debit posted_store)
                  (filter (childless posted_store) (accounts posted_store)))
  /\ grand_total_debit posted_tree
     = sum_Z (map (spec_own_debit posted_store) (forest_leaves posted_tree)).
Proof.
  assert (Ht : get_account_tree posted_store = Ok posted_tree) by (vm_compute; reflexivity).
  assert (Hquiet : forall b, In b (accounts posted_store) ->
                     has_child posted_store (Account.id b) ->
                     spec_own_debit posted_store b = 0 /\ spec_own_credit posted_store b = 0).
  { intros b Hb Hc. apply has_child_with_parent in Hc. vm_compute in Hb.
    repeat (destruct Hb as [<-|Hb];
            [first [vm_compute; split; reflexivity | vm_compute in Hc; discriminate Hc]|]).
    contradiction. }
  split; [exact wf_chart_posted_store|]. split; [exact Ht|]. split; [exact Hquiet|].
  split.
  - exact (proj1 (proj2 (proj2 (proj2 (proj2
             (proj1 (proj2 (proj2 tree_totals)) posted_store posted_tree
                wf_chart_posted_store Ht)))) Hquiet)).
  - exact (proj1 (proj1 (proj2 tree_totals) posted_store posted_tree Ht Hquiet)).
Defined.

(** The claim of C2 as worded fails: with 5 debited to Assets, which
    has the child Cash, the grand total of debits is 5 while no leaf of
    the forest has any amount of its own. *)
Lemma grand_total_counts_parents :
  match get_account_tree parent_posted_store with
  | Ok r =>
      grand_total_debit r = 5
      /\ map Account.name (forest_leaves r)
         = ["Cash"; "Liability & Equity"; "Expenses"; "Revenue"]
      /\ sum_Z (map (spec_own_debit parent_posted_store) (forest_leaves r)) = 0
      /\ grand_total_debit r
         <> sum_Z (map (spec_own_debit parent_posted_store) (forest_leaves r))
  | _ => False
  end.
Proof. vm_compute. repeat split; discriminate. Qed.

(** * ASCII charts stay ASCII *)

Lemma is_ascii_lstrip (x : string) : is_ascii x = true -> is_ascii (lstrip x) = true.
Proof.
  induction x as [|c r IH]; simpl; [trivial|].
  intros H. destruct (is_space c); [|exact H].
  apply andb_true_iff in H as [_ H]. now apply IH.
Qed.

Lemma is_ascii_rstrip (x : string) : is_ascii x = true -> is_ascii (rstrip x) = true.
Proof.
  induction x as [|c r IH]; simpl; [trivial|].
  intros H. apply andb_true_iff in H as [Hc Hr]. specialize (IH Hr).
  destruct (rstrip r) as [|c' r'].
  - destruct (is_space c); simpl; [reflexivity|now rewrite Hc].
  - cbn [is_ascii] in *. now rewrite Hc.
Qed.

Lemma is_ascii_strip (x : string) : is_ascii x = true -> is_ascii (strip x) = true.
Proof. intros H. unfold strip. now apply is_ascii_lstrip, is_ascii_rstrip. Qed.

Lemma ascii_names_add (s : Store) (new_account : Z -> Account.t) :
  ascii_names s -> is_ascii (Account.name (new_account (next_id s))) = true ->
  ascii_names (add s new_account).
Proof.
  intros Hs Hnew a Ha. unfold add, with_accounts in Ha. simpl in Ha.
  apply in_app_or in Ha as [Ha|[<-|[]]]; auto.
Qed.

Lemma ascii_names_write (s : Store) (a' : Account.t) :
  ascii_names s -> is_ascii (Account.name a') = true -> ascii_names (write s a').
Proof.
  intros Hs Hnew x Hx. unfold write, with_accounts in Hx. simpl in Hx.
  apply in_map_iff in Hx as (b & <- & Hb).
  destruct (Account.id b =? Account.id a'); auto.
Qed.

Lemma ascii_names_remove (s : Store) (a : Account.t) :
  ascii_names s -> ascii_names (remove s a).
Proof.
  intros Hs x Hx. unfold remove, with_accounts in Hx. simpl in Hx.
  apply filter_In in Hx as [Hx _]. now apply Hs.
Qed.

Lemma root_names_ascii (name : string) : In name root_names -> is_ascii name = true.
Proof.
  intros H. vm_compute in H.
  repeat (destruct H as [<-|H]; [reflexivity|]). contradiction.
Qed.

Lemma synced_name (props : root_props) (account : Account.t) :
  Account.name (synced props account) = Account.name account.
Proof.
  unfold synced.
  destruct (negb (opt_string_eqb _ _)); destruct (negb (Bool.eqb _ _)); reflexivity.
Qed.

Lemma validate_root_ascii (s s' : Store) (entry : string * root_props) :
  In (fst entry) root_names -> ascii_names s ->
  validate_root s entry = Ok s' -> ascii_names s'.
Proof.
  intros Hentry Hs H. destruct entry as [name props].
  destruct (find_root s name) as [account|] eqn:E.
  - rewrite (validate_root_found s name props account E) in H.
    inversion H; subst. apply find_root_In in E as (Hin & _ & _).
    apply ascii_names_write; [assumption|]. rewrite synced_name. now apply Hs.
  - rewrite (validate_root_missing s name props E) in H. bind_inv H.
    inversion H; subst. apply ascii_names_add; [assumption|].
    now apply root_names_ascii.
Qed.

Lemma validate_roots_ascii (entries : list (string * root_props)) (s s' : Store) :
  (forall e, In e entries -> In (fst e) root_names) -> ascii_names s ->
  validate_roots entries s = Ok s' -> ascii_names s'.
Proof.
  revert s. induction entries as [|e es IH]; intros s Hes Hs H.
  - inversion H; subst. auto.
  - rewrite validate_roots_cons in H. bind_inv H.
    apply (IH x); auto.
    + intros e' He'. apply Hes. now right.
    + apply (validate_root_ascii s x e); auto. apply Hes. now left.
Qed.

Lemma validate_root_accounts_ascii (s s' : Store) :
  ascii_names s -> validate_root_accounts s = Ok s' -> ascii_names s'.
Proof.
  apply (validate_roots_ascii root_accounts).
  intros e He. unfold root_names. now apply in_map.
Qed.

Lemma create_ascii (s : Store) (body : Body) :
  ascii_names s -> ascii_body body ->
  ascii_names (fst (create_account_in_account_tree s body)).
Proof.
  intros Hs [Hbody _].
  assert (Hfail : (forall a, snd (create_account_in_account_tree s body) <> Ok a) ->
                  ascii_names (fst (create_account_in_account_tree s body))).
  { intros H. rewrite create_failure_store by exact H.
    destruct (validate_root_accounts s) as [s1| |] eqn:Hv; auto.
    now apply (validate_root_accounts_ascii s s1). }
  destruct (create_account_in_account_tree s body) as [s' [a| |]] eqn:E;
    [|apply Hfail; simpl; discriminate..].
  clear Hfail.
  apply create_success in E
    as (s1 & parent & root & n0 & t0 & n & t & code & Hv & _ & _ & _ & _ & _ & _ & _
        & _ & Hname & _ & _ & _ & _ & _ & Hacc & _).
  pose proof (validate_root_accounts_ascii s s1 Hs Hv) as Hs1.
  simpl. intros b Hb. rewrite Hacc in Hb. apply in_app_or in Hb as [Hb|[<-|[]]]; auto.
  rewrite Hname. now apply is_ascii_strip.
Qed.

Lemma update_ascii (s : Store) (account_id : Z) (fields : UpdateFields) :
  ascii_names s -> ascii_json (f_name fields) ->
  ascii_names (fst (update_account s account_id fields)).
Proof.
  intros Hs Hfield. unfold update_account, get_single_account.
  destruct (get_by_id s account_id) as [a0|] eqn:Hget; [|exact Hs]. cbn [bind].
  destruct (update_name (s, a0, []) (f_name fields)) as [[[s1 a1] ch1]| |] eqn:H1;
    cbn [bind]; auto.
  assert (P1 : ascii_names s1).
  { apply update_name_shape in H1 as [H1|(v & Hv & _ & H1)]; inversion H1; subst; auto.
    apply ascii_names_write; [assumption|]. simpl. apply is_ascii_strip. now apply Hfield. }
  destruct (update_cc_required (s1, a1, ch1) (f_cc_required fields))
    as [[[s2 a2] ch2]| |] eqn:H2; cbn [bind]; auto.
  assert (Hget1 : is_ascii (Account.name a1) = true).
  { apply update_name_shape in H1 as [H1|(v & Hv & _ & H1)]; inversion H1; subst.
    - apply Hs. now apply (get_by_id_In s account_id).
    - simpl. apply is_ascii_strip. now apply Hfield. }
  assert (P2 : ascii_names s2 /\ is_ascii (Account.name a2) = true).
  { apply update_cc_required_shape in H2 as [H2|(b & H2)]; inversion H2; subst; auto.
    split; [|exact Hget1]. now apply ascii_names_write. }
  destruct (update_account_type (s2, a2, ch2) (f_account_type fields))
    as [[[s3 a3] ch3]| |] eqn:H3; cbn [bind]; auto.
  assert (P3 : ascii_names s3).
  { apply update_account_type_shape in H3 as [H3|(t & H3)]; inversion H3; subst;
      [tauto|]. now apply ascii_names_write. }
  destruct ch3; simpl; auto.
Qed.

Lemma delete_ascii (s : Store) (account_id : Z) :
  ascii_names s -> ascii_names (fst (delete_account s account_id)).
Proof.
  intros Hs.
  destruct (delete_account_cases s account_id) as [(e & ->)|(a & _ & _ & _ & _ & _ & _ & ->)];
    [assumption|now apply ascii_names_remove].
Qed.

Lemma step_ascii (s : Store) (op : operation) :
  ascii_names s -> ascii_op op -> ascii_names (step s op).
Proof.
  intros Hs Hop. destruct op; simpl in *; auto.
  - now apply create_ascii.
  - now apply update_ascii.
  - now apply delete_ascii.
Qed.

Lemma run_ascii (ops : list operation) (s : Store) :
  ascii_names s -> Forall ascii_op ops -> ascii_names (run s ops).
Proof.
  unfold run. revert s. induction ops as [|op ops IH]; intros s Hs Hops; simpl; auto.
  inversion Hops; subst. apply IH; [|assumption]. now apply step_ascii.
Qed.

(** X12.  Names stay apart, on ASCII charts and requests (where the
    model's [lower] and [strip] are Python's and the database's).  On a
    chart the service built whose names are ASCII and in which no two
    accounts share a name up to letter case, bootstrap roots apart,
    every run of operations whose names, natures and account types are
    ASCII leaves such a chart; so it is from the empty database, and
    there no two accounts that have a parent ever share a name up to
    letter case.  The roots are a true exception: when the root Assets
    has been renamed and Cash renamed to Assets, the next creation
    bootstraps a second account named Assets. *)
Theorem names_stay_apart :
  (forall s ops,
     wf_chart s -> names_apart s -> ascii_names s -> Forall ascii_op ops ->
     wf_chart (run s ops) /\ names_apart (run s ops) /\ ascii_names (run s ops))
  /\ (forall s ops a b,
        fresh s -> Forall ascii_op ops ->
        In a (accounts (run s ops)) -> In b (accounts (run s ops)) ->
        Account.parent_id a <> None -> Account.parent_id b <> None ->
        lower (Account.name a) = lower (Account.name b) -> a = b)
  /\ (Forall ascii_op shadowed_root_ops
      /\ exists a b,
        In a (accounts (run empty_store shadowed_root_ops))
        /\ In b (accounts (run empty_store shadowed_root_ops))
        /\ Account.name a = Account.name b /\ Account.id a <> Account.id b).
Proof.
  split; [|split].
  - intros s ops Hwf Hs Ha Hops. split; [now apply run_wf_chart|].
    split; [now apply run_names_apart|now apply run_ascii].
  - intros s ops a b Hfresh _ Ha Hb Hpa Hpb E.
    assert (Hs : names_apart s).
    { intros x y Hx. destruct Hfresh as [Hnil _]. rewrite Hnil in Hx. destruct Hx. }
    destruct (run_names_apart ops s (fresh_wf_chart s Hfresh) Hs a b Ha Hb E)
      as [H|[[H _]|[H _]]]; [assumption|contradiction..].
  - split.
    + repeat constructor; intros v Hv; inversion Hv; reflexivity.
    + exists (Account.mk 5 "Assets" "1001" (Some 1) (Some "debit") (Some "balance_sheet")
                 false),
             (Account.mk 6 "Assets" "5000" None (Some "debit") (Some "balance_sheet") false).
      vm_compute. repeat split; try discriminate; auto 10.
Qed.

(** Cash and Account 2, both under Assets, and whatever else has a
    parent in that chart, differ by more than letter case. *)
Lemma names_stay_apart_witness :
  fresh empty_store
  /\ Forall ascii_op [Create cash_body; Create (sibling_body 2)]
  /\ map Account.name
       (filter (fun a => negb (opt_Z_eqb (Account.parent_id a) None))
               (accounts (run empty_store [Create cash_body; Create (sibling_body 2)])))
     = ["Cash"; "Account 2"]
  /\ forall a b,
       In a (accounts (run empty_store [Create cash_body; Create (sibling_body 2)])) ->
       In b (accounts (run empty_store [Create cash_body; Create (sibling_body 2)])) ->
       Account.parent_id a <> None -> Account.parent_id b <> None ->
       lower (Account.name a) = lower (Account.name b) -> a = b.
Proof.
  assert (Hfresh : fresh empty_store) by (split; [reflexivity|vm_compute; reflexivity]).
  assert (Hops : Forall ascii_op [Create cash_body; Create (sibling_body 2)]).
  { repeat constructor; intros n Hn; discriminate Hn. }
  split; [exact Hfresh|]. split; [exact Hops|]. split; [vm_compute; reflexivity|].
  destruct names_stay_apart as (_ & H & _).
  intros a b. exact (H empty_store [Create cash_body; Create (sibling_body 2)] a b Hfresh Hops).
Defined.
